(* ===== verification/_CoqProject ===== *)
-Q . S2P
Prelude.v
Protocol.v
StreamExtractor.v
Messages.v
StorageMessages.v
RoomData.v
Room.v
RoomManager.v
RoomInv.v
RoomReports.v
RoomManagerInv.v
RoomCreate.v
RoomJoin.v
RoomMachine.v
RoomOwner.v
RoomSearch.v
RoomRules.v
GuiRoom.v
GuiRoomManager.v
GuiInv.v
GuiMachine.v
GuiRules.v
ScoreCache.v
ScoreInv.v
ScoreBoard.v
Text.v
Json.v
Http.v
Database.v
Accounts.v
Friendships.v
DbScore.v
DbTus.v
Config.v
DataFiles.v
DataRules.v
Ticket.v
Matchmaking.v
GameTracker.v
StatServer.v
StatRules.v
StatFresh.v
ClientState.v
ApiServer.v
UdpServer.v
Startup.v
Migrations.v
RoomCommands.v
GuiCommands.v
TusCommands.v
ScoreCommands.v
AccountCommands.v
FriendCommands.v
Dispatch.v
CommandFrames.v
ServiceFrames.v
CommandMoves.v
DbFrames.v
ApiFrames.v
DbInv.v
DbExec.v
DbHandlers.v
ServerRules.v
UsageRules.v
TusRules.v
DbRules.v
FriendRules.v
DbScoreRules.v
BoardMirror.v
StartupRules.v
AccountRules.v
MigrationRules.v
ApiRules.v
DeletionRules.v
Departure.v
Presence.v
Connection.v
MessageRules.v
