(* ===== verification/Prelude.v ===== *)
(** * RPCN: a verification library for the matchmaking server

    RPCN is a server for online console games.  A client connects over TLS, logs in,
    and issues commands: it opens, searches, joins and leaves rooms, exchanges messages
    with their members, records scores, stores data, keeps friends, and asks for tickets;
    accounts, friendships, scores and stored values live in a database.  This library models the
    server's own logic as executable definitions over explicit state, and proves what
    makes it correct.

    ** The program and the files that model it

    - [Prelude] (this file): outcomes of Rust code ([Ok], [Err], [Panic]), the state
      monad [M] that keeps the state on every outcome, record update, machine integers
      with their wrap-around, bytes, the iteration orders of the standard maps, the
      weakest-precondition predicate [wp] and its tactics, and shared lemmas.
    - [Protocol]: the enumerations of src/src/server/client.rs and
      client/notifications.rs with their discriminants, packet headers, data packets
      and notifications.
    - [StreamExtractor]: src/src/server/stream_extractor.rs, the reads of a request.
    - [Messages]: the protocol messages as records, and the width checks of
      stream_extractor/protobuf_helpers.rs as classes.
    - [RoomData], [Room], [RoomManager]: src/src/server/room_manager.rs, attribute by
      attribute, room by room, and the manager with its indexes.
    - [RoomInv], [RoomReports], [RoomManagerInv], [RoomCreate], [RoomJoin]: the
      invariants of a room and of the manager, and the specification of each operation.
      [RoomMachine] is the manager as a step relation, with the contracts; [RoomSearch],
      [RoomRules] and [RoomOwner] hold searches, slots, ownership and authorisation.
    - [GuiRoom], [GuiRoomManager]: src/src/server/gui_room_manager.rs, the older lobby
      rooms; [GuiInv], [GuiMachine], [GuiRules]: their invariant, the specification of
      every operation, the step relation and the contracts.
    - [ScoreCache]: src/src/server/score_cache.rs; [ScoreInv]: the order of a board,
      the binary search and the invariant of a board; [ScoreBoard]: the cache as a
      whole against a reference board.
    - [Ticket]: client/ticket.rs.  [Matchmaking]: game_specific_matchmaking.rs.
      [GameTracker]: game_tracker.rs.
    - [Text]: what the code uses of Rust's strings.  [Config]: the configuration of
      main.rs with its file, servers.cfg and scoreboards.cfg.
    - [Database]: the tables of database.rs as finite maps, and SQL statements as atomic
      steps that keep the constraints of the schema and may fail; [Accounts],
      [Friendships], [DbScore], [DbTus]: the methods of database.rs, db_score.rs and
      db_tus.rs.  [DataFiles]: the data files of utils.rs, cmd_tus.rs and cmd_score.rs.
    - [ClientState]: what connections share ([SharedData]), what one keeps ([Client]),
      the state a handler runs on ([Ctx]) and the request helpers of client.rs.
    - [RoomCommands], [GuiCommands], [TusCommands] (with [StorageMessages]),
      [ScoreCommands], [AccountCommands], [FriendCommands]: the handlers of
      client/cmd_room.rs, cmd_room_gui.rs, cmd_tus.rs, cmd_score.rs, cmd_account.rs, and
      of cmd_friend.rs, cmd_misc.rs, cmd_server.rs, cmd_session.rs and cmd_admin.rs.
      [Dispatch]: clean_user_state, Drop, process_command and interpret_command of
      client.rs, with every command.
    - [UdpServer]: udp_server.rs and daily_cleaner.rs.  [Startup]: Server::new of
      server.rs, the rows of a new database and the loading of the score cache.
    - [Migrations]: the migrations of database.rs on a file of tables, indexes and rows,
      and the loop that applies them; [MigrationRules]: new files, upgraded files, and
      files that stay behind.
    - [Json] and [Http]: JSON values with a printer and a reader, and HTTP requests and
      responses as far as the two HTTP servers look at them.  [StatServer]: stat_server.rs,
      the pages of the statistics server with their caches; [StatRules], [StatFresh] and
      [UsageRules]: what its texts stand for.  [ApiServer]: the router and the handlers of
      api_server/; [ApiFrames] and [ApiRules]: what they answer and change.
    - [Connection]: the accept loop of server.rs and the loop of Client::process on the
      bytes of a connection, as a machine that refines the server machine.
    - [CommandFrames], [ServiceFrames], [CommandMoves], [ServerRules]: what handlers do to
      the rooms, as steps of the two machines, and the server as a machine over its
      connections, its signaling port, its cleaner and its API requests.  [Departure]: the
      cleanup of a leaving user.  [Presence]: who is connected, in every reachable state.
      [BoardMirror]: the boards in memory against the score tables.  [MessageRules]: replies, access, room messages and rematch pairs.
    - [DbFrames], [DbHandlers]: an interface ([FaultRelation], [DbRelation]) that lists
      the writing statements; whatever relation they respect, every method and handler
      respects.  [DbInv] gives two such relations, the invariant of the tables and the
      history of ids; [DbRules] and [StartupRules] draw the conclusions for a server,
      from its start on.
    - [DbExec] runs methods on a database without faults; [AccountRules], [DeletionRules],
      [FriendRules], [DbScoreRules], [TusRules] and [DataRules] state what accounts,
      friendships, scores, stored values and data files do.

    A method on [&mut self] is a program over its struct; a component inside another
    (a room in the manager, a manager in the shared data) is reached with [zoom] or
    with [on_rooms] and [on_gui], which stand for taking the lock.  Every critical
    section is one such call, so a sequence of steps is a sequence of lock acquisitions
    and the invariants of the machines hold for every interleaving of handlers; statements
    of the database are atomic in the same way.  A packet is otherwise taken as one step.
    [Connection] relates these packets to the bytes that arrive.  The clock, random draws, configuration and the
    availability of the database are the record [Env]; the iteration order of hash maps
    is the class [HashOrder], whose only law is that it enumerates the elements once.

    ** What the theorems show

    - Rooms: every state the manager reaches is consistent (exact indexes by world,
      lobby and user; unique slots and users; an owner among the members; the full flag
      only on full rooms), and creation, joining, leaving, searching and data updates do
      what they mean to do on every branch, errors included.
    - Lobby rooms: the same for the second manager, with the cases in which the code
      panics stated exactly.
    - Scores: recording a score refines insertion into a sorted board with a limit;
      index and order agree in every reachable state; queries return what was recorded.
      A start loads every board as the first rows of its table, and recording keeps it so
      when the score moves its player up.
    - Requests: reads are sticky in their error flag, data packets and notifications
      round-trip, replies are framed with their true length, unauthenticated clients are
      refused, room messages reach members only, and the cleanup of a user leaves
      nothing behind.
    - Server: whatever connections send, both managers move by steps of their machines,
      the tables keep every constraint of the schema, and ids keep their owners; the
      connections, the table of users, the counter of the game tracker and the members of
      rooms agree in every state.
    - Connections: every run on the bytes of the peers is a run of the server machine; the
      requests served are those sent, in order; a connection whose peer is gone ends.
    - Migrations: a new file and one of the release before end with the schema the server
      is written for and with all their rows, and are not touched again.
    - HTTP: a request to the API server changes the state only as a ban by an active
      administrator with the key, which lasts; the lists of rooms and sessions are exact;
      the statistics are JSON texts of boards at most the life of the cache old.
    - Accounts: registration, login, deletion and reset of passwords, each with what it
      requires, what it changes and what it leaves alone; a user who may log in can.
    - Storage: slots are changed by their owners only, hold what was stored, and their
      files never overwrite each other; cleaning removes exactly the unused files.
    - Friends, boards and worlds: the lists a user sees are those of the table, a board
      keeps the best score, and a title always finds a world.
    - Departures from intent are theorems too: the pair table that is not shared, the
      slot a malformed join keeps, the search that panics, the lobby room that loses its
      owner, the mask bits that are ignored, the tie order that differs, the sum that
      overflows, the data ids, lobbies and interrupted migrations that keep a server from
      starting, the cached board that parts from its table, the cache that is never used,
      the service id that writes into a page, the payload that is awaited for ever.

    ** Bounds

    All recursion is structural, so no definition needs fuel except the binary search
    ([bs_loop]), whose fuel is the length of the vector and which [ScoreInv] proves
    enough, and the trimming of strings ([strip_words]), whose fuel is the length of the
    string and which drops at least one byte per round, the printing of decimals
    ([dec_digits]) and the reader of JSON ([parse_json]), whose fuel is the length of the
    text.  Integers are [Z] with wrapping
    written out where a type's range can be left; the hypotheses of the form
    [_ + 1 < 2 ^ 64] say that a 64-bit counter has not wrapped.

    A statement of the database either takes effect as a whole or not at all; the list
    [db_faults] says which statements to come fail unexpectedly, so the invariants hold
    whatever fails.  Theorems that a request succeeds assume that none does ([calm]).

    ** What is not modelled

    The wire encoding of messages is generated code ([Message] is a class of codecs).
    The password hash, the parser of addresses, the rounding of doubles and the order in
    which SQLite checks two constraints are parameters ([External]), as is what the web
    framework does with bodies and addresses ([HttpLib]); the signer of tickets is a field
    of [Env].  Sockets, TLS, certificates, timers, tasks and signals are outside: their
    effect is the choice of the next step.  The machine of connections ends when the accept
    loop sees the termination: what the shutdown of the runtime cuts short is not
    described.  The outgoing channel of a connection is a list, so a peer that stops
    reading does not block its handlers here.  The catalog of the schema has no column
    types, checks or collations (the constraints they stand for are in [Database]), and the
    backups of the file are only known to succeed or fail.  Command-line arguments, logging
    and the generation of certificates in main.rs are left out. *)

From stdpp Require Export base gmap strings list fin_maps sorting sets.
From Stdlib Require Export ZArith Lia.

#[global] Open Scope Z_scope.

(** ** Outcomes of Rust functions

    A fallible Rust function returns [Ok] or [Err]; [unwrap] on [None],
    [assert!], an index out of range, [panic!] and [unreachable!] end the task:
    that is [Panic]. *)
Inductive res (E A : Type) : Type :=
| Ok (a : A)
| Err (e : E)
| Panic.
Arguments Ok {E A} a.
Arguments Err {E A} e.
Arguments Panic {E A}.

Definition res_bind {E A B} (r : res E A) (k : A → res E B) : res E B :=
  match r with Ok a => k a | Err e => Err e | Panic => Panic end.

Definition res_map {E A B} (f : A → B) (r : res E A) : res E B :=
  res_bind r (λ a, Ok (f a)).

(** [Option::ok_or] and [Option::unwrap]. *)
Definition ok_or {E A} (e : E) (o : option A) : res E A :=
  match o with Some a => Ok a | None => Err e end.

Definition unwrap {E A} (o : option A) : res E A :=
  match o with Some a => Ok a | None => Panic end.

Definition no_panic {E A} (r : res E A) : Prop := r ≠ Panic.

(** ** Stateful fallible code

    A method on [&mut self] maps the state before to an outcome and the state
    after.  The state after is kept for [Err] and [Panic] too: the code mutates
    in place, so what was written before an early return or a panic stays
    written (the locks are [parking_lot] locks, which do not poison). *)
Definition M (S E A : Type) : Type := S → res E A * S.

Definition ret {S E A} (a : A) : M S E A := λ s, (Ok a, s).
Definition fail {S E A} (e : E) : M S E A := λ s, (Err e, s).
Definition panic {S E A} : M S E A := λ s, (Panic, s).
Definition gets {S E A} (f : S → A) : M S E A := λ s, (Ok (f s), s).
Definition modify {S E} (f : S → S) : M S E unit := λ s, (Ok tt, f s).
Definition lift {S E A} (r : res E A) : M S E A := λ s, (r, s).
Definition asks {S E A} (f : S → res E A) : M S E A := λ s, (f s, s).

(** [.unwrap()] on the [Result] of a method. *)
Definition unwrap_result {S E E' A} (m : M S E A) : M S E' A := λ s,
  match m s with
  | (Ok a, s') => (Ok a, s')
  | (_, s') => (Panic, s')
  end.

(** [.map_err(f)], and an inspected [Result] ([match], [is_err], [if let]): the caller
    goes on with the outcome as a value, only a panic stops it. *)
Definition map_err {S E E' A} (f : E → E') (m : M S E A) : M S E' A := λ s,
  match m s with
  | (Ok a, s') => (Ok a, s')
  | (Err e, s') => (Err (f e), s')
  | (Panic, s') => (Panic, s')
  end.

Definition attempt {S E E' A} (m : M S E A) : M S E' (res E A) := λ s,
  match m s with
  | (Panic, s') => (Panic, s')
  | (r, s') => (Ok r, s')
  end.

Definition bind {S E A B} (m : M S E A) (k : A → M S E B) : M S E B :=
  λ s, match m s with
       | (Ok a, s') => k a s'
       | (Err e, s') => (Err e, s')
       | (Panic, s') => (Panic, s')
       end.

(** Runs a method of a component of the state; the component is reached by an
    unwrapped lookup, so a missing component panics. *)
Definition zoom {S T E A} (get : S → option T) (put : T → S → S) (m : M T E A) : M S E A :=
  λ s, match get s with
       | None => (Panic, s)
       | Some t => let '(r, t') := m t in (r, put t' s)
       end.

Declare Scope rpcn_scope.
Delimit Scope rpcn_scope with rpcn.
#[global] Open Scope rpcn_scope.

Notation "'let?' x := r 'in' k" := (res_bind r (λ x, k))
  (at level 10, x pattern, r at level 100, k at level 200) : rpcn_scope.
Notation "'do' x <- m ; k" := (bind m (λ x, k))
  (at level 10, x pattern, m at level 100, k at level 200) : rpcn_scope.
Notation "'do!' m ; k" := (bind m (λ _ : unit, k))
  (at level 10, m at level 100, k at level 200) : rpcn_scope.

(** Iteration of [for x in xs { body }] with an early return through [Err]. *)
Fixpoint res_fold {E A B} (f : A → B → res E A) (a : A) (xs : list B) : res E A :=
  match xs with
  | [] => Ok a
  | x :: xs => let? a' := f a x in res_fold f a' xs
  end.

Fixpoint res_map_list {E A B} (f : A → res E B) (xs : list A) : res E (list B) :=
  match xs with
  | [] => Ok []
  | x :: xs => let? y := f x in let? ys := res_map_list f xs in Ok (y :: ys)
  end.

Fixpoint for_each {S E B} (f : B → M S E unit) (xs : list B) : M S E unit :=
  match xs with
  | [] => ret tt
  | x :: xs => do! f x; for_each f xs
  end.

(** The same, with the results collected. *)
Fixpoint map_each {S E B C} (f : B → M S E C) (xs : list B) : M S E (list C) :=
  match xs with
  | [] => ret []
  | x :: xs => do y <- f x; do ys <- map_each f xs; ret (y :: ys)
  end.

(** ** Record update

    [r <| f := v |>] copies [r] with the field [f] replaced; a record type
    takes part by giving its eta expansion as an instance of [Eta]. *)
Class Eta (R : Type) := eta_expand : R → R.
Class Setter {R T : Type} (proj : R → T) := set_field : (T → T) → R → R.
Arguments set_field {R T} proj {_} _ _ /.

Ltac build_setter proj :=
  lazymatch type of proj with
  | ?R → _ =>
      let f := fresh "f" in
      let r := fresh "r" in
      unfold Setter;
      intros f r;
      let inst := constr:(_ : Eta R) in
      let full := eval hnf in (inst r) in
      let abs := eval pattern (proj r) in full in
      lazymatch abs with ?g _ => exact (g (f (proj r))) end
  end.

#[global] Hint Extern 0 (Setter ?proj) => build_setter proj : typeclass_instances.

Notation "r <| proj := v |>" := (set_field proj (λ _, v) r)
  (at level 1, left associativity, format "r  <| proj  :=  v |>") : rpcn_scope.
Notation "r <| proj ::= g |>" := (set_field proj g r)
  (at level 1, left associativity, format "r  <| proj  ::=  g |>") : rpcn_scope.

(** ** Machine integers

    A value of a Rust integer type is a [Z]; arithmetic that can leave the range
    of its type goes through the wrapping functions (the crate is built without
    [overflow-checks], so release arithmetic wraps). *)
Definition u8_max : Z := 0xFF.
Definition u16_max : Z := 0xFFFF.
Definition u32_max : Z := 0xFFFFFFFF.
Definition u64_max : Z := 0xFFFFFFFFFFFFFFFF.

Definition wrap_u8 (z : Z) : Z := z mod 2 ^ 8.
Definition wrap_u16 (z : Z) : Z := z mod 2 ^ 16.
Definition wrap_u32 (z : Z) : Z := z mod 2 ^ 32.
Definition wrap_u64 (z : Z) : Z := z mod 2 ^ 64.

(** Two's complement reading of an [n]-bit word. *)
Definition to_signed (bits : Z) (z : Z) : Z :=
  if bool_decide (z < 2 ^ (bits - 1)) then z else z - 2 ^ bits.

Definition wrap_i64 (z : Z) : Z := to_signed 64 (wrap_u64 z).

(** [!x] of an unsigned [bits]-wide integer. *)
Definition not_u (bits x : Z) : Z := Z.lxor x (2 ^ bits - 1).

Definition is_u8 (z : Z) : Prop := 0 ≤ z < 2 ^ 8.

(** ** Bytes *)
Abbreviation bytes := (list Z).

Fixpoint to_le_bytes (n : nat) (v : Z) : bytes :=
  match n with
  | O => []
  | S n => v mod 256 :: to_le_bytes n (v / 256)
  end.

Fixpoint from_le_bytes (bs : bytes) : Z :=
  match bs with
  | [] => 0
  | b :: bs => b + 256 * from_le_bytes bs
  end.

Definition to_be_bytes (n : nat) (v : Z) : bytes := rev (to_le_bytes n v).

Definition bytes_of_string (s : string) : bytes :=
  (λ a, Z.of_nat (Ascii.nat_of_ascii a)) <$> String.list_ascii_of_string s.

(** [String::push(b as char)]: the code point of the byte, in UTF-8. *)
Definition utf8_of_u8 (b : Z) : bytes :=
  if bool_decide (b < 128) then [b] else [Z.lor 0xC0 (Z.shiftr b 6); Z.lor 0x80 (Z.land b 0x3F)].

Definition string_of_bytes (bs : bytes) : string :=
  String.string_of_list_ascii ((λ b, Ascii.ascii_of_nat (Z.to_nat b)) <$> bs).

Definition string_of_chars (bs : bytes) : string := string_of_bytes (bs ≫= utf8_of_u8).

(** [str::to_ascii_lowercase]. *)
Definition ascii_lower (a : Ascii.ascii) : Ascii.ascii :=
  let n := Ascii.nat_of_ascii a in
  if bool_decide (65 ≤ n ≤ 90)%nat then Ascii.ascii_of_nat (n + 32) else a.

Definition to_ascii_lowercase (s : string) : string :=
  String.string_of_list_ascii (ascii_lower <$> String.list_ascii_of_string s).

(** [v[i]]: an index out of range panics. *)
Definition index {E A} (l : list A) (i : Z) : res E A :=
  if bool_decide (0 ≤ i) then unwrap (l !! Z.to_nat i) else Panic.

(** [v[i] = x]. *)
Definition index_set {E A} (l : list A) (i : Z) (x : A) : res E (list A) :=
  let? _ := index l i in Ok (<[Z.to_nat i := x]> l).

(** ** Iteration orders of the standard maps

    A [BTreeMap] is visited in the order of its keys. *)
Definition btree_keys {V} (m : gmap Z V) : list Z :=
  merge_sort Z.le (elements (dom m)).

Definition btree_iter {V} (m : gmap Z V) : list (Z * V) :=
  omap (λ k, (λ v, (k, v)) <$> m !! k) (btree_keys m).

Definition btree_values {V} (m : gmap Z V) : list V := snd <$> btree_iter m.

(** A [HashSet] or [HashMap] is visited in an order that depends on the hasher:
    any enumeration without repetition. *)
Class HashOrder := {
  hash_iter : ∀ {A} `{Countable A}, gset A → list A;
  hash_iter_perm : ∀ {A} `{Countable A} (s : gset A), hash_iter s ≡ₚ elements s;
}.

Definition hash_map_iter `{HashOrder} `{Countable K} {V} (m : gmap K V) : list (K * V) :=
  omap (λ k, (λ v, (k, v)) <$> m !! k) (hash_iter (dom m)).

Definition hash_map_values `{HashOrder} `{Countable K} {V} (m : gmap K V) : list V :=
  snd <$> hash_map_iter m.

(** The order used to evaluate the model on concrete inputs. *)
Definition elements_order : HashOrder :=
  {| hash_iter A _ _ s := elements s; hash_iter_perm A _ _ s := Permutation_refl _ |}.

(** [map.entry(k).or_default().insert(x)] on a map of sets, and
    [map.get_mut(k).unwrap().remove(x)]. *)
Definition entry_insert `{Countable K} `{Countable A} (k : K) (x : A)
  (m : gmap K (gset A)) : gmap K (gset A) :=
  <[k := {[x]} ∪ default ∅ (m !! k)]> m.

Definition entry_remove `{Countable K} `{Countable A} (k : K) (x : A)
  (m : gmap K (gset A)) : gmap K (gset A) :=
  alter (λ s, s ∖ {[x]}) k m.

(** Membership in a map of sets. *)
Definition in_entry `{Countable K} `{Countable A} (m : gmap K (gset A)) (k : K) (x : A) : Prop :=
  x ∈ default ∅ (m !! k).

#[export] Instance in_entry_dec `{Countable K} `{Countable A} (m : gmap K (gset A)) k x :
  Decision (in_entry m k x).
Proof. unfold in_entry. apply _. Defined.

(** [rand::thread_rng().gen_range(0..n)]: [rng] is the generator's draw; every
    value below [n] is the result of some draw. *)
Definition gen_range (rng n : nat) : nat := rng `mod` n.

(** ** Reasoning about stateful code

    [wp m s Q]: running [m] in [s] ends in an outcome and a state that satisfy
    [Q].  All programs here terminate, so this is total correctness; a [Q] that
    is false at [Panic] also proves the absence of panics. *)
Definition wp {S E A} (m : M S E A) (s : S) (Q : res E A → S → Prop) : Prop :=
  Q (m s).1 (m s).2.

Section wp.
Context {S E : Type}.
Implicit Types s : S.

Lemma wp_run {A} (m : M S E A) s r s' Q : m s = (r, s') → wp m s Q → Q r s'.
Proof. unfold wp. by intros ->. Qed.

Lemma wp_mono {A} (m : M S E A) s (P Q : res E A → S → Prop) :
  (∀ r s', P r s' → Q r s') → wp m s P → wp m s Q.
Proof. unfold wp. eauto. Qed.

Lemma wp_bind {A B} (m : M S E A) (k : A → M S E B) s Q :
  wp m s (λ r s', match r with
                  | Ok a => wp (k a) s' Q
                  | Err e => Q (Err e) s'
                  | Panic => Q Panic s'
                  end) → wp (bind m k) s Q.
Proof. unfold wp, bind. destruct (m s) as [[] ?]; done. Qed.

Lemma wp_ret {A} (a : A) s Q : Q (Ok a) s → wp (@ret S E A a) s Q.
Proof. done. Qed.

Lemma wp_fail {A} (e : E) s (Q : res E A → S → Prop) : Q (Err e) s → wp (fail e) s Q.
Proof. done. Qed.

Lemma wp_gets {A} (f : S → A) s Q : Q (Ok (f s)) s → wp (@gets S E A f) s Q.
Proof. done. Qed.

Lemma wp_modify (f : S → S) s Q : Q (Ok tt) (f s) → wp (@modify S E f) s Q.
Proof. done. Qed.

Lemma wp_lift {A} (r : res E A) s Q : Q r s → wp (lift r) s Q.
Proof. done. Qed.

Lemma wp_asks {A} (f : S → res E A) s Q : Q (f s) s → wp (asks f) s Q.
Proof. done. Qed.

Lemma wp_unwrap_result {E' A} (m : M S E' A) s (Q : res E A → S → Prop) :
  wp m s (λ r s', match r with Ok a => Q (Ok a) s' | _ => Q Panic s' end) →
  wp (unwrap_result m) s Q.
Proof. unfold wp, unwrap_result. destruct (m s) as [[] ?]; done. Qed.

Lemma wp_map_err {E' A} (f : E' → E) (m : M S E' A) s (Q : res E A → S → Prop) :
  wp m s (λ r s', match r with
                  | Ok a => Q (Ok a) s'
                  | Err e => Q (Err (f e)) s'
                  | Panic => Q Panic s'
                  end) → wp (map_err f m) s Q.
Proof. unfold wp, map_err. destruct (m s) as [[] ?]; done. Qed.

Lemma wp_attempt {E' A} (m : M S E' A) s (Q : res E (res E' A) → S → Prop) :
  wp m s (λ r s', match r with Panic => Q Panic s' | r => Q (Ok r) s' end) → wp (attempt m) s Q.
Proof. unfold wp, attempt. destruct (m s) as [[] ?]; done. Qed.

Lemma wp_zoom {T A} (get : S → option T) (put : T → S → S) (m : M T E A) s t Q :
  get s = Some t → wp m t (λ r t', Q r (put t' s)) → wp (zoom get put m) s Q.
Proof. unfold wp, zoom. intros ->. destruct (m t); done. Qed.
End wp.

(** One step of symbolic execution through a program. *)
Ltac wp_step :=
  lazymatch goal with
  | |- wp (bind _ _) _ _ => apply wp_bind
  | |- wp (ret _) _ _ => apply wp_ret
  | |- wp (fail _) _ _ => apply wp_fail
  | |- wp (gets _) _ _ => apply wp_gets
  | |- wp (modify _) _ _ => apply wp_modify
  | |- wp (lift _) _ _ => apply wp_lift
  | |- wp (asks _) _ _ => apply wp_asks
  | |- wp (unwrap_result _) _ _ => apply wp_unwrap_result
  | |- wp (map_err _ _) _ _ => apply wp_map_err
  | |- wp (attempt _) _ _ => apply wp_attempt
  | |- wp (if ?b then _ else _) _ _ => destruct b eqn:?
  | |- wp (match ?x with _ => _ end) _ _ => destruct x eqn:?
  end.
Ltac wp_steps := repeat (wp_step; simpl).

(** Turns a decided boolean hypothesis into the proposition it decides. *)
Ltac bool_hyps :=
  repeat match goal with
  | H : bool_decide _ = true |- _ => apply bool_decide_eq_true_1 in H
  | H : bool_decide _ = false |- _ => apply bool_decide_eq_false_1 in H
  | H : _ && _ = true |- _ => apply andb_true_iff in H; destruct H
  | H : _ || _ = false |- _ => apply orb_false_iff in H; destruct H
  | H : negb _ = true |- _ => apply negb_true_iff in H
  | H : negb _ = false |- _ => apply negb_false_iff in H
  end.

(** ** Shared lemmas *)

Create HintDb rpcn.
Create Rewrite HintDb rpcn_rw.

Lemma res_bind_Ok {E A B} (r : res E A) (k : A → res E B) b :
  res_bind r k = Ok b ↔ ∃ a, r = Ok a ∧ k a = Ok b.
Proof. split; [destruct r; simpl; eauto; discriminate|by intros (a & -> & ?)]. Qed.

Lemma res_bind_no_panic {E A B} (r : res E A) (k : A → res E B) :
  no_panic r → (∀ a, r = Ok a → no_panic (k a)) → no_panic (res_bind r k).
Proof. unfold no_panic. destruct r; simpl; auto. Qed.

Lemma res_fold_inv {E A B} (P : A → Prop) (f : A → B → res E A) xs a :
  P a → (∀ a x a', P a → x ∈ xs → f a x = Ok a' → P a') →
  ∀ a', res_fold f a xs = Ok a' → P a'.
Proof.
  revert a. induction xs as [|x xs IH]; intros a Ha Hf a'; simpl; [naive_solver|].
  intros (a1 & H1 & H2)%res_bind_Ok. eapply IH; [| |done].
  - eapply Hf; [done| |done]. set_solver.
  - intros ?????. eapply Hf; [done|set_solver].
Qed.

Lemma res_fold_no_panic {E A B} (P : A → Prop) (f : A → B → res E A) xs a :
  P a → (∀ a x, P a → x ∈ xs → no_panic (f a x) ∧ ∀ a', f a x = Ok a' → P a') →
  no_panic (res_fold f a xs).
Proof.
  revert a. induction xs as [|x xs IH]; intros a Ha Hf; simpl; [done|].
  destruct (Hf a x Ha) as [Hn Hp]; [set_solver|].
  apply res_bind_no_panic; [done|]. intros a' Ha'. apply IH; [eauto|].
  intros; apply Hf; set_solver.
Qed.

Lemma res_map_list_Ok {E A B} (f : A → res E B) xs ys :
  res_map_list f xs = Ok ys ↔ Forall2 (λ x y, f x = Ok y) xs ys.
Proof.
  revert ys. induction xs as [|x xs IH]; intros ys; simpl.
  - split; [intros [=<-]; constructor|by intros ->%Forall2_nil_inv_l].
  - rewrite res_bind_Ok. setoid_rewrite res_bind_Ok. split.
    + intros (y & Hy & ys' & Hys & [= <-]). constructor; [done|by apply IH].
    + intros (y & ys' & Hy & Hys & ->)%Forall2_cons_inv_l.
      exists y. split; [done|]. exists ys'. split; [by apply IH|done].
Qed.

Lemma res_map_list_no_panic {E A B} (f : A → res E B) xs :
  (∀ x, x ∈ xs → no_panic (f x)) → no_panic (res_map_list f xs).
Proof.
  induction xs as [|x xs IH]; intros Hf; simpl; [done|].
  apply res_bind_no_panic; [apply Hf; set_solver|intros y _].
  apply res_bind_no_panic; [apply IH; set_solver|done].
Qed.

Lemma index_Ok {E A} (l : list A) i x :
  @index E A l i = Ok x ↔ 0 ≤ i ∧ l !! Z.to_nat i = Some x.
Proof.
  unfold index. case_bool_decide; [|naive_solver].
  destruct (l !! Z.to_nat i); naive_solver.
Qed.

Lemma index_lt {E A} (l : list A) i :
  0 ≤ i < Z.of_nat (length l) → ∃ x, @index E A l i = Ok x ∧ l !! Z.to_nat i = Some x.
Proof.
  intros Hi. destruct (lookup_lt_is_Some_2 l (Z.to_nat i)) as [x Hx]; [lia|].
  exists x. rewrite index_Ok. split; [split; [lia|done]|done].
Qed.

Lemma index_set_Ok {E A} (l : list A) i x :
  0 ≤ i < Z.of_nat (length l) → @index_set E A l i x = Ok (<[Z.to_nat i := x]> l).
Proof. intros Hi. unfold index_set. by destruct (@index_lt E A l i Hi) as (? & -> & _). Qed.

(** Bytes of integers. *)
Lemma length_to_le_bytes n v : length (to_le_bytes n v) = n.
Proof. revert v. induction n; simpl; auto. Qed.

Lemma to_le_bytes_u8 n v : Forall is_u8 (to_le_bytes n v).
Proof.
  revert v. induction n; intros v; simpl; constructor; auto.
  unfold is_u8. pose proof (Z.mod_pos_bound v 256). lia.
Qed.

Lemma from_to_le_bytes n v : from_le_bytes (to_le_bytes n v) = v mod 256 ^ Z.of_nat n.
Proof.
  revert v. induction n as [|n IH]; intros v; cbn [to_le_bytes from_le_bytes].
  - by rewrite Z.mod_1_r.
  - rewrite IH, Nat2Z.inj_succ, Z.pow_succ_r by lia.
    rewrite (Z.rem_mul_r v 256) by lia. lia.
Qed.

Lemma from_le_bytes_small n v :
  0 ≤ v < 256 ^ Z.of_nat n → from_le_bytes (to_le_bytes n v) = v.
Proof. intros. rewrite from_to_le_bytes. by apply Z.mod_small. Qed.

Lemma to_le_bytes_inj n v w :
  0 ≤ v < 256 ^ Z.of_nat n → 0 ≤ w < 256 ^ Z.of_nat n →
  to_le_bytes n v = to_le_bytes n w → v = w.
Proof.
  intros Hv Hw Heq. rewrite <- (from_le_bytes_small n v Hv), Heq.
  by apply from_le_bytes_small.
Qed.

Lemma from_le_bytes_bound bs :
  Forall is_u8 bs → 0 ≤ from_le_bytes bs < 256 ^ Z.of_nat (length bs).
Proof.
  unfold is_u8. induction 1 as [|b bs Hb _ IH]; [simpl; lia|].
  cbn [from_le_bytes length]. rewrite Nat2Z.inj_succ, Z.pow_succ_r by lia. lia.
Qed.

(** Sets of a map of sets. *)
Section entries.
Context `{Countable K} `{Countable A}.
Implicit Types (m : gmap K (gset A)) (k : K) (x : A).

Lemma in_entry_insert m k x k' x' :
  in_entry (entry_insert k x m) k' x' ↔ (k = k' ∧ x = x') ∨ in_entry m k' x'.
Proof.
  unfold in_entry, entry_insert. rewrite lookup_insert.
  case_decide; simplify_eq; simpl; set_solver.
Qed.

Lemma in_entry_remove m k x k' x' :
  in_entry (entry_remove k x m) k' x' ↔ in_entry m k' x' ∧ ¬ (k = k' ∧ x = x').
Proof.
  unfold in_entry, entry_remove. rewrite lookup_alter.
  case_decide; simplify_eq; simpl; [|naive_solver].
  destruct (m !! k'); simpl; set_solver.
Qed.

Lemma in_entry_is_Some m k x : in_entry m k x → is_Some (m !! k).
Proof. unfold in_entry. destruct (m !! k); simpl; [done|set_solver]. Qed.

Lemma in_entry_empty k x : ¬ in_entry (∅ : gmap K (gset A)) k x.
Proof. unfold in_entry. rewrite lookup_empty. set_solver. Qed.
End entries.

(** Iteration of maps. *)
Lemma elem_of_lookup_pairs `{Countable K} {V} (m : gmap K V) (ks : list K) k v :
  (k, v) ∈ omap (λ k, (λ v, (k, v)) <$> m !! k) ks ↔ k ∈ ks ∧ m !! k = Some v.
Proof.
  rewrite list_elem_of_omap. split.
  - intros (k' & Hk & Hv). destruct (m !! k') eqn:E; simplify_eq/=. eauto.
  - intros [Hk Hv]. exists k. by rewrite Hv.
Qed.

Lemma elem_of_btree_keys {V} (m : gmap Z V) k : k ∈ btree_keys m ↔ is_Some (m !! k).
Proof.
  unfold btree_keys. rewrite merge_sort_Permutation, elem_of_elements.
  apply elem_of_dom.
Qed.

Lemma elem_of_btree_iter {V} (m : gmap Z V) k v : (k, v) ∈ btree_iter m ↔ m !! k = Some v.
Proof.
  unfold btree_iter. rewrite elem_of_lookup_pairs, elem_of_btree_keys.
  naive_solver.
Qed.

Lemma elem_of_btree_values {V} (m : gmap Z V) v :
  v ∈ btree_values m ↔ ∃ k, m !! k = Some v.
Proof.
  unfold btree_values. rewrite list_elem_of_fmap. split.
  - intros ([k v'] & -> & Hin%elem_of_btree_iter). eauto.
  - intros [k Hk]. exists (k, v). by rewrite elem_of_btree_iter.
Qed.

Lemma NoDup_btree_keys {V} (m : gmap Z V) : NoDup (btree_keys m).
Proof. unfold btree_keys. rewrite merge_sort_Permutation. apply NoDup_elements. Qed.

Lemma btree_keys_sorted {V} (m : gmap Z V) : Sorted Z.le (btree_keys m).
Proof. apply Sorted_merge_sort. intros x y. lia. Qed.

Lemma length_btree_keys {V} (m : gmap Z V) : length (btree_keys m) = size m.
Proof.
  unfold btree_keys. rewrite merge_sort_Permutation.
  rewrite <- size_dom. done.
Qed.

(** Existence of an entry with a property, after an insertion or a deletion. *)
Lemma exists_insert `{Countable K} {V} (m : gmap K V) k v' (P : V → Prop) k0 :
  (∃ r, <[k := v']> m !! k0 = Some r ∧ P r) ↔
  (k = k0 ∧ P v') ∨ (k ≠ k0 ∧ ∃ r, m !! k0 = Some r ∧ P r).
Proof.
  rewrite lookup_insert. case_decide; split.
  - intros (r & [= <-] & Hp). by left.
  - intros [[_ Hp]|[? _]]; [by exists v'|done].
  - intros Hr. by right.
  - intros [[? _]|[_ Hr]]; done.
Qed.

Lemma exists_insert_same `{Countable K} {V} (m : gmap K V) k v v' (P : V → Prop) k0 :
  m !! k = Some v → (P v' ↔ P v) →
  (∃ r, <[k := v']> m !! k0 = Some r ∧ P r) ↔ (∃ r, m !! k0 = Some r ∧ P r).
Proof.
  intros Hk Hp. rewrite exists_insert. destruct (decide (k = k0)) as [<-|]; [|tauto].
  rewrite Hp. split.
  - intros [[_ ?]|[? _]]; [by exists v|done].
  - intros (r & Hr & ?). left. split; [done|congruence].
Qed.

Lemma exists_delete `{Countable K} {V} (m : gmap K V) k (P : V → Prop) k0 :
  (∃ r, delete k m !! k0 = Some r ∧ P r) ↔ (k ≠ k0 ∧ ∃ r, m !! k0 = Some r ∧ P r).
Proof.
  rewrite lookup_delete. case_decide; split; [by intros (? & ? & _)|by intros [? _]|done|by intros [_ ?]].
Qed.

Lemma size_alter `{Countable K} {V} (f : V → V) (k : K) (m : gmap K V) :
  size (alter f k m) = size m.
Proof. by rewrite <- !(size_dom (D:=gset K)), dom_alter_L. Qed.

Lemma elem_of_hash_iter `{HashOrder} `{Countable A} (s : gset A) x :
  x ∈ hash_iter s ↔ x ∈ s.
Proof. rewrite hash_iter_perm. apply elem_of_elements. Qed.

Lemma NoDup_hash_iter `{HashOrder} `{Countable A} (s : gset A) : NoDup (hash_iter s).
Proof. rewrite hash_iter_perm. apply NoDup_elements. Qed.

Lemma elem_of_hash_map_iter `{HashOrder} `{Countable K} {V} (m : gmap K V) k v :
  (k, v) ∈ hash_map_iter m ↔ m !! k = Some v.
Proof.
  unfold hash_map_iter. rewrite elem_of_lookup_pairs, elem_of_hash_iter, elem_of_dom.
  naive_solver.
Qed.

Lemma length_lookup_pairs `{Countable K} {V} (m : gmap K V) (ks : list K) :
  (∀ k, k ∈ ks → is_Some (m !! k)) → length (omap (λ k, (λ v, (k, v)) <$> m !! k) ks) = length ks.
Proof.
  induction ks as [|k ks IH]; intros Hk; simpl; [done|].
  destruct (Hk k) as [v ->]; [set_solver|]. simpl. f_equal. apply IH. set_solver.
Qed.

Lemma length_hash_map_iter `{HashOrder} `{Countable K} {V} (m : gmap K V) :
  length (hash_map_iter m) = size m.
Proof.
  unfold hash_map_iter. rewrite length_lookup_pairs.
  - rewrite hash_iter_perm, <- (size_dom (D:=gset K)). done.
  - intros k Hk. by rewrite elem_of_hash_iter, elem_of_dom in Hk.
Qed.

Lemma NoDup_omap {A B} (f : A → option B) l :
  (∀ x x' y, f x = Some y → f x' = Some y → x = x') → NoDup l → NoDup (omap f l).
Proof.
  intros Hf. induction 1 as [|x l Hx _ IH]; simpl; [constructor|]. destruct (f x) as [y|] eqn:E; [|done].
  constructor; [|done]. rewrite list_elem_of_omap. intros (x' & Hx' & E'). by rewrite (Hf x x' y) in Hx.
Qed.

Lemma NoDup_lookup_pairs `{Countable K} {V} (m : gmap K V) (ks : list K) :
  NoDup ks → NoDup (omap (λ k, (λ v, (k, v)) <$> m !! k) ks).
Proof.
  apply NoDup_omap. intros k k' [k0 v]. intros (? & _ & [= <- _])%fmap_Some (? & _ & [= <- _])%fmap_Some. done.
Qed.

Lemma NoDup_hash_map_iter `{HashOrder} `{Countable K} {V} (m : gmap K V) : NoDup (hash_map_iter m).
Proof. apply NoDup_lookup_pairs, NoDup_hash_iter. Qed.

Lemma NoDup_btree_iter {V} (m : gmap Z V) : NoDup (btree_iter m).
Proof. apply NoDup_lookup_pairs, NoDup_btree_keys. Qed.

Lemma hash_map_iter_perm `{HashOrder} `{Countable K} {V} (m : gmap K V) : hash_map_iter m ≡ₚ map_to_list m.
Proof.
  apply NoDup_Permutation; [apply NoDup_hash_map_iter|apply NoDup_map_to_list|].
  intros [k v]. by rewrite elem_of_hash_map_iter, elem_of_map_to_list.
Qed.

(** The one element of a list that has a property. *)
Lemma filter_unique {A} (P : A → Prop) `{∀ x, Decision (P x)} (l : list A) x :
  NoDup l → x ∈ l → (∀ y, y ∈ l → P y ↔ y = x) → filter P l = [x].
Proof.
  induction 1 as [|y l Hy Hl IH]; intros Hx Hp; [by apply not_elem_of_nil in Hx|].
  rewrite filter_cons. apply elem_of_cons in Hx as [<-|Hx].
  - rewrite decide_True by (apply Hp; set_solver). f_equal.
    assert (∀ z, z ∈ filter P l → False) as Hn.
    { intros z [Hz Hin]%list_elem_of_filter. apply Hp in Hz; [|set_solver]. congruence. }
    destruct (filter P l) as [|z l']; [done|]. destruct (Hn z). set_solver.
  - rewrite decide_False; [apply IH; [done|set_solver]|]. intros Hpy%Hp; [|set_solver]. congruence.
Qed.

Lemma gen_range_lt rng n : (0 < n)%nat → (gen_range rng n < n)%nat.
Proof. unfold gen_range. intros. apply Nat.mod_upper_bound. lia. Qed.

#[export] Hint Resolve to_le_bytes_u8 NoDup_btree_keys NoDup_hash_iter gen_range_lt : rpcn.
#[export] Hint Rewrite @length_to_le_bytes @length_btree_keys : rpcn_rw.
