(* ===== verification/Protocol.v ===== *)
(** * Wire-level vocabulary of the server

    The enumerations of src/src/server/client.rs and
    src/src/server/client/notifications.rs with their discriminants, the
    identities a connection carries, and the framing of packets: the fifteen-byte
    header, the length-prefixed data packets and the notifications.  The theorems
    show that a command number decodes to the one command that carries it and
    that a framed notification is read back by the header parser. *)

From S2P Require Import Prelude.

(** ** Enumerations *)

Inductive ErrorType : Set :=
| NoError | Malformed | Invalid | InvalidInput
| TooSoon | LoginError | LoginAlreadyLoggedIn | LoginInvalidUsername
| LoginInvalidPassword | LoginInvalidToken | CreationError | CreationExistingUsername
| CreationBannedEmailProvider | CreationExistingEmail | RoomMissing | RoomAlreadyJoined
| RoomFull | RoomPasswordMismatch | RoomPasswordMissing | RoomGroupNoJoinLabel
| RoomGroupFull | RoomGroupJoinLabelNotFound | RoomGroupMaxSlotMismatch | Unauthorized
| DbFail | EmailFail | NotFound | Blocked
| AlreadyFriend | ScoreNotBest | ScoreInvalid | ScoreHasData
| CondFail | Unsupported.

Definition error_discr (x : ErrorType) : Z :=
  match x with
  | NoError => 0 | Malformed => 1 | Invalid => 2
  | InvalidInput => 3 | TooSoon => 4 | LoginError => 5
  | LoginAlreadyLoggedIn => 6 | LoginInvalidUsername => 7 | LoginInvalidPassword => 8
  | LoginInvalidToken => 9 | CreationError => 10 | CreationExistingUsername => 11
  | CreationBannedEmailProvider => 12 | CreationExistingEmail => 13 | RoomMissing => 14
  | RoomAlreadyJoined => 15 | RoomFull => 16 | RoomPasswordMismatch => 17
  | RoomPasswordMissing => 18 | RoomGroupNoJoinLabel => 19 | RoomGroupFull => 20
  | RoomGroupJoinLabelNotFound => 21 | RoomGroupMaxSlotMismatch => 22 | Unauthorized => 23
  | DbFail => 24 | EmailFail => 25 | NotFound => 26
  | Blocked => 27 | AlreadyFriend => 28 | ScoreNotBest => 29
  | ScoreInvalid => 30 | ScoreHasData => 31 | CondFail => 32
  | Unsupported => 33
  end.

#[export] Instance ErrorType_eq_dec : EqDecision ErrorType.
Proof. solve_decision. Defined.

Module Event.
Inductive EventCause : Set :=
| CauseNone | CauseLeaveAction | CauseKickoutAction | CauseGrantOwnerAction
| CauseServerOperation | CauseMemberDisappeared | CauseServerInternal | CauseConnectionError
| CauseNpSignedOut | CauseSystemError | CauseContextError | CauseContextAction.

Definition event_discr (x : EventCause) : Z :=
  match x with
  | CauseNone => 0 | CauseLeaveAction => 1 | CauseKickoutAction => 2
  | CauseGrantOwnerAction => 3 | CauseServerOperation => 4 | CauseMemberDisappeared => 5
  | CauseServerInternal => 6 | CauseConnectionError => 7 | CauseNpSignedOut => 8
  | CauseSystemError => 9 | CauseContextError => 10 | CauseContextAction => 11
  end.
End Event.

Module Packet.
Inductive PacketType : Set := Request | Reply | Notification | ServerInfo.

Definition packet_discr (x : PacketType) : Z :=
  match x with Request => 0 | Reply => 1 | Notification => 2 | ServerInfo => 3 end.
End Packet.

Module Notif.
Inductive NotificationType : Set :=
| UserJoinedRoom | UserLeftRoom | RoomDestroyed | UpdatedRoomDataInternal
| UpdatedRoomMemberDataInternal | FriendQuery | FriendNew | FriendLost
| FriendStatus | RoomMessageReceived | MessageReceived | FriendPresenceChanged
| SignalingHelper | MemberJoinedRoomGUI | MemberLeftRoomGUI | RoomDisappearedGUI
| RoomOwnerChangedGUI | _UserKickedGUI | QuickMatchCompleteGUI.

Definition notif_discr (x : NotificationType) : Z :=
  match x with
  | UserJoinedRoom => 0 | UserLeftRoom => 1 | RoomDestroyed => 2
  | UpdatedRoomDataInternal => 3 | UpdatedRoomMemberDataInternal => 4 | FriendQuery => 5
  | FriendNew => 6 | FriendLost => 7 | FriendStatus => 8
  | RoomMessageReceived => 9 | MessageReceived => 10 | FriendPresenceChanged => 11
  | SignalingHelper => 12 | MemberJoinedRoomGUI => 13 | MemberLeftRoomGUI => 14
  | RoomDisappearedGUI => 15 | RoomOwnerChangedGUI => 16 | _UserKickedGUI => 17
  | QuickMatchCompleteGUI => 18
  end.
End Notif.

Module Command.
Inductive CommandType : Set :=
| Login | Terminate | Create | Delete | SendToken
| SendResetToken | ResetPassword | ResetState | AddFriend | RemoveFriend
| AddBlock | RemoveBlock | GetServerList | GetWorldList | CreateRoom
| JoinRoom | LeaveRoom | SearchRoom | GetRoomDataExternalList | SetRoomDataExternal
| GetRoomDataInternal | SetRoomDataInternal | GetRoomMemberDataInternal | SetRoomMemberDataInternal | SetUserInfo
| PingRoomOwner | SendRoomMessage | RequestSignalingInfos | RequestTicket | SendMessage
| GetBoardInfos | RecordScore | RecordScoreData | GetScoreData | GetScoreRange
| GetScoreFriends | GetScoreNpid | GetNetworkTime | TusSetMultiSlotVariable | TusGetMultiSlotVariable
| TusGetMultiUserVariable | TusGetFriendsVariable | TusAddAndGetVariable | TusTryAndSetVariable | TusDeleteMultiSlotVariable
| TusSetData | TusGetData | TusGetMultiSlotDataStatus | TusGetMultiUserDataStatus | TusGetFriendsDataStatus
| TusDeleteMultiSlotData | SetPresence | CreateRoomGUI | JoinRoomGUI | LeaveRoomGUI
| GetRoomListGUI | SetRoomSearchFlagGUI | GetRoomSearchFlagGUI | SetRoomInfoGUI | GetRoomInfoGUI
| QuickMatchGUI | SearchJoinRoomGUI | GetRoomMemberDataExternalList | UpdateDomainBans | TerminateServer
| UpdateServersCfg | BanUser | DelUser | SearchRoomAll.

Definition command_discr (x : CommandType) : Z :=
  match x with
  | Login => 0 | Terminate => 1 | Create => 2
  | Delete => 3 | SendToken => 4 | SendResetToken => 5
  | ResetPassword => 6 | ResetState => 7 | AddFriend => 8
  | RemoveFriend => 9 | AddBlock => 10 | RemoveBlock => 11
  | GetServerList => 12 | GetWorldList => 13 | CreateRoom => 14
  | JoinRoom => 15 | LeaveRoom => 16 | SearchRoom => 17
  | GetRoomDataExternalList => 18 | SetRoomDataExternal => 19 | GetRoomDataInternal => 20
  | SetRoomDataInternal => 21 | GetRoomMemberDataInternal => 22 | SetRoomMemberDataInternal => 23
  | SetUserInfo => 24 | PingRoomOwner => 25 | SendRoomMessage => 26
  | RequestSignalingInfos => 27 | RequestTicket => 28 | SendMessage => 29
  | GetBoardInfos => 30 | RecordScore => 31 | RecordScoreData => 32
  | GetScoreData => 33 | GetScoreRange => 34 | GetScoreFriends => 35
  | GetScoreNpid => 36 | GetNetworkTime => 37 | TusSetMultiSlotVariable => 38
  | TusGetMultiSlotVariable => 39 | TusGetMultiUserVariable => 40 | TusGetFriendsVariable => 41
  | TusAddAndGetVariable => 42 | TusTryAndSetVariable => 43 | TusDeleteMultiSlotVariable => 44
  | TusSetData => 45 | TusGetData => 46 | TusGetMultiSlotDataStatus => 47
  | TusGetMultiUserDataStatus => 48 | TusGetFriendsDataStatus => 49 | TusDeleteMultiSlotData => 50
  | SetPresence => 51 | CreateRoomGUI => 52 | JoinRoomGUI => 53
  | LeaveRoomGUI => 54 | GetRoomListGUI => 55 | SetRoomSearchFlagGUI => 56
  | GetRoomSearchFlagGUI => 57 | SetRoomInfoGUI => 58 | GetRoomInfoGUI => 59
  | QuickMatchGUI => 60 | SearchJoinRoomGUI => 61 | GetRoomMemberDataExternalList => 62
  | UpdateDomainBans => 0x100 | TerminateServer => 0x101 | UpdateServersCfg => 0x102
  | BanUser => 0x103 | DelUser => 0x104 | SearchRoomAll => 0x105
  end.

#[export] Instance CommandType_eq_dec : EqDecision CommandType.
Proof. solve_decision. Defined.

Definition all_commands : list CommandType :=
  [ Login; Terminate; Create; Delete; SendToken;
    SendResetToken; ResetPassword; ResetState; AddFriend; RemoveFriend;
    AddBlock; RemoveBlock; GetServerList; GetWorldList; CreateRoom;
    JoinRoom; LeaveRoom; SearchRoom; GetRoomDataExternalList; SetRoomDataExternal;
    GetRoomDataInternal; SetRoomDataInternal; GetRoomMemberDataInternal; SetRoomMemberDataInternal; SetUserInfo;
    PingRoomOwner; SendRoomMessage; RequestSignalingInfos; RequestTicket; SendMessage;
    GetBoardInfos; RecordScore; RecordScoreData; GetScoreData; GetScoreRange;
    GetScoreFriends; GetScoreNpid; GetNetworkTime; TusSetMultiSlotVariable; TusGetMultiSlotVariable;
    TusGetMultiUserVariable; TusGetFriendsVariable; TusAddAndGetVariable; TusTryAndSetVariable; TusDeleteMultiSlotVariable;
    TusSetData; TusGetData; TusGetMultiSlotDataStatus; TusGetMultiUserDataStatus; TusGetFriendsDataStatus;
    TusDeleteMultiSlotData; SetPresence; CreateRoomGUI; JoinRoomGUI; LeaveRoomGUI;
    GetRoomListGUI; SetRoomSearchFlagGUI; GetRoomSearchFlagGUI; SetRoomInfoGUI; GetRoomInfoGUI;
    QuickMatchGUI; SearchJoinRoomGUI; GetRoomMemberDataExternalList; UpdateDomainBans; TerminateServer;
    UpdateServersCfg; BanUser; DelUser; SearchRoomAll ].

(** [FromPrimitive::from_u16] as [num_derive] generates it: the variant whose
    discriminant is the number. *)
Definition command_from_u16 (n : Z) : option CommandType :=
  snd <$> list_find (λ c, command_discr c = n) all_commands.
End Command.

(** ** Identities *)

Definition HEADER_SIZE : Z := 15.
Definition MAX_PACKET_SIZE : Z := 0x800000.
Definition COMMUNICATION_ID_SIZE : nat := 12.

(** [ComId] is [[u8; 12]]; well-formed values are the ones the type allows. *)
Abbreviation ComId := bytes.
Definition com_id_wf (c : ComId) : Prop := length c = COMMUNICATION_ID_SIZE ∧ Forall is_u8 c.

Record ClientInfo := mkClientInfo {
  ci_user_id : Z;
  ci_npid : string;
  ci_online_name : string;
  ci_avatar_url : string;
  ci_token : string;
  ci_admin : bool;
  ci_stat_agent : bool;
  ci_banned : bool;
}.

Record ClientSharedSignalingInfo := mkSignalingInfo {
  sig_addr_p2p_ipv4 : bytes * Z;
  sig_addr_p2p_ipv6 : option (bytes * Z);
  sig_local_addr_p2p : bytes;
}.
#[export] Instance signaling_eta : Eta ClientSharedSignalingInfo := λ s,
  mkSignalingInfo (sig_addr_p2p_ipv4 s) (sig_addr_p2p_ipv6 s) (sig_local_addr_p2p s).

Definition signaling_info_new : ClientSharedSignalingInfo :=
  mkSignalingInfo (replicate 4 0, 0) None (replicate 4 0).

(** [com_id_to_string]: every byte becomes the character of that code point. *)
Definition com_id_to_string (c : ComId) : string := string_of_chars c.

(** ** Packets *)

(** [Client::add_data_packet]: a little-endian [u32] length, then the data. *)
Definition add_data_packet (reply data : bytes) : bytes :=
  reply ++ to_le_bytes 4 (wrap_u32 (Z.of_nat (length data))) ++ data.

(** [Client::create_notification]. *)
Definition create_notification (n_type : Notif.NotificationType) (data : bytes) : bytes :=
  let final_size := Z.of_nat (length data) + HEADER_SIZE in
  [Packet.packet_discr Packet.Notification]
    ++ to_le_bytes 2 (Notif.notif_discr n_type)
    ++ to_le_bytes 4 (wrap_u32 final_size)
    ++ to_le_bytes 8 0
    ++ data.

(** [Client::create_friend_status_notification]. *)
Definition create_friend_status_notification (npid : string) (timestamp : Z) (online : bool) : bytes :=
  create_notification Notif.FriendStatus
    ([if online then 1 else 0] ++ to_le_bytes 8 timestamp ++ bytes_of_string npid ++ [0]).

(** [Client::create_new_friend_notification]. *)
Definition create_new_friend_notification (npid : string) (online : bool) : bytes :=
  create_notification Notif.FriendNew
    ([if online then 1 else 0] ++ bytes_of_string npid ++ [0]).

(** The checks [Client::process] and the entry of [Client::interpret_command]
    make on the fifteen header bytes: either the connection is closed or a
    command of that many payload bytes is read. *)
Inductive HeaderOutcome : Type :=
| Disconnect
| ReadPayload (command : Z) (to_read : Z) (packet_id : Z).

Definition slice (bs : bytes) (from len : nat) : bytes := take len (drop from bs).

Definition process_header (header_data : bytes) : HeaderOutcome :=
  if bool_decide (header_data !! 0%nat ≠ Some (Packet.packet_discr Packet.Request)) then Disconnect
  else
    let command := from_le_bytes (slice header_data 1 2) in
    let packet_size := from_le_bytes (slice header_data 3 4) in
    let packet_id := from_le_bytes (slice header_data 7 8) in
    if bool_decide (MAX_PACKET_SIZE < packet_size) then Disconnect
    else if bool_decide (packet_size < HEADER_SIZE) then Disconnect
    else ReadPayload command (packet_size - HEADER_SIZE) packet_id.

(** The reply [Client::interpret_command] sends: the header with the final
    length patched in, the outcome byte, and what the handler appended. *)
Definition build_reply (command packet_id : Z) (outcome : ErrorType) (body : bytes) : bytes :=
  [Packet.packet_discr Packet.Reply]
    ++ to_le_bytes 2 command
    ++ to_le_bytes 4 (wrap_u32 (HEADER_SIZE + 1 + Z.of_nat (length body)))
    ++ to_le_bytes 8 packet_id
    ++ [error_discr outcome]
    ++ body.

(** ** Properties *)

Lemma command_from_u16_discr c :
  Command.command_from_u16 (Command.command_discr c) = Some c.
Proof. destruct c; vm_compute; reflexivity. Qed.

(** A command number decodes to a command exactly when it is that command's
    discriminant: no two commands share a number and no number is reused. *)
Theorem command_from_u16_spec n c :
  Command.command_from_u16 n = Some c ↔ Command.command_discr c = n.
Proof.
  split; [|intros <-; apply command_from_u16_discr].
  unfold Command.command_from_u16. rewrite fmap_Some.
  intros ([i c'] & (_ & Hc & _)%list_find_Some & ->). done.
Qed.

Lemma slice_app_skip (a b : bytes) n len :
  length a = n → slice (a ++ b) n len = take len b.
Proof. intros <-. unfold slice. by rewrite drop_app_length. Qed.

Lemma take_le_bytes n v (b : bytes) : take n (to_le_bytes n v ++ b) = to_le_bytes n v.
Proof. rewrite take_app_le, take_ge; rewrite ?length_to_le_bytes; done. Qed.

(** A notification is a well-formed packet: its first byte marks it, the
    type and the total length of the packet are read back from the header, and
    the data follow the fifteen header bytes unchanged. *)
Theorem create_notification_layout t data :
  Z.of_nat (length data) + HEADER_SIZE < 2 ^ 32 →
  let p := create_notification t data in
  p !! 0%nat = Some (Packet.packet_discr Packet.Notification) ∧
  from_le_bytes (slice p 1 2) = Notif.notif_discr t ∧
  from_le_bytes (slice p 3 4) = Z.of_nat (length p) ∧
  drop 15 p = data.
Proof.
  intros Hlen p. subst p. unfold create_notification, HEADER_SIZE, wrap_u32 in *.
  assert (0 ≤ Notif.notif_discr t < 256 ^ Z.of_nat 2) by (destruct t; simpl; lia).
  split; [done|]. split; [|split].
  - rewrite slice_app_skip, take_le_bytes, from_le_bytes_small; done.
  - rewrite app_assoc, slice_app_skip, take_le_bytes
      by (by rewrite length_app, length_to_le_bytes).
    rewrite from_to_le_bytes, !length_app, !length_to_le_bytes. cbn [length].
    change (256 ^ Z.of_nat 4) with (2 ^ 32). rewrite Z.mod_mod, Z.mod_small by lia. lia.
  - done.
Qed.

Lemma create_notification_layout_witness :
  let p := create_notification Notif.FriendNew [7; 8] in
  p !! 0%nat = Some 2 ∧ from_le_bytes (slice p 1 2) = 6 ∧
  from_le_bytes (slice p 3 4) = Z.of_nat (length p) ∧ drop 15 p = [7; 8].
Proof. apply (create_notification_layout Notif.FriendNew [7; 8]). vm_compute. done. Defined.

(** The header checks admit exactly the request packets whose declared size
    lies between the header size and 8 MiB, so the payload buffer the server
    allocates is never negative and never exceeds 8 MiB. *)
Theorem process_header_spec h cmd n id :
  process_header h = ReadPayload cmd n id ↔
  h !! 0%nat = Some (Packet.packet_discr Packet.Request) ∧
  cmd = from_le_bytes (slice h 1 2) ∧ id = from_le_bytes (slice h 7 8) ∧
  n = from_le_bytes (slice h 3 4) - HEADER_SIZE ∧ 0 ≤ n ≤ MAX_PACKET_SIZE - HEADER_SIZE.
Proof.
  unfold process_header.
  destruct (decide (h !! 0%nat = Some (Packet.packet_discr Packet.Request))) as [Hr|Hr];
    [rewrite bool_decide_eq_false_2 by naive_solver|rewrite bool_decide_eq_true_2 by done];
    [|naive_solver].
  unfold MAX_PACKET_SIZE, HEADER_SIZE in *. repeat case_bool_decide; split; naive_solver lia.
Qed.
