(* ===== verification/StreamExtractor.v ===== *)
(** * The request reader (src/src/server/stream_extractor.rs)

    A [StreamExtractor] walks a request payload with a cursor and a sticky error
    flag.  Each method is a function from the extractor to the value read and the
    extractor after.  The protobuf decoder of the [prost] crate is an argument of
    [get_protobuf].  The theorems show that no method ever clears the error flag
    or moves the cursor back, that what [add_data_packet] frames is what
    [get_rawdata] reads, that integers and strings are read back, and that a
    communication id accepted without error has the documented shape. *)

From S2P Require Import Prelude Protocol.

Record StreamExtractor := mkExtractor {
  se_vec : bytes;
  se_i : nat;
  se_error : bool;
}.
#[export] Instance extractor_eta : Eta StreamExtractor := λ s,
  mkExtractor (se_vec s) (se_i s) (se_error s).

Definition extractor_new (vec : bytes) : StreamExtractor := mkExtractor vec 0 false.

(** [get::<T>()] for an unsigned [T] of [size] bytes. *)
Definition get_uint (size : nat) (s : StreamExtractor) : Z * StreamExtractor :=
  if bool_decide (length (se_vec s) < se_i s + size)%nat then (0, s <| se_error := true |>)
  else (from_le_bytes (slice (se_vec s) (se_i s) size), s <| se_i := (se_i s + size)%nat |>).

(** [get::<T>()] for a signed [T]: the same bytes, in two's complement. *)
Definition get_int (size : nat) (s : StreamExtractor) : Z * StreamExtractor :=
  let '(v, s') := get_uint size s in (to_signed (8 * Z.of_nat size) v, s').

(** The scanning loop of [get_string]: the bytes up to the first zero or the end
    of the buffer. *)
Fixpoint scan_string (bs : bytes) : bytes :=
  match bs with
  | [] => []
  | b :: bs => if bool_decide (b = 0) then [] else b :: scan_string bs
  end.

Definition get_string (empty : bool) (s : StreamExtractor) : string * StreamExtractor :=
  let res_s := scan_string (drop (se_i s) (se_vec s)) in
  let i := (se_i s + length res_s + 1)%nat in
  let bad := bool_decide (length (se_vec s) < i)%nat || (negb empty && bool_decide (res_s = [])) in
  (string_of_chars res_s, mkExtractor (se_vec s) i (se_error s || bad)).

Definition get_rawdata (s : StreamExtractor) : bytes * StreamExtractor :=
  let '(size, s) := get_uint 4 s in
  let size := Z.to_nat size in
  if bool_decide (length (se_vec s) < size + se_i s)%nat then ([], s <| se_error := true |>)
  else (slice (se_vec s) (se_i s) size, s <| se_i := (se_i s + size)%nat |>).

Definition is_ascii_uppercase (c : Z) : bool := bool_decide (0x41 ≤ c ≤ 0x5A).
Definition is_ascii_digit (c : Z) : bool := bool_decide (0x30 ≤ c ≤ 0x39).

(** The loop of [get_com_id] reading one byte at a time. *)
Fixpoint get_bytes (n : nat) (s : StreamExtractor) : bytes * StreamExtractor :=
  match n with
  | O => ([], s)
  | S n => let '(b, s) := get_uint 1 s in
           let '(bs, s) := get_bytes n s in (b :: bs, s)
  end.

Definition com_id_valid (c : ComId) : bool :=
  forallb (λ c, is_ascii_uppercase c || is_ascii_digit c) (slice c 0 9)
  && bool_decide (c !! 9%nat = Some 0x5F)
  && forallb is_ascii_digit (slice c 10 2).

Definition get_com_id (s : StreamExtractor) : ComId * StreamExtractor :=
  let '(com_id, s) :=
    if bool_decide (length (se_vec s) < se_i s + COMMUNICATION_ID_SIZE)%nat
    then (replicate COMMUNICATION_ID_SIZE 0, s <| se_error := true |>)
    else get_bytes COMMUNICATION_ID_SIZE s in
  (com_id, s <| se_error := se_error s || negb (com_id_valid com_id) |>).

(** [decode] is [prost]'s decoder for the message type. *)
Definition get_protobuf {T} (decode : bytes → option T) (s : StreamExtractor) :
  option T * StreamExtractor :=
  let '(size, s) := get_uint 4 s in
  let size := Z.to_nat size in
  if bool_decide (length (se_vec s) < size + se_i s)%nat then (None, s <| se_error := true |>)
  else (decode (slice (se_vec s) (se_i s) size), s <| se_i := (se_i s + size)%nat |>).

(** [Client::get_pb]: an extraction or decoding error is [Malformed]. *)
Definition get_pb {T} (decode : bytes → option T) (s : StreamExtractor) :
  res ErrorType T * StreamExtractor :=
  let '(pb_req, s) := get_protobuf decode s in
  (if se_error s then Err Malformed else ok_or Malformed pb_req, s).

(** ** Properties *)

(** A later state of the same extractor: same buffer, cursor not behind, error
    flag not cleared. *)
Definition se_later (s s' : StreamExtractor) : Prop :=
  se_vec s' = se_vec s ∧ (se_i s ≤ se_i s')%nat ∧ (se_error s → se_error s').

#[export] Instance se_later_preorder : PreOrder se_later.
Proof.
  split; [intros ?; unfold se_later; auto with lia|].
  intros s1 s2 s3 (?&?&?) (?&?&?). unfold se_later. split; [congruence|]. auto with lia.
Qed.

Lemma get_uint_later n s : se_later s (get_uint n s).2.
Proof. unfold get_uint, se_later. case_bool_decide; simpl; auto with lia. Qed.

Lemma get_string_later e s : se_later s (get_string e s).2.
Proof.
  unfold get_string, se_later; simpl. split; [done|split; [lia|]].
  destruct (se_error s); done.
Qed.

Lemma get_rawdata_later s : se_later s (get_rawdata s).2.
Proof.
  unfold get_rawdata. pose proof (get_uint_later 4 s) as Hl.
  destruct (get_uint 4 s) as [size s1]; simpl in Hl. etransitivity; [exact Hl|].
  unfold se_later. case_bool_decide; simpl; auto with lia.
Qed.

Lemma get_bytes_later n s : se_later s (get_bytes n s).2.
Proof.
  revert s. induction n as [|n IH]; intros s; simpl; [reflexivity|].
  pose proof (get_uint_later 1 s) as Hl. destruct (get_uint 1 s) as [b s1].
  pose proof (IH s1) as Hl'. destruct (get_bytes n s1). by etransitivity.
Qed.

Lemma get_com_id_later s : se_later s (get_com_id s).2.
Proof.
  unfold get_com_id. pose proof (get_bytes_later COMMUNICATION_ID_SIZE s) as Hl.
  destruct (get_bytes COMMUNICATION_ID_SIZE s) as [c s1].
  case_bool_decide; unfold se_later in *; simpl in *; [auto with lia|].
  destruct Hl as (?&?&?). split; [done|split; [done|]].
  intros He. destruct (se_error s1); [done|naive_solver].
Qed.

Lemma get_protobuf_later {T} (decode : bytes → option T) s : se_later s (get_protobuf decode s).2.
Proof.
  unfold get_protobuf. pose proof (get_uint_later 4 s) as Hl.
  destruct (get_uint 4 s) as [size s1]; simpl in Hl. etransitivity; [exact Hl|].
  unfold se_later. case_bool_decide; simpl; auto with lia.
Qed.

#[export] Hint Resolve get_uint_later get_string_later get_rawdata_later get_bytes_later
  get_com_id_later get_protobuf_later : rpcn.

(** Any sequence of reads a handler makes. *)
Inductive read_step : StreamExtractor → StreamExtractor → Prop :=
| step_uint n s : read_step s (get_uint n s).2
| step_string e s : read_step s (get_string e s).2
| step_rawdata s : read_step s (get_rawdata s).2
| step_com_id s : read_step s (get_com_id s).2
| step_protobuf T (decode : bytes → option T) s : read_step s (get_protobuf decode s).2.

(** The error flag is sticky and the cursor never moves back over any
    sequence of reads, so checking [error()] once after the last read of a
    handler covers every read before it. *)
Theorem reads_sticky s s' : rtc read_step s s' → se_later s s'.
Proof.
  induction 1 as [|s1 s2 s3 Hs _ IH]; [reflexivity|]. etransitivity; [|exact IH].
  inversion Hs; auto with rpcn.
Qed.

Lemma reads_sticky_witness :
  let s0 := extractor_new [1] in
  se_later s0 (get_uint 1 (get_uint 4 s0).2).2 ∧ se_error (get_uint 1 (get_uint 4 s0).2).2 = true.
Proof.
  split; [|reflexivity]. apply reads_sticky.
  eapply rtc_l; [apply (step_uint 4)|]. eapply rtc_l; [apply (step_uint 1)|]. apply rtc_refl.
Defined.

(** An extractor positioned after [pre] with [rest] left to read. *)
Definition at_pos (pre rest : bytes) (e : bool) : StreamExtractor :=
  mkExtractor (pre ++ rest) (length pre) e.

Lemma get_uint_at n pre v post e :
  get_uint n (at_pos pre (to_le_bytes n v ++ post) e) =
  (v mod 256 ^ Z.of_nat n, at_pos (pre ++ to_le_bytes n v) post e).
Proof.
  unfold get_uint, at_pos. cbn [se_vec se_i].
  rewrite bool_decide_eq_false_2 by (rewrite !length_app, length_to_le_bytes; lia).
  rewrite slice_app_skip, take_le_bytes, from_to_le_bytes by done.
  f_equal. simpl. rewrite <- app_assoc, length_app, length_to_le_bytes. done.
Qed.

(** [get_rawdata] reads exactly the data [add_data_packet] framed, whatever
    precedes and follows it, and raises no error. *)
Theorem get_rawdata_add_data_packet pre data post e :
  Z.of_nat (length data) < 2 ^ 32 →
  get_rawdata (mkExtractor (add_data_packet pre data ++ post) (length pre) e) =
  (data, mkExtractor (add_data_packet pre data ++ post) (length (add_data_packet pre data)) e).
Proof.
  intros Hlen. unfold add_data_packet, wrap_u32. rewrite !(Z.mod_small _ (2 ^ 32)) by lia.
  set (hdr := to_le_bytes 4 _). assert (length hdr = 4%nat) as Hh by apply length_to_le_bytes.
  rewrite <- !(assoc_L (++)).
  change (mkExtractor (pre ++ hdr ++ data ++ post) (length pre) e)
    with (at_pos pre (hdr ++ data ++ post) e).
  unfold get_rawdata, hdr. rewrite get_uint_at. fold hdr.
  change (256 ^ Z.of_nat 4) with (2 ^ 32). rewrite Z.mod_small, Nat2Z.id by lia.
  unfold at_pos. cbn [se_vec se_i].
  rewrite bool_decide_eq_false_2 by (rewrite !length_app; lia).
  rewrite slice_app_skip, take_app_length by done.
  clearbody hdr. f_equal. simpl. f_equal; [by rewrite <- !(assoc_L (++))|rewrite !length_app; lia].
Qed.

Lemma get_rawdata_add_data_packet_witness :
  get_rawdata (mkExtractor (add_data_packet [9; 9] [5; 6; 7] ++ [1]) 2 false) =
  ([5; 6; 7], mkExtractor (add_data_packet [9; 9] [5; 6; 7] ++ [1]) 9 false).
Proof. apply (get_rawdata_add_data_packet [9; 9] [5; 6; 7] [1] false). vm_compute. done. Defined.

Lemma scan_string_app s post :
  Forall (λ b, b ≠ 0) s → scan_string (s ++ 0 :: post) = s.
Proof.
  induction 1 as [|b s Hb _ IH]; simpl; [done|]. rewrite bool_decide_eq_false_2 by done.
  by rewrite IH.
Qed.

(** A zero-terminated string is read back without error, and the cursor ends
    just after its terminator; an empty one is an error only where the caller
    forbids it. *)
Theorem get_string_at pre s post e empty :
  Forall (λ b, b ≠ 0) s →
  get_string empty (at_pos pre (s ++ 0 :: post) e) =
  (string_of_chars s,
   mkExtractor (pre ++ s ++ 0 :: post) (length pre + length s + 1)
     (e || (negb empty && bool_decide (s = [])))).
Proof.
  intros Hs. unfold get_string, at_pos. cbn [se_vec se_i se_error].
  rewrite drop_app_length, scan_string_app by done.
  rewrite bool_decide_eq_false_2; [done|]. rewrite !length_app. simpl. lia.
Qed.

Lemma get_string_at_witness :
  get_string false (at_pos [1] ([72; 105] ++ 0 :: [4]) false) =
  ("Hi"%string, mkExtractor [1; 72; 105; 0; 4] 4 false).
Proof. apply (get_string_at [1] [72; 105] [4] false false). repeat constructor; done. Defined.

Lemma get_bytes_length n s : length (get_bytes n s).1 = n.
Proof.
  revert s. induction n as [|n IH]; intros s; simpl; [done|].
  destruct (get_uint 1 s) as [b s1]. specialize (IH s1).
  destruct (get_bytes n s1). simpl in *. congruence.
Qed.

(** When [get_com_id] leaves the error flag clear, the id it returns is
    twelve bytes of the documented shape (nine upper-case letters or digits, an
    underscore, two digits). *)
Theorem get_com_id_valid s c s' :
  get_com_id s = (c, s') → se_error s' = false →
  length c = COMMUNICATION_ID_SIZE ∧ com_id_valid c = true.
Proof.
  unfold get_com_id. pose proof (get_bytes_length COMMUNICATION_ID_SIZE s) as Hl.
  destruct (get_bytes COMMUNICATION_ID_SIZE s) as [c1 s1].
  case_bool_decide; intros [= <- <-]; simpl.
  - done.
  - intros [_ Hv]%orb_false_iff. by apply negb_false_iff in Hv.
Qed.

Lemma get_com_id_valid_witness :
  let c := bytes_of_string "NPWR02973_00" in
  length c = COMMUNICATION_ID_SIZE ∧ com_id_valid c = true.
Proof.
  apply (get_com_id_valid (extractor_new (bytes_of_string "NPWR02973_00"))
    (bytes_of_string "NPWR02973_00") (mkExtractor (bytes_of_string "NPWR02973_00") 12 false));
  vm_compute; reflexivity.
Defined.
