(* ===== verification/Messages.v ===== *)
(** * Protocol messages

    The messages of src/src/server/stream_extractor/np2_structs.proto as the
    records [prost] generates for them (a message field is an [option], a
    repeated field a [list]), and the range checks of
    src/src/server/stream_extractor/protobuf_helpers.rs.  The wire encoding is
    [prost]'s and stays outside: an operation that ends in [encode_to_vec]
    returns the message. *)

From S2P Require Import Prelude Protocol.

Record Uint8 := mkUint8 { uint8_value : Z }.
Record Uint16 := mkUint16 { uint16_value : Z }.

Record SignalingAddr := mkSignalingAddr {
  sa_ip : bytes;
  sa_port : option Uint16;
}.

Record Matching2SignalingInfo := mkMatching2SignalingInfo {
  m2_member_id : option Uint16;
  m2_addr : option SignalingAddr;
}.

Record BinAttr := mkBinAttr {
  ba_id : option Uint16;
  ba_data : bytes;
}.

Record IntAttr := mkIntAttr {
  ia_id : option Uint16;
  ia_num : Z;
}.

Record RoomMemberBinAttrInternal := mkRoomMemberBinAttrInternal {
  rmba_update_date : Z;
  rmba_data : option BinAttr;
}.

Record BinAttrInternal := mkBinAttrInternal {
  bai_update_date : Z;
  bai_update_member_id : option Uint16;
  bai_data : option BinAttr;
}.

Record OptParam := mkOptParam {
  op_type : option Uint8;
  op_flag : option Uint8;
  op_hub_member_id : option Uint16;
}.

Record GroupConfig := mkGroupConfig {
  gc_slot_num : Z;
  gc_label : bytes;
  gc_with_password : bool;
}.

Record UserInfo := mkUserInfo {
  ui_np_id : string;
  ui_online_name : string;
  ui_avatar_url : string;
}.

Record RoomGroup := mkRoomGroup {
  rg_group_id : option Uint8;
  rg_with_password : bool;
  rg_label : bytes;
  rg_slot_num : Z;
  rg_cur_group_member_num : Z;
}.

Record RoomMemberDataInternal := mkRoomMemberDataInternal {
  rmdi_user_info : option UserInfo;
  rmdi_join_date : Z;
  rmdi_member_id : Z;
  rmdi_team_id : option Uint8;
  rmdi_room_group : option RoomGroup;
  rmdi_nat_type : option Uint8;
  rmdi_flag_attr : Z;
  rmdi_room_member_bin_attr_internal : list RoomMemberBinAttrInternal;
}.

Record RoomDataInternal := mkRoomDataInternal {
  rdi_server_id : option Uint16;
  rdi_world_id : Z;
  rdi_lobby_id : Z;
  rdi_room_id : Z;
  rdi_password_slot_mask : Z;
  rdi_max_slot : Z;
  rdi_member_list : list RoomMemberDataInternal;
  rdi_owner_id : option Uint16;
  rdi_room_group : list RoomGroup;
  rdi_flag_attr : Z;
  rdi_room_bin_attr_internal : list BinAttrInternal;
}.

Record RoomDataExternal := mkRoomDataExternal {
  rde_server_id : option Uint16;
  rde_world_id : Z;
  rde_public_slot_num : option Uint16;
  rde_private_slot_num : option Uint16;
  rde_lobby_id : Z;
  rde_room_id : Z;
  rde_open_public_slot_num : option Uint16;
  rde_max_slot : option Uint16;
  rde_open_private_slot_num : option Uint16;
  rde_cur_member_num : option Uint16;
  rde_password_slot_mask : Z;
  rde_owner : option UserInfo;
  rde_room_group : list RoomGroup;
  rde_flag_attr : Z;
  rde_room_searchable_int_attr_external : list IntAttr;
  rde_room_searchable_bin_attr_external : list BinAttr;
  rde_room_bin_attr_external : list BinAttr;
}.

Record RoomMemberDataExternal := mkRoomMemberDataExternal {
  rmde_user_info : option UserInfo;
  rmde_join_date : Z;
  rmde_role : option Uint8;
}.

Record RoomDataExternalAll := mkRoomDataExternalAll {
  rdea_server_id : option Uint16;
  rdea_world_id : Z;
  rdea_public_slot_num : option Uint16;
  rdea_private_slot_num : option Uint16;
  rdea_lobby_id : Z;
  rdea_room_id : Z;
  rdea_open_public_slot_num : option Uint16;
  rdea_max_slot : option Uint16;
  rdea_open_private_slot_num : option Uint16;
  rdea_cur_member_num : option Uint16;
  rdea_password_slot_mask : Z;
  rdea_owner : option UserInfo;
  rdea_room_group : list RoomGroup;
  rdea_flag_attr : Z;
  rdea_room_searchable_int_attr_external : list IntAttr;
  rdea_room_searchable_bin_attr_external : list BinAttr;
  rdea_room_bin_attr_external : list BinAttr;
  rdea_users : list RoomMemberDataExternal;
}.

Record IntSearchFilter := mkIntSearchFilter {
  isf_search_operator : option Uint8;
  isf_attr : option IntAttr;
}.

Record BinSearchFilter := mkBinSearchFilter {
  bsf_search_operator : option Uint8;
  bsf_attr : option BinAttr;
}.

Record PresenceOptionData := mkPresenceOptionData {
  pod_data : bytes;
  pod_len : Z;
}.

Record RoomGroupPasswordConfig := mkRoomGroupPasswordConfig {
  rgpc_group_id : option Uint8;
  rgpc_with_password : bool;
}.

Record SearchRoomRequest := mkSearchRoomRequest {
  sr_option : Z;
  sr_world_id : Z;
  sr_lobby_id : Z;
  sr_range_filter_start_index : Z;
  sr_range_filter_max : Z;
  sr_flag_filter : Z;
  sr_flag_attr : Z;
  sr_int_filter : list IntSearchFilter;
  sr_bin_filter : list BinSearchFilter;
  sr_attr_id : list Uint16;
}.

Record SearchRoomResponse := mkSearchRoomResponse {
  srr_start_index : Z;
  srr_total : Z;
  srr_rooms : list RoomDataExternal;
}.

Record SearchRoomAllResponse := mkSearchRoomAllResponse {
  srar_start_index : Z;
  srar_total : Z;
  srar_rooms : list RoomDataExternalAll;
}.

Record CreateJoinRoomRequest := mkCreateJoinRoomRequest {
  cjr_world_id : Z;
  cjr_lobby_id : Z;
  cjr_max_slot : Z;
  cjr_flag_attr : Z;
  cjr_room_bin_attr_internal : list BinAttr;
  cjr_room_searchable_int_attr_external : list IntAttr;
  cjr_room_searchable_bin_attr_external : list BinAttr;
  cjr_room_bin_attr_external : list BinAttr;
  cjr_room_password : bytes;
  cjr_group_config : list GroupConfig;
  cjr_password_slot_mask : Z;
  cjr_allowed_user : list string;
  cjr_blocked_user : list string;
  cjr_join_room_group_label : bytes;
  cjr_room_member_bin_attr_internal : list BinAttr;
  cjr_team_id : option Uint8;
  cjr_sig_opt_param : option OptParam;
}.

Record CreateRoomResponse := mkCreateRoomResponse {
  crr_internal : option RoomDataInternal;
  crr_opt_param : option OptParam;
}.

Record JoinRoomRequest := mkJoinRoomRequest {
  jr_room_id : Z;
  jr_room_password : bytes;
  jr_join_room_group_label : bytes;
  jr_room_member_bin_attr_internal : list BinAttr;
  jr_opt_data : option PresenceOptionData;
  jr_team_id : option Uint8;
}.

Record JoinRoomResponse := mkJoinRoomResponse {
  jrr_room_data : option RoomDataInternal;
  jrr_signaling_data : list Matching2SignalingInfo;
  jrr_opt_param : option OptParam;
}.

Record LeaveRoomRequest := mkLeaveRoomRequest {
  lr_room_id : Z;
  lr_opt_data : option PresenceOptionData;
}.

Record GetRoomDataExternalListRequest := mkGetRoomDataExternalListRequest {
  gdel_room_ids : list Z;
  gdel_attr_ids : list Uint16;
}.

Record GetRoomDataExternalListResponse := mkGetRoomDataExternalListResponse {
  gdelr_rooms : list RoomDataExternal;
}.

Record SetRoomDataExternalRequest := mkSetRoomDataExternalRequest {
  sde_room_id : Z;
  sde_room_searchable_int_attr_external : list IntAttr;
  sde_room_searchable_bin_attr_external : list BinAttr;
  sde_room_bin_attr_external : list BinAttr;
}.

Record SetRoomDataInternalRequest := mkSetRoomDataInternalRequest {
  sdi_room_id : Z;
  sdi_flag_filter : Z;
  sdi_flag_attr : Z;
  sdi_room_bin_attr_internal : list BinAttr;
  sdi_password_config : list RoomGroupPasswordConfig;
  sdi_password_slot_mask : list Z;
  sdi_owner_privilege_rank : list Uint16;
}.

Record GetRoomMemberDataInternalRequest := mkGetRoomMemberDataInternalRequest {
  gmdi_room_id : Z;
  gmdi_member_id : option Uint16;
  gmdi_attr_id : list Uint16;
}.

Record SetRoomMemberDataInternalRequest := mkSetRoomMemberDataInternalRequest {
  smdi_room_id : Z;
  smdi_member_id : option Uint16;
  smdi_team_id : option Uint8;
  smdi_room_member_bin_attr_internal : list BinAttr;
}.

Record GetRoomDataInternalRequest := mkGetRoomDataInternalRequest {
  gdi_room_id : Z;
  gdi_attr_id : list Uint16;
}.

Record RoomMemberUpdateInfo := mkRoomMemberUpdateInfo {
  rmui_room_member_data_internal : option RoomMemberDataInternal;
  rmui_event_cause : option Uint8;
  rmui_opt_data : option PresenceOptionData;
}.

Record NotificationUserJoinedRoom := mkNotificationUserJoinedRoom {
  nujr_room_id : Z;
  nujr_update_info : option RoomMemberUpdateInfo;
  nujr_signaling : option SignalingAddr;
}.

Record RoomUpdateInfo := mkRoomUpdateInfo {
  rui_event_cause : option Uint8;
  rui_error_code : Z;
  rui_opt_data : option PresenceOptionData;
}.

Record RoomDataInternalUpdateInfo := mkRoomDataInternalUpdateInfo {
  rdiui_new_room_data_internal : option RoomDataInternal;
  rdiui_prev_flag_attr : Z;
  rdiui_prev_room_password_slot_mask : Z;
  rdiui_new_room_group : bytes;
  rdiui_new_room_bin_attr_internal : list Uint16;
}.

Record RoomMemberDataInternalUpdateInfo := mkRoomMemberDataInternalUpdateInfo {
  rmdiui_new_room_member_data_internal : option RoomMemberDataInternal;
  rmdiui_prev_flag_attr : Z;
  rmdiui_prev_team_id : option Uint8;
  rmdiui_new_room_member_bin_attr_internal : list Uint16;
}.

Record GetPingInfoResponse := mkGetPingInfoResponse {
  gpi_server_id : option Uint16;
  gpi_world_id : Z;
  gpi_room_id : Z;
  gpi_rtt : Z;
}.

Record SendRoomMessageRequest := mkSendRoomMessageRequest {
  srm_room_id : Z;
  srm_cast_type : option Uint8;
  srm_dst : list Uint16;
  srm_msg : bytes;
  srm_option : option Uint8;
}.

Record RoomMessageInfo := mkRoomMessageInfo {
  rmi_filtered : bool;
  rmi_cast_type : option Uint8;
  rmi_dst : list Uint16;
  rmi_src_member : option UserInfo;
  rmi_msg : bytes;
}.

Record ScoreRankData := mkScoreRankData {
  srd_np_id : string;
  srd_online_name : string;
  srd_pc_id : Z;
  srd_rank : Z;
  srd_score : Z;
  srd_has_game_data : bool;
  srd_record_date : Z;
}.

Record ScoreInfo := mkScoreInfo {
  si_data : bytes;
}.

Record GetScoreResponse := mkGetScoreResponse {
  gsr_rank_array : list ScoreRankData;
  gsr_comment_array : list string;
  gsr_info_array : list ScoreInfo;
  gsr_last_sort_date : Z;
  gsr_total_record : Z;
}.

Record MatchingSearchCondition := mkMatchingSearchCondition {
  msc_attr_type : Z;
  msc_attr_id : Z;
  msc_comp_op : Z;
  msc_comp_value : Z;
}.

Record MatchingAttr := mkMatchingAttr {
  ma_attr_type : Z;
  ma_attr_id : Z;
  ma_num : Z;
  ma_data : bytes;
}.

Record CreateRoomGuiRequest := mkCreateRoomGuiRequest {
  crg_total_slots : Z;
  crg_private_slots : Z;
  crg_privilege_grant : bool;
  crg_stealth : bool;
  crg_game_attrs : list MatchingAttr;
}.

Record GuiUserInfo := mkGuiUserInfo {
  gui_info : option UserInfo;
  gui_owner : bool;
}.

Record MatchingRoomStatus := mkMatchingRoomStatus {
  mrs_id : bytes;
  mrs_members : list GuiUserInfo;
  mrs_kick_actor : string;
  mrs_opt : bytes;
}.

Record GetRoomListGuiRequest := mkGetRoomListGuiRequest {
  grl_range_start : Z;
  grl_range_max : Z;
  grl_conds : list MatchingSearchCondition;
  grl_attrs : list MatchingAttr;
}.

Record MatchingRoom := mkMatchingRoom {
  mr_id : bytes;
  mr_attr : list MatchingAttr;
}.

Record MatchingRoomList := mkMatchingRoomList {
  mrl_start : Z;
  mrl_total : Z;
  mrl_rooms : list MatchingRoom;
}.

Record MatchingGuiRoomId := mkMatchingGuiRoomId {
  mgri_id : bytes;
}.

Record SetRoomSearchFlagGui := mkSetRoomSearchFlagGui {
  srsf_roomid : bytes;
  srsf_stealth : bool;
}.

Record QuickMatchGuiRequest := mkQuickMatchGuiRequest {
  qm_conds : list MatchingSearchCondition;
  qm_available_num : Z;
}.

Record SearchJoinRoomGuiRequest := mkSearchJoinRoomGuiRequest {
  sj_conds : list MatchingSearchCondition;
  sj_attrs : list MatchingAttr;
}.

Record MatchingSearchJoinRoomInfo := mkMatchingSearchJoinRoomInfo {
  msj_room : option MatchingRoomStatus;
  msj_attr : list MatchingAttr;
}.

Record GetRoomMemberDataExternalListResponse := mkGetRoomMemberDataExternalListResponse {
  gmdelr_members : list RoomMemberDataExternal;
}.

(** ** Range checks (the traits of protobuf_helpers.rs) *)

Class ProtobufVerifier (P : Type) := get_verified : P → res ErrorType Z.
Class ProtobufMaker (P : Type) := new_from_value : Z → option P.

#[export] Instance Uint16_verifier : ProtobufVerifier Uint16 := λ p,
  if bool_decide (u16_max < uint16_value p) then Err Malformed
  else Ok (wrap_u16 (uint16_value p)).

#[export] Instance Uint16_maker : ProtobufMaker Uint16 := λ v, Some (mkUint16 v).

#[export] Instance option_Uint16_verifier : ProtobufVerifier (option Uint16) := λ p,
  match p with None => Err Malformed | Some uint16 => get_verified uint16 end.

#[export] Instance Uint8_verifier : ProtobufVerifier Uint8 := λ p,
  if bool_decide (u8_max < uint8_value p) then Err Malformed
  else Ok (wrap_u8 (uint8_value p)).

#[export] Instance Uint8_maker : ProtobufMaker Uint8 := λ v, Some (mkUint8 v).

#[export] Instance option_Uint8_verifier : ProtobufVerifier (option Uint8) := λ p,
  match p with None => Err Malformed | Some uint8 => get_verified uint8 end.

(** What a maker promises its verifier: values of the width survive the round
    trip, and the verifier never lets a value outside the width through. *)
Class VerifiedWidth (P : Type) `{ProtobufMaker P} `{!ProtobufVerifier (option P)} (bits : Z) := {
  verified_roundtrip v : 0 ≤ v < 2 ^ bits → get_verified (new_from_value (P:=P) v) = Ok v;
  verified_range (p : option P) v : get_verified p = Ok v → 0 ≤ v < 2 ^ bits;
  verified_no_panic (p : option P) : no_panic (get_verified p);
}.

#[export] Instance Uint16_width : VerifiedWidth Uint16 16.
Proof.
  split; unfold get_verified, new_from_value, option_Uint16_verifier, Uint16_maker,
    get_verified, Uint16_verifier, wrap_u16, u16_max, no_panic; simpl.
  - intros v Hv. rewrite bool_decide_eq_false_2 by lia. by rewrite Z.mod_small.
  - intros [[p]|] v; [|done]. simpl. case_bool_decide; [done|]. intros [= <-].
    by apply Z.mod_pos_bound.
  - intros [[p]|]; [|done]. case_bool_decide; done.
Qed.

#[export] Instance Uint8_width : VerifiedWidth Uint8 8.
Proof.
  split; unfold get_verified, new_from_value, option_Uint8_verifier, Uint8_maker,
    get_verified, Uint8_verifier, wrap_u8, u8_max, no_panic; simpl.
  - intros v Hv. rewrite bool_decide_eq_false_2 by lia. by rewrite Z.mod_small.
  - intros [[p]|] v; [|done]. simpl. case_bool_decide; [done|]. intros [= <-].
    by apply Z.mod_pos_bound.
  - intros [[p]|]; [|done]. case_bool_decide; done.
Qed.
