(* ===== verification/StorageMessages.v ===== *)
(** * Messages of the storage, score and messaging requests

    The rest of src/src/server/stream_extractor/np2_structs.proto that the handlers
    use, as the records [prost] generates. *)

From S2P Require Import Prelude Protocol Messages.

Record MatchingSignalingInfo := mkMatchingSignalingInfo {
  msi_npid : string;
  msi_addr : option SignalingAddr;
}.

Record SetUserInfo := mkSetUserInfo {
  sui_server_id : option Uint16;
  sui_user_bin_attr : list BinAttr;
}.

Record MessageDetails := mkMessageDetails {
  md_communication_id : string;
  md_msg_id : Z;
  md_main_type : option Uint16;
  md_sub_type : option Uint16;
  md_msg_features : Z;
  md_subject : string;
  md_body : string;
  md_data : bytes;
}.

Record SendMessageRequest := mkSendMessageRequest {
  smr_message : bytes;
  smr_npids : list string;
}.

Record BoardInfo := mkBoardInfo {
  bo_rank_limit : Z;
  bo_update_mode : Z;
  bo_sort_mode : Z;
  bo_upload_num_limit : Z;
  bo_upload_size_limit : Z;
}.

Record RecordScoreRequest := mkRecordScoreRequest {
  rsr_board_id : Z;
  rsr_pc_id : Z;
  rsr_score : Z;
  rsr_comment : string;
  rsr_data : bytes;
}.

Record GetScoreRangeRequest := mkGetScoreRangeRequest {
  gsra_board_id : Z;
  gsra_start_rank : Z;
  gsra_num_ranks : Z;
  gsra_with_comment : bool;
  gsra_with_game_info : bool;
}.

Record ScoreNpIdPcId := mkScoreNpIdPcId {
  snp_npid : string;
  snp_pc_id : Z;
}.

Record GetScoreNpIdRequest := mkGetScoreNpIdRequest {
  gsn_board_id : Z;
  gsn_npids : list ScoreNpIdPcId;
  gsn_with_comment : bool;
  gsn_with_game_info : bool;
}.

Record GetScoreFriendsRequest := mkGetScoreFriendsRequest {
  gsf_board_id : Z;
  gsf_include_self : bool;
  gsf_max : Z;
  gsf_with_comment : bool;
  gsf_with_game_info : bool;
}.

Record RecordScoreGameDataRequest := mkRecordScoreGameDataRequest {
  rsg_board_id : Z;
  rsg_pc_id : Z;
  rsg_score : Z;
}.

Record GetScoreGameDataRequest := mkGetScoreGameDataRequest {
  gsg_board_id : Z;
  gsg_np_id : string;
  gsg_pc_id : Z;
}.

Record TusUser := mkTusUser {
  tu_vuser : bool;
  tu_npid : string;
}.

Record TusVariable := mkTusVariable {
  tvar_owner_id : string;
  tvar_has_data : bool;
  tvar_last_changed_date : Z;
  tvar_last_changed_author_id : string;
  tvar_variable : Z;
  tvar_old_variable : Z;
}.

Record TusVarResponse := mkTusVarResponse {
  tvr_vars : list TusVariable;
}.

Record TusSetMultiSlotVariableRequest := mkTusSetMultiSlotVariableRequest {
  tsm_user : option TusUser;
  tsm_slot_id_array : list Z;
  tsm_variable_array : list Z;
}.

Record TusGetMultiSlotVariableRequest := mkTusGetMultiSlotVariableRequest {
  tgm_user : option TusUser;
  tgm_slot_id_array : list Z;
}.

Record TusGetMultiUserVariableRequest := mkTusGetMultiUserVariableRequest {
  tgu_users : list TusUser;
  tgu_slot_id : Z;
}.

Record TusGetFriendsVariableRequest := mkTusGetFriendsVariableRequest {
  tgf_slot_id : Z;
  tgf_include_self : bool;
  tgf_sort_type : Z;
  tgf_array_num : Z;
}.

Record TusAddAndGetVariableRequest := mkTusAddAndGetVariableRequest {
  tag_user : option TusUser;
  tag_slot_id : Z;
  tag_in_variable : Z;
  tag_is_last_changed_date : list Z;
  tag_is_last_changed_author_id : string;
}.

Record TusTryAndSetVariableRequest := mkTusTryAndSetVariableRequest {
  tts_user : option TusUser;
  tts_slot_id : Z;
  tts_ope_type : Z;
  tts_variable : Z;
  tts_is_last_changed_date : list Z;
  tts_is_last_changed_author_id : string;
  tts_compare_value : list Z;
}.

Record TusDeleteMultiSlotVariableRequest := mkTusDeleteMultiSlotVariableRequest {
  tdm_user : option TusUser;
  tdm_slot_id_array : list Z;
}.

Record TusSetDataRequest := mkTusSetDataRequest {
  tsd_user : option TusUser;
  tsd_slot_id : Z;
  tsd_data : bytes;
  tsd_info : bytes;
  tsd_is_last_changed_date : list Z;
  tsd_is_last_changed_author_id : string;
}.

Record TusDataStatus := mkTusDataStatus {
  tds_owner_id : string;
  tds_has_data : bool;
  tds_last_changed_date : Z;
  tds_last_changed_author_id : string;
  tds_info : bytes;
}.

Record TusData := mkTusData {
  tda_status : option TusDataStatus;
  tda_data : bytes;
}.

Record TusDataStatusResponse := mkTusDataStatusResponse {
  tdsr_status : list TusDataStatus;
}.

Record TusGetDataRequest := mkTusGetDataRequest {
  tgd_user : option TusUser;
  tgd_slot_id : Z;
}.

Record TusGetMultiSlotDataStatusRequest := mkTusGetMultiSlotDataStatusRequest {
  tgms_user : option TusUser;
  tgms_slot_id_array : list Z;
}.

Record TusGetMultiUserDataStatusRequest := mkTusGetMultiUserDataStatusRequest {
  tgus_users : list TusUser;
  tgus_slot_id : Z;
}.

Record TusGetFriendsDataStatusRequest := mkTusGetFriendsDataStatusRequest {
  tgfs_slot_id : Z;
  tgfs_include_self : bool;
  tgfs_sort_type : Z;
  tgfs_array_num : Z;
}.

Record TusDeleteMultiSlotDataRequest := mkTusDeleteMultiSlotDataRequest {
  tdmd_user : option TusUser;
  tdmd_slot_id_array : list Z;
}.

Record SetPresenceRequest := mkSetPresenceRequest {
  spr_title : string;
  spr_status : string;
  spr_comment : string;
  spr_data : bytes;
}.
