(* ===== verification/RoomData.v ===== *)
(** * The data of a matchmaking room (src/src/server/room_manager.rs, first part)

    Binary and integer attributes, group configurations, signaling parameters and
    room members, with their conversions from and to protocol messages.  Clock
    readings ([Client::get_psn_timestamp]) are the argument [now]: one reading
    per operation. *)

From S2P Require Import Prelude Protocol Messages.

Abbreviation R := (res ErrorType).

(** ** Constants *)

Definition INT_ATTR_EXTERNAL_1_ID : Z := 0x4C.
Definition INT_ATTR_EXTERNAL_8_ID : Z := 0x53.
Definition SEARCHABLE_BIN_ATTR_EXTERNAL_1_ID : Z := 0x54.
Definition BIN_ATTR_EXTERNAL_1_ID : Z := 0x55.
Definition BIN_ATTR_EXTERNAL_2_ID : Z := 0x56.
Definition BIN_ATTR_INTERNAL_1_ID : Z := 0x57.
Definition BIN_ATTR_INTERNAL_2_ID : Z := 0x58.
Definition ROOMMEMBER_BIN_ATTR_INTERNAL_1_ID : Z := 0x59.

Definition SESSION_PASSWORD_SIZE : nat := 8.
Definition GROUP_LABEL_SIZE : nat := 8.

Definition ROOM_FLAG_ATTR_FULL : Z := 0x20000000.
Definition ROOM_FLAG_ATTR_HIDDEN : Z := 0x10000000.
Definition ROOM_FLAG_ATTR_NAT_TYPE_RESTRICTION : Z := 0x04000000.
Definition PROTECTED_ROOM_FLAGS : Z := ROOM_FLAG_ATTR_FULL.
Definition ROOMMEMBER_FLAG_ATTR_OWNER : Z := 0x80000000.
Definition ROLE_MEMBER : Z := 1.
Definition ROLE_OWNER : Z := 2.
Definition CREATOR_ROOM_MEMBER_ID : Z := 16.

Inductive SceNpMatching2Operator : Set :=
| OperatorEq | OperatorNe | OperatorLt | OperatorLe | OperatorGt | OperatorGe.

(** [FromPrimitive::from_u8] of the operator and of the signaling type. *)
Definition operator_from_u8 (n : Z) : option SceNpMatching2Operator :=
  match n with
  | 1 => Some OperatorEq | 2 => Some OperatorNe | 3 => Some OperatorLt
  | 4 => Some OperatorLe | 5 => Some OperatorGt | 6 => Some OperatorGe
  | _ => None
  end.

Inductive SignalingType : Set := SignalingNone | SignalingMesh | SignalingStar.

Definition signaling_type_from_u8 (n : Z) : option SignalingType :=
  match n with
  | 0 => Some SignalingNone | 1 => Some SignalingMesh | 2 => Some SignalingStar
  | _ => None
  end.

Definition signaling_type_discr (t : SignalingType) : Z :=
  match t with SignalingNone => 0 | SignalingMesh => 1 | SignalingStar => 2 end.

(** ** Attributes *)

(** [RoomBinAttr<N>]: an array of [N] bytes of which [cur_size] are in use. *)
Record RoomBinAttr := mkRoomBinAttr {
  rb_id : Z;
  rb_attr : bytes;
  rb_cur_size : nat;
}.

Definition RoomBinAttr_with_id (N : nat) (id : Z) : RoomBinAttr :=
  mkRoomBinAttr id (replicate N 0) 0.

Definition RoomBinAttr_from_protobuf (N : nat) (pb : BinAttr) : R RoomBinAttr :=
  let? id := get_verified (ba_id pb) in
  let len := length (ba_data pb) in
  if bool_decide (N < len)%nat then Err Malformed
  else Ok (mkRoomBinAttr id (ba_data pb ++ replicate (N - len) 0) len).

Definition RoomBinAttr_to_protobuf (a : RoomBinAttr) : BinAttr :=
  mkBinAttr (new_from_value (rb_id a)) (take (rb_cur_size a) (rb_attr a)).

Record RoomMemberBinAttr := mkRoomMemberBinAttr {
  rmb_update_date : Z;
  rmb_data : RoomBinAttr;
}.

Definition RoomMemberBinAttr_new (now : Z) : RoomMemberBinAttr :=
  mkRoomMemberBinAttr now (RoomBinAttr_with_id 128 ROOMMEMBER_BIN_ATTR_INTERNAL_1_ID).

Definition RoomMemberBinAttr_from_protobuf (now : Z) (pb : BinAttr) : R RoomMemberBinAttr :=
  let? data := RoomBinAttr_from_protobuf 128 pb in Ok (mkRoomMemberBinAttr now data).

Definition RoomMemberBinAttr_to_protobuf (a : RoomMemberBinAttr) : RoomMemberBinAttrInternal :=
  mkRoomMemberBinAttrInternal (rmb_update_date a) (Some (RoomBinAttr_to_protobuf (rmb_data a))).

Record RoomBinAttrInternal := mkRoomBinAttrInternal {
  rbi_update_date : Z;
  rbi_update_member_id : Z;
  rbi_data : RoomBinAttr;
}.

Definition RoomBinAttrInternal_with_id (now id : Z) : RoomBinAttrInternal :=
  mkRoomBinAttrInternal now CREATOR_ROOM_MEMBER_ID (RoomBinAttr_with_id 256 id).

Definition RoomBinAttrInternal_from_protobuf (now : Z) (pb : BinAttr) (member_id : Z) :
  R RoomBinAttrInternal :=
  let? data := RoomBinAttr_from_protobuf 256 pb in Ok (mkRoomBinAttrInternal now member_id data).

Definition RoomBinAttrInternal_to_protobuf (a : RoomBinAttrInternal) : BinAttrInternal :=
  mkBinAttrInternal (rbi_update_date a) (new_from_value (rbi_update_member_id a))
    (Some (RoomBinAttr_to_protobuf (rbi_data a))).

Record RoomIntAttr := mkRoomIntAttr { ri_id : Z; ri_attr : Z }.

Definition RoomIntAttr_with_id (id : Z) : RoomIntAttr := mkRoomIntAttr id 0.

Definition RoomIntAttr_from_protobuf (pb : IntAttr) : R RoomIntAttr :=
  let? id := get_verified (ia_id pb) in Ok (mkRoomIntAttr id (ia_num pb)).

Definition RoomIntAttr_to_protobuf (a : RoomIntAttr) : IntAttr :=
  mkIntAttr (new_from_value (ri_id a)) (ri_attr a).

(** ** Groups *)

Record RoomGroupConfig := mkRoomGroupConfig {
  g_slot_num : Z;
  g_fixed_label : bool;
  g_label : option bytes;
  g_with_password : bool;
  g_group_id : Z;
  g_num_members : Z;
}.
#[export] Instance group_eta : Eta RoomGroupConfig := λ g,
  mkRoomGroupConfig (g_slot_num g) (g_fixed_label g) (g_label g) (g_with_password g)
    (g_group_id g) (g_num_members g).

Definition RoomGroupConfig_from_protobuf (pb : GroupConfig) (group_id : Z) : RoomGroupConfig :=
  let label := if bool_decide (length (gc_label pb) = GROUP_LABEL_SIZE)
               then Some (gc_label pb) else None in
  mkRoomGroupConfig (gc_slot_num pb) (bool_decide (is_Some label)) label
    (gc_with_password pb) group_id 0.

Definition RoomGroupConfig_to_protobuf (g : RoomGroupConfig) : RoomGroup :=
  mkRoomGroup (new_from_value (g_group_id g)) (g_with_password g) (default [] (g_label g))
    (g_slot_num g) (g_num_members g).

(** ** Signaling *)

Record SignalParam := mkSignalParam {
  sp_sig_type : SignalingType;
  sp_flag : Z;
  sp_hub_member_id : Z;
}.

Definition SignalParam_from_protobuf (pb : OptParam) : R SignalParam :=
  let? ty := get_verified (op_type pb) in
  let? sig_type := ok_or Malformed (signaling_type_from_u8 ty) in
  let? flag := get_verified (op_flag pb) in
  let? hub_member_id := get_verified (op_hub_member_id pb) in
  Ok (mkSignalParam sig_type flag hub_member_id).

Definition SignalParam_to_protobuf (s : SignalParam) : OptParam :=
  mkOptParam (new_from_value (signaling_type_discr (sp_sig_type s)))
    (new_from_value (sp_flag s)) (new_from_value (sp_hub_member_id s)).

Definition should_signal (s : SignalParam) : bool :=
  match sp_sig_type s with
  | SignalingNone => false
  | _ => bool_decide (Z.land (sp_flag s) 1 ≠ 1)
  end.

(** ** Members *)

Record RoomUser := mkRoomUser {
  u_user_id : Z;
  u_npid : string;
  u_online_name : string;
  u_avatar_url : string;
  u_join_date : Z;
  u_flag_attr : Z;
  u_group_id : Z;
  u_member_attr : RoomMemberBinAttr;
  u_team_id : Z;
  u_member_id : Z;
  u_signaling_info : ClientSharedSignalingInfo;
}.
#[export] Instance user_eta : Eta RoomUser := λ u,
  mkRoomUser (u_user_id u) (u_npid u) (u_online_name u) (u_avatar_url u) (u_join_date u)
    (u_flag_attr u) (u_group_id u) (u_member_attr u) (u_team_id u) (u_member_id u)
    (u_signaling_info u).

(** The user record both requests start from: no identity yet. *)
Definition RoomUser_blank (now : Z) (attr : RoomMemberBinAttr) (team_id : Z)
  (signaling_info : ClientSharedSignalingInfo) : RoomUser :=
  mkRoomUser 0 "" "" "" now 0 0 attr team_id 0 signaling_info.

Definition RoomUser_from_CreateJoinRoomRequest (now : Z) (pb : CreateJoinRoomRequest)
  (signaling_info : ClientSharedSignalingInfo) : R RoomUser :=
  let? member_attr :=
    match cjr_room_member_bin_attr_internal pb with
    | [bin_attr] =>
        let? bin_attr_id := get_verified (ba_id bin_attr) in
        if bool_decide (bin_attr_id = ROOMMEMBER_BIN_ATTR_INTERNAL_1_ID)
        then RoomMemberBinAttr_from_protobuf now bin_attr
        else Err Malformed
    | [] => Ok (RoomMemberBinAttr_new now)
    | _ => Err Malformed
    end in
  let? team_id := get_verified (cjr_team_id pb) in
  Ok (RoomUser_blank now member_attr team_id signaling_info).

Definition RoomUser_from_JoinRoomRequest (now : Z) (pb : JoinRoomRequest)
  (signaling_info : ClientSharedSignalingInfo) : R RoomUser :=
  let? member_attr :=
    match jr_room_member_bin_attr_internal pb with
    | [bin_attr] =>
        let? bin_attr_id := get_verified (ba_id bin_attr) in
        if bool_decide (bin_attr_id = ROOMMEMBER_BIN_ATTR_INTERNAL_1_ID)
        then RoomMemberBinAttr_from_protobuf now bin_attr
        else Ok (RoomMemberBinAttr_new now)
    | _ => Ok (RoomMemberBinAttr_new now)
    end in
  let? team_id := get_verified (jr_team_id pb) in
  Ok (RoomUser_blank now member_attr team_id signaling_info).

Definition RoomUser_info (u : RoomUser) : UserInfo :=
  mkUserInfo (u_npid u) (u_online_name u) (u_avatar_url u).

(** [group_config] is the room's; a group id beyond it panics. *)
Definition to_RoomMemberDataInternal (u : RoomUser) (group_config : list RoomGroupConfig) :
  R RoomMemberDataInternal :=
  let? room_group :=
    if bool_decide (u_group_id u ≠ 0)
    then let? g := index group_config (u_group_id u - 1) in Ok (Some (RoomGroupConfig_to_protobuf g))
    else Ok None in
  Ok (mkRoomMemberDataInternal (Some (RoomUser_info u)) (u_join_date u) (u_member_id u)
        (new_from_value (u_team_id u)) room_group (new_from_value 2) (u_flag_attr u)
        [RoomMemberBinAttr_to_protobuf (u_member_attr u)]).

Definition to_roomMemberDataExternal (u : RoomUser) : RoomMemberDataExternal :=
  let role := if bool_decide (Z.land (u_flag_attr u) ROOMMEMBER_FLAG_ATTR_OWNER ≠ 0)
              then new_from_value ROLE_OWNER else new_from_value ROLE_MEMBER in
  mkRoomMemberDataExternal (Some (RoomUser_info u)) (u_join_date u) role.

(** ** Properties *)

(** A binary attribute of [N] bytes: the array has its size and the part past
    [cur_size] is zero. *)
Definition bin_attr_wf (N : nat) (a : RoomBinAttr) : Prop :=
  length (rb_attr a) = N ∧ (rb_cur_size a ≤ N)%nat.

Lemma RoomBinAttr_with_id_wf N id : bin_attr_wf N (RoomBinAttr_with_id N id).
Proof. split; simpl; [apply length_replicate|lia]. Qed.

Lemma RoomBinAttr_from_protobuf_Ok N pb a :
  RoomBinAttr_from_protobuf N pb = Ok a →
  get_verified (ba_id pb) = Ok (rb_id a) ∧ bin_attr_wf N a ∧
  take (rb_cur_size a) (rb_attr a) = ba_data pb.
Proof.
  unfold RoomBinAttr_from_protobuf. intros (id & Hid & H)%res_bind_Ok.
  case_bool_decide; simplify_eq/=. split; [done|]. split.
  - split; simpl; [rewrite length_app, length_replicate|]; lia.
  - apply take_app_length.
Qed.

Lemma RoomBinAttr_from_protobuf_no_panic N pb : no_panic (RoomBinAttr_from_protobuf N pb).
Proof.
  apply res_bind_no_panic; [apply (verified_no_panic (P:=Uint16) (bits:=16))|].
  intros id _. simpl. by case_bool_decide.
Qed.

(** Decoding a binary attribute and encoding it again gives the message
    back (whatever the padding of the array), and a message longer than the
    array is refused as malformed instead of truncated. *)
Theorem RoomBinAttr_roundtrip N id data :
  0 ≤ id < 2 ^ 16 →
  res_map RoomBinAttr_to_protobuf (RoomBinAttr_from_protobuf N (mkBinAttr (new_from_value id) data)) =
  if bool_decide (length data ≤ N)%nat then Ok (mkBinAttr (new_from_value id) data) else Err Malformed.
Proof.
  intros Hid. unfold RoomBinAttr_from_protobuf, RoomBinAttr_to_protobuf. cbn [ba_id ba_data].
  rewrite (verified_roundtrip (P:=Uint16) (bits:=16)) by done. simpl.
  repeat case_bool_decide; try lia; [done|]. simpl. by rewrite take_app_length.
Qed.

Lemma RoomBinAttr_roundtrip_witness :
  res_map RoomBinAttr_to_protobuf
    (RoomBinAttr_from_protobuf 4 (mkBinAttr (new_from_value 0x55) [1; 2; 3])) =
  Ok (mkBinAttr (new_from_value 0x55) [1; 2; 3]).
Proof. apply (RoomBinAttr_roundtrip 4 0x55 [1; 2; 3]). lia. Defined.
