(* ===== verification/Room.v ===== *)
(** * A matchmaking room (src/src/server/room_manager.rs, [impl Room])

    The room record, its construction from a creation request, the messages it is
    reported in, the search predicates and the allocation of slots and member
    ids.  Methods on [&mut self] are programs over [Room]; a method that can only
    read is a function. *)

From S2P Require Import Prelude Protocol Messages RoomData.

Record Room := mkRoom {
  r_world_id : Z;
  r_lobby_id : Z;
  r_max_slot : Z;
  r_flag_attr : Z;
  r_bin_attr_internal : list RoomBinAttrInternal;
  r_bin_attr_external : list RoomBinAttr;
  r_search_bin_attr : RoomBinAttr;
  r_search_int_attr : list RoomIntAttr;
  r_room_password : option bytes;
  r_group_config : list RoomGroupConfig;
  r_password_slot_mask : Z;
  r_allowed_users : list string;
  r_blocked_users : list string;
  r_signaling_param : option SignalParam;
  r_server_id : Z;
  r_room_id : Z;
  r_slots : list bool;
  r_member_id_counter : Z;
  r_users : gmap Z RoomUser;
  r_owner : Z;
  r_owner_succession : list Z;
}.
#[export] Instance room_eta : Eta Room := λ r,
  mkRoom (r_world_id r) (r_lobby_id r) (r_max_slot r) (r_flag_attr r) (r_bin_attr_internal r)
    (r_bin_attr_external r) (r_search_bin_attr r) (r_search_int_attr r) (r_room_password r)
    (r_group_config r) (r_password_slot_mask r) (r_allowed_users r) (r_blocked_users r)
    (r_signaling_param r) (r_server_id r) (r_room_id r) (r_slots r) (r_member_id_counter r)
    (r_users r) (r_owner r) (r_owner_succession r).

(** ** Construction *)

(** One iteration of the attribute loops: an attribute with an id outside the
    table is skipped, a malformed one aborts. *)
Definition store_bin_attr_internal (now member_id : Z) (attrs : list RoomBinAttrInternal)
  (pb : BinAttr) : R (list RoomBinAttrInternal) :=
  let? a := RoomBinAttrInternal_from_protobuf now pb member_id in
  let id := rb_id (rbi_data a) in
  if bool_decide (id ≠ BIN_ATTR_INTERNAL_1_ID) && bool_decide (id ≠ BIN_ATTR_INTERNAL_2_ID)
  then Ok attrs
  else index_set attrs (id - BIN_ATTR_INTERNAL_1_ID) a.

Definition store_bin_attr_external (attrs : list RoomBinAttr) (pb : BinAttr) : R (list RoomBinAttr) :=
  let? a := RoomBinAttr_from_protobuf 256 pb in
  if bool_decide (rb_id a ≠ BIN_ATTR_EXTERNAL_1_ID) && bool_decide (rb_id a ≠ BIN_ATTR_EXTERNAL_2_ID)
  then Ok attrs
  else index_set attrs (rb_id a - BIN_ATTR_EXTERNAL_1_ID) a.

Definition store_search_bin_attr (attr : RoomBinAttr) (pb : BinAttr) : R RoomBinAttr :=
  let? a := RoomBinAttr_from_protobuf 64 pb in
  if bool_decide (rb_id a ≠ SEARCHABLE_BIN_ATTR_EXTERNAL_1_ID) then Ok attr else Ok a.

Definition store_search_int_attr (attrs : list RoomIntAttr) (pb : IntAttr) : R (list RoomIntAttr) :=
  let? a := RoomIntAttr_from_protobuf pb in
  if bool_decide (ri_id a < INT_ATTR_EXTERNAL_1_ID) || bool_decide (INT_ATTR_EXTERNAL_8_ID < ri_id a)
  then Ok attrs
  else index_set attrs (ri_id a - INT_ATTR_EXTERNAL_1_ID) a.

Definition Room_from_protobuf (now : Z) (pb : CreateJoinRoomRequest) : R Room :=
  let max_slot := wrap_u16 (cjr_max_slot pb) in
  let flag_attr := Z.land (cjr_flag_attr pb) (not_u 32 PROTECTED_ROOM_FLAGS) in
  let? bin_attr_internal :=
    res_fold (store_bin_attr_internal now CREATOR_ROOM_MEMBER_ID)
      [RoomBinAttrInternal_with_id now BIN_ATTR_INTERNAL_1_ID;
       RoomBinAttrInternal_with_id now BIN_ATTR_INTERNAL_2_ID]
      (cjr_room_bin_attr_internal pb) in
  let? bin_attr_external :=
    res_fold store_bin_attr_external
      [RoomBinAttr_with_id 256 BIN_ATTR_EXTERNAL_1_ID;
       RoomBinAttr_with_id 256 BIN_ATTR_EXTERNAL_2_ID]
      (cjr_room_bin_attr_external pb) in
  let? search_bin_attr :=
    res_fold store_search_bin_attr (RoomBinAttr_with_id 64 SEARCHABLE_BIN_ATTR_EXTERNAL_1_ID)
      (cjr_room_searchable_bin_attr_external pb) in
  let? search_int_attr :=
    res_fold store_search_int_attr
      ((λ k, RoomIntAttr_with_id (INT_ATTR_EXTERNAL_1_ID + k)) <$> [0; 1; 2; 3; 4; 5; 6; 7])
      (cjr_room_searchable_int_attr_external pb) in
  let room_password :=
    if bool_decide (length (cjr_room_password pb) = 8%nat)
    then Some (cjr_room_password pb) else None in
  let group_config :=
    imap (λ i gc, RoomGroupConfig_from_protobuf gc (wrap_u8 (Z.of_nat i + 1))) (cjr_group_config pb) in
  let? signaling_param :=
    match cjr_sig_opt_param pb with
    | Some sig_opt => let? s := SignalParam_from_protobuf sig_opt in Ok (Some s)
    | None => Ok None
    end in
  Ok {| r_world_id := cjr_world_id pb;
        r_lobby_id := cjr_lobby_id pb;
        r_max_slot := max_slot;
        r_flag_attr := flag_attr;
        r_bin_attr_internal := bin_attr_internal;
        r_bin_attr_external := bin_attr_external;
        r_search_bin_attr := search_bin_attr;
        r_search_int_attr := search_int_attr;
        r_room_password := room_password;
        r_group_config := group_config;
        r_password_slot_mask := cjr_password_slot_mask pb;
        r_allowed_users := cjr_allowed_user pb;
        r_blocked_users := cjr_blocked_user pb;
        r_signaling_param := signaling_param;
        r_server_id := 0;
        r_room_id := 0;
        r_slots := replicate (Z.to_nat max_slot) false;
        r_member_id_counter := 0;
        r_users := ∅;
        r_owner := 0;
        r_owner_succession := [] |}.

(** ** Reports *)

Definition to_RoomDataInternal (room : Room) : R RoomDataInternal :=
  let? member_list :=
    res_map_list (λ u, to_RoomMemberDataInternal u (r_group_config room)) (btree_values (r_users room)) in
  Ok {| rdi_server_id := new_from_value (r_server_id room);
        rdi_world_id := r_world_id room;
        rdi_lobby_id := r_lobby_id room;
        rdi_room_id := r_room_id room;
        rdi_password_slot_mask := r_password_slot_mask room;
        rdi_max_slot := r_max_slot room;
        rdi_member_list := member_list;
        rdi_owner_id := new_from_value (r_owner room);
        rdi_room_group := RoomGroupConfig_to_protobuf <$> r_group_config room;
        rdi_flag_attr := r_flag_attr room;
        rdi_room_bin_attr_internal := RoomBinAttrInternal_to_protobuf <$> r_bin_attr_internal room |}.

Definition to_OptParam (room : Room) : option OptParam :=
  SignalParam_to_protobuf <$> r_signaling_param room.

(** The owner part of an external report: [search_option] selects the fields. *)
Definition owner_info (room : Room) (search_option : Z) : R (option UserInfo) :=
  if bool_decide (Z.land search_option 0x7 ≠ 0) then
    let? owner_user := unwrap (r_users room !! r_owner room) in
    Ok (Some (mkUserInfo (u_npid owner_user)
      (if bool_decide (Z.land search_option 0x2 ≠ 0) then u_online_name owner_user else ""%string)
      (if bool_decide (Z.land search_option 0x4 ≠ 0) then u_avatar_url owner_user else ""%string)))
  else Ok None.

(** The attributes an external report includes, by id; an unknown id is skipped. *)
Definition inc_attr_step (room : Room) (acc : list IntAttr * list BinAttr * list BinAttr) (id : Z) :
  R (list IntAttr * list BinAttr * list BinAttr) :=
  let '(searchint, searchbin, binext) := acc in
  if bool_decide (INT_ATTR_EXTERNAL_1_ID ≤ id ≤ INT_ATTR_EXTERNAL_8_ID) then
    let? a := index (r_search_int_attr room) (id - INT_ATTR_EXTERNAL_1_ID) in
    Ok (searchint ++ [RoomIntAttr_to_protobuf a], searchbin, binext)
  else if bool_decide (id = SEARCHABLE_BIN_ATTR_EXTERNAL_1_ID) then
    Ok (searchint, searchbin ++ [RoomBinAttr_to_protobuf (r_search_bin_attr room)], binext)
  else if bool_decide (BIN_ATTR_EXTERNAL_1_ID ≤ id ≤ BIN_ATTR_EXTERNAL_2_ID) then
    let? a := index (r_bin_attr_external room) (id - BIN_ATTR_EXTERNAL_1_ID) in
    Ok (searchint, searchbin, binext ++ [RoomBinAttr_to_protobuf a])
  else Ok acc.

(** The private bit of slot index [i] in an external report ([1 << (63 - i)]). *)
Definition mask_bit (mask : Z) (i : Z) : bool :=
  bool_decide (Z.land mask (Z.shiftl 1 ((63 - i) mod 64)) ≠ 0).

(** (private slots, open public slots, open private slots). *)
Definition slot_count_step (room : Room) (acc : Z * Z * Z) (i : Z) : R (Z * Z * Z) :=
  let '(max_private, open_public, open_private) := acc in
  let? taken := index (r_slots room) i in
  if mask_bit (r_password_slot_mask room) i then
    Ok (max_private + 1, open_public, if taken : bool then open_private else open_private + 1)
  else Ok (max_private, if taken : bool then open_public else open_public + 1, open_private).

Definition slot_counts (room : Room) : R (Z * Z * Z) :=
  match r_room_password room with
  | Some _ => res_fold (slot_count_step room) (0, 0, 0) (seqZ 0 (r_max_slot room))
  | None => Ok (0, r_max_slot room, 0)
  end.

Definition to_RoomDataExternal (room : Room) (search_option : Z) (inc_attrs : list Z) :
  R RoomDataExternal :=
  let? owner := owner_info room search_option in
  let? attrs := res_fold (inc_attr_step room) ([], [], []) inc_attrs in
  let? counts := slot_counts room in
  let '(searchint, searchbin, binext) := attrs in
  let '(max_private_slots, open_public_slots, open_private_slots) := counts in
  Ok {| rde_server_id := new_from_value (r_server_id room);
        rde_world_id := r_world_id room;
        rde_public_slot_num := new_from_value (wrap_u16 (r_max_slot room - max_private_slots));
        rde_private_slot_num := new_from_value max_private_slots;
        rde_lobby_id := r_lobby_id room;
        rde_room_id := r_room_id room;
        rde_open_public_slot_num := new_from_value open_public_slots;
        rde_max_slot := new_from_value (r_max_slot room);
        rde_open_private_slot_num := new_from_value open_private_slots;
        rde_cur_member_num := new_from_value (wrap_u16 (Z.of_nat (size (r_users room))));
        rde_password_slot_mask := r_password_slot_mask room;
        rde_owner := owner;
        rde_room_group := RoomGroupConfig_to_protobuf <$> r_group_config room;
        rde_flag_attr := r_flag_attr room;
        rde_room_searchable_int_attr_external := searchint;
        rde_room_searchable_bin_attr_external := searchbin;
        rde_room_bin_attr_external := binext |}.

(** The same report with the members listed. *)
Definition to_RoomDataExternalAll (room : Room) (search_option : Z) (inc_attrs : list Z) :
  R RoomDataExternalAll :=
  let? owner := owner_info room search_option in
  let? attrs := res_fold (inc_attr_step room) ([], [], []) inc_attrs in
  let? counts := slot_counts room in
  let '(searchint, searchbin, binext) := attrs in
  let '(max_private_slots, open_public_slots, open_private_slots) := counts in
  Ok {| rdea_server_id := new_from_value (r_server_id room);
        rdea_world_id := r_world_id room;
        rdea_public_slot_num := new_from_value (wrap_u16 (r_max_slot room - max_private_slots));
        rdea_private_slot_num := new_from_value max_private_slots;
        rdea_lobby_id := r_lobby_id room;
        rdea_room_id := r_room_id room;
        rdea_open_public_slot_num := new_from_value open_public_slots;
        rdea_max_slot := new_from_value (r_max_slot room);
        rdea_open_private_slot_num := new_from_value open_private_slots;
        rdea_cur_member_num := new_from_value (wrap_u16 (Z.of_nat (size (r_users room))));
        rdea_password_slot_mask := r_password_slot_mask room;
        rdea_owner := owner;
        rdea_room_group := RoomGroupConfig_to_protobuf <$> r_group_config room;
        rdea_flag_attr := r_flag_attr room;
        rdea_room_searchable_int_attr_external := searchint;
        rdea_room_searchable_bin_attr_external := searchbin;
        rdea_room_bin_attr_external := binext;
        rdea_users := to_roomMemberDataExternal <$> btree_values (r_users room) |}.

Definition get_room_member_update_info (room : Room) (member_id : Z)
  (event_cause : Event.EventCause) (user_opt_data : option PresenceOptionData) :
  R RoomMemberUpdateInfo :=
  let? user := unwrap (r_users room !! member_id) in
  let? member_internal := to_RoomMemberDataInternal user (r_group_config room) in
  Ok (mkRoomMemberUpdateInfo (Some member_internal)
        (new_from_value (Event.event_discr event_cause)) user_opt_data).

(** ** Queries *)

Definition get_room_users (room : Room) : gmap Z Z := u_user_id <$> r_users room.

Definition get_room_user_ids (room : Room) : gset Z :=
  list_to_set (u_user_id <$> btree_values (r_users room)).

(** The first member with this user id, in the order of member ids. *)
Definition first_member (room : Room) (user_id : Z) : option Z :=
  fst <$> (snd <$> list_find (λ kv : Z * RoomUser, u_user_id kv.2 = user_id)
                     (btree_iter (r_users room))).

Definition get_member_id (room : Room) (user_id : Z) : R Z :=
  ok_or NotFound (first_member room user_id).

Definition find_user (room : Room) (user_id : Z) : Z := default 0 (first_member room user_id).

(** ** Searching *)

(** A filter loop: [Ok false] returns early, [Ok true] goes on. *)
Fixpoint check_all {A} (f : A → R bool) (xs : list A) : R bool :=
  match xs with
  | [] => Ok true
  | x :: xs => let? b := f x in if b : bool then check_all f xs else Ok false
  end.

Definition int_compare (op : SceNpMatching2Operator) (attr num : Z) : bool :=
  match op with
  | OperatorEq => negb (bool_decide (attr ≠ num))
  | OperatorNe => negb (bool_decide (attr = num))
  | OperatorLt => negb (bool_decide (num ≤ attr))
  | OperatorLe => negb (bool_decide (num < attr))
  | OperatorGt => negb (bool_decide (attr ≤ num))
  | OperatorGe => negb (bool_decide (attr < num))
  end.

Definition int_filter_check (room : Room) (f : IntSearchFilter) : R bool :=
  let? op := get_verified (isf_search_operator f) in
  match isf_attr f with
  | None => Ok true
  | Some attr =>
      let? id := get_verified (ia_id attr) in
      if bool_decide (id < INT_ATTR_EXTERNAL_1_ID) || bool_decide (INT_ATTR_EXTERNAL_8_ID < id)
      then Ok false
      else
        let? found_intsearch := index (r_search_int_attr room) (id - INT_ATTR_EXTERNAL_1_ID) in
        match operator_from_u8 op with
        | None => Ok false
        | Some op => Ok (int_compare op (ri_attr found_intsearch) (ia_num attr))
        end
  end.

Definition bin_filter_check (room : Room) (f : BinSearchFilter) : R bool :=
  let? op := get_verified (bsf_search_operator f) in
  match bsf_attr f with
  | None => Ok true
  | Some attr =>
      let? id := get_verified (ba_id attr) in
      if bool_decide (id ≠ SEARCHABLE_BIN_ATTR_EXTERNAL_1_ID) then Ok false
      else
        match operator_from_u8 op with
        | None => Ok false
        | Some op =>
            let own := rb_attr (r_search_bin_attr room) in
            let len_compare := Nat.min (length (ba_data attr)) (length own) in
            let equality := bool_decide (take len_compare own = take len_compare (ba_data attr)) in
            match op with
            | OperatorEq => Ok equality
            | OperatorNe => Ok (negb equality)
            | _ => Panic
            end
        end
  end.

Definition is_match_all (room : Room) (req : SearchRoomRequest) : R bool :=
  let? ints := check_all (int_filter_check room) (sr_int_filter req) in
  if ints : bool then check_all (bin_filter_check room) (sr_bin_filter req) else Ok false.

Definition is_match (room : Room) (req : SearchRoomRequest) : R bool :=
  if bool_decide (Z.land (r_flag_attr room) ROOM_FLAG_ATTR_HIDDEN ≠ 0) then Ok false
  else
    let flag_filter := Z.land (sr_flag_filter req) (not_u 32 ROOM_FLAG_ATTR_NAT_TYPE_RESTRICTION) in
    let flag_attr := Z.land (sr_flag_attr req) (not_u 32 ROOM_FLAG_ATTR_NAT_TYPE_RESTRICTION) in
    if bool_decide (Z.land (r_flag_attr room) flag_filter ≠ flag_attr) then Ok false
    else
      let? ints := check_all (int_filter_check room) (sr_int_filter req) in
      if ints : bool then check_all (bin_filter_check room) (sr_bin_filter req) else Ok false.

(** ** Slots *)

Definition is_slot_private (room : Room) (slot : Z) : bool :=
  bool_decide (Z.land (r_password_slot_mask room) (wrap_u64 (64 - slot)) ≠ 0).

Definition occupy_slot (slot : Z) : M Room ErrorType Z :=
  do taken <- asks (λ room, index (r_slots room) (slot - 1));
  if taken : bool then panic
  else
    do! modify (λ room, room <| r_slots ::= <[Z.to_nat (slot - 1) := true]> |>);
    do counter <- gets r_member_id_counter;
    let member_id := wrap_u16 (wrap_u16 (Z.shiftl (wrap_u16 slot) 4) + counter) in
    do! modify (λ room, room <| r_member_id_counter := Z.land (wrap_u16 (counter + 1)) 0xF |>);
    ret member_id.

Fixpoint req_slot_loop (private : bool) (idx : list Z) : M Room ErrorType Z :=
  match idx with
  | [] => fail RoomFull
  | i :: idx =>
      do taken <- asks (λ room, index (r_slots room) (i - 1));
      do is_private <- gets (λ room, is_slot_private room i);
      if negb taken && eqb private is_private then occupy_slot i else req_slot_loop private idx
  end.

Definition req_slot (private : bool) : M Room ErrorType Z :=
  do max_slot <- gets r_max_slot; req_slot_loop private (seqZ 1 max_slot).

Fixpoint req_specific_slots_loop (idx : list Z) : M Room ErrorType Z :=
  match idx with
  | [] => panic
  | i :: idx =>
      do taken <- asks (λ room, index (r_slots room) (i - 1));
      if taken : bool then req_specific_slots_loop idx else occupy_slot i
  end.

Definition req_specific_slots (start_slot num_slots : Z) : M Room ErrorType Z :=
  req_specific_slots_loop (seqZ start_slot num_slots).

Definition slot_of (member_id : Z) : Z := wrap_u16 (Z.shiftr member_id 4 - 1).

Definition free_slot (member_id : Z) : M Room unit unit :=
  let slot := slot_of member_id in
  do taken <- asks (λ room, index (r_slots room) slot);
  if taken : bool
  then modify (λ room, room <| r_slots ::= <[Z.to_nat slot := false]> |>)
  else fail tt.

(** The first loop of [get_a_slot]: the group carrying the label, with its index
    and the number of its first slot. *)
Fixpoint find_labelled (label password room_password : option bytes) (gs : list RoomGroupConfig)
  (group_id : nat) (cur_slot_id : Z) : R (option (nat * Z)) :=
  match gs with
  | [] => Ok None
  | group :: gs =>
      if bool_decide (g_label group = label) then
        if g_with_password group && bool_decide (password ≠ room_password)
        then Err RoomPasswordMismatch
        else if bool_decide (g_slot_num group ≤ g_num_members group) then Err RoomGroupFull
        else Ok (Some (group_id, cur_slot_id))
      else find_labelled label password room_password gs (S group_id) (cur_slot_id + g_slot_num group)
  end.

(** The second loop: the first group without a label that the password admits. *)
Fixpoint find_labelless (password room_password : option bytes) (gs : list RoomGroupConfig)
  (group_id : nat) (cur_slot_id : Z) : R (option (nat * Z)) :=
  match gs with
  | [] => Ok None
  | group :: gs =>
      let next := find_labelless password room_password gs (S group_id) (cur_slot_id + g_slot_num group) in
      match g_label group with
      | None =>
          if g_with_password group then
            match password with
            | None => next
            | Some _ =>
                if bool_decide (password ≠ room_password) then Err RoomPasswordMismatch
                else Ok (Some (group_id, cur_slot_id))
            end
          else Ok (Some (group_id, cur_slot_id))
      | Some _ => next
      end
  end.

Definition bump_members (g : RoomGroupConfig) : RoomGroupConfig :=
  g <| g_num_members := wrap_u32 (g_num_members g + 1) |>.

(** Both loops end by counting the member in and taking a slot of the group. *)
Definition join_group (group_id : nat) (cur_slot_id : Z) : M Room ErrorType (Z * Z) :=
  do group <- asks (λ room, unwrap (r_group_config room !! group_id));
  do! modify (λ room, room <| r_group_config ::= alter bump_members group_id |>);
  do member_id <- req_specific_slots cur_slot_id (g_slot_num group);
  ret (wrap_u8 (Z.of_nat group_id + 1), member_id).

(** (group id or 0, member id). *)
Definition get_a_slot (join_label password : option bytes) : M Room ErrorType (Z * Z) :=
  do group_config <- gets r_group_config;
  do room_password <- gets r_room_password;
  match group_config with
  | _ :: _ =>
      match join_label with
      | None => fail RoomGroupNoJoinLabel
      | Some _ =>
          do found <- lift (find_labelled join_label password room_password group_config 0 1);
          match found with
          | Some (group_id, cur_slot_id) => join_group group_id cur_slot_id
          | None =>
              do found <- lift (find_labelless password room_password group_config 0 1);
              match found with
              | Some (group_id, cur_slot_id) => join_group group_id cur_slot_id
              | None => fail RoomGroupJoinLabelNotFound
              end
          end
      end
  | [] =>
      do member_id <-
        match password with
        | Some _ =>
            if bool_decide (password = room_password) then
              (λ room, match req_slot true room with
                       | (Err _, room') => req_slot false room'
                       | out => out
                       end)
            else fail RoomPasswordMismatch
        | None => req_slot false
        end;
      ret (0, member_id)
  end.
