(* ===== verification/RoomManager.v ===== *)
(** * The room manager (src/src/server/room_manager.rs, [impl RoomManager])

    All rooms of all titles, with the indexes by world, by lobby and by user.
    Every method on [&mut self] is a program over [RoomManager]; the draws of the
    random generator ([rng]), the clock ([now]) and the iteration order of hash
    sets ([HashOrder]) are arguments. *)

From S2P Require Import Prelude Protocol Messages RoomData Room.

Abbreviation RoomKey := (ComId * Z)%type.

Record RoomManager := mkRoomManager {
  rm_rooms : gmap RoomKey Room;
  rm_room_cnt : gmap ComId Z;
  rm_world_rooms : gmap RoomKey (gset Z);
  rm_lobby_rooms : gmap RoomKey (gset Z);
  rm_user_rooms : gmap Z (gset RoomKey);
}.
#[export] Instance manager_eta : Eta RoomManager := λ m,
  mkRoomManager (rm_rooms m) (rm_room_cnt m) (rm_world_rooms m) (rm_lobby_rooms m) (rm_user_rooms m).

Abbreviation RM := (M RoomManager ErrorType).

Definition RoomManager_new : RoomManager := mkRoomManager ∅ ∅ ∅ ∅ ∅.

Definition room_exists (rm : RoomManager) (com_id : ComId) (room_id : Z) : bool :=
  bool_decide (is_Some (rm_rooms rm !! (com_id, room_id))).

Definition get_room (rm : RoomManager) (com_id : ComId) (room_id : Z) : R Room :=
  unwrap (rm_rooms rm !! (com_id, room_id)).

(** [get_mut_room]: runs a method on the room in place. *)
Definition get_mut_room {A} (com_id : ComId) (room_id : Z) (m : M Room ErrorType A) : RM A :=
  zoom (λ rm, rm_rooms rm !! (com_id, room_id))
    (λ room rm, rm <| rm_rooms ::= <[(com_id, room_id) := room]> |>) m.

Definition get_room_infos (rm : RoomManager) (com_id : ComId) (room_id : Z) : R (Z * Z * Z) :=
  if negb (room_exists rm com_id room_id) then Err RoomMissing
  else let? room := get_room rm com_id room_id in
       Ok (r_server_id room, r_world_id room, r_lobby_id room).

(** ** Creation *)

Definition unfailing_create_room (room_id : Z) (com_id : ComId) (room : Room) (cinfo : ClientInfo) :
  RM CreateRoomResponse :=
  do! (if bool_decide (r_lobby_id room = 0)
       then modify (λ rm, rm <| rm_world_rooms ::= entry_insert (com_id, r_world_id room) room_id |>)
       else modify (λ rm, rm <| rm_lobby_rooms ::= entry_insert (com_id, r_lobby_id room) room_id |>));
  do! modify (λ rm, rm <| rm_rooms ::= <[(com_id, room_id) := room]> |>);
  do! modify (λ rm, rm <| rm_user_rooms ::= entry_insert (ci_user_id cinfo) (com_id, room_id) |>);
  do room <- asks (λ rm, get_room rm com_id room_id);
  do internal <- lift (to_RoomDataInternal room);
  ret (mkCreateRoomResponse (Some internal) (to_OptParam room)).

(** The checks on groups and passwords of a new room, and the creator's place in
    the first group. *)
Definition setup_groups (req : CreateJoinRoomRequest) (room : Room) (room_user : RoomUser) :
  R (Room * RoomUser) :=
  match r_group_config room with
  | group0 :: _ =>
      if bool_decide (wrap_u32 (foldr Z.add 0 (g_slot_num <$> r_group_config room)) ≠ r_max_slot room)
      then Err RoomGroupMaxSlotMismatch
      else if existsb g_with_password (r_group_config room) && bool_decide (r_room_password room = None)
      then Err RoomPasswordMissing
      else if bool_decide (cjr_join_room_group_label req = []) then Err RoomGroupNoJoinLabel
      else if bool_decide (length (cjr_join_room_group_label req) ≠ GROUP_LABEL_SIZE) then Err Malformed
      else
        let label := cjr_join_room_group_label req in
        let? group0 :=
          match g_label group0 with
          | Some v => if bool_decide (v = label) then Ok group0 else Err Malformed
          | None => Ok (group0 <| g_label := Some label |>)
          end in
        Ok (room <| r_group_config ::= <[0%nat := bump_members group0]> |>,
            room_user <| u_group_id := 1 |>)
  | [] =>
      if bool_decide (r_password_slot_mask room ≠ 0) && bool_decide (r_room_password room = None)
      then Err RoomPasswordMissing
      else Ok (room, room_user)
  end.

Definition user_with_identity (u : RoomUser) (cinfo : ClientInfo) (member_id : Z) : RoomUser :=
  u <| u_user_id := ci_user_id cinfo |> <| u_npid := ci_npid cinfo |>
    <| u_online_name := ci_online_name cinfo |> <| u_avatar_url := ci_avatar_url cinfo |>
    <| u_member_id := member_id |>.

Definition create_room (now : Z) (com_id : ComId) (req : CreateJoinRoomRequest) (cinfo : ClientInfo)
  (server_id : Z) (signaling_info : ClientSharedSignalingInfo) : RM CreateRoomResponse :=
  if bool_decide (cjr_max_slot req = 0) || bool_decide (64 < cjr_max_slot req) then fail Malformed
  else
    do room <- lift (Room_from_protobuf now req);
    do room_user <- lift (RoomUser_from_CreateJoinRoomRequest now req signaling_info);
    do! modify (λ rm, rm <| rm_room_cnt := <[com_id := default 0 (rm_room_cnt rm !! com_id)]> (rm_room_cnt rm) |>);
    do room_cnt <- gets (λ rm, default 0 (rm_room_cnt rm !! com_id));
    let '(out, room) := occupy_slot 1 room in
    do member_id <- lift out;
    let room := room <| r_owner := member_id |>
                     <| r_room_id := wrap_u64 (room_cnt + 1) |>
                     <| r_server_id := server_id |> in
    let room_user := (user_with_identity room_user cinfo member_id)
                       <| u_flag_attr := ROOMMEMBER_FLAG_ATTR_OWNER |> in
    do (room, room_user) <- lift (setup_groups req room room_user);
    let room := room <| r_users ::= <[member_id := room_user]> |> in
    let room_id := wrap_u64 (room_cnt + 1) in
    do! modify (λ rm, rm <| rm_room_cnt ::= <[com_id := room_id]> |>);
    unfailing_create_room room_id com_id room cinfo.

(** ** Joining *)

(** The four notifications of a join: without signaling, local, IPv4, IPv6, and
    the signaling list of the reply. *)
Abbreviation Notif4 := (option (NotificationUserJoinedRoom * gset Z)).

Record JoinNotifs := mkJoinNotifs {
  jn_no_signaling : Notif4;
  jn_local_signaling : Notif4;
  jn_public_ipv4 : Notif4;
  jn_public_ipv6 : Notif4;
  jn_reply : list (Z * bytes * Z);
}.
#[export] Instance notifs_eta : Eta JoinNotifs := λ n,
  mkJoinNotifs (jn_no_signaling n) (jn_local_signaling n) (jn_public_ipv4 n) (jn_public_ipv6 n)
    (jn_reply n).

Definition build_join_notification (room : Room) (req : JoinRoomRequest) (member_id : Z)
  (signaling_info_arg : option (bytes * Z)) : R NotificationUserJoinedRoom :=
  let? update_info := get_room_member_update_info room member_id Event.CauseNone (jr_opt_data req) in
  Ok (mkNotificationUserJoinedRoom (jr_room_id req) (Some update_info)
        ((λ '(ip, port), mkSignalingAddr ip (new_from_value port)) <$> signaling_info_arg)).

Definition add_to_notif_list (room : Room) (req : JoinRoomRequest) (member_id : Z)
  (notif_list : Notif4) (signaling_info_notif : bytes * Z) (to_add : Z) : R Notif4 :=
  match notif_list with
  | None => let? n := build_join_notification room req member_id (Some signaling_info_notif) in
            Ok (Some (n, {[to_add]}))
  | Some (n, ids) => Ok (Some (n, {[to_add]} ∪ ids))
  end.

(** Connects the joiner with one peer: by local address behind the same public
    IPv4, by IPv6 where both have it, by IPv4 otherwise. *)
Definition signal_peer (room : Room) (req : JoinRoomRequest) (member_id : Z)
  (signaling_info : ClientSharedSignalingInfo) (acc : JoinNotifs) (user : RoomUser) : R JoinNotifs :=
  let us := u_signaling_info user in
  if bool_decide ((sig_addr_p2p_ipv4 us).1 = (sig_addr_p2p_ipv4 signaling_info).1) then
    let? l := add_to_notif_list room req member_id (jn_local_signaling acc)
                (sig_local_addr_p2p signaling_info, 3658) (u_user_id user) in
    Ok (acc <| jn_local_signaling := l |>
            <| jn_reply ::= (λ r, r ++ [(u_member_id user, sig_local_addr_p2p us, 3658)]) |>)
  else
    match sig_addr_p2p_ipv6 us, sig_addr_p2p_ipv6 signaling_info with
    | Some user_ipv6, Some joiner_ipv6 =>
        let? l := add_to_notif_list room req member_id (jn_public_ipv6 acc) joiner_ipv6 (u_user_id user) in
        Ok (acc <| jn_public_ipv6 := l |>
                <| jn_reply ::= (λ r, r ++ [(u_member_id user, user_ipv6.1, user_ipv6.2)]) |>)
    | _, _ =>
        let? l := add_to_notif_list room req member_id (jn_public_ipv4 acc)
                    (sig_addr_p2p_ipv4 signaling_info) (u_user_id user) in
        Ok (acc <| jn_public_ipv4 := l |>
                <| jn_reply ::= (λ r, r ++ [(u_member_id user, (sig_addr_p2p_ipv4 us).1,
                                              (sig_addr_p2p_ipv4 us).2)]) |>)
    end.

Definition build_join_notifs (room : Room) (req : JoinRoomRequest) (member_id : Z)
  (signaling_info : ClientSharedSignalingInfo) (all_previous_users : gset Z) : R JoinNotifs :=
  let empty := mkJoinNotifs None None None None [] in
  match r_signaling_param room with
  | Some sig_param =>
      if should_signal sig_param then
        match sp_sig_type sig_param with
        | SignalingMesh =>
            res_fold (λ acc user,
              if bool_decide (u_member_id user = member_id) then Ok acc
              else signal_peer room req member_id signaling_info acc user)
              empty (btree_values (r_users room))
        | SignalingStar =>
            let hub := if bool_decide (sp_hub_member_id sig_param = 0)
                       then r_owner room else sp_hub_member_id sig_param in
            let? hub_user := unwrap (r_users room !! hub) in
            let? acc := signal_peer room req member_id signaling_info empty hub_user in
            let? n := build_join_notification room req member_id None in
            Ok (acc <| jn_no_signaling := Some (n, all_previous_users ∖ {[u_user_id hub_user]}) |>)
        | SignalingNone => Panic
        end
      else
        let? n := build_join_notification room req member_id None in
        Ok (empty <| jn_no_signaling := Some (n, all_previous_users) |>)
  | None =>
      let? n := build_join_notification room req member_id None in
      Ok (empty <| jn_no_signaling := Some (n, all_previous_users) |>)
  end.

(** [Some] of a byte string of exactly [n] bytes. *)
Definition sized (n : nat) (bs : bytes) : option bytes :=
  if bool_decide (length bs = n) then Some bs else None.

(** Admits the joiner: the member record and the full flag. *)
Definition add_member (member_id : Z) (room_user : RoomUser) (room : Room) : Room :=
  let room := room <| r_users ::= <[member_id := room_user]> |> in
  if bool_decide (Z.of_nat (size (r_users room)) = r_max_slot room)
  then room <| r_flag_attr ::= (λ f, Z.lor f ROOM_FLAG_ATTR_FULL) |> else room.

Definition join_room (now : Z) (com_id : ComId) (req : JoinRoomRequest) (cinfo : ClientInfo)
  (signaling_info : ClientSharedSignalingInfo) : RM (JoinRoomResponse * JoinNotifs) :=
  let room_id := jr_room_id req in
  do room <- asks (λ rm, get_room rm com_id room_id);
  if bool_decide (Z.land (r_flag_attr room) ROOM_FLAG_ATTR_FULL ≠ 0) then fail RoomFull
  else if bool_decide (jr_join_room_group_label req ≠ []) &&
          bool_decide (length (jr_join_room_group_label req) ≠ GROUP_LABEL_SIZE) then fail Malformed
  else if bool_decide (jr_room_password req ≠ []) &&
          bool_decide (length (jr_room_password req) ≠ SESSION_PASSWORD_SIZE) then fail Malformed
  else
    let join_label := sized GROUP_LABEL_SIZE (jr_join_room_group_label req) in
    let password := sized SESSION_PASSWORD_SIZE (jr_room_password req) in
    do (group_id, member_id) <- get_mut_room com_id room_id (get_a_slot join_label password);
    do room_user <- lift (RoomUser_from_JoinRoomRequest now req signaling_info);
    let room_user := (user_with_identity room_user cinfo member_id) <| u_group_id := group_id |> in
    do room <- asks (λ rm, get_room rm com_id room_id);
    let all_previous_users := get_room_user_ids room in
    do! get_mut_room com_id room_id (modify (add_member member_id room_user));
    do! modify (λ rm, rm <| rm_user_rooms ::= entry_insert (ci_user_id cinfo) (com_id, r_room_id room) |>);
    do room <- asks (λ rm, get_room rm com_id room_id);
    do notifs <- lift (build_join_notifs room req member_id signaling_info all_previous_users);
    do room_data <- lift (to_RoomDataInternal room);
    let signaling_data :=
      (λ '(mid, ip, port), mkMatching2SignalingInfo (new_from_value mid)
         (Some (mkSignalingAddr ip (new_from_value port)))) <$> jn_reply notifs in
    ret (mkJoinRoomResponse (Some room_data) signaling_data (to_OptParam room), notifs).

(** ** Leaving *)

(** [owner_succession.pop_front()] until a present member is found. *)
Fixpoint pop_successor (users : gmap Z RoomUser) (succession : list Z) : option Z * list Z :=
  match succession with
  | [] => (None, [])
  | s :: rest => if bool_decide (is_Some (users !! s)) then (Some s, rest) else pop_successor users rest
  end.

Definition grant_owner_flag (u : RoomUser) : RoomUser :=
  u <| u_flag_attr ::= (λ f, Z.lor f ROOMMEMBER_FLAG_ATTR_OWNER) |>.

Definition set_owner (s : Z) (room : Room) : Room :=
  room <| r_owner := s |> <| r_users ::= alter grant_owner_flag s |>.

(** The departure of a member counted out of its group: an emptied group without
    a fixed label loses its label. *)
Definition group_leave (g : RoomGroupConfig) : RoomGroupConfig :=
  let g := g <| g_num_members := wrap_u32 (g_num_members g - 1) |> in
  if bool_decide (g_num_members g = 0) && negb (g_fixed_label g) then g <| g_label := None |> else g.

Definition leave_group (group_id : Z) : M Room ErrorType unit :=
  if bool_decide (group_id ≠ 0) then
    do _ <- asks (λ room, index (r_group_config room) (wrap_u8 (group_id - 1)));
    modify (λ room, room <| r_group_config ::= alter group_leave (Z.to_nat (wrap_u8 (group_id - 1))) |>)
  else ret tt.

(** Removes the member, its group count and its slot, and clears the full flag. *)
Definition remove_member (user_id : Z) : M Room ErrorType Z :=
  do member_id <- gets (λ room, find_user room user_id);
  if bool_decide (member_id = 0) then panic
  else
    do member <- asks (λ room, unwrap (r_users room !! member_id));
    do! modify (λ room, room <| r_users ::= delete member_id |>);
    do! leave_group (u_group_id member);
    do! unwrap_result (free_slot member_id);
    do! modify (λ room,
      if bool_decide (Z.of_nat (size (r_users room)) ≠ r_max_slot room)
      then room <| r_flag_attr ::= (λ f, Z.land f (not_u 32 ROOM_FLAG_ATTR_FULL)) |> else room);
    ret member_id.

(** Chooses the next owner: the first present member of the succession list,
    else a random member; [false] when the room is empty. *)
Definition choose_owner (rng : nat) : M Room ErrorType bool :=
  do users <- gets r_users;
  do succession <- gets r_owner_succession;
  let '(found, rest) := pop_successor users succession in
  do! modify (λ room, room <| r_owner_succession := rest |>);
  match found with
  | Some s => do! modify (set_owner s); ret true
  | None =>
      if bool_decide (users = ∅) then ret false
      else
        let random_user := gen_range rng (size users) in
        do owner <- lift (unwrap (btree_keys users !! random_user));
        do! modify (set_owner owner);
        ret true
  end.

(** Removes an empty room and its index entries. *)
Definition destroy_room (com_id : ComId) (room_id : Z) (user_list : gset Z) (lobby_id world_id : Z) : RM unit :=
  do! for_each (λ user_id,
        do _ <- asks (λ rm, unwrap (rm_user_rooms rm !! user_id));
        modify (λ rm, rm <| rm_user_rooms ::= entry_remove user_id (com_id, room_id) |>))
      (elements user_list);
  do! (if bool_decide (lobby_id = 0) then
         do _ <- asks (λ rm, unwrap (rm_world_rooms rm !! (com_id, world_id)));
         modify (λ rm, rm <| rm_world_rooms ::= entry_remove (com_id, world_id) room_id |>)
       else
         do _ <- asks (λ rm, unwrap (rm_lobby_rooms rm !! (com_id, lobby_id)));
         modify (λ rm, rm <| rm_lobby_rooms ::= entry_remove (com_id, lobby_id) room_id |>));
  modify (λ rm, rm <| rm_rooms ::= delete (com_id, room_id) |>).

(** (room destroyed, users left in the room). *)
Definition leave_room (rng : nat) (com_id : ComId) (room_id user_id : Z) : RM (bool * gset Z) :=
  do exists_ <- gets (λ rm, room_exists rm com_id room_id);
  if negb exists_ then fail RoomMissing
  else
    do user_set <- gets (λ rm, rm_user_rooms rm !! user_id);
    match user_set with
    | None => fail NotFound
    | Some user_set =>
        if bool_decide ((com_id, room_id) ∉ user_set) then fail NotFound
        else
          do! modify (λ rm, rm <| rm_user_rooms ::= entry_remove user_id (com_id, room_id) |>);
          do member_id <- get_mut_room com_id room_id (remove_member user_id);
          do room <- asks (λ rm, get_room rm com_id room_id);
          let user_list := get_room_user_ids room in
          if bool_decide (member_id = r_owner room) then
            do found_successor <- get_mut_room com_id room_id (choose_owner rng);
            if found_successor : bool then ret (false, user_list)
            else
              do! destroy_room com_id room_id user_list (r_lobby_id room) (r_world_id room);
              ret (true, user_list)
          else ret (false, user_list)
    end.

(** ** Searching *)

Section search.
Context `{!HashOrder}.

(** Start index and page size after the adjustments of the request. *)
Definition search_start (req : SearchRoomRequest) : Z :=
  if bool_decide (sr_range_filter_start_index req = 0) then 1 else sr_range_filter_start_index req.

Definition search_max (req : SearchRoomRequest) : Z :=
  if bool_decide (sr_range_filter_max req = 0) || bool_decide (20 < sr_range_filter_max req)
  then 20 else sr_range_filter_max req.

Definition search_list (rm : RoomManager) (com_id : ComId) (req : SearchRoomRequest) : option (gset Z) :=
  if bool_decide (sr_world_id req ≠ 0) then rm_world_rooms rm !! (com_id, sr_world_id req)
  else if bool_decide (sr_lobby_id req ≠ 0) then rm_lobby_rooms rm !! (com_id, sr_lobby_id req)
  else None.

Definition collect_matching (rm : RoomManager) (com_id : ComId) (matches : Room → R bool)
  (room_list : option (gset Z)) : R (list Room) :=
  match room_list with
  | None => Ok []
  | Some ids =>
      res_fold (λ acc room_id,
        let? room := get_room rm com_id room_id in
        let? b := matches room in
        Ok (if b : bool then acc ++ [room] else acc)) [] (hash_iter ids)
  end.

(** The requested page of the matching rooms. *)
Definition page {A} (matching : list A) (start max : Z) : list A :=
  let start := Z.to_nat (start - 1) in
  take (Nat.min (length matching - start) (Z.to_nat max)) (drop start matching).

Definition search_room (rm : RoomManager) (com_id : ComId) (req : SearchRoomRequest) :
  R SearchRoomResponse :=
  let startindex := search_start req in
  let? matching_rooms :=
    collect_matching rm com_id (λ room, is_match room req) (search_list rm com_id req) in
  let? rooms :=
    if bool_decide (startindex ≤ Z.of_nat (length matching_rooms)) then
      let? inc_attrs := res_map_list get_verified (sr_attr_id req) in
      res_map_list (λ room, to_RoomDataExternal room (sr_option req) inc_attrs)
        (page matching_rooms startindex (search_max req))
    else Ok [] in
  Ok (mkSearchRoomResponse startindex (wrap_u32 (Z.of_nat (length matching_rooms))) rooms).

Definition search_room_all (rm : RoomManager) (com_id : ComId) (req : SearchRoomRequest) :
  R SearchRoomAllResponse :=
  let startindex := search_start req in
  let? matching_rooms :=
    collect_matching rm com_id (λ room, is_match_all room req) (search_list rm com_id req) in
  let? rooms :=
    if bool_decide (startindex ≤ Z.of_nat (length matching_rooms)) then
      let? inc_attrs := res_map_list get_verified (sr_attr_id req) in
      res_map_list (λ room, to_RoomDataExternalAll room (sr_option req) inc_attrs)
        (page matching_rooms startindex (search_max req))
    else Ok [] in
  Ok (mkSearchRoomAllResponse startindex (wrap_u32 (Z.of_nat (length matching_rooms))) rooms).
End search.

(** ** Reading room data *)

Definition get_roomdata_external_list (rm : RoomManager) (com_id : ComId)
  (req : GetRoomDataExternalListRequest) : R GetRoomDataExternalListResponse :=
  let? inc_attrs := res_map_list get_verified (gdel_attr_ids req) in
  let? rooms :=
    res_map_list (λ room_id, let? room := get_room rm com_id room_id in
                             to_RoomDataExternal room 7 inc_attrs)
      (filter (λ room_id, room_exists rm com_id room_id) (gdel_room_ids req)) in
  Ok (mkGetRoomDataExternalListResponse rooms).

Definition get_room_member_data_external_list (rm : RoomManager) (com_id : ComId) (room_id : Z) :
  R GetRoomMemberDataExternalListResponse :=
  if negb (room_exists rm com_id room_id) then Err RoomMissing
  else
    let? room := get_room rm com_id room_id in
    Ok (mkGetRoomMemberDataExternalListResponse
          (to_roomMemberDataExternal <$> btree_values (r_users room))).

Definition get_roomdata_internal (rm : RoomManager) (com_id : ComId)
  (req : GetRoomDataInternalRequest) : R RoomDataInternal :=
  if negb (room_exists rm com_id (gdi_room_id req)) then Err RoomMissing
  else let? room := get_room rm com_id (gdi_room_id req) in to_RoomDataInternal room.

Definition get_roommemberdata_internal (rm : RoomManager) (com_id : ComId)
  (req : GetRoomMemberDataInternalRequest) : R RoomMemberDataInternal :=
  if negb (room_exists rm com_id (gmdi_room_id req)) then Err RoomMissing
  else
    let? room := get_room rm com_id (gmdi_room_id req) in
    let? member_id := get_verified (gmdi_member_id req) in
    let? user := ok_or NotFound (r_users room !! member_id) in
    to_RoomMemberDataInternal user (r_group_config room).

Definition get_rooms_by_user (rm : RoomManager) (user : Z) : option (gset RoomKey) :=
  rm_user_rooms rm !! user.

(** ** Changing room data

    The attribute loops write into the room as they go: an attribute that fails
    to decode ends the request with what came before it already stored. *)

Definition write_bin_attr_external (pb : BinAttr) : M Room ErrorType unit :=
  do attrs <- asks (λ room, store_bin_attr_external (r_bin_attr_external room) pb);
  modify (λ room, room <| r_bin_attr_external := attrs |>).

Definition write_search_bin_attr (pb : BinAttr) : M Room ErrorType unit :=
  do attr <- asks (λ room, store_search_bin_attr (r_search_bin_attr room) pb);
  modify (λ room, room <| r_search_bin_attr := attr |>).

Definition write_search_int_attr (pb : IntAttr) : M Room ErrorType unit :=
  do attrs <- asks (λ room, store_search_int_attr (r_search_int_attr room) pb);
  modify (λ room, room <| r_search_int_attr := attrs |>).

Definition set_roomdata_external (com_id : ComId) (req : SetRoomDataExternalRequest) (user_id : Z) : RM unit :=
  do exists_ <- gets (λ rm, room_exists rm com_id (sde_room_id req));
  if negb exists_ then fail RoomMissing
  else get_mut_room com_id (sde_room_id req)
    (do member_id <- asks (λ room, get_member_id room user_id);
     do owner <- gets r_owner;
     if bool_decide (owner ≠ member_id) then fail Unauthorized
     else
       do! for_each write_bin_attr_external (sde_room_bin_attr_external req);
       do! for_each write_search_bin_attr (sde_room_searchable_bin_attr_external req);
       for_each write_search_int_attr (sde_room_searchable_int_attr_external req)).

(** The owner's part of [set_roomdata_internal]. *)
Definition update_flags (req : SetRoomDataInternalRequest) : M Room ErrorType bool :=
  do old <- gets r_flag_attr;
  let flag_filter := Z.land (sdi_flag_filter req) (not_u 32 PROTECTED_ROOM_FLAGS) in
  let flag_attr := Z.land (sdi_flag_attr req) (not_u 32 PROTECTED_ROOM_FLAGS) in
  let new := Z.lor (Z.land flag_attr flag_filter) (Z.land old (not_u 32 flag_filter)) in
  if bool_decide (new ≠ old) then do! modify (λ room, room <| r_flag_attr := new |>); ret true
  else ret false.

Definition update_group_password (cfg : RoomGroupPasswordConfig) : M Room ErrorType (list Z) :=
  do group_id <- lift (get_verified (rgpc_group_id cfg));
  do groups <- gets r_group_config;
  if bool_decide (Z.of_nat (length groups) < group_id) then ret []
  else
    do g <- lift (index groups (wrap_u8 (group_id - 1)));
    if eqb (g_with_password g) (rgpc_with_password cfg) then ret []
    else
      do! modify (λ room, room <| r_group_config ::=
        alter (λ g, g <| g_with_password := rgpc_with_password cfg |>)
          (Z.to_nat (wrap_u8 (group_id - 1))) |>);
      ret [group_id].

Fixpoint update_group_passwords (cfgs : list RoomGroupPasswordConfig) : M Room ErrorType (list Z) :=
  match cfgs with
  | [] => ret []
  | cfg :: cfgs =>
      do here <- update_group_password cfg;
      do rest <- update_group_passwords cfgs;
      ret (here ++ rest)
  end.

Definition update_slot_mask (req : SetRoomDataInternalRequest) : M Room ErrorType bool :=
  do old <- gets r_password_slot_mask;
  match sdi_password_slot_mask req with
  | [password_slot_mask] =>
      if bool_decide (password_slot_mask ≠ old)
      then do! modify (λ room, room <| r_password_slot_mask := password_slot_mask |>); ret true
      else ret false
  | _ => ret false
  end.

Definition update_succession (req : SetRoomDataInternalRequest) : M Room ErrorType bool :=
  match sdi_owner_privilege_rank req with
  | [] => ret false
  | ranks =>
      do succession_list <- lift (res_map_list get_verified ranks);
      do old <- gets r_owner_succession;
      if bool_decide (succession_list ≠ old)
      then do! modify (λ room, room <| r_owner_succession := succession_list |>); ret true
      else ret false
  end.

Definition owner_update (req : SetRoomDataInternalRequest) : M Room ErrorType (bool * list Z) :=
  do flags_changed <- update_flags req;
  do vec_new_groups <- update_group_passwords (sdi_password_config req);
  do mask_changed <- update_slot_mask req;
  do succession_changed <- update_succession req;
  ret (flags_changed || bool_decide (vec_new_groups ≠ []) || mask_changed || succession_changed,
       vec_new_groups).

(** Any member's part: the internal binary attributes; returns the ids stored. *)
Definition write_bin_attr_internal (now member_id : Z) (pb : BinAttr) : M Room ErrorType (list Uint16) :=
  do a <- lift (RoomBinAttrInternal_from_protobuf now pb member_id);
  do attrs <- asks (λ room, store_bin_attr_internal now member_id (r_bin_attr_internal room) pb);
  do! modify (λ room, room <| r_bin_attr_internal := attrs |>);
  let id := rb_id (rbi_data a) in
  ret (if bool_decide (id ≠ BIN_ATTR_INTERNAL_1_ID) && bool_decide (id ≠ BIN_ATTR_INTERNAL_2_ID)
       then [] else [mkUint16 id]).

Fixpoint write_bin_attrs_internal (now member_id : Z) (pbs : list BinAttr) : M Room ErrorType (list Uint16) :=
  match pbs with
  | [] => ret []
  | pb :: pbs =>
      do here <- write_bin_attr_internal now member_id pb;
      do rest <- write_bin_attrs_internal now member_id pbs;
      ret (here ++ rest)
  end.

Definition set_roomdata_internal (now : Z) (com_id : ComId) (req : SetRoomDataInternalRequest) (user_id : Z) :
  RM (option (gset Z * RoomDataInternalUpdateInfo)) :=
  do exists_ <- gets (λ rm, room_exists rm com_id (sdi_room_id req));
  if negb exists_ then fail RoomMissing
  else get_mut_room com_id (sdi_room_id req)
    (do member_id <- asks (λ room, get_member_id room user_id);
     do owner <- gets r_owner;
     do old_password_slot_mask <- gets r_password_slot_mask;
     do old_flag_attr <- gets r_flag_attr;
     do (owner_changed, vec_new_groups) <-
       (if bool_decide (owner = member_id) then owner_update req else ret (false, []));
     do new_room_bin_attr_internal <- write_bin_attrs_internal now member_id (sdi_room_bin_attr_internal req);
     if owner_changed || bool_decide (length new_room_bin_attr_internal ≠ 0%nat) then
       do room_data_internal <- asks to_RoomDataInternal;
       do to_notif <- gets get_room_user_ids;
       ret (Some (to_notif ∖ {[user_id]},
                  mkRoomDataInternalUpdateInfo (Some room_data_internal) old_flag_attr
                    old_password_slot_mask vec_new_groups new_room_bin_attr_internal))
     else ret None).

(** [set_roommemberdata_internal], on the room: (target member, previous team,
    ids stored, changed). *)
Definition update_member (now : Z) (req : SetRoomMemberDataInternalRequest) (user_id : Z) :
  M Room ErrorType (Z * Z * list Uint16 * bool) :=
  do member_id <- asks (λ room, get_member_id room user_id);
  do req_member_id <- lift (get_verified (smdi_member_id req));
  let target_member_id := if bool_decide (req_member_id = 0) then member_id else req_member_id in
  do owner <- gets r_owner;
  if bool_decide (member_id ≠ target_member_id) && bool_decide (member_id ≠ owner) then fail Unauthorized
  else
    do target <- gets (λ room, r_users room !! target_member_id);
    match target with
    | None => fail NotFound
    | Some user =>
        do team_id <- lift (get_verified (smdi_team_id req));
        let prev_team_id := u_team_id user in
        let team_changed := bool_decide (team_id ≠ 0) && bool_decide (prev_team_id ≠ team_id) in
        do! (if team_changed
             then modify (λ room, room <| r_users ::= alter (λ u, u <| u_team_id := team_id |>) target_member_id |>)
             else ret tt);
        do stored <-
          match smdi_room_member_bin_attr_internal req with
          | [pb] =>
              do bin_attr <- lift (RoomMemberBinAttr_from_protobuf now pb);
              if bool_decide (rb_id (rmb_data bin_attr) = ROOMMEMBER_BIN_ATTR_INTERNAL_1_ID) then
                do! modify (λ room, room <| r_users ::= alter (λ u, u <| u_member_attr := bin_attr |>) target_member_id |>);
                ret [mkUint16 (rb_id (rmb_data bin_attr))]
              else ret []
          | _ => ret []
          end;
        ret (target_member_id, prev_team_id, stored,
             team_changed || bool_decide (length stored ≠ 0%nat))
    end.

Definition set_roommemberdata_internal (now : Z) (com_id : ComId)
  (req : SetRoomMemberDataInternalRequest) (user_id : Z) :
  RM (option (gset Z * RoomMemberDataInternalUpdateInfo)) :=
  do exists_ <- gets (λ rm, room_exists rm com_id (smdi_room_id req));
  if negb exists_ then fail RoomMissing
  else
    do (target_member_id, prev_team_id, stored, has_changed) <-
      get_mut_room com_id (smdi_room_id req) (update_member now req user_id);
    if has_changed : bool then
      do room <- asks (λ rm, get_room rm com_id (smdi_room_id req));
      do user <- lift (unwrap (r_users room !! target_member_id));
      do member_internal <- lift (to_RoomMemberDataInternal user (r_group_config room));
      ret (Some (get_room_user_ids room ∖ {[user_id]},
                 mkRoomMemberDataInternalUpdateInfo (Some member_internal) (u_flag_attr user)
                   (new_from_value prev_team_id) stored))
    else ret None.
