(* ===== verification/RoomInv.v ===== *)
(** * What a room promises

    The invariant of a stored room, the exact behaviour of slot allocation, and
    the lemmas by which the manager's operations keep the invariant. *)

From S2P Require Import Prelude Protocol Messages RoomData Room RoomManager.

(** ** Bits of the room flags *)

(** The full flag is bit 29. *)
Definition is_full (flags : Z) : bool := Z.testbit flags 29.

Lemma land_full_testbit f : Z.land f ROOM_FLAG_ATTR_FULL ≠ 0 ↔ is_full f = true.
Proof.
  unfold is_full, ROOM_FLAG_ATTR_FULL. change 0x20000000 with (2 ^ 29). split.
  - intros Hne. destruct (Z.testbit f 29) eqn:Hb; [done|]. destruct Hne.
    apply Z.bits_inj'. intros n Hn. rewrite Z.land_spec, Z.bits_0, Z.pow2_bits_eqb by lia.
    destruct (Z.eqb_spec 29 n) as [<-|]; [by rewrite Hb|apply andb_false_r].
  - intros Hb Hz. apply (f_equal (λ z, Z.testbit z 29)) in Hz.
    rewrite Z.land_spec, Hb, Z.bits_0 in Hz. done.
Qed.

Lemma is_full_set f : is_full (Z.lor f ROOM_FLAG_ATTR_FULL) = true.
Proof. unfold is_full. rewrite Z.lor_spec. by rewrite orb_true_r. Qed.

Lemma is_full_clear f : is_full (Z.land f (not_u 32 ROOM_FLAG_ATTR_FULL)) = false.
Proof. unfold is_full. rewrite Z.land_spec. by rewrite andb_false_r. Qed.

(** ** The invariant *)

(** Facts that hold for every room from its construction on, before anyone is in
    it: sizes of the arrays, slot table and counter. *)
Record room_shape (room : Room) : Prop := {
  sh_max : 1 ≤ r_max_slot room ≤ 64;
  sh_slots : Z.of_nat (length (r_slots room)) = r_max_slot room;
  sh_counter : 0 ≤ r_member_id_counter room < 16;
  sh_internal : length (r_bin_attr_internal room) = 2%nat;
  sh_external : length (r_bin_attr_external room) = 2%nat;
  sh_search_int : length (r_search_int_attr room) = 8%nat;
}.

(** A member holds a slot: its id names it, and the slot is marked taken. *)
Record member_ok (room : Room) (mid : Z) (u : RoomUser) : Prop := {
  mo_id : u_member_id u = mid;
  mo_range : 16 ≤ mid < 65536;
  mo_slot : r_slots room !! Z.to_nat (slot_of mid) = Some true;
  mo_group : 0 ≤ u_group_id u ≤ Z.of_nat (length (r_group_config room));
  mo_group_u8 : u_group_id u < 256;
}.

Record room_members (room : Room) : Prop := {
  me_ok : ∀ mid u, r_users room !! mid = Some u → member_ok room mid u;
  me_slot_inj : ∀ m1 m2 u1 u2, r_users room !! m1 = Some u1 → r_users room !! m2 = Some u2 →
    slot_of m1 = slot_of m2 → m1 = m2;
  me_user_inj : ∀ m1 m2 u1 u2, r_users room !! m1 = Some u1 → r_users room !! m2 = Some u2 →
    u_user_id u1 = u_user_id u2 → m1 = m2;
  me_full : is_full (r_flag_attr room) = true → Z.of_nat (size (r_users room)) = r_max_slot room;
  me_full_conv : Z.of_nat (size (r_users room)) = r_max_slot room → 2 ≤ r_max_slot room →
    is_full (r_flag_attr room) = true;
}.

Record room_inv (room : Room) : Prop := {
  inv_shape : room_shape room;
  inv_members : room_members room;
  inv_owner : is_Some (r_users room !! r_owner room);
}.

(** What the manager's indexes depend on. *)
Definition room_key (room : Room) : Z * Z * Z * gmap Z Z :=
  (r_room_id room, r_world_id room, r_lobby_id room, u_user_id <$> r_users room).

Definition room_ok (k : Z * Z * Z * gmap Z Z) (room : Room) : Prop := room_inv room ∧ room_key room = k.

(** [m] keeps [P], whatever its outcome. *)
Definition keeps {S E A} (P : S → Prop) (m : M S E A) : Prop :=
  ∀ s, P s → wp m s (λ _ s', P s').

Section keeps.
Context {S E : Type} (P : S → Prop).

Lemma keeps_bind {A B} (m : M S E A) (k : A → M S E B) :
  keeps P m → (∀ a, keeps P (k a)) → keeps P (bind m k).
Proof.
  intros Hm Hk s Hs. apply wp_bind. eapply wp_mono; [|apply (Hm s Hs)].
  intros [a|e|] s' Hs'; [by apply Hk|done|done].
Qed.

Lemma keeps_pure {A} (m : M S E A) : (∀ s, (m s).2 = s) → keeps P m.
Proof. intros Hm s Hs. unfold wp. by rewrite Hm. Qed.

Lemma keeps_modify (f : S → S) : (∀ s, P s → P (f s)) → keeps P (@modify S E f).
Proof. intros Hf s Hs. by apply Hf. Qed.

Lemma keeps_for_each {B} (f : B → M S E unit) xs :
  (∀ x, keeps P (f x)) → keeps P (for_each f xs).
Proof.
  intros Hf. induction xs as [|x xs IH]; [by apply keeps_pure|].
  apply keeps_bind; [apply Hf|intros _; apply IH].
Qed.
End keeps.

(** Decomposes a program into its leaves; the ones that only read are closed. *)
Ltac keeps_tac :=
  repeat lazymatch goal with
  | |- keeps _ (bind _ _) => apply keeps_bind
  | |- keeps _ (for_each _ _) => apply keeps_for_each
  | |- keeps _ (ret _) => by apply keeps_pure
  | |- keeps _ (fail _) => by apply keeps_pure
  | |- keeps _ panic => by apply keeps_pure
  | |- keeps _ (gets _) => by apply keeps_pure
  | |- keeps _ (asks _) => by apply keeps_pure
  | |- keeps _ (lift _) => by apply keeps_pure
  | |- keeps _ (if ?b then _ else _) => destruct b eqn:?
  | |- keeps _ (match ?x with _ => _ end) => destruct x eqn:?
  | |- ∀ _, _ => intros ?
  end.

(** ** Slots and member ids *)

Definition mid_of (room : Room) (s : Z) : Z := 16 * s + r_member_id_counter room.

Definition occupied (s : Z) (room : Room) : Room :=
  room <| r_slots := <[Z.to_nat (s - 1) := true]> (r_slots room) |>
       <| r_member_id_counter := Z.land (r_member_id_counter room + 1) 0xF |>.

Definition slot_free (room : Room) (s : Z) : Prop := r_slots room !! Z.to_nat (s - 1) = Some false.

Lemma slot_of_mid room s :
  room_shape room → 1 ≤ s ≤ 64 → slot_of (mid_of room s) = s - 1 ∧ 16 ≤ mid_of room s < 65536.
Proof.
  intros Hsh Hs. pose proof (sh_counter _ Hsh). unfold slot_of, mid_of, wrap_u16.
  rewrite Z.shiftr_div_pow2 by lia. change (2 ^ 4) with 16.
  replace (16 * s + r_member_id_counter room) with (r_member_id_counter room + s * 16) by lia.
  rewrite Z.div_add, Z.div_small by lia. rewrite Z.mod_small by lia. lia.
Qed.

Lemma occupy_slot_free room s :
  room_shape room → 1 ≤ s ≤ r_max_slot room → slot_free room s →
  occupy_slot s room = (Ok (mid_of room s), occupied s room).
Proof.
  intros Hsh Hs Hf. destruct Hsh. unfold occupy_slot, bind, asks.
  assert (@index ErrorType bool (r_slots room) (s - 1) = Ok false) as ->
    by (apply index_Ok; split; [lia|done]).
  simpl. unfold ret, mid_of, occupied, wrap_u16. rewrite Z.shiftl_mul_pow2 by lia.
  change (2 ^ 4) with 16.
  rewrite (Z.mod_small s) by lia. rewrite (Z.mod_small (s * 16)) by lia.
  rewrite !Z.mod_small by lia. do 2 f_equal. lia.
Qed.

Lemma slot_lookup room s :
  room_shape room → 1 ≤ s ≤ r_max_slot room →
  ∃ b, @index ErrorType bool (r_slots room) (s - 1) = Ok b ∧ r_slots room !! Z.to_nat (s - 1) = Some b.
Proof. intros Hsh Hs. apply index_lt. destruct Hsh. lia. Qed.

(** A slot the request may take: free and of the requested kind. *)
Definition eligible (room : Room) (private : bool) (s : Z) : Prop :=
  slot_free room s ∧ is_slot_private room s = private.

Lemma req_slot_loop_cases private room idx :
  room_shape room → Forall (λ i, 1 ≤ i ≤ r_max_slot room) idx →
  (∃ pre s post, idx = pre ++ s :: post ∧ Forall (λ i, ¬ eligible room private i) pre ∧
     eligible room private s ∧ req_slot_loop private idx room = (Ok (mid_of room s), occupied s room)) ∨
  (Forall (λ i, ¬ eligible room private i) idx ∧ req_slot_loop private idx room = (Err RoomFull, room)).
Proof.
  intros Hsh. induction 1 as [|i idx Hi Hidx IH]; [by right|].
  destruct (slot_lookup room i Hsh Hi) as (b & Hb & Hl).
  assert (req_slot_loop private (i :: idx) room =
    if negb b && eqb private (is_slot_private room i)
    then occupy_slot i room else req_slot_loop private idx room) as ->.
  { cbn [req_slot_loop]. unfold bind at 1, asks. rewrite Hb. unfold bind, gets. by destruct (_ && _). }
  destruct (negb b && eqb private (is_slot_private room i)) eqn:E.
  - apply andb_true_iff in E as [->%negb_true_iff Hp%eqb_prop].
    assert (eligible room private i) as Hel by (split; [exact Hl|by symmetry]).
    left. exists [], i, idx. split; [done|]. split; [constructor|]. split; [exact Hel|].
    apply occupy_slot_free; [done|done|exact Hl].
  - assert (¬ eligible room private i) as Hne.
    { intros [Hf Hp]. unfold slot_free in Hf. rewrite Hl in Hf. injection Hf as ->.
      rewrite Hp, eqb_reflx in E. done. }
    destruct IH as [(pre & s & post & -> & Hpre & Hs & Heq)|[Hall Heq]].
    + left. exists (i :: pre), s, post. repeat split; [by constructor|apply Hs|apply Hs|done].
    + right. split; [by constructor|done].
Qed.

(** A request takes the lowest-numbered free slot of the kind it asks for, and is
    refused as full, leaving the room as it was, exactly when there is none. *)
Lemma req_slot_cases private room :
  room_shape room →
  (∃ s, 1 ≤ s ≤ r_max_slot room ∧ eligible room private s ∧
     (∀ s', 1 ≤ s' < s → ¬ eligible room private s') ∧
     req_slot private room = (Ok (mid_of room s), occupied s room)) ∨
  ((∀ s, 1 ≤ s ≤ r_max_slot room → ¬ eligible room private s) ∧
   req_slot private room = (Err RoomFull, room)).
Proof.
  intros Hsh. change (req_slot private room)
    with (req_slot_loop private (seqZ 1 (r_max_slot room)) room).
  assert (Forall (λ i, 1 ≤ i ≤ r_max_slot room) (seqZ 1 (r_max_slot room))) as Hidx.
  { apply Forall_forall. intros i Hi%elem_of_seqZ. lia. }
  destruct (req_slot_loop_cases private room _ Hsh Hidx) as [(pre & s & post & Hsplit & Hpre & Hs & ->)|[Hall ->]].
  - left. exists s. rewrite Hsplit, Forall_app, Forall_cons in Hidx. destruct Hidx as (_ & Hsr & _).
    split; [done|]. split; [done|]. split; [|done].
    intros s' Hs'. rewrite Forall_forall in Hpre. apply Hpre.
    assert (seqZ 1 (r_max_slot room) !! length pre = Some s) as Hlp
      by (rewrite Hsplit; by apply list_lookup_middle).
    apply lookup_seqZ in Hlp as [Hlp1 Hlp2].
    assert (seqZ 1 (r_max_slot room) !! Z.to_nat (s' - 1) = Some s') as Hl'
      by (apply lookup_seqZ; lia).
    rewrite Hsplit, lookup_app_l in Hl' by lia. by eapply list_elem_of_lookup_2.
  - right. split; [|done]. rewrite Forall_forall in Hall. intros s Hs.
    apply Hall, elem_of_seqZ. lia.
Qed.

(** ** Groups *)

Lemma req_specific_slots_loop_cases room idx :
  room_shape room →
  req_specific_slots_loop idx room = (Panic, room) ∨
  ∃ s, s ∈ idx ∧ 1 ≤ s ≤ r_max_slot room ∧ slot_free room s ∧
    req_specific_slots_loop idx room = (Ok (mid_of room s), occupied s room).
Proof.
  intros Hsh. induction idx as [|i idx IH]; [by left|]. cbn [req_specific_slots_loop].
  unfold bind, asks. destruct (index (r_slots room) (i - 1)) as [b| |] eqn:Hb.
  - apply index_Ok in Hb as [Hi Hl]. destruct b.
    + destruct IH as [?|(s & Hin & ?)]; [by left|right; exists s]. split; [set_solver|done].
    + right. exists i. pose proof (lookup_lt_Some _ _ _ Hl) as Hlt. destruct (Hsh).
      assert (1 ≤ i ≤ r_max_slot room) by lia.
      split; [set_solver|]. split; [done|]. split; [done|]. by apply occupy_slot_free.
  - exfalso. revert Hb. unfold index. case_bool_decide; [|done].
    by destruct (r_slots room !! Z.to_nat (i - 1)).
  - by left.
Qed.

Lemma find_labelled_bound label pw rpw gs k cur k' cur' :
  find_labelled label pw rpw gs k cur = Ok (Some (k', cur')) → (k ≤ k' < k + length gs)%nat.
Proof.
  revert k cur. induction gs as [|g gs IH]; intros k cur; simpl; [done|].
  case_bool_decide.
  - destruct (_ && _); [done|]. case_bool_decide; [done|]. intros [= <- <-]. lia.
  - intros ?%IH. lia.
Qed.

Lemma find_labelless_bound pw rpw gs k cur k' cur' :
  find_labelless pw rpw gs k cur = Ok (Some (k', cur')) → (k ≤ k' < k + length gs)%nat.
Proof.
  revert k cur. induction gs as [|g gs IH]; intros k cur; simpl; [done|].
  destruct (g_label g), (g_with_password g), pw; try case_bool_decide;
    try done; first [intros ?%IH; lia|intros [= <- <-]; lia].
Qed.

Lemma find_labelled_no_panic label pw rpw gs k cur : no_panic (find_labelled label pw rpw gs k cur).
Proof.
  revert k cur. induction gs as [|g gs IH]; intros k cur; simpl; [done|].
  repeat case_bool_decide; try done; destruct (g_with_password g); simpl; try done; apply IH.
Qed.

Lemma find_labelless_no_panic pw rpw gs k cur : no_panic (find_labelless pw rpw gs k cur).
Proof.
  revert k cur. induction gs as [|g gs IH]; intros k cur; simpl; [done|].
  destruct (g_label g), (g_with_password g), pw; try case_bool_decide; try done; apply IH.
Qed.

(** The room after a slot was given out: one free slot is taken, the member
    counter moved on, and at most the member count of a group changed. *)
Definition slot_given (room : Room) (gid mid : Z) (room' : Room) : Prop :=
  ∃ s gs, 1 ≤ s ≤ r_max_slot room ∧ slot_free room s ∧ mid = mid_of room s ∧
    length gs = length (r_group_config room) ∧
    0 ≤ gid ≤ Z.of_nat (length gs) ∧ gid < 256 ∧
    room' = occupied s (room <| r_group_config := gs |>).

(** The outcomes of [get_a_slot]: an error leaves the room as it was, a panic
    (only in a room with groups) has changed at most a group's member count. *)
Definition get_a_slot_post (room : Room) (r : R (Z * Z)) (room' : Room) : Prop :=
  match r with
  | Ok (gid, mid) => slot_given room gid mid room'
  | Err _ => room' = room
  | Panic => r_group_config room ≠ [] ∧
      ∃ gs, length gs = length (r_group_config room) ∧ room' = room <| r_group_config := gs |>
  end.

Lemma join_group_post room k cur :
  room_shape room → (k < length (r_group_config room))%nat →
  wp (join_group k cur) room (get_a_slot_post room).
Proof.
  intros Hsh Hk. destruct (lookup_lt_is_Some_2 _ _ Hk) as [g Hg].
  unfold join_group. wp_step. wp_step. rewrite Hg. simpl. wp_step. wp_step.
  set (gs := alter bump_members k (r_group_config room)).
  assert (length gs = length (r_group_config room)) as Hlen by apply length_alter.
  set (room1 := room <| r_group_config := gs |>).
  assert (room_shape room1) as Hsh1 by (destruct Hsh; by constructor).
  lazymatch goal with |- wp _ ?r _ => change r with room1 end.
  wp_step. unfold wp, req_specific_slots.
  destruct (req_specific_slots_loop_cases room1 (seqZ cur (g_slot_num g)) Hsh1)
    as [->|(s & _ & Hs & Hf & ->)]; simpl.
  - split; [intros E; rewrite E in Hk; simpl in Hk; lia|]. by exists gs.
  - change (r_max_slot room1) with (r_max_slot room) in Hs.
    exists s, gs. rewrite Hlen. unfold wrap_u8.
    pose proof (Z.mod_pos_bound (Z.of_nat k + 1) (2 ^ 8) ltac:(lia)).
    pose proof (Z.mod_le (Z.of_nat k + 1) (2 ^ 8) ltac:(lia) ltac:(lia)).
    repeat split; try done; lia.
Qed.

Lemma req_slot_post private room (k : res ErrorType Z → Room → Prop) :
  room_shape room →
  (∀ s, 1 ≤ s ≤ r_max_slot room → slot_free room s → k (Ok (mid_of room s)) (occupied s room)) →
  k (Err RoomFull) room → wp (req_slot private) room k.
Proof.
  intros Hsh Hok Herr. unfold wp.
  destruct (req_slot_cases private room Hsh) as [(s & Hs & [Hf _] & _ & ->)|[_ ->]]; simpl; auto.
Qed.

Lemma slot_given_plain room s :
  1 ≤ s ≤ r_max_slot room → slot_free room s → slot_given room 0 (mid_of room s) (occupied s room).
Proof. intros Hs Hf. exists s, (r_group_config room). repeat split; try done; lia. Qed.

Lemma get_a_slot_spec label pw room :
  room_shape room → wp (get_a_slot label pw) room (get_a_slot_post room).
Proof.
  intros Hsh. unfold get_a_slot. wp_step. wp_step. wp_step. wp_step.
  destruct (r_group_config room) as [|g gs] eqn:Hgs; cbn beta iota.
  - wp_step. set (post := λ _ _, _).
    assert (∀ private, wp (req_slot private) room post) as Hreq.
    { intros private. apply req_slot_post; [done| |].
      - intros. by apply slot_given_plain.
      - done. }
    destruct pw as [pw|]; [|apply Hreq]. case_bool_decide; [|by apply wp_fail].
    unfold wp. pose proof (Hreq true) as H1.
    destruct (req_slot_cases true room Hsh) as [(s & Hs & Hf & _ & Heq)|[_ Heq]].
    + unfold wp in H1. rewrite Heq in *. done.
    + rewrite Heq. apply (Hreq false).
  - assert (∀ k, (k < length (g :: gs))%nat → ∀ cur, wp (join_group k cur) room (get_a_slot_post room))
      as Hjoin by (intros; apply join_group_post; [done|by rewrite Hgs]).
    destruct label as [label|]; [|done]. wp_step. wp_step.
    pose proof (find_labelled_no_panic (Some label) pw (r_room_password room) (g :: gs) 0 1) as Hn.
    destruct (find_labelled _ _ _ _ _ _) as [[[k cur]|]|e|] eqn:Hf; [| |done|by destruct Hn].
    + apply find_labelled_bound in Hf. apply Hjoin. lia.
    + wp_step. wp_step.
      pose proof (find_labelless_no_panic pw (r_room_password room) (g :: gs) 0 1) as Hn'.
      destruct (find_labelless _ _ _ _ _) as [[[k cur]|]|e|] eqn:Hf'; [|done|done|by destruct Hn'].
      apply find_labelless_bound in Hf'. apply Hjoin. lia.
Qed.

(** ** Keeping the invariant *)

(** Members depend on the slot table, the groups' number, the flags and the size
    of the room only. *)
Lemma room_members_frame room room' :
  room_members room → r_users room' = r_users room → r_max_slot room' = r_max_slot room →
  is_full (r_flag_attr room') = is_full (r_flag_attr room) →
  length (r_group_config room') = length (r_group_config room) →
  (∀ i, r_slots room !! i = Some true → r_slots room' !! i = Some true) →
  room_members room'.
Proof.
  intros [Hok Hsl Hu Hf Hfc] Eu Em Ef Eg Hs. split; rewrite ?Eu, ?Em, ?Ef; auto.
  intros mid u Hmid. destruct (Hok _ _ Hmid). split; rewrite ?Eg; auto.
Qed.

Lemma room_inv_frame room room' :
  room_inv room → room_shape room' → r_users room' = r_users room → r_owner room' = r_owner room →
  r_max_slot room' = r_max_slot room → is_full (r_flag_attr room') = is_full (r_flag_attr room) →
  length (r_group_config room') = length (r_group_config room) →
  (∀ i, r_slots room !! i = Some true → r_slots room' !! i = Some true) →
  room_inv room'.
Proof.
  intros [Hsh Hm Ho] Hsh' Eu Eo Em Ef Eg Hs. split; [done| |by rewrite Eu, Eo].
  by eapply room_members_frame.
Qed.

Lemma land_15_bound z : 0 ≤ Z.land z 0xF < 16.
Proof.
  change 0xF with (Z.ones 4). rewrite Z.land_ones by lia. apply Z.mod_pos_bound. lia.
Qed.

Lemma slot_given_shape room gid mid room' :
  room_shape room → slot_given room gid mid room' → room_shape room'.
Proof.
  intros [] (s & gs & _ & _ & _ & _ & _ & _ & ->). split; simpl; try done.
  - by rewrite length_insert.
  - apply land_15_bound.
Qed.

Lemma slot_given_slots room gid mid room' i :
  slot_given room gid mid room' → r_slots room !! i = Some true → r_slots room' !! i = Some true.
Proof.
  intros (s & gs & _ & Hf & _ & _ & _ & _ & ->) Hi. simpl.
  unfold slot_free in Hf. rewrite list_lookup_insert_ne; [done|congruence].
Qed.

Lemma slot_given_ok k room gid mid room' :
  room_ok k room → slot_given room gid mid room' → room_ok k room'.
Proof.
  intros [Hinv Hk] Hg. split.
  - pose proof (slot_given_shape _ _ _ _ (inv_shape _ Hinv) Hg).
    pose proof (λ i, slot_given_slots _ _ _ _ i Hg).
    destruct Hg as (s & gs & _ & _ & _ & Hl & _ & _ & ->).
    eapply room_inv_frame; try done.
  - by destruct Hg as (s & gs & _ & _ & _ & _ & _ & _ & ->).
Qed.

(** The slot given was nobody's, so its member id is new. *)
Lemma slot_given_fresh room gid mid room' m u :
  room_inv room → slot_given room gid mid room' →
  r_users room !! m = Some u → slot_of m ≠ slot_of mid.
Proof.
  intros Hinv (s & gs & Hs & Hf & -> & _ & _ & _ & _) Hm Heq.
  pose proof (sh_max _ (inv_shape _ Hinv)).
  destruct (slot_of_mid room s (inv_shape _ Hinv)) as [Hsl _]; [lia|].
  pose proof (mo_slot _ _ _ (me_ok _ (inv_members _ Hinv) _ _ Hm)) as Ht.
  rewrite Heq, Hsl in Ht. unfold slot_free in Hf. congruence.
Qed.

(** Members hold distinct taken slots, so there are no more members than slots. *)
Lemma size_users_le (slots : list bool) (users : gmap Z RoomUser) :
  (∀ m u, users !! m = Some u → slots !! Z.to_nat (slot_of m) = Some true) →
  (∀ m1 m2 u1 u2, users !! m1 = Some u1 → users !! m2 = Some u2 → slot_of m1 = slot_of m2 → m1 = m2) →
  (size users ≤ length slots)%nat.
Proof.
  intros Hok Hinj. rewrite <- length_btree_keys.
  rewrite <- (length_fmap (λ m, Z.to_nat (slot_of m))).
  transitivity (length (seq 0 (length slots))); [|by rewrite length_seq].
  apply submseteq_length, NoDup_submseteq.
  - apply NoDup_fmap_2_strong; [|apply NoDup_btree_keys].
    intros m1 m2 [u1 H1]%elem_of_btree_keys [u2 H2]%elem_of_btree_keys Heq.
    eapply Hinj; eauto. revert Heq. unfold slot_of, wrap_u16.
    pose proof (Z.mod_pos_bound (Z.shiftr m1 4 - 1) (2 ^ 16)).
    pose proof (Z.mod_pos_bound (Z.shiftr m2 4 - 1) (2 ^ 16)). lia.
  - intros i (m & -> & [u Hu]%elem_of_btree_keys)%list_elem_of_fmap.
    apply elem_of_seq. apply Hok, lookup_lt_Some in Hu. lia.
Qed.

Lemma members_le_slots room :
  room_shape room → room_members room → Z.of_nat (size (r_users room)) ≤ r_max_slot room.
Proof.
  intros Hsh Hm. rewrite <- (sh_slots _ Hsh). apply Nat2Z.inj_le, size_users_le; [|apply Hm].
  intros m u Hu. apply (me_ok _ Hm _ _ Hu).
Qed.

Lemma add_member_eq mid u room :
  add_member mid u room =
  room <| r_users := <[mid := u]> (r_users room) |>
       <| r_flag_attr := if bool_decide (Z.of_nat (size (<[mid := u]> (r_users room))) = r_max_slot room)
                         then Z.lor (r_flag_attr room) ROOM_FLAG_ATTR_FULL else r_flag_attr room |>.
Proof. destruct room. unfold add_member. simpl. by case_bool_decide. Qed.

(** A member record for the slot that was given. *)
Lemma add_member_ok room gid mid room' u :
  room_inv room → slot_given room gid mid room' →
  u_member_id u = mid → u_group_id u = gid →
  (∀ m v, r_users room !! m = Some v → u_user_id v ≠ u_user_id u) →
  room_inv (add_member mid u room') ∧
  room_key (add_member mid u room') =
    (r_room_id room, r_world_id room, r_lobby_id room, <[mid := u_user_id u]> (u_user_id <$> r_users room)).
Proof.
  intros Hinv Hg Hmid Hgid Hnew.
  pose proof (slot_given_shape _ _ _ _ (inv_shape _ Hinv) Hg) as Hsh'.
  pose proof (λ m v, slot_given_fresh _ _ _ _ m v Hinv Hg) as Hfresh.
  pose proof (λ i, slot_given_slots _ _ _ _ i Hg) as Hslots.
  destruct Hg as (s & gs & Hs & Hf & Hms & Hlen & Hgr & Hg8 & Hroom').
  destruct Hinv as [Hsh [Hok Hsl Hu Hfull Hfc] [o Ho]].
  destruct (slot_of_mid room s Hsh) as [Hso Hmr]; [pose proof (sh_max _ Hsh); lia|].
  rewrite <- Hms in Hso, Hmr.
  assert (r_users room !! mid = None) as Hnone.
  { apply eq_None_not_Some. intros [v Hv]. by eapply Hfresh. }
  assert (r_users room' = r_users room ∧ r_max_slot room' = r_max_slot room ∧
    r_group_config room' = gs ∧ r_flag_attr room' = r_flag_attr room ∧ r_owner room' = r_owner room ∧
    r_room_id room' = r_room_id room ∧ r_world_id room' = r_world_id room ∧
    r_lobby_id room' = r_lobby_id room ∧ r_slots room' !! Z.to_nat (slot_of mid) = Some true)
    as (Eu & Em & Eg & Ef & Eo & E1 & E2 & E3 & Est).
  { rewrite Hroom'. repeat split; try done. simpl. rewrite Hso, list_lookup_insert_eq; [done|].
    unfold slot_free in Hf. by apply lookup_lt_Some in Hf. }
  set (users' := <[mid := u]> (r_users room)).
  assert (∀ m v, users' !! m = Some v → member_ok room' m v) as Hall.
  { intros m v [[<- <-]|[Hne Hm]]%lookup_insert_Some.
    - split; rewrite ?Eg, ?Hlen; auto; lia.
    - destruct (Hok _ _ Hm). split; rewrite ?Eg, ?Hlen; auto. }
  assert (∀ m1 m2 u1 u2, users' !! m1 = Some u1 → users' !! m2 = Some u2 →
    slot_of m1 = slot_of m2 → m1 = m2) as Hsl'.
  { intros m1 m2 u1 u2 [[<- <-]|[? ?]]%lookup_insert_Some [[<- <-]|[? ?]]%lookup_insert_Some Heq;
      [done|exfalso; by eapply Hfresh|exfalso; by eapply Hfresh|by eapply Hsl]. }
  assert (∀ m1 m2 u1 u2, users' !! m1 = Some u1 → users' !! m2 = Some u2 →
    u_user_id u1 = u_user_id u2 → m1 = m2) as Hu'.
  { intros m1 m2 u1 u2 [[<- <-]|[? ?]]%lookup_insert_Some [[<- <-]|[? ?]]%lookup_insert_Some Heq;
      [done|exfalso; by eapply Hnew|exfalso; by eapply Hnew|by eapply Hu]. }
  assert (is_full (r_flag_attr room) = false) as Hnf.
  { destruct (is_full (r_flag_attr room)) eqn:Hff; [|done]. specialize (Hfull eq_refl).
    assert (size users' ≤ length (r_slots room'))%nat as Hle
      by (apply size_users_le; [intros m v Hm; apply (Hall m v Hm)|done]).
    unfold users' in Hle. rewrite map_size_insert_None in Hle by done.
    pose proof (sh_slots _ Hsh'). lia. }
  rewrite add_member_eq, Eu, Em. fold users'. set (f := if bool_decide _ then _ else _).
  assert (Z.of_nat (size users') = r_max_slot room ↔ is_full f = true) as Hff.
  { unfold f. case_bool_decide; [by rewrite is_full_set|by rewrite Ef, Hnf]. }
  clearbody f. split.
  - split; [destruct Hsh'; by split| |].
    + split; simpl; rewrite ?Em; try done; [|tauto|tauto].
      intros m v Hm. destruct (Hall m v Hm). by split.
    + simpl. rewrite Eo. unfold users'. rewrite lookup_insert. case_decide; eauto.
  - unfold room_key. simpl. unfold users'. by rewrite E1, E2, E3, fmap_insert.
Qed.

(** ** Departures *)

Lemma first_member_Some room uid mid :
  first_member room uid = Some mid → ∃ u, r_users room !! mid = Some u ∧ u_user_id u = uid.
Proof.
  unfold first_member. rewrite !fmap_Some. intros ([m u] & Hf & ->).
  apply fmap_Some in Hf as ([i kv] & (Hl & Hu & _)%list_find_Some & Heq). simpl in *. subst kv.
  apply list_elem_of_lookup_2, elem_of_btree_iter in Hl. by exists u.
Qed.

Lemma first_member_None room uid m u :
  first_member room uid = None → r_users room !! m = Some u → u_user_id u ≠ uid.
Proof.
  unfold first_member. rewrite !fmap_None, list_find_None, Forall_forall.
  intros Hall Hm. apply (Hall (m, u)). by apply elem_of_btree_iter.
Qed.

Lemma first_member_member room m u :
  room_members room → r_users room !! m = Some u → first_member room (u_user_id u) = Some m.
Proof.
  intros Hm Hu. destruct (first_member room (u_user_id u)) as [m'|] eqn:E.
  - apply first_member_Some in E as (u' & Hu' & Heq). f_equal. eapply (me_user_inj _ Hm); eauto.
  - by destruct (first_member_None _ _ _ _ E Hu).
Qed.

(** The room after its member [mid] left. *)
Record removed (room : Room) (mid : Z) (room' : Room) : Prop := {
  rv_users : r_users room' = delete mid (r_users room);
  rv_shape : room_shape room';
  rv_members : room_members room';
  rv_slot : r_slots room' = <[Z.to_nat (slot_of mid) := false]> (r_slots room);
  rv_same : (r_room_id room', r_world_id room', r_lobby_id room', r_owner room', r_owner_succession room') =
            (r_room_id room, r_world_id room, r_lobby_id room, r_owner room, r_owner_succession room);
}.

Lemma removed_intro room mid u gs flags :
  room_inv room → r_users room !! mid = Some u → length gs = length (r_group_config room) →
  is_full flags = false →
  removed room mid
    (room <| r_users := delete mid (r_users room) |> <| r_group_config := gs |>
          <| r_slots := <[Z.to_nat (slot_of mid) := false]> (r_slots room) |> <| r_flag_attr := flags |>).
Proof.
  intros [Hsh Hm _] Hu Hlen Hfl. split; try done.
  - destruct Hsh. split; simpl; try done. by rewrite length_insert.
  - assert (Z.of_nat (size (delete mid (r_users room))) < r_max_slot room) as Hlt.
    { pose proof (members_le_slots _ Hsh Hm). rewrite map_size_delete_Some by eauto.
      assert (size (r_users room) ≠ 0%nat); [|lia].
      intros He%map_size_empty_inv. rewrite He in Hu. done. }
    destruct Hm as [Hok Hsl Huj Hf Hfc]. split; simpl.
    + intros m v [Hne Hv]%lookup_delete_Some. destruct (Hok _ _ Hv). split; simpl; rewrite ?Hlen; auto.
      rewrite list_lookup_insert_ne; [done|]. intros Heq. apply Hne. eapply Hsl; eauto.
      revert Heq. unfold slot_of, wrap_u16.
      pose proof (Z.mod_pos_bound (Z.shiftr m 4 - 1) (2 ^ 16)).
      pose proof (Z.mod_pos_bound (Z.shiftr mid 4 - 1) (2 ^ 16)). lia.
    + intros m1 m2 u1 u2 [_ ?]%lookup_delete_Some [_ ?]%lookup_delete_Some. by eapply Hsl.
    + intros m1 m2 u1 u2 [_ ?]%lookup_delete_Some [_ ?]%lookup_delete_Some. by eapply Huj.
    + congruence.
    + lia.
Qed.

Lemma leave_group_spec room g Q :
  0 ≤ g ≤ Z.of_nat (length (r_group_config room)) → g < 256 →
  (∀ gs, length gs = length (r_group_config room) → Q (Ok tt) (room <| r_group_config := gs |>)) →
  wp (leave_group g) room Q.
Proof.
  intros Hg Hg8 HQ. unfold leave_group. case_bool_decide.
  - wp_step. wp_step. unfold wrap_u8. rewrite Z.mod_small by lia.
    destruct (@index_lt ErrorType _ (r_group_config room) (g - 1)) as (gr & -> & _); [lia|].
    wp_step. apply HQ, length_alter.
  - wp_step. specialize (HQ (r_group_config room) eq_refl). by destruct room.
Qed.

Lemma free_slot_spec room mid Q :
  r_slots room !! Z.to_nat (slot_of mid) = Some true →
  Q (Ok tt) (room <| r_slots := <[Z.to_nat (slot_of mid) := false]> (r_slots room) |>) →
  wp (free_slot mid) room Q.
Proof.
  intros Hl HQ. unfold free_slot. wp_step. wp_step.
  assert (@index unit bool (r_slots room) (slot_of mid) = Ok true) as ->; [|done].
  apply index_Ok. split; [apply Z.mod_pos_bound; lia|done].
Qed.

Lemma remove_member_spec room mid u :
  room_inv room → r_users room !! mid = Some u →
  wp (remove_member (u_user_id u)) room (λ r room', r = Ok mid ∧ removed room mid room').
Proof.
  intros Hinv Hu. pose proof Hinv as [Hsh Hm _]. destruct (me_ok _ Hm _ _ Hu).
  unfold remove_member. wp_step. wp_step.
  unfold find_user. rewrite (first_member_member _ _ _ Hm Hu). simpl.
  rewrite bool_decide_eq_false_2 by lia.
  wp_step. wp_step. rewrite Hu. simpl. wp_step. wp_step. wp_step.
  apply leave_group_spec; [done|done|]. intros gs Hgs. wp_step. wp_step.
  apply free_slot_spec; [done|]. wp_step. wp_step. wp_step. split; [done|].
  pose proof (removed_intro room mid u gs
    (Z.land (r_flag_attr room) (not_u 32 ROOM_FLAG_ATTR_FULL)) Hinv Hu Hgs (is_full_clear _)) as Hr.
  simpl. rewrite bool_decide_eq_true_2; [exact Hr|].
  pose proof (members_le_slots _ Hsh Hm). rewrite map_size_delete_Some by eauto.
  pose proof (sh_max _ Hsh). lia.
Qed.

(** ** Succession *)

Lemma pop_successor_spec users l :
  match pop_successor users l with
  | (Some s, rest) => ∃ pre, l = pre ++ s :: rest ∧ is_Some (users !! s) ∧ Forall (λ x, users !! x = None) pre
  | (None, rest) => rest = [] ∧ Forall (λ x, users !! x = None) l
  end.
Proof.
  induction l as [|x l IH]; simpl; [done|]. case_bool_decide as Hx.
  - by exists [].
  - apply eq_None_not_Some in Hx.
    destruct (pop_successor users l) as [[s|] rest]; simpl in *.
    + destruct IH as (pre & -> & Hs & Hpre). exists (x :: pre). repeat split; auto.
    + destruct IH as [-> Hall]. split; auto.
Qed.

(** Changing user records without changing who they are keeps the members. *)
Lemma room_members_alter room (f : RoomUser → RoomUser) s :
  (∀ u, u_user_id (f u) = u_user_id u ∧ u_member_id (f u) = u_member_id u ∧ u_group_id (f u) = u_group_id u) →
  room_members room → room_members (room <| r_users := alter f s (r_users room) |>).
Proof.
  intros Hf [Hok Hsl Hu Hfu Hfc].
  assert (∀ m v, alter f s (r_users room) !! m = Some v → ∃ u, r_users room !! m = Some u ∧
    u_user_id v = u_user_id u ∧ u_member_id v = u_member_id u ∧ u_group_id v = u_group_id u) as Hinv.
  { intros m v. rewrite lookup_alter. case_decide as Hd; [subst s|eauto].
    intros (u & Hu' & ->)%fmap_Some. exists u. split; [done|apply Hf]. }
  split; simpl; rewrite ?size_alter; auto.
  - intros m v (u & Hm & E1 & E2 & E3)%Hinv. destruct (Hok _ _ Hm). split; simpl; congruence.
  - intros m1 m2 v1 v2 (u1 & H1 & _)%Hinv (u2 & H2 & _)%Hinv. by eapply Hsl.
  - intros m1 m2 v1 v2 (u1 & H1 & E1 & _)%Hinv (u2 & H2 & E2 & _)%Hinv Heq. eapply Hu; eauto. congruence.
Qed.

Lemma fmap_alter_id (users : gmap Z RoomUser) (f : RoomUser → RoomUser) s :
  (∀ u, u_user_id (f u) = u_user_id u) → u_user_id <$> alter f s users = u_user_id <$> users.
Proof.
  intros Hf. apply map_eq. intros i. rewrite !lookup_fmap, lookup_alter. case_decide; [|done].
  subst. destruct (users !! i); simpl; [|done]. by rewrite Hf.
Qed.

Lemma set_owner_ok room s :
  room_shape room → room_members room → is_Some (r_users room !! s) →
  room_ok (room_key room) (set_owner s room).
Proof.
  intros Hsh Hm Hs. split.
  - split; [destruct Hsh; by split| |].
    + apply (room_members_alter (room <| r_owner := s |>) grant_owner_flag s); [done|].
      destruct Hm as [Hok ? ? ? ?]. split; try done. intros m u Hmu. destruct (Hok m u Hmu). by split.
    + simpl. rewrite lookup_alter_eq. by apply fmap_is_Some.
  - unfold room_key, set_owner. simpl. by rewrite fmap_alter_id.
Qed.

(** The outcomes of [choose_owner]. *)
Definition choose_owner_post (room : Room) (r : R bool) (room' : Room) : Prop :=
  match r with
  | Ok true => room_ok (room_key room) room'
  | Ok false => r_users room = ∅ ∧ r_users room' = ∅ ∧ room_key room' = room_key room
  | _ => False
  end.

Lemma choose_owner_spec rng room :
  room_shape room → room_members room → wp (choose_owner rng) room (choose_owner_post room).
Proof.
  intros Hsh Hm. unfold choose_owner. wp_step. wp_step. wp_step. wp_step.
  pose proof (pop_successor_spec (r_users room) (r_owner_succession room)) as Hpop.
  destruct (pop_successor _ _) as [found rest]. wp_step. wp_step.
  set (room1 := room <| r_owner_succession := rest |>).
  lazymatch goal with |- wp _ ?r _ => change r with room1 end.
  assert (room_shape room1) as Hsh1 by (destruct Hsh; by split).
  assert (room_members room1) as Hm1 by (by eapply room_members_frame).
  destruct found as [s|].
  - destruct Hpop as (pre & _ & Hs & _). wp_step. wp_step. wp_step.
    exact (set_owner_ok room1 s Hsh1 Hm1 Hs).
  - case_bool_decide as He; [by wp_step|]. wp_step. wp_step.
    assert (gen_range rng (size (r_users room)) < length (btree_keys (r_users room)))%nat as Hlt.
    { rewrite length_btree_keys. apply gen_range_lt.
      assert (size (r_users room) ≠ 0%nat); [|lia]. by intros ?%map_size_empty_inv. }
    destruct (lookup_lt_is_Some_2 _ _ Hlt) as [o Ho]. rewrite Ho. simpl.
    wp_step. wp_step. wp_step. apply list_elem_of_lookup_2, elem_of_btree_keys in Ho.
    exact (set_owner_ok room1 o Hsh1 Hm1 Ho).
Qed.

(** ** Setters *)

Lemma room_ok_frame k room room' :
  room_ok k room → room_shape room' → room_key room' = room_key room →
  r_users room' = r_users room → r_owner room' = r_owner room → r_max_slot room' = r_max_slot room →
  is_full (r_flag_attr room') = is_full (r_flag_attr room) →
  length (r_group_config room') = length (r_group_config room) → r_slots room' = r_slots room →
  room_ok k room'.
Proof.
  intros [Hinv <-] Hsh Hk Eu Eo Em Ef Eg Es. split; [|done].
  eapply room_inv_frame; eauto. by rewrite Es.
Qed.

Ltac room_frame :=
  match goal with
  | H : room_ok _ _ |- _ =>
      eapply room_ok_frame;
      [exact H|destruct (inv_shape _ (proj1 H)); split; simpl; try done|try done..]
  end.

Lemma store_bin_attr_internal_length now mid attrs pb attrs' :
  store_bin_attr_internal now mid attrs pb = Ok attrs' → length attrs' = length attrs.
Proof.
  unfold store_bin_attr_internal. intros (a & _ & H)%res_bind_Ok. destruct (_ && _); [congruence|].
  apply res_bind_Ok in H as (? & _ & [= <-]). apply length_insert.
Qed.

Lemma store_bin_attr_external_length attrs pb attrs' :
  store_bin_attr_external attrs pb = Ok attrs' → length attrs' = length attrs.
Proof.
  unfold store_bin_attr_external. intros (a & _ & H)%res_bind_Ok. destruct (_ && _); [congruence|].
  apply res_bind_Ok in H as (? & _ & [= <-]). apply length_insert.
Qed.

Lemma store_search_int_attr_length attrs pb attrs' :
  store_search_int_attr attrs pb = Ok attrs' → length attrs' = length attrs.
Proof.
  unfold store_search_int_attr. intros (a & _ & H)%res_bind_Ok. destruct (_ || _); [congruence|].
  apply res_bind_Ok in H as (? & _ & [= <-]). apply length_insert.
Qed.

Section setters.
Context (k : Z * Z * Z * gmap Z Z).

Lemma write_bin_attr_external_keeps pb : keeps (room_ok k) (write_bin_attr_external pb).
Proof.
  intros room Hok. unfold write_bin_attr_external. wp_step. wp_step.
  destruct (store_bin_attr_external _ _) eqn:E; try done. wp_step.
  apply store_bin_attr_external_length in E. room_frame. congruence.
Qed.

Lemma write_search_bin_attr_keeps pb : keeps (room_ok k) (write_search_bin_attr pb).
Proof.
  intros room Hok. unfold write_search_bin_attr. wp_step. wp_step.
  destruct (store_search_bin_attr _ _); try done. wp_step. room_frame.
Qed.

Lemma write_search_int_attr_keeps pb : keeps (room_ok k) (write_search_int_attr pb).
Proof.
  intros room Hok. unfold write_search_int_attr. wp_step. wp_step.
  destruct (store_search_int_attr _ _) eqn:E; try done. wp_step.
  apply store_search_int_attr_length in E. room_frame. congruence.
Qed.

Lemma write_bin_attrs_internal_keeps now mid pbs : keeps (room_ok k) (write_bin_attrs_internal now mid pbs).
Proof.
  induction pbs as [|pb pbs IH]; [by apply keeps_pure|]. simpl. keeps_tac; [|done].
  unfold write_bin_attr_internal. apply keeps_bind; [by apply keeps_pure|].
  intros a room Hok. wp_step. wp_step.
  destruct (store_bin_attr_internal _ _ _ _) eqn:E; try done. wp_step. wp_step. wp_step.
  apply store_bin_attr_internal_length in E. room_frame. congruence.
Qed.

(** The protected flag survives whatever flags the owner asks for. *)
Lemma update_flags_full old flag_filter flag_attr :
  is_full (Z.lor (Z.land (Z.land flag_attr (not_u 32 PROTECTED_ROOM_FLAGS))
                         (Z.land flag_filter (not_u 32 PROTECTED_ROOM_FLAGS)))
                 (Z.land old (not_u 32 (Z.land flag_filter (not_u 32 PROTECTED_ROOM_FLAGS))))) = is_full old.
Proof.
  unfold is_full, not_u. rewrite Z.lor_spec, !Z.land_spec, !Z.lxor_spec, !Z.land_spec, !Z.lxor_spec.
  change (Z.testbit PROTECTED_ROOM_FLAGS 29) with true.
  change (Z.testbit (2 ^ 32 - 1) 29) with true.
  by destruct (Z.testbit flag_attr 29), (Z.testbit flag_filter 29), (Z.testbit old 29).
Qed.

Lemma owner_update_keeps req : keeps (room_ok k) (owner_update req).
Proof.
  unfold owner_update. keeps_tac.
  - intros room Hok. unfold update_flags. wp_steps; [|done]. room_frame. apply update_flags_full.
  - generalize (sdi_password_config req). intros cfgs.
    induction cfgs as [|cfg cfgs IH]; [by apply keeps_pure|]. simpl. keeps_tac; [|done].
    unfold update_group_password. keeps_tac. apply keeps_modify. intros room Hok. room_frame.
    apply length_alter.
  - unfold update_slot_mask. keeps_tac. apply keeps_modify. intros room Hok. room_frame.
  - unfold update_succession. keeps_tac. apply keeps_modify. intros room Hok. room_frame.
Qed.

Lemma alter_user_keeps (f : RoomUser → RoomUser) s :
  (∀ u, u_user_id (f u) = u_user_id u ∧ u_member_id (f u) = u_member_id u ∧ u_group_id (f u) = u_group_id u) →
  ∀ room, room_ok k room → room_ok k (room <| r_users ::= alter f s |>).
Proof.
  intros Hf room [[Hsh Hm Ho] <-]. split.
  - split; [destruct Hsh; by split|by apply room_members_alter|].
    simpl. rewrite lookup_alter. case_decide; [|done]. subst. by apply fmap_is_Some.
  - unfold room_key. simpl. rewrite fmap_alter_id; [done|apply Hf].
Qed.

Lemma update_member_keeps now req uid : keeps (room_ok k) (update_member now req uid).
Proof.
  unfold update_member. keeps_tac; apply keeps_modify; intros room Hok; by apply alter_user_keeps.
Qed.
End setters.
