(* ===== verification/RoomReports.v ===== *)
(** * Reports of a room are total and consistent

    Under the room invariant the reporting functions never index out of range
    and never miss the owner, the slot accounting of the external report adds
    up, and the search predicates compute the conjunction of their filters. *)

From S2P Require Import Prelude Protocol Messages RoomData Room RoomManager RoomInv.

(** ** Totality *)

Lemma to_RoomMemberDataInternal_total room mid u :
  room_members room → r_users room !! mid = Some u →
  ∃ d, to_RoomMemberDataInternal u (r_group_config room) = Ok d.
Proof.
  intros Hm Hu. destruct (me_ok _ Hm _ _ Hu). unfold to_RoomMemberDataInternal.
  case_bool_decide; simpl; [|eauto].
  destruct (@index_lt ErrorType _ (r_group_config room) (u_group_id u - 1)) as (g & -> & _); [lia|].
  simpl. eauto.
Qed.

Lemma res_map_list_total {A B} (f : A → R B) xs :
  (∀ x, x ∈ xs → ∃ y, f x = Ok y) → ∃ ys, res_map_list f xs = Ok ys.
Proof.
  induction xs as [|x xs IH]; intros Hf; simpl; [eauto|].
  destruct (Hf x) as [y ->]; [set_solver|]. simpl.
  destruct IH as [ys ->]; [set_solver|]. simpl. eauto.
Qed.

Lemma to_RoomDataInternal_total room :
  room_members room → ∃ d, to_RoomDataInternal room = Ok d.
Proof.
  intros Hm. unfold to_RoomDataInternal.
  destruct (res_map_list_total (λ u, to_RoomMemberDataInternal u (r_group_config room))
    (btree_values (r_users room))) as [ms ->]; [|simpl; eauto].
  intros u [mid Hu]%elem_of_btree_values. by eapply to_RoomMemberDataInternal_total.
Qed.

Lemma get_room_member_update_info_total room mid cause opt :
  room_members room → is_Some (r_users room !! mid) →
  ∃ d, get_room_member_update_info room mid cause opt = Ok d.
Proof.
  intros Hm [u Hu]. unfold get_room_member_update_info. rewrite Hu. simpl.
  destruct (to_RoomMemberDataInternal_total room mid u Hm Hu) as [d ->]. simpl. eauto.
Qed.

Lemma owner_info_total room opt : room_inv room → ∃ d, owner_info room opt = Ok d.
Proof.
  intros [_ _ [u Hu]]. unfold owner_info. rewrite Hu. case_bool_decide; simpl; eauto.
Qed.

Lemma inc_attrs_total room acc ids :
  room_shape room → ∃ d, res_fold (inc_attr_step room) acc ids = Ok d.
Proof.
  intros []. revert acc. induction ids as [|id ids IH]; intros acc; simpl; [eauto|].
  assert (∃ acc', inc_attr_step room acc id = Ok acc') as [acc' ->]; [|simpl; apply IH].
  unfold inc_attr_step, INT_ATTR_EXTERNAL_1_ID, INT_ATTR_EXTERNAL_8_ID, BIN_ATTR_EXTERNAL_1_ID,
    BIN_ATTR_EXTERNAL_2_ID. destruct acc as [[a b] c].
  case_bool_decide.
  { destruct (@index_lt ErrorType _ (r_search_int_attr room) (id - 0x4C)) as (x & -> & _); [lia|]. simpl. eauto. }
  case_bool_decide; [eauto|]. case_bool_decide; [|eauto].
  destruct (@index_lt ErrorType _ (r_bin_attr_external room) (id - 0x55)) as (x & -> & _); [lia|]. simpl. eauto.
Qed.

(** ** Slot accounting *)

(** Free slots among the first [n]. *)
Definition free_count (slots : list bool) : Z := Z.of_nat (length (filter (λ b : bool, b = false) slots)).

Lemma free_count_snoc l b : free_count (l ++ [b]) = free_count l + if b then 0 else 1.
Proof. unfold free_count. rewrite filter_app, length_app. destruct b; simpl; lia. Qed.

(** The loop invariant: after [n] slots the private ones are at most [n], and the
    open ones of both kinds are the free ones seen. *)
Lemma slot_count_loop room n :
  (n ≤ length (r_slots room))%nat →
  ∃ mp op opr, res_fold (slot_count_step room) (0, 0, 0) (seqZ 0 (Z.of_nat n)) = Ok (mp, op, opr) ∧
    0 ≤ opr ≤ mp ∧ mp ≤ Z.of_nat n ∧ 0 ≤ op ≤ Z.of_nat n - mp ∧
    op + opr = free_count (take n (r_slots room)).
Proof.
  induction n as [|n IH]; intros Hn.
  - exists 0, 0, 0. split; [done|]. unfold free_count. simpl. lia.
  - destruct IH as (mp & op & opr & Hf & ?); [lia|].
    rewrite seqZ_S.
    assert (∀ acc l1 l2, res_fold (slot_count_step room) acc (l1 ++ l2) =
      res_bind (res_fold (slot_count_step room) acc l1) (λ a, res_fold (slot_count_step room) a l2)) as Happ.
    { intros acc l1. revert acc. induction l1 as [|x l1 IHl]; intros acc l2; simpl; [done|].
      destruct (slot_count_step room acc x); simpl; auto. }
    rewrite Happ, Hf. cbn [res_bind res_fold]. rewrite Z.add_0_l.
    destruct (lookup_lt_is_Some_2 (r_slots room) n) as [b Hb]; [lia|].
    rewrite (take_S_r _ _ b Hb), free_count_snoc.
    assert (@index ErrorType bool (r_slots room) (Z.of_nat n) = Ok b) as Hi
      by (apply index_Ok; rewrite Nat2Z.id; split; [lia|done]).
    unfold slot_count_step. rewrite Hi. simpl.
    destruct (mask_bit _ _), b; simpl; do 3 eexists; (split; [reflexivity|lia]).
Qed.

(** What the external report says about slots. *)
Definition slots_consistent (room : Room) (mp op opr : Z) : Prop :=
  0 ≤ opr ≤ mp ∧ mp ≤ r_max_slot room ∧ 0 ≤ op ≤ r_max_slot room - mp ∧
  (r_room_password room ≠ None → op + opr = free_count (r_slots room)).

Lemma slot_counts_total room :
  room_shape room → ∃ mp op opr, slot_counts room = Ok (mp, op, opr) ∧ slots_consistent room mp op opr.
Proof.
  intros [Hmax Hlen _ _ _ _]. unfold slot_counts, slots_consistent. destruct (r_room_password room).
  - destruct (slot_count_loop room (length (r_slots room))) as (mp & op & opr & Hf & ?); [lia|].
    rewrite <- Hlen. rewrite Hf, take_ge in * by lia. do 3 eexists. split; [done|lia].
  - do 3 eexists. split; [done|]. split; [lia|]. split; [lia|]. split; [lia|done].
Qed.

Lemma to_RoomDataExternal_report room opt inc :
  room_inv room →
  ∃ d mp op opr, to_RoomDataExternal room opt inc = Ok d ∧ slots_consistent room mp op opr ∧
    rde_private_slot_num d = new_from_value mp ∧
    rde_public_slot_num d = new_from_value (r_max_slot room - mp) ∧
    rde_open_public_slot_num d = new_from_value op ∧
    rde_open_private_slot_num d = new_from_value opr ∧
    rde_cur_member_num d = new_from_value (Z.of_nat (size (r_users room))).
Proof.
  intros Hinv. pose proof Hinv as [Hsh Hm _]. unfold to_RoomDataExternal.
  destruct (owner_info_total room opt Hinv) as [o ->].
  destruct (inc_attrs_total room ([], [], []) inc Hsh) as [[[a b] c] ->].
  destruct (slot_counts_total room Hsh) as (mp & op & opr & -> & Hc). simpl.
  pose proof (members_le_slots _ Hsh Hm). pose proof (sh_max _ Hsh).
  eexists _, mp, op, opr. split; [reflexivity|]. split; [exact Hc|]. destruct Hc as (?&?&?&_).
  simpl. unfold wrap_u16. rewrite !Z.mod_small by lia. auto.
Qed.

(** The external report of a stored room always exists (no index is out of
    range, the owner is found), its public and private slot numbers add up to the
    room's size, the open slots of each kind do not exceed it, and in a room with
    a password the open slots reported are exactly the free ones. *)
Theorem to_RoomDataExternal_total room opt inc :
  room_inv room →
  ∃ d mp op opr, to_RoomDataExternal room opt inc = Ok d ∧ slots_consistent room mp op opr ∧
    rde_private_slot_num d = new_from_value mp ∧
    rde_public_slot_num d = new_from_value (r_max_slot room - mp) ∧
    rde_open_public_slot_num d = new_from_value op ∧
    rde_open_private_slot_num d = new_from_value opr ∧
    rde_cur_member_num d = new_from_value (Z.of_nat (size (r_users room))).
Proof. apply to_RoomDataExternal_report. Qed.

Lemma to_RoomDataExternalAll_total room opt inc :
  room_inv room → ∃ d, to_RoomDataExternalAll room opt inc = Ok d.
Proof.
  intros Hinv. pose proof Hinv as [Hsh Hm _]. unfold to_RoomDataExternalAll.
  destruct (owner_info_total room opt Hinv) as [o ->].
  destruct (inc_attrs_total room ([], [], []) inc Hsh) as [[[a b] c] ->].
  destruct (slot_counts_total room Hsh) as (mp & op & opr & -> & Hc). simpl. eauto.
Qed.

(** ** Search predicates *)

(** The specification of a search: the conjunction of the integer comparisons
    and of the prefix comparisons the request lists. *)
Definition int_filter_holds (room : Room) (f : IntSearchFilter) : Prop :=
  ∀ attr, isf_attr f = Some attr →
  ∃ op id a c, get_verified (isf_search_operator f) = Ok op ∧ get_verified (ia_id attr) = Ok id ∧
    INT_ATTR_EXTERNAL_1_ID ≤ id ≤ INT_ATTR_EXTERNAL_8_ID ∧
    r_search_int_attr room !! Z.to_nat (id - INT_ATTR_EXTERNAL_1_ID) = Some a ∧
    operator_from_u8 op = Some c ∧
    match c with
    | OperatorEq => ri_attr a = ia_num attr
    | OperatorNe => ri_attr a ≠ ia_num attr
    | OperatorLt => ri_attr a < ia_num attr
    | OperatorLe => ri_attr a ≤ ia_num attr
    | OperatorGt => ia_num attr < ri_attr a
    | OperatorGe => ia_num attr ≤ ri_attr a
    end.

Definition bin_filter_holds (room : Room) (f : BinSearchFilter) : Prop :=
  ∀ attr, bsf_attr f = Some attr →
  get_verified (ba_id attr) = Ok SEARCHABLE_BIN_ATTR_EXTERNAL_1_ID ∧
  let own := rb_attr (r_search_bin_attr room) in
  let n := Nat.min (length (ba_data attr)) (length own) in
  (get_verified (bsf_search_operator f) = Ok 1 ∧ take n own = take n (ba_data attr)) ∨
  (get_verified (bsf_search_operator f) = Ok 2 ∧ take n own ≠ take n (ba_data attr)).

Lemma check_all_true {A} (f : A → R bool) xs :
  check_all f xs = Ok true ↔ Forall (λ x, f x = Ok true) xs.
Proof.
  induction xs as [|x xs IH]; simpl; [split; auto|].
  rewrite Forall_cons, <- IH, res_bind_Ok. split.
  - intros ([] & Hx & H); done.
  - intros [Hx H]. by exists true.
Qed.

Lemma int_compare_spec op a n :
  int_compare op a n = true ↔
  match op with
  | OperatorEq => a = n | OperatorNe => a ≠ n | OperatorLt => a < n
  | OperatorLe => a ≤ n | OperatorGt => n < a | OperatorGe => n ≤ a
  end.
Proof. destruct op; simpl; case_bool_decide; simpl; split; try done; lia. Qed.

Lemma int_filter_check_true room f :
  int_filter_check room f = Ok true →
  (∃ op, get_verified (isf_search_operator f) = Ok op) ∧ int_filter_holds room f.
Proof.
  unfold int_filter_check, int_filter_holds. intros (op & Hop & H)%res_bind_Ok.
  split; [eauto|]. intros attr Ha. rewrite Ha in H. apply res_bind_Ok in H as (id & Hid & H).
  destruct (_ || _) eqn:Hr; [done|]. bool_hyps.
  apply res_bind_Ok in H as (a & Hi%index_Ok & H).
  destruct (operator_from_u8 op) as [c|] eqn:Hc; [|done]. injection H as H.
  exists op, id, a, c. repeat split; try done; try lia; [apply Hi|].
  apply int_compare_spec in H. destruct c; lia.
Qed.

Lemma bin_filter_check_true room f :
  bin_filter_check room f = Ok true →
  (∃ op, get_verified (bsf_search_operator f) = Ok op) ∧ bin_filter_holds room f.
Proof.
  unfold bin_filter_check, bin_filter_holds. intros (op & Hop & H)%res_bind_Ok.
  split; [eauto|]. intros attr Ha. rewrite Ha in H. apply res_bind_Ok in H as (id & Hid & H).
  case_bool_decide as Hne; [done|]. subst id.
  split; [done|]. unfold operator_from_u8 in H.
  assert (op = 1 ∨ op = 2) as [-> | ->]; [repeat case_match; naive_solver| |].
  - left. split; [done|]. injection H as H. by apply bool_decide_eq_true_1 in H.
  - right. split; [done|]. injection H as H. by apply negb_true_iff, bool_decide_eq_false_1 in H.
Qed.

(** A room turns up in a search only if it is not hidden, its flags agree
    with the request outside the NAT restriction bit, and every integer and
    binary filter of the request holds of it. *)
Theorem is_match_sound room req :
  is_match room req = Ok true →
  Z.land (r_flag_attr room) ROOM_FLAG_ATTR_HIDDEN = 0 ∧
  Z.land (r_flag_attr room) (Z.land (sr_flag_filter req) (not_u 32 ROOM_FLAG_ATTR_NAT_TYPE_RESTRICTION)) =
    Z.land (sr_flag_attr req) (not_u 32 ROOM_FLAG_ATTR_NAT_TYPE_RESTRICTION) ∧
  Forall (int_filter_holds room) (sr_int_filter req) ∧
  Forall (bin_filter_holds room) (sr_bin_filter req).
Proof.
  unfold is_match. case_bool_decide as Hh; [done|]. case_bool_decide as Hf; [done|].
  intros (b & Hb & H)%res_bind_Ok. destruct b; [|done].
  apply check_all_true in Hb, H. split; [done|]. split; [done|]. split.
  - eapply Forall_impl; [exact Hb|]. intros f Hc. by apply int_filter_check_true.
  - eapply Forall_impl; [exact H|]. intros f Hc. by apply bin_filter_check_true.
Qed.

(** A binary filter with an ordering operator panics the request instead of
    being refused: the only panic a search predicate can reach. *)
Theorem bin_filter_panics room f :
  bin_filter_check room f = Panic ↔
  ∃ attr op, bsf_attr f = Some attr ∧ get_verified (ba_id attr) = Ok SEARCHABLE_BIN_ATTR_EXTERNAL_1_ID ∧
    get_verified (bsf_search_operator f) = Ok op ∧ 3 ≤ op ≤ 6.
Proof.
  unfold bin_filter_check.
  pose proof (verified_no_panic (P:=Uint8) (bits:=8) (bsf_search_operator f)) as Hn1.
  destruct (get_verified (bsf_search_operator f)) as [op|e|]; [|naive_solver|by destruct Hn1]. simpl.
  destruct (bsf_attr f) as [attr|]; [|naive_solver].
  pose proof (verified_no_panic (P:=Uint16) (bits:=16) (ba_id attr)) as Hn2.
  destruct (get_verified (ba_id attr)) as [id|e|] eqn:Hid; simpl;
    [|split; [done|intros (?&?&[= <-]&?&?&?); congruence]|by destruct Hn2].
  case_bool_decide as Hne; [split; [done|intros (?&?&[= <-]&?&?&?); congruence]|]. subst id.
  split.
  - intros H. exists attr, op. rewrite Hid. repeat split; try done;
      unfold operator_from_u8 in H; repeat case_match; try done; lia.
  - intros (attr' & op' & [= <-] & _ & [= <-] & Hop).
    assert (op = 3 ∨ op = 4 ∨ op = 5 ∨ op = 6) as [-> | [-> | [-> | ->]]] by lia; done.
Qed.
