(* ===== verification/RoomManagerInv.v ===== *)
(** * What the room manager promises

    The invariant that ties the rooms to the indexes by world, lobby and user,
    the step relation of the manager's operations under the guards of the request
    handlers, and the theorem that every reachable state satisfies the invariant,
    whatever the outcome of the operations (early errors and panics included). *)

From S2P Require Import Prelude Protocol Messages RoomData Room RoomManager RoomInv RoomReports.

(** A user is in a room. *)
Definition in_room (room : Room) (uid : Z) : Prop := ∃ m, (room_key room).2 !! m = Some uid.

Lemma in_room_member room uid :
  in_room room uid ↔ ∃ m u, r_users room !! m = Some u ∧ u_user_id u = uid.
Proof.
  unfold in_room. simpl. setoid_rewrite lookup_fmap. setoid_rewrite fmap_Some. naive_solver.
Qed.

Lemma in_room_user_ids room uid : uid ∈ get_room_user_ids room ↔ in_room room uid.
Proof.
  unfold get_room_user_ids. rewrite elem_of_list_to_set, list_elem_of_fmap, in_room_member.
  setoid_rewrite elem_of_btree_values. naive_solver.
Qed.

Definition counter (rm : RoomManager) (c : ComId) : Z := default 0 (rm_room_cnt rm !! c).

Record mgr_inv (rm : RoomManager) : Prop := {
  mi_room : ∀ c id room, rm_rooms rm !! (c, id) = Some room →
    room_inv room ∧ r_room_id room = id ∧ 1 ≤ id ≤ counter rm c;
  mi_world : ∀ c w id, in_entry (rm_world_rooms rm) (c, w) id ↔
    ∃ room, rm_rooms rm !! (c, id) = Some room ∧ r_lobby_id room = 0 ∧ r_world_id room = w;
  mi_lobby : ∀ c l id, in_entry (rm_lobby_rooms rm) (c, l) id ↔
    ∃ room, rm_rooms rm !! (c, id) = Some room ∧ r_lobby_id room = l ∧ l ≠ 0;
  mi_user : ∀ uid c id, in_entry (rm_user_rooms rm) uid (c, id) ↔
    ∃ room, rm_rooms rm !! (c, id) = Some room ∧ in_room room uid;
  mi_cnt : ∀ c, 0 ≤ counter rm c;
}.

Lemma mgr_inv_new : mgr_inv RoomManager_new.
Proof.
  split; simpl; try (intros; rewrite ?lookup_empty in *; done).
  all: intros; split; [intros []%in_entry_empty|intros (? & ? & _); simplify_map_eq].
Qed.

(** ** Updating one room in place *)

Lemma mgr_put_room rm c id room room' :
  mgr_inv rm → rm_rooms rm !! (c, id) = Some room → room_ok (room_key room) room' →
  mgr_inv (rm <| rm_rooms ::= <[(c, id) := room']> |>).
Proof.
  intros [Hr Hw Hl Hu Hc] Hroom [Hinv' Hk].
  assert (r_room_id room' = r_room_id room ∧ r_world_id room' = r_world_id room ∧
    r_lobby_id room' = r_lobby_id room ∧ (∀ uid, in_room room' uid ↔ in_room room uid))
    as (E1 & E2 & E3 & E4).
  { unfold in_room. rewrite Hk. unfold room_key in Hk. by simplify_eq. }
  split; simpl.
  - intros c0 id0 r0 [[[= <- <-] <-]|[_ Hr0]]%lookup_insert_Some; [|by apply Hr].
    destruct (Hr _ _ _ Hroom) as (_ & ? & ?). rewrite E1. done.
  - intros c0 w0 id0. rewrite Hw. symmetry. eapply exists_insert_same; [done|]. by rewrite E2, E3.
  - intros c0 w0 id0. rewrite Hl. symmetry. eapply exists_insert_same; [done|]. by rewrite E3.
  - intros uid c0 id0. rewrite Hu. symmetry. eapply exists_insert_same; [done|]. apply E4.
  - done.
Qed.

Lemma room_ok_refl rm c id room :
  mgr_inv rm → rm_rooms rm !! (c, id) = Some room → room_ok (room_key room) room.
Proof. intros Hi Hr. split; [|done]. by apply (mi_room _ Hi) in Hr as [? _]. Qed.

Lemma get_mut_room_keeps {A} c id (m : M Room ErrorType A) :
  (∀ k, keeps (room_ok k) m) → keeps mgr_inv (get_mut_room c id m).
Proof.
  intros Hm rm Hi. unfold get_mut_room.
  destruct (rm_rooms rm !! (c, id)) as [room|] eqn:Hroom.
  - eapply wp_zoom; [exact Hroom|].
    eapply wp_mono; [|apply (Hm (room_key room) room); by eapply room_ok_refl].
    intros r room' Hok. by eapply mgr_put_room.
  - unfold wp, zoom. by rewrite Hroom.
Qed.

Lemma set_roomdata_external_keeps c req uid : keeps mgr_inv (set_roomdata_external c req uid).
Proof.
  unfold set_roomdata_external. keeps_tac. apply get_mut_room_keeps. intros k. keeps_tac;
    [apply write_bin_attr_external_keeps|apply write_search_bin_attr_keeps|apply write_search_int_attr_keeps].
Qed.

Lemma set_roomdata_internal_keeps now c req uid : keeps mgr_inv (set_roomdata_internal now c req uid).
Proof.
  unfold set_roomdata_internal. keeps_tac. apply get_mut_room_keeps. intros k. keeps_tac;
    first [apply owner_update_keeps|apply write_bin_attrs_internal_keeps].
Qed.

Lemma set_roommemberdata_internal_keeps now c req uid :
  keeps mgr_inv (set_roommemberdata_internal now c req uid).
Proof.
  unfold set_roommemberdata_internal. keeps_tac. apply get_mut_room_keeps.
  intros k. apply update_member_keeps.
Qed.

(** ** Joining *)

Lemma mgr_add_user rm c id room room' mid uid :
  mgr_inv rm → rm_rooms rm !! (c, id) = Some room → room_inv room' →
  room_key room' = (r_room_id room, r_world_id room, r_lobby_id room, <[mid := uid]> (room_key room).2) →
  (room_key room).2 !! mid = None →
  mgr_inv (rm <| rm_rooms ::= <[(c, id) := room']> |>
              <| rm_user_rooms ::= entry_insert uid (c, r_room_id room) |>).
Proof.
  intros [Hr Hw Hl Hu Hc] Hroom Hinv' Hk Hnone.
  destruct (Hr _ _ _ Hroom) as (_ & Hid & Hrange).
  assert (r_room_id room' = r_room_id room ∧ r_world_id room' = r_world_id room ∧
    r_lobby_id room' = r_lobby_id room ∧ (∀ u, in_room room' u ↔ u = uid ∨ in_room room u))
    as (E1 & E2 & E3 & E4).
  { split; [|split; [|split]]; [by injection Hk..|].
    intros u. unfold in_room. rewrite Hk. cbn [snd]. setoid_rewrite lookup_insert_Some. split.
    - naive_solver.
    - intros [->|[m Hm]]; [eauto|]. exists m. right. split; [congruence|done]. }
  split; simpl.
  - intros c0 id0 r0 [[[= <- <-] <-]|[_ Hr0]]%lookup_insert_Some; [|by apply Hr].
    rewrite E1. done.
  - intros c0 w0 id0. rewrite Hw. symmetry. eapply exists_insert_same; [done|]. by rewrite E2, E3.
  - intros c0 w0 id0. rewrite Hl. symmetry. eapply exists_insert_same; [done|]. by rewrite E3.
  - intros u c0 id0. rewrite in_entry_insert, Hu, Hid, exists_insert, E4.
    destruct (decide ((c, id) = (c0, id0))) as [[= <- <-]|Hne].
    + split; [|intros [[_ [->|Hin]]|[? _]]; [by left|right; by exists room|done]].
      intros [[<- _]|(r & Hr' & Hin)]; left; (split; [done|]); [by left|right; congruence].
    + split; [intros [[_ [= <- <-]]|?]; [done|by right]|intros [[? _]|[_ ?]]; [done|by right]].
  - done.
Qed.

Lemma mgr_put_get rm c id room :
  rm_rooms (rm <| rm_rooms ::= <[(c, id) := room]> |>) !! (c, id) = Some room.
Proof. simpl. apply lookup_insert_eq. Qed.

(** ** Leaving *)

(** The ids of a room without the member [mid]. *)
Lemma in_room_delete room room' mid u uid :
  room_members room → r_users room !! mid = Some u → r_users room' = delete mid (r_users room) →
  in_room room' uid ↔ in_room room uid ∧ uid ≠ u_user_id u.
Proof.
  intros Hm Hu Hd. rewrite !in_room_member. setoid_rewrite Hd. setoid_rewrite lookup_delete_Some. split.
  - intros (m & v & [Hne Hv] & <-). split; [eauto|]. intros Heq. apply Hne.
    symmetry. eapply (me_user_inj _ Hm); eauto.
  - intros [(m & v & Hv & <-) Hne]. exists m, v. split; [|done]. split; [|done]. congruence.
Qed.

(** The state while a user leaves: unregistered from the room, which lost the
    member; [room'] is what the room becomes. *)
Lemma mgr_remove_user rm c id room room' mid u :
  mgr_inv rm → rm_rooms rm !! (c, id) = Some room → r_users room !! mid = Some u →
  room_inv room' → (r_room_id room', r_world_id room', r_lobby_id room') =
    (r_room_id room, r_world_id room, r_lobby_id room) →
  (∀ uid, in_room room' uid ↔ in_room room uid ∧ uid ≠ u_user_id u) →
  mgr_inv (rm <| rm_user_rooms ::= entry_remove (u_user_id u) (c, id) |>
              <| rm_rooms ::= <[(c, id) := room']> |>).
Proof.
  intros [Hr Hw Hl Hu Hc] Hroom Hmid Hinv' [= E1 E2 E3] E4.
  split; simpl.
  - intros c0 id0 r0 [[[= <- <-] <-]|[_ Hr0]]%lookup_insert_Some; [|by apply Hr].
    rewrite E1. split; [done|by apply Hr].
  - intros c0 w0 id0. rewrite Hw. symmetry. eapply exists_insert_same; [done|]. by rewrite E2, E3.
  - intros c0 w0 id0. rewrite Hl. symmetry. eapply exists_insert_same; [done|]. by rewrite E3.
  - intros uid c0 id0. rewrite in_entry_remove, Hu, exists_insert, E4.
    destruct (decide ((c, id) = (c0, id0))) as [[= <- <-]|Hne].
    + split.
      * intros [(r & Hr' & Hin) Hn]. left. split; [done|]. split; [congruence|naive_solver].
      * intros [[_ [Hin Hn]]|[? _]]; [|done]. split; [by exists room|naive_solver].
    + split; [intros [? _]; by right|intros [[? _]|[_ ?]]; [done|]].
      split; [done|]. intros [_ [= ? ?]]. congruence.
  - done.
Qed.

Lemma mgr_destroy rm c id room mid u :
  mgr_inv rm → rm_rooms rm !! (c, id) = Some room → r_users room !! mid = Some u →
  delete mid (r_users room) = ∅ →
  mgr_inv (rm <| rm_user_rooms ::= entry_remove (u_user_id u) (c, id) |>
              <| rm_world_rooms ::= (λ m, if bool_decide (r_lobby_id room = 0)
                                          then entry_remove (c, r_world_id room) id m else m) |>
              <| rm_lobby_rooms ::= (λ m, if bool_decide (r_lobby_id room = 0)
                                          then m else entry_remove (c, r_lobby_id room) id m) |>
              <| rm_rooms ::= delete (c, id) |>).
Proof.
  intros [Hr Hw Hl Hu Hc] Hroom Hmid Hemp.
  assert (∀ uid, in_room room uid ↔ uid = u_user_id u) as Honly.
  { intros uid. rewrite in_room_member. split; [|naive_solver].
    intros (m & v & Hv & <-). destruct (decide (mid = m)) as [<-|Hne]; [congruence|].
    rewrite <- (lookup_delete_ne (r_users room) mid m), Hemp in Hv by done. done. }
  split; simpl.
  - intros c0 id0 r0 [_ Hr0]%lookup_delete_Some. by apply Hr.
  - intros c0 w0 id0. rewrite exists_delete. case_bool_decide as Hlob.
    + rewrite in_entry_remove, Hw. split.
      * intros [(r & Hr0 & ? & <-) Hn]. split; [|by exists r]. intros [= <- <-]. apply Hn.
        split; congruence.
      * intros [Hne (r & ? & ? & <-)]. split; [by exists r|]. intros [[= <- _] <-]. done.
    + rewrite Hw. split; [|tauto]. intros (r & Hr0 & ? & <-). split; [|by exists r].
      intros [= <- <-]. congruence.
  - intros c0 l0 id0. rewrite exists_delete. case_bool_decide as Hlob.
    + rewrite Hl. split; [|tauto]. intros (r & Hr0 & Hl0 & Hne). split; [|by exists r].
      intros [= <- <-]. congruence.
    + rewrite in_entry_remove, Hl. split.
      * intros [(r & Hr0 & <- & ?) Hn]. split; [|by exists r]. intros [= <- <-]. apply Hn.
        split; congruence.
      * intros [Hne (r & ? & <- & ?)]. split; [by exists r|]. intros [[= <- _] <-]. done.
  - intros uid c0 id0. rewrite exists_delete, in_entry_remove, Hu. split.
    + intros [(r & Hr0 & Hin) Hn]. split; [|by exists r]. intros [= <- <-]. apply Hn.
      split; [|done]. symmetry. apply Honly. congruence.
    + intros [Hne (r & ? & ?)]. split; [by exists r|]. intros [_ [= <- <-]]. done.
  - done.
Qed.

(** Nothing is left to unregister, and the room's index entry exists. *)
Lemma destroy_room_spec c id lobby world rm Q :
  is_Some (if bool_decide (lobby = 0) then rm_world_rooms rm !! (c, world) else rm_lobby_rooms rm !! (c, lobby)) →
  Q (Ok tt) (rm <| rm_world_rooms ::= (λ m, if bool_decide (lobby = 0) then entry_remove (c, world) id m else m) |>
                <| rm_lobby_rooms ::= (λ m, if bool_decide (lobby = 0) then m else entry_remove (c, lobby) id m) |>
                <| rm_rooms ::= delete (c, id) |>) →
  wp (destroy_room c id ∅ lobby world) rm Q.
Proof.
  intros [s Hs] HQ. unfold destroy_room. rewrite elements_empty.
  wp_step. cbn [for_each]. wp_step. wp_step.
  case_bool_decide; wp_step; wp_step; rewrite Hs; cbn [unwrap]; wp_step; wp_step; destruct rm; exact HQ.
Qed.

(** The outcomes of a departure: refused with an error and nothing changed, or
    carried out. *)
Definition leave_post (c : ComId) (id uid : Z) (rm : RoomManager) (r : R (bool * gset Z)) (rm' : RoomManager) : Prop :=
  match r with
  | Ok (destroyed, users) =>
      in_entry (rm_user_rooms rm) uid (c, id) ∧ mgr_inv rm' ∧
      (∀ u k, in_entry (rm_user_rooms rm') u k ↔ in_entry (rm_user_rooms rm) u k ∧ ¬ (u = uid ∧ k = (c, id))) ∧
      (∀ k, k ≠ (c, id) → rm_rooms rm' !! k = rm_rooms rm !! k) ∧
      (∀ u, u ∈ users ↔ u ≠ uid ∧ in_entry (rm_user_rooms rm) u (c, id)) ∧
      (destroyed = true ↔ rm_rooms rm' !! (c, id) = None) ∧
      (destroyed = true ↔ users = ∅)
  | Err e => rm' = rm ∧ ¬ in_entry (rm_user_rooms rm) uid (c, id)
  | Panic => False
  end.

Lemma in_entry_user rm uid c id room :
  mgr_inv rm → rm_rooms rm !! (c, id) = Some room → in_entry (rm_user_rooms rm) uid (c, id) ↔ in_room room uid.
Proof.
  intros Hi Hr. rewrite (mi_user _ Hi). split; [|eauto]. intros (r & Hr' & ?). congruence.
Qed.

(** The departure when the room goes on as [room2]. *)
Lemma leave_stay rm c id room room1 room2 mid u rm' :
  mgr_inv rm → rm_rooms rm !! (c, id) = Some room → r_users room !! mid = Some u →
  removed room mid room1 → room_ok (room_key room1) room2 →
  rm' = rm <| rm_user_rooms ::= entry_remove (u_user_id u) (c, id) |> <| rm_rooms ::= <[(c, id) := room2]> |> →
  leave_post c id (u_user_id u) rm (Ok (false, get_room_user_ids room1)) rm'.
Proof.
  intros Hi Hroom Hmid [Hd _ _ _ Hsame] [Hinv2 Hk2] ->.
  pose proof (proj1 (mi_room _ Hi _ _ _ Hroom)) as Hinv.
  pose proof (λ x, in_room_delete room room1 mid u x (inv_members _ Hinv) Hmid Hd) as Hin1.
  assert (∀ x, in_room room2 x ↔ in_room room1 x) as Hin2 by (intros x; unfold in_room; by rewrite Hk2).
  split_and!.
  - apply (in_entry_user _ _ _ _ _ Hi Hroom). apply in_room_member. eauto.
  - eapply mgr_remove_user; [done|done|done|done| |].
    + unfold room_key in Hk2. simplify_eq. congruence.
    + intros x. by rewrite Hin2, Hin1.
  - intros x k. simpl. rewrite in_entry_remove. naive_solver.
  - intros k Hk. simpl. by rewrite lookup_insert_ne.
  - intros x. rewrite in_room_user_ids, Hin1, (in_entry_user _ _ _ _ _ Hi Hroom). naive_solver.
  - simpl. rewrite lookup_insert_eq. done.
  - split; [done|]. intros Hemp. exfalso. destruct (inv_owner _ Hinv2) as [o Ho].
    assert (u_user_id o ∈ get_room_user_ids room1) as Hel.
    { apply in_room_user_ids, Hin2, in_room_member. eauto. }
    rewrite Hemp in Hel. set_solver.
Qed.

Lemma leave_gone rm c id room room1 mid u rm' :
  mgr_inv rm → rm_rooms rm !! (c, id) = Some room → r_users room !! mid = Some u →
  removed room mid room1 → r_users room1 = ∅ →
  rm' = rm <| rm_user_rooms ::= entry_remove (u_user_id u) (c, id) |>
           <| rm_world_rooms ::= (λ m, if bool_decide (r_lobby_id room = 0)
                                       then entry_remove (c, r_world_id room) id m else m) |>
           <| rm_lobby_rooms ::= (λ m, if bool_decide (r_lobby_id room = 0)
                                       then m else entry_remove (c, r_lobby_id room) id m) |>
           <| rm_rooms ::= delete (c, id) |> →
  leave_post c id (u_user_id u) rm (Ok (true, get_room_user_ids room1)) rm'.
Proof.
  intros Hi Hroom Hmid [Hd _ _ _ Hsame] Hemp ->.
  pose proof (proj1 (mi_room _ Hi _ _ _ Hroom)) as Hinv.
  pose proof (λ x, in_room_delete room room1 mid u x (inv_members _ Hinv) Hmid Hd) as Hin1.
  split_and!.
  - apply (in_entry_user _ _ _ _ _ Hi Hroom). apply in_room_member. eauto.
  - eapply mgr_destroy; [done..|]. congruence.
  - intros x k. simpl. rewrite in_entry_remove. naive_solver.
  - intros k Hk. simpl. by rewrite lookup_delete_ne.
  - intros x. rewrite in_room_user_ids, Hin1, (in_entry_user _ _ _ _ _ Hi Hroom). naive_solver.
  - simpl. rewrite lookup_delete_eq. done.
  - split; [|done]. intros _. unfold get_room_user_ids. by rewrite Hemp.
Qed.

Lemma leave_room_spec rng c id uid rm :
  mgr_inv rm → wp (leave_room rng c id uid) rm (leave_post c id uid rm).
Proof.
  intros Hi. unfold leave_room. wp_step. wp_step. unfold room_exists.
  case_bool_decide as Hex; cbn [negb]; [|wp_step; split; [done|]].
  2: { rewrite (mi_user _ Hi). intros (r & Hr & _). apply Hex. eauto. }
  destruct Hex as [room Hroom]. wp_step. wp_step.
  destruct (rm_user_rooms rm !! uid) as [us|] eqn:Hus; [|wp_step; split; [done|]].
  2: { intros [? Hs]%in_entry_is_Some. congruence. }
  case_bool_decide as Hin; [wp_step; split; [done|]; unfold in_entry; by rewrite Hus|].
  assert (in_entry (rm_user_rooms rm) uid (c, id)) as Hent
    by (unfold in_entry; by rewrite Hus).
  apply (in_entry_user _ _ _ _ _ Hi Hroom), in_room_member in Hent as (mid & u & Hmid & <-).
  pose proof (proj1 (mi_room _ Hi _ _ _ Hroom)) as Hinv.
  wp_step. wp_step. wp_step. unfold get_mut_room at 1. eapply wp_zoom; [exact Hroom|].
  eapply wp_mono; [|apply (remove_member_spec room mid u Hinv Hmid)].
  intros r room1 [-> Hrem]. cbn beta iota. wp_step. wp_step. unfold get_room. rewrite mgr_put_get.
  cbn [unwrap]. pose proof Hrem as [Hd Hsh1 Hm1 _ [= E1 E2 E3 E4 E5]]. case_bool_decide as Hown.
  - wp_step. unfold get_mut_room. eapply wp_zoom; [apply mgr_put_get|].
    eapply wp_mono; [|apply (choose_owner_spec rng room1 Hsh1 Hm1)].
    intros [[]|e|] room2; cbn [choose_owner_post]; [| |done|done].
    + intros Hok2. wp_step. eapply leave_stay; [done..|]. simpl. by rewrite insert_insert_eq.
    + intros (Hemp & _ & _). wp_step.
      assert (get_room_user_ids room1 = ∅) as Hids by (unfold get_room_user_ids; by rewrite Hemp).
      rewrite Hids. apply destroy_room_spec.
      { rewrite E2, E3. simpl. destruct (Hinv). case_bool_decide.
        - apply (in_entry_is_Some _ _ id), (mi_world _ Hi). eauto.
        - apply (in_entry_is_Some _ _ id), (mi_lobby _ Hi). eauto. }
      wp_step. rewrite <- Hids. eapply leave_gone; [done..|]. rewrite E2, E3. simpl.
      by rewrite insert_insert_eq, delete_insert_eq.
  - wp_step. eapply leave_stay; [done|done|done|exact Hrem| |done].
    split; [|done]. split; [done|done|]. rewrite Hd, E4. destruct (inv_owner _ Hinv) as [o Ho].
    exists o. rewrite lookup_delete_ne; [done|congruence].
Qed.
