(* ===== verification/RoomCreate.v ===== *)
(** * Creation of rooms

    A creation request either is refused without touching the rooms, or adds one
    room under the next id of its title, owned and occupied by its creator; it
    never panics. *)

From S2P Require Import Prelude Protocol Messages RoomData Room RoomManager RoomInv RoomReports RoomManagerInv.

(** ** The attribute loops stay within their tables *)

Lemma bin_attr_internal_no_panic now mid pb : no_panic (RoomBinAttrInternal_from_protobuf now pb mid).
Proof. apply res_bind_no_panic; [apply RoomBinAttr_from_protobuf_no_panic|done]. Qed.

Lemma store_bin_attr_internal_no_panic now mid attrs pb :
  length attrs = 2%nat → no_panic (store_bin_attr_internal now mid attrs pb).
Proof.
  intros Hl. apply res_bind_no_panic; [apply bin_attr_internal_no_panic|]. intros a _. cbv beta zeta.
  destruct (_ && _) eqn:E; [done|]. rewrite index_set_Ok; [done|].
  apply andb_false_iff in E. unfold BIN_ATTR_INTERNAL_1_ID, BIN_ATTR_INTERNAL_2_ID in *.
  destruct E as [E|E]; apply bool_decide_eq_false_1, dec_stable in E; lia.
Qed.

Lemma store_bin_attr_external_no_panic attrs pb :
  length attrs = 2%nat → no_panic (store_bin_attr_external attrs pb).
Proof.
  intros Hl. apply res_bind_no_panic; [apply RoomBinAttr_from_protobuf_no_panic|]. intros a _. cbv beta zeta.
  destruct (_ && _) eqn:E; [done|]. rewrite index_set_Ok; [done|].
  apply andb_false_iff in E. unfold BIN_ATTR_EXTERNAL_1_ID, BIN_ATTR_EXTERNAL_2_ID in *.
  destruct E as [E|E]; apply bool_decide_eq_false_1, dec_stable in E; lia.
Qed.

Lemma store_search_bin_attr_no_panic attr pb : no_panic (store_search_bin_attr attr pb).
Proof.
  apply res_bind_no_panic; [apply RoomBinAttr_from_protobuf_no_panic|]. intros a _. cbv beta zeta.
  by case_bool_decide.
Qed.

Lemma store_search_int_attr_no_panic attrs pb :
  length attrs = 8%nat → no_panic (store_search_int_attr attrs pb).
Proof.
  intros Hl. apply res_bind_no_panic.
  { apply res_bind_no_panic; [apply (verified_no_panic (P:=Uint16) (bits:=16))|done]. }
  intros a _. cbv beta zeta. destruct (_ || _) eqn:E; [done|]. bool_hyps.
  unfold INT_ATTR_EXTERNAL_1_ID, INT_ATTR_EXTERNAL_8_ID in *. rewrite index_set_Ok; [done|lia].
Qed.

Lemma SignalParam_no_panic pb : no_panic (SignalParam_from_protobuf pb).
Proof.
  unfold SignalParam_from_protobuf.
  apply res_bind_no_panic; [apply (verified_no_panic (P:=Uint8) (bits:=8))|intros ty _].
  apply res_bind_no_panic; [by destruct (signaling_type_from_u8 ty)|intros ? _].
  apply res_bind_no_panic; [apply (verified_no_panic (P:=Uint8) (bits:=8))|intros ? _].
  apply res_bind_no_panic; [apply (verified_no_panic (P:=Uint16) (bits:=16))|done].
Qed.

Lemma Room_from_protobuf_no_panic now pb : no_panic (Room_from_protobuf now pb).
Proof.
  unfold Room_from_protobuf.
  apply res_bind_no_panic.
  { apply (res_fold_no_panic (λ l, length l = 2%nat)); [done|]. intros a x Ha _.
    split; [by apply store_bin_attr_internal_no_panic|].
    intros a' ?%store_bin_attr_internal_length. congruence. }
  intros v0 _. apply res_bind_no_panic.
  { apply (res_fold_no_panic (λ l, length l = 2%nat)); [done|]. intros a x Ha _.
    split; [by apply store_bin_attr_external_no_panic|].
    intros a' ?%store_bin_attr_external_length. congruence. }
  intros v1 _. apply res_bind_no_panic.
  { apply (res_fold_no_panic (λ _, True)); [done|]. intros a x _ _.
    split; [by apply store_search_bin_attr_no_panic|done]. }
  intros v2 _. apply res_bind_no_panic.
  { apply (res_fold_no_panic (λ l, length l = 8%nat)); [done|]. intros a x Ha _.
    split; [by apply store_search_int_attr_no_panic|].
    intros a' ?%store_search_int_attr_length. congruence. }
  intros v3 _. apply res_bind_no_panic; [|done].
  destruct (cjr_sig_opt_param pb); [|done]. apply res_bind_no_panic; [apply SignalParam_no_panic|done].
Qed.

Lemma RoomUser_from_Create_no_panic now pb sig : no_panic (RoomUser_from_CreateJoinRoomRequest now pb sig).
Proof.
  unfold RoomUser_from_CreateJoinRoomRequest. apply res_bind_no_panic.
  - destruct (cjr_room_member_bin_attr_internal pb) as [|b [|]]; try done.
    apply res_bind_no_panic; [apply (verified_no_panic (P:=Uint16) (bits:=16))|]. intros ? _.
    case_bool_decide; [|done]. apply res_bind_no_panic; [apply RoomBinAttr_from_protobuf_no_panic|done].
  - intros ? _. apply res_bind_no_panic; [apply (verified_no_panic (P:=Uint8) (bits:=8))|done].
Qed.

Lemma RoomUser_from_Join_no_panic now pb sig : no_panic (RoomUser_from_JoinRoomRequest now pb sig).
Proof.
  unfold RoomUser_from_JoinRoomRequest. apply res_bind_no_panic.
  - destruct (jr_room_member_bin_attr_internal pb) as [|b [|]]; try done.
    apply res_bind_no_panic; [apply (verified_no_panic (P:=Uint16) (bits:=16))|]. intros ? _.
    case_bool_decide; [|done]. apply res_bind_no_panic; [apply RoomBinAttr_from_protobuf_no_panic|done].
  - intros ? _. apply res_bind_no_panic; [apply (verified_no_panic (P:=Uint8) (bits:=8))|done].
Qed.

Lemma RoomUser_from_Create_Ok now pb sig u :
  RoomUser_from_CreateJoinRoomRequest now pb sig = Ok u → u_group_id u = 0.
Proof.
  unfold RoomUser_from_CreateJoinRoomRequest.
  intros (a & _ & H)%res_bind_Ok. apply res_bind_Ok in H as (t & _ & [= <-]). done.
Qed.

(** ** The new room *)

Record new_room (pb : CreateJoinRoomRequest) (room : Room) : Prop := {
  nr_shape : room_shape room;
  nr_users : r_users room = ∅;
  nr_slots : r_slots room = replicate (Z.to_nat (r_max_slot room)) false;
  nr_full : is_full (r_flag_attr room) = false;
  nr_place : (r_world_id room, r_lobby_id room) = (cjr_world_id pb, cjr_lobby_id pb);
}.

Lemma Room_from_protobuf_new now pb room :
  1 ≤ cjr_max_slot pb ≤ 64 → Room_from_protobuf now pb = Ok room → new_room pb room.
Proof.
  intros Hmax. unfold Room_from_protobuf.
  intros (bi & Hbi & H)%res_bind_Ok. apply res_bind_Ok in H as (be & Hbe & H).
  apply res_bind_Ok in H as (sb & _ & H). apply res_bind_Ok in H as (si & Hsi & H).
  apply res_bind_Ok in H as (sp & _ & [= <-]).
  assert (wrap_u16 (cjr_max_slot pb) = cjr_max_slot pb) as Hw by (apply Z.mod_small; lia).
  split; simpl; try done; [|apply is_full_clear]. split; simpl; rewrite ?Hw; try lia.
  - rewrite length_replicate. lia.
  - revert Hbi. apply (res_fold_inv (λ l, length l = 2%nat)); [done|].
    intros ??? <- _ ?%store_bin_attr_internal_length. done.
  - revert Hbe. apply (res_fold_inv (λ l, length l = 2%nat)); [done|].
    intros ??? <- _ ?%store_bin_attr_external_length. done.
  - revert Hsi. apply (res_fold_inv (λ l, length l = 8%nat)); [done|].
    intros ??? <- _ ?%store_search_int_attr_length. done.
Qed.

Lemma setup_groups_Ok req room u room' u' :
  setup_groups req room u = Ok (room', u') → u_group_id u = 0 →
  ∃ gs g, length gs = length (r_group_config room) ∧ 0 ≤ g ≤ Z.of_nat (length gs) ∧ g < 256 ∧
    room' = room <| r_group_config := gs |> ∧ u' = u <| u_group_id := g |>.
Proof.
  unfold setup_groups. intros H Hg. destruct (r_group_config room) as [|g0 gs] eqn:Egs.
  - destruct (_ && _); [done|]. injection H as <- <-. exists [], (u_group_id u). split; [done|].
    rewrite Hg at 1 2 3. split; [simpl; lia|]. split; [lia|].
    split; [rewrite <- Egs; by destruct room|by destruct u].
  - case_bool_decide; [done|]. destruct (_ && _); [done|]. case_bool_decide; [done|].
    case_bool_decide; [done|]. apply res_bind_Ok in H as (g1 & _ & [= <- <-]).
    exists (bump_members g1 :: gs), 1. split; [done|]. split; [simpl; lia|]. split; [lia|].
    split; [simpl; by rewrite Egs|done].
Qed.

Lemma setup_groups_no_panic req room u : no_panic (setup_groups req room u).
Proof.
  unfold setup_groups. destruct (r_group_config room) as [|g0 gs]; [by destruct (_ && _)|].
  case_bool_decide; [done|]. destruct (_ && _); [done|]. case_bool_decide; [done|].
  case_bool_decide; [done|]. apply res_bind_no_panic; [|done].
  destruct (g_label g0); [by case_bool_decide|done].
Qed.

(** The room of a creator, alone in slot 1. *)
Lemma creator_room_inv pb room gs mid u room' :
  new_room pb room → mid = mid_of room 1 → length gs = length (r_group_config room) →
  0 ≤ u_group_id u ≤ Z.of_nat (length gs) → u_group_id u < 256 → u_member_id u = mid →
  r_users room' = <[mid := u]> ∅ → r_owner room' = mid → r_max_slot room' = r_max_slot room →
  r_flag_attr room' = r_flag_attr room → r_group_config room' = gs →
  r_slots room' = <[0%nat := true]> (r_slots room) → room_shape room' → room_inv room'.
Proof.
  intros [Hsh _ Hsl Hf _] -> Hlen Hg Hg8 Hmid Eu Eo Em Ef Eg Es Hsh'.
  destruct (slot_of_mid room 1 Hsh) as [Hs1 Hr1]; [lia|].
  assert (∀ m v, r_users room' !! m = Some v → m = mid_of room 1 ∧ v = u) as Honly.
  { rewrite Eu. intros m v [[<- <-]|[_ ?]]%lookup_insert_Some; [done|by rewrite lookup_empty in *]. }
  split; [done| |rewrite Eu, Eo, lookup_insert_eq; eauto]. split.
  - intros m v [-> ->]%Honly. split; try done; rewrite ?Eg; try lia.
    rewrite Es, Hs1. apply list_lookup_insert_eq. pose proof (sh_slots _ Hsh). pose proof (sh_max _ Hsh). lia.
  - intros m1 m2 u1 u2 [-> _]%Honly [-> _]%Honly. done.
  - intros m1 m2 u1 u2 [-> _]%Honly [-> _]%Honly. done.
  - rewrite Ef, Hf. done.
  - rewrite Eu, Em, map_size_insert_None, map_size_empty by apply lookup_empty. lia.
Qed.

(** ** The manager's state *)

Lemma counter_touch rm c c' :
  counter (rm <| rm_room_cnt := <[c := default 0 (rm_room_cnt rm !! c)]> (rm_room_cnt rm) |>) c' = counter rm c'.
Proof. unfold counter. simpl. rewrite lookup_insert. case_decide; by subst. Qed.

Lemma mgr_touch_counter rm c :
  mgr_inv rm → mgr_inv (rm <| rm_room_cnt := <[c := default 0 (rm_room_cnt rm !! c)]> (rm_room_cnt rm) |>).
Proof.
  intros [Hr Hw Hl Hu Hc]. split; try done; intros; rewrite counter_touch; [by apply Hr|apply Hc].
Qed.

Definition with_room (rm : RoomManager) (c : ComId) (n : Z) (room : Room) (uid : Z) : RoomManager :=
  rm <| rm_room_cnt ::= <[c := n]> |>
     <| rm_world_rooms ::= (λ m, if bool_decide (r_lobby_id room = 0)
                                 then entry_insert (c, r_world_id room) n m else m) |>
     <| rm_lobby_rooms ::= (λ m, if bool_decide (r_lobby_id room = 0)
                                 then m else entry_insert (c, r_lobby_id room) n m) |>
     <| rm_rooms ::= <[(c, n) := room]> |>
     <| rm_user_rooms ::= entry_insert uid (c, n) |>.

Lemma mgr_add_room rm c room uid :
  let n := counter rm c + 1 in
  mgr_inv rm → room_inv room → r_room_id room = n → (∀ x, in_room room x ↔ x = uid) →
  mgr_inv (with_room rm c n room uid).
Proof.
  intros n [Hr Hw Hl Hu Hc] Hinv Hid Hin.
  assert (rm_rooms rm !! (c, n) = None) as Hnone.
  { apply eq_None_not_Some. intros [r Hr0]. destruct (Hr _ _ _ Hr0) as (_ & _ & ?). lia. }
  assert (∀ P c0 id0, (∃ r, <[(c, n) := room]> (rm_rooms rm) !! (c0, id0) = Some r ∧ P r) ↔
    ((c, n) = (c0, id0) ∧ P room) ∨ (∃ r, rm_rooms rm !! (c0, id0) = Some r ∧ P r)) as Hex.
  { intros P c0 id0. rewrite exists_insert. split; [tauto|]. intros [?|(r & Hr0 & ?)]; [by left|right].
    split; [congruence|eauto]. }
  split; simpl.
  - intros c0 id0 r0 [[[= <- <-] <-]|[_ Hr0]]%lookup_insert_Some.
    + unfold counter. simpl. rewrite lookup_insert_eq. simpl. split; [done|]. split; [done|].
      specialize (Hc c). lia.
    + destruct (Hr _ _ _ Hr0) as (? & ? & ?). split; [done|]. split; [done|].
      unfold counter in *. simpl. rewrite lookup_insert. case_decide; simpl; [|lia]. subst. lia.
  - intros c0 w0 id0. rewrite Hex, <- Hw. case_bool_decide as Hlob.
    + rewrite in_entry_insert. naive_solver.
    + split; [by right|]. intros [(_ & ? & _)|?]; done.
  - intros c0 l0 id0. rewrite Hex, <- Hl. case_bool_decide as Hlob.
    + split; [by right|]. intros [(_ & <- & ?)|?]; done.
    + rewrite in_entry_insert. naive_solver.
  - intros x c0 id0. rewrite Hex, <- Hu, in_entry_insert, Hin. naive_solver.
  - intros c0. unfold counter in *. simpl. rewrite lookup_insert. case_decide; simpl; [|apply Hc].
    specialize (Hc c). lia.
Qed.

(** The state [create_room] leaves: the counter entry exists; on success the new
    room is stored under the next id. *)
Definition create_post (c : ComId) (cinfo : ClientInfo) (req : CreateJoinRoomRequest) (rm : RoomManager)
  (r : R CreateRoomResponse) (rm' : RoomManager) : Prop :=
  mgr_inv rm' ∧
  match r with
  | Ok resp =>
      ∃ room, rm_rooms rm' = <[(c, counter rm c + 1) := room]> (rm_rooms rm) ∧
        rm_rooms rm !! (c, counter rm c + 1) = None ∧
        (r_world_id room, r_lobby_id room) = (cjr_world_id req, cjr_lobby_id req) ∧
        (∀ x, in_room room x ↔ x = ci_user_id cinfo) ∧
        crr_internal resp ≠ None
  | Err _ => rm_rooms rm' = rm_rooms rm ∧ rm_user_rooms rm' = rm_user_rooms rm
  | Panic => False
  end.

Lemma unfailing_create_room_spec n c room cinfo rm Q :
  room_inv room → (∀ resp, crr_internal resp ≠ None →
    Q (Ok resp) (rm <| rm_world_rooms ::= (λ m, if bool_decide (r_lobby_id room = 0)
                                           then entry_insert (c, r_world_id room) n m else m) |>
     <| rm_lobby_rooms ::= (λ m, if bool_decide (r_lobby_id room = 0)
                                 then m else entry_insert (c, r_lobby_id room) n m) |>
     <| rm_rooms ::= <[(c, n) := room]> |>
     <| rm_user_rooms ::= entry_insert (ci_user_id cinfo) (c, n) |>)) →
  wp (unfailing_create_room n c room cinfo) rm Q.
Proof.
  intros Hinv HQ. unfold unfailing_create_room.
  destruct (to_RoomDataInternal_total room (inv_members _ Hinv)) as [d Hd].
  wp_step. case_bool_decide; wp_step; wp_step; wp_step; wp_step; wp_step; wp_step; wp_step;
    unfold get_room; simpl; rewrite lookup_insert_eq; simpl; wp_step; wp_step; rewrite Hd; wp_step;
    apply (HQ (mkCreateRoomResponse (Some d) (to_OptParam room))); done.
Qed.

Lemma create_room_spec now c req cinfo sid sig rm :
  mgr_inv rm → 0 ≤ cjr_max_slot req → counter rm c + 1 < 2 ^ 64 →
  wp (create_room now c req cinfo sid sig) rm (create_post c cinfo req rm).
Proof.
  intros Hi Hpos Hcnt. unfold create_room. destruct (_ || _) eqn:Hmax; [by wp_step|]. bool_hyps.
  wp_step. wp_step. pose proof (Room_from_protobuf_no_panic now req) as Hn1.
  destruct (Room_from_protobuf now req) as [room|e|] eqn:Hroom; [|done|by destruct Hn1].
  apply Room_from_protobuf_new in Hroom; [|lia].
  wp_step. wp_step. pose proof (RoomUser_from_Create_no_panic now req sig) as Hn2.
  destruct (RoomUser_from_CreateJoinRoomRequest now req sig) as [u|e|] eqn:Hu; [|done|by destruct Hn2].
  apply RoomUser_from_Create_Ok in Hu.
  wp_step. wp_step. wp_step. wp_step.
  set (rm0 := rm <| rm_room_cnt := <[c := default 0 (rm_room_cnt rm !! c)]> (rm_room_cnt rm) |>).
  lazymatch goal with |- wp _ ?s _ => change s with rm0 end.
  assert (mgr_inv rm0) as Hi0 by by apply mgr_touch_counter.
  change (default 0 (rm_room_cnt rm0 !! c)) with (counter rm0 c).
  assert (counter rm0 c = counter rm c) as Hc0 by apply counter_touch. rewrite Hc0.
  assert (1 ≤ r_max_slot room) as Hm1 by apply (nr_shape _ _ Hroom).
  rewrite (occupy_slot_free room 1); [|apply Hroom|lia|].
  2: { unfold slot_free. rewrite (nr_slots _ _ Hroom), lookup_replicate. split; [done|]. simpl. lia. }
  wp_step. wp_step. wp_step. wp_step.
  set (mid := mid_of room 1).
  pose proof (setup_groups_no_panic req
    ((occupied 1 room) <| r_owner := mid |> <| r_room_id := wrap_u64 (counter rm c + 1) |> <| r_server_id := sid |>)
    ((user_with_identity u cinfo mid) <| u_flag_attr := ROOMMEMBER_FLAG_ATTR_OWNER |>)) as Hn3.
  destruct (setup_groups _ _ _) as [[room' u']|e|] eqn:Hg; [|done|by destruct Hn3].
  apply setup_groups_Ok in Hg as (gs & g & Hlen & Hgr & Hg8 & -> & ->); [|done].
  wp_step. wp_step.
  assert (wrap_u64 (counter rm c + 1) = counter rm c + 1) as Hw.
  { apply Z.mod_small. pose proof (mi_cnt _ Hi c). lia. }
  rewrite Hw.
  match goal with |- wp (unfailing_create_room _ _ ?rr _) _ _ => set (newroom := rr) end.
  assert (room_inv newroom) as Hinv.
  { apply (creator_room_inv req room gs mid
      ((user_with_identity u cinfo mid) <| u_flag_attr := ROOMMEMBER_FLAG_ATTR_OWNER |> <| u_group_id := g |>)
      newroom Hroom); try reflexivity; try assumption.
    - unfold newroom. simpl. by rewrite (nr_users _ _ Hroom).
    - destruct (nr_shape _ _ Hroom). split; simpl; try done; [by rewrite length_insert|apply land_15_bound]. }
  assert (∀ x, in_room newroom x ↔ x = ci_user_id cinfo) as Hin.
  { intros x. rewrite in_room_member. unfold newroom. simpl. rewrite (nr_users _ _ Hroom).
    setoid_rewrite lookup_insert_Some. setoid_rewrite lookup_empty. naive_solver. }
  apply unfailing_create_room_spec; [done|]. intros resp Hresp. split.
  - pose proof (mgr_add_room rm0 c newroom (ci_user_id cinfo) Hi0 Hinv) as Hadd.
    rewrite Hc0 in Hadd. apply Hadd; [done|exact Hin].
  - exists newroom. split; [done|]. split; [|split; [|split; done]].
    + apply eq_None_not_Some. intros [r Hr]. apply (mi_room _ Hi) in Hr as (_ & _ & ?). lia.
    + exact (nr_place _ _ Hroom).
Qed.
