(* ===== verification/RoomJoin.v ===== *)
(** * Joining a room

    The notifications of a join ([RoomManager::join_room], the part after the
    member was added) are total and reach the right peers, and a join adds exactly
    the joiner. *)

From S2P Require Import Prelude Protocol Messages RoomData Room RoomManager RoomInv RoomReports RoomManagerInv.
From S2P Require Import RoomCreate.

(** ** Notifications *)

Definition notif_users (n : Notif4) : gset Z := from_option snd ∅ n.

(** Everyone a join notifies. *)
Definition notified (n : JoinNotifs) : gset Z :=
  notif_users (jn_no_signaling n) ∪ notif_users (jn_local_signaling n) ∪
  notif_users (jn_public_ipv4 n) ∪ notif_users (jn_public_ipv6 n).

(** The address the joiner is given for a peer: the local one behind the same
    public IPv4 address, IPv6 when both sides have it, IPv4 otherwise. *)
Definition peer_addr (joiner peer : ClientSharedSignalingInfo) : bytes * Z :=
  if bool_decide ((sig_addr_p2p_ipv4 peer).1 = (sig_addr_p2p_ipv4 joiner).1)
  then (sig_local_addr_p2p peer, 3658)
  else match sig_addr_p2p_ipv6 peer, sig_addr_p2p_ipv6 joiner with
       | Some a, Some _ => a
       | _, _ => sig_addr_p2p_ipv4 peer
       end.

Definition peer_entry (joiner : ClientSharedSignalingInfo) (u : RoomUser) : Z * bytes * Z :=
  (u_member_id u, (peer_addr joiner (u_signaling_info u)).1, (peer_addr joiner (u_signaling_info u)).2).

Section notifs.
Context (room : Room) (req : JoinRoomRequest) (mid : Z) (sig : ClientSharedSignalingInfo).
Context (Hm : room_members room) (Hmid : is_Some (r_users room !! mid)).

Lemma build_join_notification_total arg : ∃ n, build_join_notification room req mid arg = Ok n.
Proof.
  unfold build_join_notification.
  destruct (get_room_member_update_info_total room mid Event.CauseNone (jr_opt_data req) Hm Hmid) as [d ->].
  simpl. eauto.
Qed.

Lemma add_to_notif_list_total l arg uid :
  ∃ l', add_to_notif_list room req mid l arg uid = Ok l' ∧ notif_users l' = {[uid]} ∪ notif_users l.
Proof.
  unfold add_to_notif_list. destruct l as [[n ids]|]; [eauto|].
  destruct (build_join_notification_total (Some arg)) as [n ->]. simpl. eexists. split; [done|].
  simpl. set_solver.
Qed.

Lemma signal_peer_spec acc u :
  ∃ acc', signal_peer room req mid sig acc u = Ok acc' ∧
    jn_reply acc' = jn_reply acc ++ [peer_entry sig u] ∧
    jn_no_signaling acc' = jn_no_signaling acc ∧
    notified acc' = notified acc ∪ {[u_user_id u]}.
Proof.
  unfold signal_peer, peer_entry, peer_addr, notified.
  case_bool_decide; [|destruct (sig_addr_p2p_ipv6 (u_signaling_info u)), (sig_addr_p2p_ipv6 sig)];
    match goal with |- context [add_to_notif_list _ _ _ ?l ?a ?i] =>
      destruct (add_to_notif_list_total l a i) as (l' & -> & Hl') end;
    simpl; eexists; (split; [done|]); simpl; rewrite Hl'; (split; [done|]; split; [done|]); set_solver.
Qed.

(** The loop over the members of a mesh. *)
Lemma mesh_loop us acc :
  ∃ acc', res_fold (λ acc user,
            if bool_decide (u_member_id user = mid) then Ok acc
            else signal_peer room req mid sig acc user) acc us = Ok acc' ∧
    jn_reply acc' = jn_reply acc ++ (peer_entry sig <$> filter (λ u, u_member_id u ≠ mid) us) ∧
    jn_no_signaling acc' = jn_no_signaling acc ∧
    notified acc' = notified acc ∪ list_to_set (u_user_id <$> filter (λ u, u_member_id u ≠ mid) us).
Proof.
  revert acc. induction us as [|u us IH]; intros acc; simpl.
  - exists acc. rewrite app_nil_r. split; [done|]. split; [done|]. split; [done|set_solver].
  - case_bool_decide as Hu; cbn [res_bind].
    + rewrite filter_cons_False by (intros H; by apply H). apply IH.
    + destruct (signal_peer_spec acc u) as (acc1 & -> & Hr1 & Hn1 & Hs1). cbn [res_bind].
      rewrite filter_cons_True by done. destruct (IH acc1) as (acc' & -> & Hr & Hn & Hs).
      exists acc'. split; [done|]. simpl. rewrite Hr, Hr1, <- app_assoc.
      split; [done|]. split; [congruence|]. rewrite Hs, Hs1. set_solver.
Qed.

(** The hub of a star room is a member unless the request named a member that
    is not there. *)
Definition hub_present : Prop :=
  match r_signaling_param room with
  | Some sp => sp_sig_type sp = SignalingStar → sp_hub_member_id sp ≠ 0 →
      is_Some (r_users room !! sp_hub_member_id sp)
  | None => True
  end.

Lemma build_join_notifs_total prev :
  is_Some (r_users room !! r_owner room) → hub_present →
  ∃ n, build_join_notifs room req mid sig prev = Ok n.
Proof.
  intros Hown Hhub. unfold build_join_notifs. unfold hub_present in Hhub.
  destruct (build_join_notification_total None) as [n0 Hn0].
  destruct (r_signaling_param room) as [sp|]; [|rewrite Hn0; simpl; eauto].
  destruct (should_signal sp) eqn:Hss; [|rewrite Hn0; simpl; eauto].
  destruct (sp_sig_type sp) eqn:Hty.
  - unfold should_signal in Hss. by rewrite Hty in Hss.
  - destruct (mesh_loop (btree_values (r_users room)) (mkJoinNotifs None None None None []))
      as (n & -> & _). eauto.
  - set (hub := if bool_decide _ then _ else _).
    assert (is_Some (r_users room !! hub)) as [h ->].
    { unfold hub. case_bool_decide; auto. }
    cbn [unwrap res_bind]. destruct (signal_peer_spec (mkJoinNotifs None None None None []) h)
      as (n & -> & _). rewrite Hn0. simpl. eauto.
Qed.
End notifs.

(** In a mesh room that signals, the joiner is given one address for every
    other member, in the order of member ids, and exactly the other members are
    notified of the join, all of them with an address. *)
Theorem mesh_join_connects room req mid sig prev sp :
  room_members room → is_Some (r_users room !! mid) →
  r_signaling_param room = Some sp → sp_sig_type sp = SignalingMesh → should_signal sp = true →
  ∃ n, build_join_notifs room req mid sig prev = Ok n ∧
    jn_reply n = peer_entry sig <$> filter (λ u, u_member_id u ≠ mid) (btree_values (r_users room)) ∧
    jn_no_signaling n = None ∧
    (∀ uid, uid ∈ notified n ↔ ∃ m u, m ≠ mid ∧ r_users room !! m = Some u ∧ u_user_id u = uid).
Proof.
  intros Hm Hmid Hsp Hty Hss. unfold build_join_notifs. rewrite Hsp, Hss, Hty.
  destruct (mesh_loop room req mid sig Hm Hmid (btree_values (r_users room))
    (mkJoinNotifs None None None None [])) as (n & -> & Hr & Hn & Hs).
  exists n. split; [done|]. split; [done|]. split; [done|].
  intros uid. rewrite Hs. unfold notified; simpl.
  rewrite !elem_of_union, elem_of_list_to_set, list_elem_of_fmap.
  setoid_rewrite list_elem_of_filter. setoid_rewrite elem_of_btree_values. split.
  - intros [?|(u & -> & Hne & m & Hu)]; [set_solver|]. exists m, u.
    split; [|done]. rewrite <- (mo_id _ _ _ (me_ok _ Hm _ _ Hu)). done.
  - intros (m & u & Hne & Hu & <-). right. exists u. split; [done|]. split; [|by exists m].
    by rewrite (mo_id _ _ _ (me_ok _ Hm _ _ Hu)).
Qed.

(** ** The join *)

(** The outcomes of a join of [uid] to [room]: admitted under a fresh member id,
    refused with the members as they were, or a panic, which needs a group room or
    a star room whose hub is gone. *)
Definition join_post (c : ComId) (id uid : Z) (rm : RoomManager) (room : Room)
  (r : R (JoinRoomResponse * JoinNotifs)) (rm' : RoomManager) : Prop :=
  mgr_inv rm' ∧
  match r with
  | Ok _ => ∃ mid room', rm_rooms rm' = <[(c, id) := room']> (rm_rooms rm) ∧
      get_room_users room !! mid = None ∧
      get_room_users room' = <[mid := uid]> (get_room_users room) ∧
      r_owner room' = r_owner room ∧
      is_full (r_flag_attr room) = false ∧ in_entry (rm_user_rooms rm') uid (c, id)
  | Err _ => rm_user_rooms rm' = rm_user_rooms rm ∧
      ∃ room', rm_rooms rm' = <[(c, id) := room']> (rm_rooms rm) ∧ r_users room' = r_users room
  | Panic => r_group_config room ≠ [] ∨ ¬ hub_present room
  end.

Lemma add_member_frame mid u room :
  r_owner (add_member mid u room) = r_owner room ∧
  r_users (add_member mid u room) = <[mid := u]> (r_users room) ∧
  r_signaling_param (add_member mid u room) = r_signaling_param room.
Proof. by rewrite add_member_eq. Qed.

Lemma rm_put_same rm c id room :
  rm_rooms rm !! (c, id) = Some room → <[(c, id) := room]> (rm_rooms rm) = rm_rooms rm.
Proof. apply insert_id. Qed.

Lemma join_refused c id uid rm room e :
  mgr_inv rm → rm_rooms rm !! (c, id) = Some room → join_post c id uid rm room (Err e) rm.
Proof.
  intros Hi Hroom. split; [done|]. split; [done|]. exists room. by rewrite rm_put_same.
Qed.

(** After the member was added: the replies are built, and the manager stays. *)
Lemma join_finish c id uid rm room room2 rm2 req mid sig prev
  (k : Room → JoinNotifs → RoomDataInternal → JoinRoomResponse * JoinNotifs) :
  mgr_inv rm2 → rm_rooms rm2 = <[(c, id) := room2]> (rm_rooms rm) → room_inv room2 →
  get_room_users room !! mid = None →
  get_room_users room2 = <[mid := uid]> (get_room_users room) → r_owner room2 = r_owner room →
  is_full (r_flag_attr room) = false → in_entry (rm_user_rooms rm2) uid (c, id) →
  (hub_present room → hub_present room2) →
  wp (do room <- asks (λ rm, get_room rm c id);
      do notifs <- lift (build_join_notifs room req mid sig prev);
      do room_data <- lift (to_RoomDataInternal room);
      ret (k room notifs room_data)) rm2
    (join_post c id uid rm room).
Proof.
  intros Hi2 Hr2 Hinv2 Hnone Hu Ho Hf Hin Hhub. wp_step. wp_step.
  unfold get_room. rewrite Hr2, lookup_insert_eq. cbn [unwrap]. wp_step. wp_step.
  assert (is_Some (r_users room2 !! mid)) as Hmid.
  { assert (get_room_users room2 !! mid = Some uid) as Hl by by rewrite Hu, lookup_insert_eq.
    unfold get_room_users in Hl. rewrite lookup_fmap, fmap_Some in Hl. naive_solver. }
  destruct (build_join_notifs room2 req mid sig prev) as [n|e|] eqn:Hn.
  - wp_step. wp_step. destruct (to_RoomDataInternal_total room2 (inv_members _ Hinv2)) as [d ->].
    wp_step. split; [done|]. exists mid, room2. done.
  - exfalso. clear -Hn Hmid Hinv2. revert Hn. unfold build_join_notifs.
    pose proof (build_join_notification_total room2 req mid (inv_members _ Hinv2) Hmid None) as [n0 ->].
    destruct (r_signaling_param room2) as [sp|]; [|done].
    destruct (should_signal sp); [|done]. destruct (sp_sig_type sp); [done| |].
    + by destruct (mesh_loop room2 req mid sig (inv_members _ Hinv2) Hmid (btree_values (r_users room2))
        (mkJoinNotifs None None None None [])) as (? & -> & _).
    + set (hub := if bool_decide _ then _ else _).
      destruct (r_users room2 !! hub) as [h|] eqn:Hh; [|done]. cbn [unwrap res_bind].
      by destruct (signal_peer_spec room2 req mid sig (inv_members _ Hinv2) Hmid
        (mkJoinNotifs None None None None []) h) as (? & -> & _).
  - split; [done|]. right. intros Hh.
    destruct (build_join_notifs_total room2 req mid sig (inv_members _ Hinv2) Hmid prev
      (inv_owner _ Hinv2) (Hhub Hh)) as [n Hn']. congruence.
Qed.

Lemma hub_present_mono room room' mid u :
  r_signaling_param room' = r_signaling_param room → r_users room' = <[mid := u]> (r_users room) →
  hub_present room → hub_present room'.
Proof.
  unfold hub_present. intros -> ->. destruct (r_signaling_param room); [|done].
  intros Hh H1 H2. rewrite lookup_insert. case_decide; [eauto|auto].
Qed.

Lemma join_room_spec now c req cinfo sig rm room :
  mgr_inv rm → rm_rooms rm !! (c, jr_room_id req) = Some room → ¬ in_room room (ci_user_id cinfo) →
  wp (join_room now c req cinfo sig) rm (join_post c (jr_room_id req) (ci_user_id cinfo) rm room).
Proof.
  intros Hi Hroom Hnew. set (id := jr_room_id req) in *.
  pose proof (room_ok_refl _ _ _ _ Hi Hroom) as Hok. pose proof (proj1 Hok) as Hinv.
  pose proof (λ e, join_refused c id (ci_user_id cinfo) rm room e Hi Hroom) as Hrefuse.
  unfold join_room. fold id. wp_step. wp_step. unfold get_room. rewrite Hroom. cbn [unwrap].
  wp_step; [by wp_step|]. wp_step; [by wp_step|]. wp_step; [by wp_step|].
  assert (is_full (r_flag_attr room) = false) as Hnf.
  { bool_hyps. apply not_true_iff_false. rewrite <- land_full_testbit. tauto. }
  wp_step. unfold get_mut_room at 1. eapply wp_zoom; [exact Hroom|].
  eapply wp_mono; [|apply get_a_slot_spec, Hinv].
  intros [[gid mid]|e|] room1; cbn [get_a_slot_post].
  - intros Hg. pose proof (slot_given_ok _ _ _ _ _ Hok Hg) as Hok1.
    pose proof (mgr_put_room _ _ _ _ _ Hi Hroom Hok1) as Hi1.
    assert (r_users room1 = r_users room ∧ r_room_id room1 = r_room_id room ∧ r_owner room1 = r_owner room ∧
      r_signaling_param room1 = r_signaling_param room) as (Hus & Hrid & How & Hsp)
      by by destruct Hg as (? & ? & _ & _ & _ & _ & _ & _ & ->).
    wp_step. wp_step. pose proof (RoomUser_from_Join_no_panic now req sig) as Hnp.
    destruct (RoomUser_from_JoinRoomRequest now req sig) as [u0|e|]; [| |by destruct Hnp].
    2: { split; [done|]. split; [done|]. by exists room1. }
    wp_step. wp_step. rewrite mgr_put_get. cbn [unwrap].
    wp_step. unfold get_mut_room at 1. eapply wp_zoom; [apply mgr_put_get|]. wp_step.
    wp_step. wp_step.
    set (u := (user_with_identity u0 cinfo mid) <| u_group_id := gid |>).
    destruct (add_member_ok room gid mid room1 u Hinv Hg eq_refl eq_refl) as [Hinv2 Hk2].
    { intros m v Hm Heq. apply Hnew, in_room_member. exists m, v. done. }
    assert ((room_key room).2 !! mid = None) as Hnone.
    { simpl. rewrite lookup_fmap, fmap_None. apply eq_None_not_Some. intros [v Hv].
      exact (slot_given_fresh _ _ _ _ _ _ Hinv Hg Hv eq_refl). }
    pose proof (mgr_add_user rm c id room _ mid _ Hi Hroom Hinv2 Hk2 Hnone) as Hi2.
    destruct (add_member_frame mid u room1) as (Fo & Fu & Fs).
    eapply (join_finish c id (ci_user_id cinfo) rm room (add_member mid u room1) _ req mid sig
      (get_room_user_ids room1)
      (λ room notifs room_data, (mkJoinRoomResponse (Some room_data)
        ((λ '(mid, ip, port), mkMatching2SignalingInfo (new_from_value mid)
           (Some (mkSignalingAddr ip (new_from_value port)))) <$> jn_reply notifs)
        (to_OptParam room), notifs))); try done.
    + simpl. rewrite insert_insert_eq, Hrid. exact Hi2.
    + simpl. by rewrite insert_insert_eq.
    + by injection Hk2.
    + congruence.
    + simpl. apply in_entry_insert. left. rewrite Hrid. split; [done|].
      f_equal. apply (mi_room _ Hi _ _ _ Hroom).
    + apply (hub_present_mono _ _ mid u); [congruence|]. by rewrite Fu, Hus.
  - intros ->. split; [by eapply mgr_put_room|]. split; [done|]. by exists room.
  - intros (Hgs & gs & Hlen & ->). split; [|by left]. eapply mgr_put_room; [done|done|]. room_frame.
Qed.
