(* ===== verification/RoomMachine.v ===== *)
(** * The room manager as a state machine

    The operations of [RoomManager] that change it, issued under the guards of
    the request handlers (src/src/server/client/cmd_room.rs), as a step relation
    on manager states; what every reachable state satisfies; and the contract of
    each operation in such a state. *)

From S2P Require Import Prelude Protocol Messages RoomData Room RoomManager RoomInv RoomReports RoomManagerInv.
From S2P Require Import RoomCreate RoomJoin.

(** The operations that change the manager, with the clock, the random draw and
    the caller's identity they run with. *)
Inductive rm_op : Type :=
| OpCreate (now : Z) (c : ComId) (req : CreateJoinRoomRequest) (cinfo : ClientInfo) (server_id : Z)
    (sig : ClientSharedSignalingInfo)
| OpJoin (now : Z) (c : ComId) (req : JoinRoomRequest) (cinfo : ClientInfo) (sig : ClientSharedSignalingInfo)
| OpLeave (rng : nat) (c : ComId) (room_id user_id : Z)
| OpSetExternal (c : ComId) (req : SetRoomDataExternalRequest) (user_id : Z)
| OpSetInternal (now : Z) (c : ComId) (req : SetRoomDataInternalRequest) (user_id : Z)
| OpSetMember (now : Z) (c : ComId) (req : SetRoomMemberDataInternalRequest) (user_id : Z).

(** [req_join_room] refuses a missing room and a user that is already in it. *)
Definition may_join (rm : RoomManager) (c : ComId) (room_id user_id : Z) : bool :=
  match rm_rooms rm !! (c, room_id) with
  | None => false
  | Some room => negb (bool_decide (user_id ∈ get_room_user_ids room))
  end.

(** The state after an operation, whatever its outcome; [None] when the handler
    does not call it.  The slot number of a creation is an unsigned field; the
    room counter has not yet wrapped. *)
Definition rm_run (op : rm_op) (rm : RoomManager) : option RoomManager :=
  match op with
  | OpCreate now c req cinfo sid sig =>
      if bool_decide (0 ≤ cjr_max_slot req) && bool_decide (counter rm c + 1 < 2 ^ 64)
      then Some (create_room now c req cinfo sid sig rm).2 else None
  | OpJoin now c req cinfo sig =>
      if may_join rm c (jr_room_id req) (ci_user_id cinfo)
      then Some (join_room now c req cinfo sig rm).2 else None
  | OpLeave rng c id uid => Some (leave_room rng c id uid rm).2
  | OpSetExternal c req uid => Some (set_roomdata_external c req uid rm).2
  | OpSetInternal now c req uid => Some (set_roomdata_internal now c req uid rm).2
  | OpSetMember now c req uid => Some (set_roommemberdata_internal now c req uid rm).2
  end.

Inductive rm_step : RoomManager → RoomManager → Prop :=
| rm_step_op op rm rm' : rm_run op rm = Some rm' → rm_step rm rm'.

Definition rm_reachable (rm : RoomManager) : Prop := rtc rm_step RoomManager_new rm.

(** Runs a sequence of operations. *)
Fixpoint rm_runs (ops : list rm_op) (rm : RoomManager) : option RoomManager :=
  match ops with
  | [] => Some rm
  | op :: ops => rm_run op rm ≫= rm_runs ops
  end.

Lemma rm_runs_steps ops rm rm' : rm_runs ops rm = Some rm' → rtc rm_step rm rm'.
Proof.
  revert rm. induction ops as [|op ops IH]; intros rm; simpl; [intros [= <-]; done|].
  intros (rm1 & H1 & H2)%bind_Some. eapply rtc_l; [by econstructor|by apply IH].
Qed.

(** ** The invariant holds in every reachable state *)

Lemma may_join_spec rm c id uid :
  may_join rm c id uid = true → ∃ room, rm_rooms rm !! (c, id) = Some room ∧ ¬ in_room room uid.
Proof.
  unfold may_join. destruct (rm_rooms rm !! (c, id)) as [room|]; [|done]. intros H. bool_hyps.
  exists room. split; [done|]. by rewrite <- in_room_user_ids.
Qed.

Lemma rm_run_inv op rm rm' : mgr_inv rm → rm_run op rm = Some rm' → mgr_inv rm'.
Proof.
  intros Hi. destruct op; simpl.
  - destruct (_ && _) eqn:Hg; [|done]. bool_hyps. intros [= <-].
    by destruct (create_room_spec now c req cinfo server_id sig rm) as [? _].
  - destruct (may_join _ _ _ _) eqn:Hg; [|done]. intros [= <-].
    apply may_join_spec in Hg as (room & Hroom & Hnew).
    by destruct (join_room_spec now c req cinfo sig rm room) as [? _].
  - intros [= <-]. pose proof (leave_room_spec rng c room_id user_id rm Hi) as Hl. unfold wp in Hl.
    destruct (leave_room _ _ _ _ rm) as [[[]| |] rm'']; simpl in *; [by destruct Hl as (_ & ? & _)| |done].
    by destruct Hl as [-> _].
  - intros [= <-]. by apply set_roomdata_external_keeps.
  - intros [= <-]. by apply set_roomdata_internal_keeps.
  - intros [= <-]. by apply set_roommemberdata_internal_keeps.
Qed.

Lemma reachable_inv rm : rm_reachable rm → mgr_inv rm.
Proof.
  unfold rm_reachable. generalize mgr_inv_new. generalize RoomManager_new.
  intros rm0 Hi. induction 1 as [|rm1 rm2 rm3 [op ? ? Hrun] _ IH]; [done|].
  apply IH. by eapply rm_run_inv.
Qed.

(** A title, two users and a four-slot room, to run the machine on. *)
Definition ex_com : ComId := bytes_of_string "NPWR00001_00".

Definition ex_user (uid : Z) (npid : string) : ClientInfo := mkClientInfo uid npid "" "" "" false false false.

Definition ex_create (max_slot : Z) (sp : option OptParam) : CreateJoinRoomRequest :=
  mkCreateJoinRoomRequest 1 0 max_slot 0 [] [] [] [] [] [] 0 [] [] [] [] (new_from_value 0) sp.

Definition ex_join (room_id : Z) (team_id : option Uint8) : JoinRoomRequest :=
  mkJoinRoomRequest room_id [] [] [] None team_id.

Definition ex_mesh : OptParam := mkOptParam (new_from_value 1) (new_from_value 0) (new_from_value 0).

Definition ex_ops : list rm_op :=
  [ OpCreate 0 ex_com (ex_create 4 (Some ex_mesh)) (ex_user 7 "alice") 1 signaling_info_new;
    OpJoin 1 ex_com (ex_join 1 (new_from_value 0)) (ex_user 8 "bob") signaling_info_new ].

(** The manager after [alice] opened a room and [bob] joined it. *)
Definition ex_manager : RoomManager := default RoomManager_new (rm_runs ex_ops RoomManager_new).

Lemma ex_manager_reachable : rm_reachable ex_manager.
Proof. apply (rm_runs_steps ex_ops). vm_compute. reflexivity. Qed.

Lemma ex_manager_inv : mgr_inv ex_manager.
Proof. apply reachable_inv, ex_manager_reachable. Qed.

(** ** Contracts *)

(** In every reachable state of the manager the invariant holds: every room is
    stored under its own id, in range of its title's counter, and listed in exactly
    the world or lobby index it belongs to; the user index lists exactly the
    memberships; and in every room no two members share a slot or a user id, the
    members fit the slots (at most 64), the owner is a member, and the full flag is
    set only when every slot is taken by a member. *)
Theorem reachable_states_consistent rm :
  rm_reachable rm →
  mgr_inv rm ∧
  ∀ c id room, rm_rooms rm !! (c, id) = Some room →
    Z.of_nat (size (r_users room)) ≤ r_max_slot room ≤ 64 ∧
    is_Some (r_users room !! r_owner room) ∧
    (Z.land (r_flag_attr room) ROOM_FLAG_ATTR_FULL ≠ 0 → Z.of_nat (size (r_users room)) = r_max_slot room).
Proof.
  intros Hr. apply reachable_inv in Hr as Hi. split; [done|]. intros c id room Hroom.
  destruct (mi_room _ Hi _ _ _ Hroom) as ([Hsh Hm Ho] & _).
  pose proof (members_le_slots _ Hsh Hm). pose proof (sh_max _ Hsh).
  split; [lia|]. split; [done|]. rewrite land_full_testbit. apply Hm.
Qed.

Lemma reachable_states_consistent_witness :
  is_Some (rm_rooms ex_manager !! (ex_com, 1)) ∧ mgr_inv ex_manager.
Proof.
  split; [vm_compute; eauto|]. apply (reachable_states_consistent ex_manager).
  apply (rm_runs_steps ex_ops). vm_compute. reflexivity.
Defined.

(** C11: a creation never panics.  On success exactly one room is added, under the
    next id of its title, which was unused, in the requested world and lobby, with
    the creator as its only member, and the manager's invariant holds; on an error
    no room and no membership changed. *)
Theorem create_room_correct now c req cinfo sid sig rm :
  mgr_inv rm → 0 ≤ cjr_max_slot req → counter rm c + 1 < 2 ^ 64 →
  wp (create_room now c req cinfo sid sig) rm (create_post c cinfo req rm).
Proof. apply create_room_spec. Qed.

Lemma create_room_correct_witness :
  wp (create_room 5 ex_com (ex_create 2 None) (ex_user 9 "carol") 1 signaling_info_new) ex_manager
    (create_post ex_com (ex_user 9 "carol") (ex_create 2 None) ex_manager).
Proof.
  apply create_room_correct; [exact ex_manager_inv|vm_compute; discriminate|vm_compute; reflexivity].
Defined.


Definition ex_room (id : Z) : Room :=
  default (mkRoom 0 0 0 0 [] [] (RoomBinAttr_with_id 64 0) [] None [] 0 [] [] None 0 0 [] 0 ∅ 0 [])
    (rm_rooms ex_manager !! (ex_com, id)).


(** C9: a departure never panics.  It is refused, with nothing changed, exactly
    when the user is not in that room; otherwise exactly that membership ends, every
    other room is untouched, the users reported are the remaining members, the room is
    destroyed exactly when nobody remains, and the manager's invariant (a room has an
    owner among its members, the indexes are exact) holds again. *)
Theorem leave_room_correct rng c id uid rm :
  mgr_inv rm → wp (leave_room rng c id uid) rm (leave_post c id uid rm).
Proof. apply leave_room_spec. Qed.

Lemma leave_room_correct_witness :
  wp (leave_room 0 ex_com 1 7) ex_manager (leave_post ex_com 1 7 ex_manager).
Proof. apply leave_room_correct. exact ex_manager_inv. Defined.
