(* ===== verification/RoomOwner.v ===== *)
(** * The owner flag of room members

    A member's flags say whether it owns the room; so does the room's own field.  In
    every state the manager reaches the two agree: what the rooms report to clients and
    to the API names one owner, the right one. *)

From S2P Require Import Prelude Protocol Messages RoomData Room RoomManager RoomInv RoomReports RoomManagerInv.
From S2P Require Import RoomCreate RoomJoin RoomMachine.

Definition owner_bit (u : RoomUser) : bool := bool_decide (Z.land (u_flag_attr u) ROOMMEMBER_FLAG_ATTR_OWNER ≠ 0).

Definition flags_ok (room : Room) : Prop :=
  ∀ mid u, r_users room !! mid = Some u → owner_bit u = true ↔ mid = r_owner room.

Definition owners_ok (rm : RoomManager) : Prop := ∀ k room, rm_rooms rm !! k = Some room → flags_ok room.

(** ** Updates of room and member data leave both alone *)

Definition owner_view (room : Room) : gmap Z bool * Z := (owner_bit <$> r_users room, r_owner room).

Lemma flags_ok_view room room' : owner_view room' = owner_view room → flags_ok room → flags_ok room'.
Proof.
  intros [= Hu Ho] Hf mid u Hmid. apply (f_equal (.!! mid)) in Hu. rewrite !lookup_fmap, Hmid in Hu.
  destruct (r_users room !! mid) as [u0|] eqn:E; [|done]. injection Hu as ->. rewrite Ho. by apply Hf.
Qed.

Lemma fmap_alter_view (f : RoomUser → RoomUser) mid (m : gmap Z RoomUser) :
  (∀ u, owner_bit (f u) = owner_bit u) → owner_bit <$> alter f mid m = owner_bit <$> m.
Proof.
  intros Hf. apply map_eq. intros i. rewrite !lookup_fmap, lookup_alter. case_decide; [subst|done].
  destruct (m !! i); simpl; by rewrite ?Hf.
Qed.

Lemma view_group_passwords cfgs v : keeps (λ room, owner_view room = v) (update_group_passwords cfgs).
Proof.
  induction cfgs as [|cfg cfgs IH]; simpl; [by apply keeps_pure|].
  apply keeps_bind; [unfold update_group_password; keeps_tac; by apply keeps_modify|].
  intros ?. apply keeps_bind; [done|]. intros. by apply keeps_pure.
Qed.

Lemma view_bin_attrs now mid pbs v : keeps (λ room, owner_view room = v) (write_bin_attrs_internal now mid pbs).
Proof.
  induction pbs as [|pb pbs IH]; simpl; [by apply keeps_pure|].
  apply keeps_bind; [unfold write_bin_attr_internal; keeps_tac; by apply keeps_modify|].
  intros ?. apply keeps_bind; [done|]. intros. by apply keeps_pure.
Qed.

Lemma view_owner_update req v : keeps (λ room, owner_view room = v) (owner_update req).
Proof.
  unfold owner_update, update_flags, update_slot_mask, update_succession. keeps_tac;
    first [apply view_group_passwords|by apply keeps_modify].
Qed.

Lemma view_update_member now req uid v : keeps (λ room, owner_view room = v) (update_member now req uid).
Proof.
  unfold update_member. keeps_tac; apply keeps_modify; intros room <-; unfold owner_view; simpl;
    by rewrite fmap_alter_view.
Qed.

Lemma owners_get_mut {A} c id (m : M Room ErrorType A) :
  (∀ v, keeps (λ room, owner_view room = v) m) → keeps owners_ok (get_mut_room c id m).
Proof.
  intros Hm rm Hok. unfold get_mut_room. destruct (rm_rooms rm !! (c, id)) as [room|] eqn:Hroom.
  - eapply wp_zoom; [exact Hroom|]. eapply wp_mono; [|apply (Hm (owner_view room) room eq_refl)].
    intros r room' Hv k room0. simpl. intros [[_ <-]|[_ H0]]%lookup_insert_Some; [|by eapply Hok].
    eapply flags_ok_view; [exact Hv|by eapply Hok].
  - unfold wp, zoom. by rewrite Hroom.
Qed.

Lemma owners_set_external c req uid : keeps owners_ok (set_roomdata_external c req uid).
Proof.
  unfold set_roomdata_external. keeps_tac. apply owners_get_mut. intros v.
  unfold write_bin_attr_external, write_search_bin_attr, write_search_int_attr. keeps_tac; by apply keeps_modify.
Qed.

Lemma owners_set_internal now c req uid : keeps owners_ok (set_roomdata_internal now c req uid).
Proof.
  unfold set_roomdata_internal. keeps_tac. apply owners_get_mut. intros v. keeps_tac;
    first [apply view_owner_update|apply view_bin_attrs].
Qed.

Lemma owners_set_member now c req uid : keeps owners_ok (set_roommemberdata_internal now c req uid).
Proof.
  unfold set_roommemberdata_internal. keeps_tac. apply owners_get_mut. intros v. apply view_update_member.
Qed.

(** ** Departures *)

Lemma flags_ok_delete room room' mid :
  flags_ok room → r_users room' = delete mid (r_users room) → r_owner room' = r_owner room → flags_ok room'.
Proof. intros Hf Hu Ho m u. rewrite Hu, Ho. intros [_ Hm]%lookup_delete_Some. by apply Hf. Qed.

Lemma grant_owner_bit u : owner_bit (grant_owner_flag u) = true.
Proof.
  apply bool_decide_eq_true. simpl. intros Hz. apply (f_equal (λ z, Z.testbit z 31)) in Hz.
  rewrite Z.land_spec, Z.lor_spec in Hz. change (Z.testbit ROOMMEMBER_FLAG_ATTR_OWNER 31) with true in Hz.
  rewrite orb_true_r in Hz. done.
Qed.

(** The owner left, so nobody has the flag: it can be granted. *)
Lemma flags_ok_set_owner s room :
  flags_ok room → r_users room !! r_owner room = None → flags_ok (set_owner s room).
Proof.
  intros Hf Hno m u. simpl. rewrite lookup_alter. case_decide as Hs.
  - subst s. intros (u0 & _ & ->)%fmap_Some. by rewrite grant_owner_bit.
  - intros Hm. split; [|congruence]. intros Hb. apply (Hf _ _ Hm) in Hb. congruence.
Qed.

Lemma flags_choose_owner rng room :
  flags_ok room → r_users room !! r_owner room = None → wp (choose_owner rng) room (λ _ room', flags_ok room').
Proof.
  intros Hf Hno. unfold choose_owner. do 4 wp_step. destruct (pop_successor _ _) as [found rest]. do 2 wp_step.
  cbn beta iota. destruct found as [s|].
  - wp_step. wp_step. wp_step. by apply flags_ok_set_owner.
  - wp_step; [by wp_step|]. wp_step. wp_step. destruct (unwrap _); [|done..].
    wp_step. wp_step. wp_step. by apply flags_ok_set_owner.
Qed.

Lemma owners_destroy c id users lobby world : keeps owners_ok (destroy_room c id users lobby world).
Proof.
  unfold destroy_room. keeps_tac; apply keeps_modify; try done.
  intros rm Hok k room. simpl. intros [_ Hk]%lookup_delete_Some. by eapply Hok.
Qed.

Lemma owners_put c id room rm rm' :
  owners_ok rm → flags_ok room → rm_rooms rm' = <[(c, id) := room]> (rm_rooms rm) → owners_ok rm'.
Proof. intros Hok Hf E k r. rewrite E. intros [[_ <-]|[_ Hk]]%lookup_insert_Some; [done|by eapply Hok]. Qed.

Lemma owners_leave rng c id uid rm :
  mgr_inv rm → owners_ok rm → wp (leave_room rng c id uid) rm (λ _ rm', owners_ok rm').
Proof.
  intros Hi Hok. unfold leave_room. wp_step. wp_step. unfold room_exists.
  case_bool_decide as Hex; cbn [negb]; [|by wp_step]. destruct Hex as [room Hroom]. wp_step. wp_step.
  destruct (rm_user_rooms rm !! uid) as [us|] eqn:Hus; [|by wp_step]. case_bool_decide as Hin; [by wp_step|].
  assert (in_entry (rm_user_rooms rm) uid (c, id)) as Hent by (unfold in_entry; by rewrite Hus).
  apply (in_entry_user _ _ _ _ _ Hi Hroom), in_room_member in Hent as (mid & u & Hmid & <-).
  pose proof (proj1 (mi_room _ Hi _ _ _ Hroom)) as Hinv.
  wp_step. wp_step. wp_step. unfold get_mut_room at 1. eapply wp_zoom; [exact Hroom|].
  eapply wp_mono; [|apply (remove_member_spec room mid u Hinv Hmid)].
  intros r room1 [-> [Hd _ _ _ [= _ _ _ E _]]]. cbn beta iota.
  assert (flags_ok room1) as Hf1 by (eapply flags_ok_delete; [by eapply Hok|done..]).
  wp_step. wp_step. unfold get_room. rewrite mgr_put_get. cbn [unwrap]. case_bool_decide as Hown.
  2:{ wp_step. eapply owners_put; [exact Hok|exact Hf1|done]. }
  wp_step. unfold get_mut_room. eapply wp_zoom; [apply mgr_put_get|].
  eapply wp_mono; [|apply flags_choose_owner; [exact Hf1|]].
  - intros r room2 Hf2. cbn beta.
    assert (∀ rm', rm_rooms rm' = <[(c, id) := room2]> (rm_rooms rm) → owners_ok rm') as Hput
      by (intros rm' Hrm'; apply (owners_put c id room2 rm rm' Hok Hf2 Hrm')).
    destruct r as [[]|e|]; [wp_step| |..]; try (apply Hput; simpl; by rewrite insert_insert_eq).
    apply wp_bind. eapply wp_mono; [|apply owners_destroy].
    + intros r rm' Hrm'. destruct r; [by wp_step|done..].
    + apply Hput. simpl. by rewrite insert_insert_eq.
  - rewrite Hd, <- Hown. apply lookup_delete_eq.
Qed.

(** ** Joining *)

Lemma RoomUser_from_Join_plain now req sig u : RoomUser_from_JoinRoomRequest now req sig = Ok u → u_flag_attr u = 0.
Proof.
  unfold RoomUser_from_JoinRoomRequest. intros (a & _ & Hu)%res_bind_Ok. apply res_bind_Ok in Hu as (t & _ & [= <-]). done.
Qed.

Lemma add_member_view mid u room :
  r_users (add_member mid u room) = <[mid := u]> (r_users room) ∧ r_owner (add_member mid u room) = r_owner room.
Proof. unfold add_member. by case_bool_decide. Qed.

Lemma flags_ok_join room gid mid room1 u :
  room_inv room → flags_ok room → slot_given room gid mid room1 → u_flag_attr u = 0 →
  flags_ok room1 ∧ flags_ok (add_member mid u room1).
Proof.
  intros Hinv Hf Hg Hu.
  assert (r_users room1 = r_users room ∧ r_owner room1 = r_owner room) as [Eu Eo]
    by by destruct Hg as (? & ? & _ & _ & _ & _ & _ & _ & ->).
  split; [intros m v; rewrite Eu, Eo; apply Hf|]. intros m v.
  destruct (add_member_view mid u room1) as [-> ->]. rewrite Eu, Eo.
  intros [[<- <-]|[_ Hm]]%lookup_insert_Some; [|by apply Hf].
  unfold owner_bit. rewrite Hu. split; [done|]. intros ->. destruct (inv_owner _ Hinv) as [o Ho].
  by destruct (slot_given_fresh _ _ _ _ _ _ Hinv Hg Ho).
Qed.

Lemma owners_join now c req cinfo sig rm room :
  mgr_inv rm → owners_ok rm → rm_rooms rm !! (c, jr_room_id req) = Some room →
  wp (join_room now c req cinfo sig) rm (λ _ rm', owners_ok rm').
Proof.
  intros Hi Hok Hroom. pose proof (proj1 (mi_room _ Hi _ _ _ Hroom)) as Hinv. unfold join_room.
  wp_step. wp_step. unfold get_room. rewrite Hroom. cbn [unwrap].
  wp_step; [by wp_step|]. wp_step; [by wp_step|]. wp_step; [by wp_step|].
  wp_step. unfold get_mut_room at 1. eapply wp_zoom; [exact Hroom|].
  eapply wp_mono; [|apply get_a_slot_spec, Hinv]. intros [[gid mid]|e|] room1; cbn [get_a_slot_post].
  - intros Hg. wp_step. wp_step. destruct (RoomUser_from_JoinRoomRequest now req sig) as [u0|e|] eqn:Hu0.
    2,3: eapply owners_put; [exact Hok| |done];
      by eapply (flags_ok_join room gid mid room1 (RoomUser_blank 0 (RoomMemberBinAttr_new 0) 0 sig)); [|eapply Hok| |].
    apply RoomUser_from_Join_plain in Hu0.
    destruct (flags_ok_join room gid mid room1 ((user_with_identity u0 cinfo mid) <| u_group_id := gid |>) Hinv) as [_ Hf2];
      [by eapply Hok|done|done|].
    wp_step. wp_step. rewrite mgr_put_get. cbn [unwrap]. wp_step. unfold get_mut_room at 1.
    eapply wp_zoom; [apply mgr_put_get|]. wp_step. wp_step. wp_step. wp_step. wp_step.
    match goal with |- context [rm_rooms ?s !! _] => assert (owners_ok s) as Hok2 end.
    { eapply owners_put; [exact Hok|exact Hf2|]. simpl. by rewrite insert_insert_eq. }
    destruct (unwrap _) as [r2| |]; [|done..]. wp_step. wp_step. destruct (build_join_notifs _ _ _ _ _); [|done..].
    wp_step. wp_step. destruct (to_RoomDataInternal _); [|done..]. by wp_step.
  - intros ->. eapply owners_put; [exact Hok|by eapply Hok|done].
  - intros (_ & gs & _ & ->). eapply owners_put; [exact Hok| |done]. intros m v. simpl. by eapply Hok.
Qed.

(** ** Creation *)

Lemma owners_unfailing n c room cinfo : flags_ok room → keeps owners_ok (unfailing_create_room n c room cinfo).
Proof.
  intros Hf. unfold unfailing_create_room. keeps_tac; apply keeps_modify; try done.
  intros rm Hok. by eapply owners_put.
Qed.

Lemma owners_create now c req cinfo sid sig rm :
  0 ≤ cjr_max_slot req → owners_ok rm → wp (create_room now c req cinfo sid sig) rm (λ _ rm', owners_ok rm').
Proof.
  intros Hpos Hok. unfold create_room. destruct (_ || _) eqn:Hmax; [by wp_step|]. bool_hyps.
  wp_step. wp_step. destruct (Room_from_protobuf now req) as [room|e|] eqn:Hroom; [|done..].
  apply Room_from_protobuf_new in Hroom; [|lia].
  wp_step. wp_step. destruct (RoomUser_from_CreateJoinRoomRequest now req sig) as [u|e|] eqn:Hu; [|done..].
  apply RoomUser_from_Create_Ok in Hu. do 4 wp_step.
  assert (1 ≤ r_max_slot room) as Hm1 by apply (nr_shape _ _ Hroom).
  rewrite (occupy_slot_free room 1); [|apply Hroom|lia|].
  2: { unfold slot_free. rewrite (nr_slots _ _ Hroom), lookup_replicate. split; [done|]. simpl. lia. }
  wp_step. wp_step. wp_step. wp_step.
  destruct (setup_groups _ _ _) as [[room' u']|e|] eqn:Hg; [|done..].
  apply setup_groups_Ok in Hg as (gs & g & _ & _ & _ & -> & ->); [|done]. wp_step. wp_step.
  match goal with |- wp (unfailing_create_room ?n _ ?rr _) ?s _ =>
    set (newroom := rr); set (rm0 := s); assert (flags_ok newroom) as Hf end.
  { intros m v. unfold newroom. simpl. rewrite (nr_users _ _ Hroom).
    intros [[<- <-]|[_ Hm]]%lookup_insert_Some; [|by rewrite lookup_empty in Hm]. done. }
  by apply owners_unfailing.
Qed.

(** ** Every reachable state *)

Lemma owners_run op rm rm' : mgr_inv rm → owners_ok rm → rm_run op rm = Some rm' → owners_ok rm'.
Proof.
  intros Hi Hok. destruct op; simpl.
  - destruct (_ && _) eqn:Hg; [|done]. bool_hyps. intros [= <-]. by apply owners_create.
  - destruct (may_join _ _ _ _) eqn:Hg; [|done]. intros [= <-].
    apply may_join_spec in Hg as (room & Hroom & _). by eapply owners_join.
  - intros [= <-]. by apply owners_leave.
  - intros [= <-]. by apply owners_set_external.
  - intros [= <-]. by apply owners_set_internal.
  - intros [= <-]. by apply owners_set_member.
Qed.

Lemma reachable_owners rm : rm_reachable rm → owners_ok rm.
Proof.
  intros Hr. assert (mgr_inv rm ∧ owners_ok rm) as [_ Hok]; [|done]. revert Hr. unfold rm_reachable.
  assert (mgr_inv RoomManager_new ∧ owners_ok RoomManager_new) as Hnew
    by (split; [apply mgr_inv_new|intros k room Hk; simpl in Hk; by rewrite lookup_empty in Hk]).
  revert Hnew. generalize RoomManager_new. intros rm0 Hi. induction 1 as [|rm1 rm2 rm3 [op ? ? Hrun] _ IH]; [done|].
  apply IH. destruct Hi. split; [by eapply rm_run_inv|by eapply owners_run].
Qed.
