(* ===== verification/RoomSearch.v ===== *)
(** * Searching rooms

    Every id of the world and lobby indexes names a stored room, so a search of a
    consistent manager never misses a room; its answer is one page of at most
    twenty rooms, each stored in the searched world or lobby and matching the
    request. *)

From S2P Require Import Prelude Protocol Messages RoomData Room RoomManager RoomInv RoomReports RoomManagerInv.
From S2P Require Import RoomCreate RoomJoin RoomMachine.

Section search.
Context `{!HashOrder} (rm : RoomManager) (Hi : mgr_inv rm).

(** The rooms a request searches. *)
Definition searched (c : ComId) (req : SearchRoomRequest) (room : Room) : Prop :=
  ∃ id, rm_rooms rm !! (c, id) = Some room ∧
    (if bool_decide (sr_world_id req ≠ 0) then r_lobby_id room = 0 ∧ r_world_id room = sr_world_id req
     else r_lobby_id room = sr_lobby_id req ∧ sr_lobby_id req ≠ 0).

Lemma search_list_searched c req ids id :
  search_list rm c req = Some ids → id ∈ ids →
  ∃ room, rm_rooms rm !! (c, id) = Some room ∧ searched c req room.
Proof.
  unfold search_list. intros Hs Hin.
  destruct (bool_decide (sr_world_id req ≠ 0)) eqn:Hw.
  - assert (in_entry (rm_world_rooms rm) (c, sr_world_id req) id) as He by (unfold in_entry; by rewrite Hs).
    apply (mi_world _ Hi) in He as (room & Hr & Hl & Hww). exists room. split; [done|].
    exists id. rewrite Hw. done.
  - case_bool_decide; [|done].
    assert (in_entry (rm_lobby_rooms rm) (c, sr_lobby_id req) id) as He by (unfold in_entry; by rewrite Hs).
    apply (mi_lobby _ Hi) in He as (room & Hr & Hl & Hne). exists room. split; [done|].
    exists id. rewrite Hw. done.
Qed.

Lemma searched_listed c req room :
  searched c req room → ∃ ids id, search_list rm c req = Some ids ∧ id ∈ ids ∧
    rm_rooms rm !! (c, id) = Some room.
Proof.
  intros (id & Hroom & Hs). unfold search_list. destruct (bool_decide (sr_world_id req ≠ 0)).
  - assert (in_entry (rm_world_rooms rm) (c, sr_world_id req) id) as He
      by (apply (mi_world _ Hi); exists room; tauto).
    destruct (in_entry_is_Some _ _ _ He) as [ids Hids]. exists ids, id. split; [done|].
    split; [|done]. unfold in_entry in He. by rewrite Hids in He.
  - destruct Hs as [Hl Hne]. rewrite bool_decide_eq_true_2 by done.
    assert (in_entry (rm_lobby_rooms rm) (c, sr_lobby_id req) id) as He
      by (apply (mi_lobby _ Hi); exists room; tauto).
    destruct (in_entry_is_Some _ _ _ He) as [ids Hids]. exists ids, id. split; [done|].
    split; [|done]. unfold in_entry in He. by rewrite Hids in He.
Qed.

(** The loop over the ids of an index, with [P] what it knows of the ids. *)
Lemma collect_loop c (matches : Room → R bool) ids acc :
  (∀ id, id ∈ ids → ∃ room b, rm_rooms rm !! (c, id) = Some room ∧ matches room = Ok b) →
  ∃ l, res_fold (λ acc room_id,
         let? room := get_room rm c room_id in
         let? b := matches room in
         Ok (if b : bool then acc ++ [room] else acc)) acc ids = Ok (acc ++ l) ∧
    r_room_id <$> l `sublist_of` ids ∧
    ∀ room, room ∈ l ↔ ∃ id, id ∈ ids ∧ rm_rooms rm !! (c, id) = Some room ∧ matches room = Ok true.
Proof.
  revert acc. induction ids as [|id ids IH]; intros acc Hall; simpl.
  - exists []. rewrite app_nil_r. split; [done|]. split; [constructor|]. set_solver.
  - destruct (Hall id) as (room & b & Hr & Hb); [set_solver|]. unfold get_room at 1. rewrite Hr. simpl.
    rewrite Hb. cbn [res_bind].
    destruct (IH (if b then acc ++ [room] else acc)) as (l & -> & Hsub & Hl); [set_solver|].
    exists (if b then room :: l else l). split; [destruct b; by rewrite <- ?app_assoc|].
    split.
    { destruct b; [|by apply sublist_cons]. destruct (mi_room _ Hi _ _ _ Hr) as (_ & Hid & _).
      simpl. rewrite Hid. by apply sublist_skip. }
    intros room0. setoid_rewrite elem_of_cons. destruct b.
    + rewrite elem_of_cons, Hl. split.
      * intros [->|(i & ? & ?)]; eauto 6.
      * intros (i & [->|?] & ? & ?); [left; congruence|eauto 6].
    + rewrite Hl. split.
      * intros (i & ? & ?); eauto 6.
      * intros (i & [->|?] & ? & ?); [congruence|eauto 6].
Qed.

(** When the predicate answers on every searched room, the rooms collected are
    exactly the searched ones it accepts. *)
Lemma collect_matching_spec c req (matches : Room → R bool) :
  (∀ room, searched c req room → ∃ b, matches room = Ok b) →
  ∃ l, collect_matching rm c matches (search_list rm c req) = Ok l ∧ NoDup l ∧
    ∀ room, room ∈ l ↔ searched c req room ∧ matches room = Ok true.
Proof.
  intros Hb. unfold collect_matching. destruct (search_list rm c req) as [ids|] eqn:Hs.
  - destruct (collect_loop c matches (hash_iter ids) []) as (l & -> & Hsub & Hl).
    + intros id Hin%elem_of_hash_iter. destruct (search_list_searched _ _ _ _ Hs Hin) as (room & Hr & Hse).
      destruct (Hb room Hse) as [b Hm]. eauto.
    + exists l. split; [done|]. split.
      { apply (NoDup_fmap_1 r_room_id). eapply sublist_NoDup; [|exact Hsub]. auto with rpcn. }
      intros room. rewrite Hl. setoid_rewrite elem_of_hash_iter. split.
      * intros (id & Hin & Hr & Hm). split; [|done].
        destruct (search_list_searched _ _ _ _ Hs Hin) as (room' & Hr' & ?). congruence.
      * intros [(ids' & id & Hs' & Hin & Hr)%searched_listed Hm]. exists id. split; [|done]. congruence.
  - exists []. split; [done|]. split; [constructor|]. intros room. split; [set_solver|].
    intros [(ids & id & ? & _)%searched_listed _]. congruence.
Qed.

(** A page holds at most [max] elements of the list. *)
Lemma page_length {A} (l : list A) start max : (length (page l start max) ≤ Z.to_nat max)%nat.
Proof. unfold page. rewrite length_take. lia. Qed.

Lemma page_elem {A} (l : list A) start max x : x ∈ page l start max → x ∈ l.
Proof. unfold page. intros Hx. by apply subseteq_take, subseteq_drop in Hx. Qed.

Lemma page_first {A} (l : list A) max : 0 ≤ max → page l 1 max = take (Z.to_nat max) l.
Proof.
  intros Hm. unfold page. change (Z.to_nat (1 - 1)) with 0%nat. rewrite drop_0, Nat.sub_0_r.
  destruct (decide (length l ≤ Z.to_nat max)%nat); [|by rewrite Nat.min_r by lia].
  rewrite Nat.min_l, !take_ge by lia. done.
Qed.

Lemma search_max_bound req : 0 ≤ sr_range_filter_max req → 1 ≤ search_max req ≤ 20.
Proof. unfold search_max. intros. destruct (_ || _) eqn:E; [lia|]. bool_hyps. lia. Qed.
End search.

(** ** Requests that can be evaluated *)

Definition int_filter_wf (f : IntSearchFilter) : Prop :=
  (∃ op, get_verified (isf_search_operator f) = Ok op) ∧
  ∀ a, isf_attr f = Some a → ∃ id, get_verified (ia_id a) = Ok id.

(** An ordering operator on binary data is not supported. *)
Definition bin_filter_wf (f : BinSearchFilter) : Prop :=
  (∃ op, get_verified (bsf_search_operator f) = Ok op ∧ ¬ (3 ≤ op ≤ 6)) ∧
  ∀ a, bsf_attr f = Some a → ∃ id, get_verified (ba_id a) = Ok id.

Record search_wf (req : SearchRoomRequest) : Prop := {
  sw_int : Forall int_filter_wf (sr_int_filter req);
  sw_bin : Forall bin_filter_wf (sr_bin_filter req);
  sw_attr : Forall (λ a : Uint16, ∃ v, get_verified a = Ok v) (sr_attr_id req);
}.

Lemma check_all_total {A} (f : A → R bool) xs :
  Forall (λ x, ∃ b, f x = Ok b) xs → ∃ b, check_all f xs = Ok b.
Proof.
  induction 1 as [|x xs [[] Hx] _ IH]; simpl; [eauto|rewrite Hx; apply IH|rewrite Hx; simpl; eauto].
Qed.

Lemma int_filter_check_total room f :
  room_shape room → int_filter_wf f → ∃ b, int_filter_check room f = Ok b.
Proof.
  intros Hsh [[op Hop] Hid]. unfold int_filter_check. rewrite Hop. simpl.
  destruct (isf_attr f) as [a|]; [|eauto]. destruct (Hid a eq_refl) as [id ->]. simpl.
  destruct (_ || _) eqn:E; [eauto|]. bool_hyps. pose proof (sh_search_int _ Hsh).
  unfold INT_ATTR_EXTERNAL_1_ID, INT_ATTR_EXTERNAL_8_ID in *.
  destruct (@index_lt ErrorType _ (r_search_int_attr room) (id - 0x4C)) as (x & -> & _); [lia|]. simpl.
  destruct (operator_from_u8 op); eauto.
Qed.

Lemma bin_filter_check_total room f : bin_filter_wf f → ∃ b, bin_filter_check room f = Ok b.
Proof.
  intros [(op & Hop & Hr) Hid]. unfold bin_filter_check. rewrite Hop. simpl.
  destruct (bsf_attr f) as [a|]; [|eauto]. destruct (Hid a eq_refl) as [id ->]. simpl.
  case_bool_decide; [eauto|]. unfold operator_from_u8. repeat case_match; simplify_eq; eauto; lia.
Qed.

Lemma is_match_total room req : room_shape room → search_wf req → ∃ b, is_match room req = Ok b.
Proof.
  intros Hsh [Hi Hb _]. unfold is_match. case_bool_decide; [eauto|]. case_bool_decide; [eauto|].
  destruct (check_all_total (int_filter_check room) (sr_int_filter req)) as [[] ->];
    [|simpl|simpl; eauto].
  - eapply Forall_impl; [exact Hi|]. intros f. by apply int_filter_check_total.
  - apply check_all_total. eapply Forall_impl; [exact Hb|]. intros f. by apply bin_filter_check_total.
Qed.

(** A well-formed search (its ids and operators decode, its binary filters
    test equality) on a consistent manager succeeds, whatever
    the iteration order of the index.  Its total is the length of a list that holds
    exactly the searched rooms, without repetition, that match the request; the rooms returned are the
    external reports of a page of that list, at most twenty of them, and the first
    page when the request asks for no start or for the first. *)
Theorem search_room_correct `{!HashOrder} rm c req :
  mgr_inv rm → search_wf req → 0 ≤ sr_range_filter_max req → 0 ≤ sr_range_filter_start_index req →
  ∃ matching resp, search_room rm c req = Ok resp ∧ NoDup matching ∧
    (∀ room, room ∈ matching ↔ searched rm c req room ∧ is_match room req = Ok true) ∧
    srr_total resp = wrap_u32 (Z.of_nat (length matching)) ∧
    (length (srr_rooms resp) ≤ 20)%nat ∧
    ∃ ids, Forall2 (λ room d, to_RoomDataExternal room (sr_option req) ids = Ok d)
      (if bool_decide (search_start req ≤ Z.of_nat (length matching))
       then page matching (search_start req) (search_max req) else []) (srr_rooms resp) ∧
    (search_start req = 1 → 0 < Z.of_nat (length matching) →
     Forall2 (λ room d, to_RoomDataExternal room (sr_option req) ids = Ok d)
       (take (Z.to_nat (search_max req)) matching) (srr_rooms resp)).
Proof.
  intros Hi Hwf Hmax Hstart.
  assert (∀ room, searched rm c req room → ∃ b, is_match room req = Ok b) as Hmatch.
  { intros room (id & Hroom & _). apply is_match_total; [|done]. by apply (mi_room _ Hi) in Hroom as [[] _]. }
  destruct (collect_matching_spec rm Hi c req (λ room, is_match room req) Hmatch) as (l & Hl & Hnd & Hel).
  pose proof (search_max_bound req Hmax) as Hb.
  destruct (res_map_list_total get_verified (sr_attr_id req)) as [ids Hids];
    [by apply Forall_forall, Hwf|].
  assert (∀ rooms, (∀ room, room ∈ rooms → room ∈ l) → ∃ ds,
    res_map_list (λ room, to_RoomDataExternal room (sr_option req) ids) rooms = Ok ds) as Htot.
  { intros rooms Hsub. apply res_map_list_total. intros room Hin%Hsub.
    apply Hel in Hin as [(id & Hroom & _) _].
    destruct (to_RoomDataExternal_report room (sr_option req) ids) as (d & _ & _ & _ & Hd & _);
      [by apply (mi_room _ Hi) in Hroom as [? _]|]. eauto. }
  exists l. unfold search_room. rewrite Hl. cbn [res_bind]. rewrite Hids. cbn [res_bind].
  destruct (bool_decide (search_start req ≤ Z.of_nat (length l))) eqn:Hst.
  - destruct (Htot (page l (search_start req) (search_max req))) as [ds Hds]; [intros ?; apply page_elem|].
    rewrite Hds. apply res_map_list_Ok in Hds. eexists. split; [reflexivity|]. simpl. split; [done|]. split; [done|]. split; [done|].
    split; [|exists ids; split; [done|]].
    + apply Forall2_length in Hds. rewrite <- Hds. pose proof (page_length l (search_start req) (search_max req)). lia.
    + intros H1 _. rewrite H1, page_first in Hds by lia. done.
  - eexists. split; [reflexivity|]. simpl. split; [done|]. split; [done|]. split; [done|]. split; [lia|].
    exists ids. split; [constructor|]. intros H1 Hlen. bool_hyps. lia.
Qed.

Definition ex_search : SearchRoomRequest :=
  mkSearchRoomRequest 7 1 0 0 0 0 0 [] [] [].

Lemma search_room_correct_witness :
  ∃ (matching : list Room) resp, @search_room elements_order ex_manager ex_com ex_search = Ok resp ∧
    srr_total resp = wrap_u32 (Z.of_nat (length matching)) ∧ (length (srr_rooms resp) ≤ 20)%nat.
Proof.
  destruct (@search_room_correct elements_order ex_manager ex_com ex_search) as (m & resp & H1 & _ & _ & H2 & H3 & _);
    [exact ex_manager_inv|split; constructor|vm_compute; discriminate|vm_compute; discriminate|].
  exists m, resp. auto.
Defined.
