(* ===== verification/RoomRules.v ===== *)
(** * Rules of a room

    Which slot a newcomer gets, who becomes the owner, who may change what, and
    two places where the code departs from what it means to do. *)

From S2P Require Import Prelude Protocol Messages RoomData Room RoomManager RoomInv RoomReports RoomManagerInv.
From S2P Require Import RoomCreate RoomJoin RoomMachine.

(** ** Slots of a room without groups *)

#[export] Instance eligible_dec room private s : Decision (eligible room private s).
Proof. unfold eligible, slot_free. apply _. Defined.

(** The reference: the lowest-numbered free slot of a kind. *)
Definition lowest_slot (room : Room) (private : bool) : option Z :=
  snd <$> list_find (eligible room private) (seqZ 1 (r_max_slot room)).

Definition give_slot (room : Room) (o : option Z) : R Z * Room :=
  match o with
  | Some s => (Ok (mid_of room s), occupied s room)
  | None => (Err RoomFull, room)
  end.

Lemma req_slot_lowest room private :
  room_shape room → req_slot private room = give_slot room (lowest_slot room private).
Proof.
  intros Hsh. unfold lowest_slot.
  destruct (req_slot_cases private room Hsh) as [(s & Hs & Hel & Hmin & ->)|[Hnone ->]].
  - assert (list_find (eligible room private) (seqZ 1 (r_max_slot room)) = Some (Z.to_nat (s - 1), s)) as ->.
    { apply list_find_Some. split; [apply lookup_seqZ; lia|]. split; [done|].
      intros j y [Hy _]%lookup_seqZ Hj. apply Hmin. lia. }
    done.
  - assert (list_find (eligible room private) (seqZ 1 (r_max_slot room)) = None) as ->; [|done].
    apply list_find_None, Forall_forall. intros s Hs%elem_of_seqZ. apply Hnone. lia.
Qed.

Definition plain_slot (room : Room) (password : option bytes) : R Z * Room :=
  match password with
  | None => give_slot room (lowest_slot room false)
  | Some _ =>
      if bool_decide (password = r_room_password room) then
        give_slot room (match lowest_slot room true with Some s => Some s | None => lowest_slot room false end)
      else (Err RoomPasswordMismatch, room)
  end.

(** In a room without groups a newcomer gets the lowest-numbered free public
    slot; with the room's password, the lowest free private slot, and a public one
    only when no private one is free; with a wrong password it is refused; and it is
    refused as full, with the room unchanged, only when no such slot is free.  The
    member id carries the slot and the running counter. *)
Theorem get_a_slot_plain room label password :
  room_shape room → r_group_config room = [] →
  get_a_slot label password room =
    (res_map (λ mid, (0, mid)) (plain_slot room password).1, (plain_slot room password).2).
Proof.
  intros Hsh Hg. unfold get_a_slot, plain_slot, bind at 1 2, gets. rewrite Hg. unfold bind, fail, ret.
  destruct password as [p|].
  - case_bool_decide; [|done]. rewrite !req_slot_lowest by done.
    destruct (lowest_slot room true) as [s|]; simpl; [done|].
    rewrite req_slot_lowest by done. by destruct (lowest_slot room false).
  - rewrite req_slot_lowest by done. by destruct (lowest_slot room false).
Qed.

Lemma ex_room_inv : room_inv (ex_room 1).
Proof.
  apply (mi_room _ ex_manager_inv ex_com 1). vm_compute. reflexivity.
Qed.

Lemma get_a_slot_plain_witness :
  lowest_slot (ex_room 1) false = Some 3 ∧
  get_a_slot None None (ex_room 1) =
    (res_map (λ mid, (0, mid)) (plain_slot (ex_room 1) None).1, (plain_slot (ex_room 1) None).2).
Proof.
  split; [vm_compute; reflexivity|].
  exact (get_a_slot_plain (ex_room 1) None None (inv_shape _ ex_room_inv) eq_refl).
Defined.

(** ** The next owner *)

(** When the owner of a non-empty room leaves, ownership goes to the first id
    on the succession list that is still a member, and only when none is, to another
    member; the new owner gets the owner flag, and the list keeps only what comes
    after the chosen one. *)
Theorem choose_owner_order rng room :
  r_users room ≠ ∅ →
  ∃ o rest, choose_owner rng room = (Ok true, set_owner o (room <| r_owner_succession := rest |>)) ∧
    is_Some (r_users room !! o) ∧
    ((∃ pre, r_owner_succession room = pre ++ o :: rest ∧ Forall (λ x, r_users room !! x = None) pre) ∨
     (rest = [] ∧ Forall (λ x, r_users room !! x = None) (r_owner_succession room))).
Proof.
  intros Hne. unfold choose_owner, bind, gets, modify, ret, lift.
  pose proof (pop_successor_spec (r_users room) (r_owner_succession room)) as Hpop.
  destruct (pop_successor _ _) as [[s|] rest].
  - destruct Hpop as (pre & Hl & Hs & Hpre). exists s, rest. split; [done|]. split; [done|]. left. by exists pre.
  - destruct Hpop as [-> Hall]. rewrite bool_decide_eq_false_2 by done.
    destruct (lookup_lt_is_Some_2 (btree_keys (r_users room)) (gen_range rng (size (r_users room)))) as [o Ho].
    { rewrite length_btree_keys. apply gen_range_lt.
      assert (size (r_users room) ≠ 0%nat); [|lia]. by intros ?%map_size_empty_inv. }
    exists o, []. rewrite Ho. split; [done|]. apply list_elem_of_lookup_2, elem_of_btree_keys in Ho.
    split; [done|]. by right.
Qed.

Lemma choose_owner_order_witness :
  ∃ o rest, choose_owner 1 (ex_room 1) = (Ok true, set_owner o ((ex_room 1) <| r_owner_succession := rest |>)) ∧
    is_Some (r_users (ex_room 1) !! o).
Proof.
  destruct (choose_owner_order 1 (ex_room 1)) as (o & rest & H1 & H2 & _); [vm_compute; discriminate|].
  exists o, rest. split; [exact H1|exact H2].
Defined.

(** ** Who may change what *)

Definition is_owner (rm : RoomManager) (c : ComId) (id uid : Z) : Prop :=
  ∃ room, rm_rooms rm !! (c, id) = Some room ∧ first_member room uid = Some (r_owner room).

Lemma get_mut_room_unchanged {A} c id (m : M Room ErrorType A) rm room (r : R A) :
  rm_rooms rm !! (c, id) = Some room → m room = (r, room) → get_mut_room c id m rm = (r, rm).
Proof.
  intros Hr Hm. unfold get_mut_room, zoom. rewrite Hr, Hm. f_equal.
  destruct rm. simpl in *. unfold set_field. simpl. f_equal. by apply insert_id.
Qed.

(** Setting the external attributes of a room by anyone but its owner (the
    user is not a member, or the room does not exist) is refused with an error and
    changes nothing. *)
Theorem set_roomdata_external_authorized c req uid rm :
  ¬ is_owner rm c (sde_room_id req) uid →
  ∃ e, set_roomdata_external c req uid rm = (Err e, rm) ∧
    (e = RoomMissing ∨ e = NotFound ∨ e = Unauthorized).
Proof.
  intros Hno. unfold set_roomdata_external, bind at 1, gets. unfold room_exists.
  case_bool_decide as Hex; simpl; [|eauto]. destruct Hex as [room Hroom].
  destruct (first_member room uid) as [mid|] eqn:Hf.
  - exists Unauthorized. split; [|auto]. eapply get_mut_room_unchanged; [done|].
    unfold bind, asks, gets, get_member_id. rewrite Hf. simpl.
    rewrite bool_decide_eq_true_2; [done|]. intros Heq. apply Hno. exists room. by rewrite Heq.
  - exists NotFound. split; [|auto]. eapply get_mut_room_unchanged; [done|].
    unfold bind, asks, get_member_id. by rewrite Hf.
Qed.

Lemma set_roomdata_external_authorized_witness :
  ∃ e, set_roomdata_external ex_com (mkSetRoomDataExternalRequest 1 [] [] []) 8 ex_manager = (Err e, ex_manager).
Proof.
  destruct (set_roomdata_external_authorized ex_com (mkSetRoomDataExternalRequest 1 [] [] []) 8 ex_manager)
    as (e & H & _); [|exists e; exact H].
  intros (room & Hroom & Hf). vm_compute in Hroom. injection Hroom as <-. vm_compute in Hf. discriminate.
Defined.

(** A member may change its own team and data, and only the owner may change
    another member's: any other request is refused as unauthorized and leaves the
    manager as it was. *)
Theorem set_member_data_authorized now c req uid rm room mid target :
  rm_rooms rm !! (c, smdi_room_id req) = Some room →
  first_member room uid = Some mid → mid ≠ r_owner room →
  get_verified (smdi_member_id req) = Ok target → target ≠ 0 → target ≠ mid →
  set_roommemberdata_internal now c req uid rm = (Err Unauthorized, rm).
Proof.
  intros Hroom Hf Hno Ht H0 Hne. unfold set_roommemberdata_internal, bind at 1, gets, room_exists.
  rewrite Hroom, bool_decide_eq_true_2 by eauto. cbn [negb].
  unfold bind at 1.
  rewrite (get_mut_room_unchanged c _ (update_member now req uid) rm room (Err Unauthorized) Hroom); [done|].
  unfold update_member, bind, asks, gets, lift, get_member_id. rewrite Hf. simpl. rewrite Ht.
  rewrite (bool_decide_eq_false_2 (target = 0)) by done.
  by rewrite !bool_decide_eq_true_2 by done.
Qed.

Lemma set_member_data_authorized_witness :
  set_roommemberdata_internal 0 ex_com
    (mkSetRoomMemberDataInternalRequest 1 (new_from_value 16) (new_from_value 3) []) 8 ex_manager
  = (Err Unauthorized, ex_manager).
Proof.
  apply (set_member_data_authorized 0 ex_com
    (mkSetRoomMemberDataInternalRequest 1 (new_from_value 16) (new_from_value 3) []) 8 ex_manager (ex_room 1) 33 16);
    vm_compute; try reflexivity; discriminate.
Defined.

(** A flag update by the owner changes exactly the flags the filter selects,
    to the values requested, except the full flag, which no request can set or clear;
    it reports a change exactly when some flag changed. *)
Theorem update_flags_exact req room room' changed i :
  0 ≤ i < 32 → update_flags req room = (Ok changed, room') →
  Z.testbit (r_flag_attr room') i =
    (if Z.testbit (sdi_flag_filter req) i && negb (bool_decide (i = 29))
     then Z.testbit (sdi_flag_attr req) i else Z.testbit (r_flag_attr room) i) ∧
  (changed = true ↔ r_flag_attr room' ≠ r_flag_attr room).
Proof.
  intros Hi. unfold update_flags, bind, gets, modify, ret.
  set (new := Z.lor _ _).
  assert (Z.testbit new i = (if Z.testbit (sdi_flag_filter req) i && negb (bool_decide (i = 29))
     then Z.testbit (sdi_flag_attr req) i else Z.testbit (r_flag_attr room) i)) as Hnew.
  { unfold new, not_u, PROTECTED_ROOM_FLAGS, ROOM_FLAG_ATTR_FULL. change 0x20000000 with (2 ^ 29).
    rewrite Z.lor_spec, !Z.land_spec, !Z.lxor_spec, !Z.land_spec, !Z.lxor_spec.
    change (2 ^ 32 - 1) with (Z.ones 32). rewrite Z.ones_spec_low by lia.
    rewrite Z.pow2_bits_eqb by lia. case_bool_decide as H29.
    - subst i. rewrite Z.eqb_refl.
      destruct (Z.testbit (sdi_flag_filter req) 29), (Z.testbit (sdi_flag_attr req) 29),
        (Z.testbit (r_flag_attr room) 29); done.
    - rewrite (proj2 (Z.eqb_neq 29 i)) by done.
      destruct (Z.testbit (sdi_flag_filter req) i), (Z.testbit (sdi_flag_attr req) i),
        (Z.testbit (r_flag_attr room) i); done. }
  rewrite <- Hnew. destruct (bool_decide (new ≠ r_flag_attr room)) eqn:Hc; bool_hyps; intros [= <- <-]; simpl.
  - done.
  - apply dec_stable in Hc. rewrite Hc. done.
Qed.

Lemma update_flags_exact_witness :
  let req := mkSetRoomDataInternalRequest 1 0xFFFFFFFF 0xFFFFFFFF [] [] [] [] in
  is_full (r_flag_attr (update_flags req (ex_room 1)).2) = false ∧
  Z.testbit (r_flag_attr (update_flags req (ex_room 1)).2) 30 = true.
Proof.
  intros req.
  destruct (update_flags_exact req (ex_room 1) (update_flags req (ex_room 1)).2 true 30) as [H1 _];
    [lia|vm_compute; reflexivity|].
  destruct (update_flags_exact req (ex_room 1) (update_flags req (ex_room 1)).2 true 29) as [H2 _];
    [lia|vm_compute; reflexivity|].
  split; [unfold is_full; rewrite H2; vm_compute; reflexivity|rewrite H1; vm_compute; reflexivity].
Defined.

(** ** Departures from the intent *)

(** Only the six lowest bits of the password slot mask ever matter when a slot
    is chosen ([is_slot_private] tests the mask against the number [64 - slot]
    where the external report tests the bit [63 - index]): whatever the owner sets
    above them, every slot is treated as public. *)
Theorem high_mask_bits_ignored room s :
  1 ≤ s ≤ 64 → r_password_slot_mask room mod 64 = 0 → is_slot_private room s = false.
Proof.
  intros Hs Hm. unfold is_slot_private. apply bool_decide_eq_false_2. intros H. apply H. clear H.
  unfold wrap_u64. rewrite (Z.mod_small (64 - s)) by lia.
  apply Z.bits_inj'. intros n Hn. rewrite Z.land_spec, Z.bits_0.
  destruct (decide (n < 6)).
  - assert (Z.testbit (r_password_slot_mask room mod 2 ^ 6) n = false) as Hb
      by (change (2 ^ 6) with 64; rewrite Hm; apply Z.bits_0).
    rewrite Z.mod_pow2_bits_low in Hb by lia. by rewrite Hb.
  - rewrite (Z.bits_above_log2 (64 - s)), andb_false_r; [done|lia|].
    destruct (decide (s = 64)) as [->|]; [simpl; lia|].
    apply Z.log2_lt_pow2; [lia|]. apply (Z.lt_le_trans _ (2 ^ 6)); [lia|]. apply Z.pow_le_mono_r; lia.
Qed.

(** The mask that makes the first slot private in every report leaves it public
    when slots are given out. *)
Lemma high_mask_bits_ignored_witness :
  let room := (ex_room 1) <| r_password_slot_mask := 2 ^ 63 |> in
  mask_bit (r_password_slot_mask room) 0 = true ∧ is_slot_private room 1 = false.
Proof.
  intros room. split; [vm_compute; reflexivity|].
  apply (high_mask_bits_ignored room 1); [lia|vm_compute; reflexivity].
Defined.

(** A join whose member data is rejected has already taken a slot and never
    gives it back: a request without a team id is refused as malformed by a two-slot
    room with one member, and the next, valid join is refused as full although the
    room has one member. *)
Theorem malformed_join_leaks_slot :
  ∃ rm rm' room', rm_reachable rm ∧
    join_room 1 ex_com (ex_join 1 None) (ex_user 8 "bob") signaling_info_new rm = (Err Malformed, rm') ∧
    rm_rooms rm' !! (ex_com, 1) = Some room' ∧ r_max_slot room' = 2 ∧ size (r_users room') = 1%nat ∧
    (join_room 2 ex_com (ex_join 1 (new_from_value 0)) (ex_user 9 "carol") signaling_info_new rm').1 =
      Err RoomFull.
Proof.
  set (ops := [OpCreate 0 ex_com (ex_create 2 None) (ex_user 7 "alice") 1 signaling_info_new]).
  set (rm := default RoomManager_new (rm_runs ops RoomManager_new)).
  set (rm' := (join_room 1 ex_com (ex_join 1 None) (ex_user 8 "bob") signaling_info_new rm).2).
  exists rm, rm', (default (ex_room 1) (rm_rooms rm' !! (ex_com, 1))).
  split; [apply (rm_runs_steps ops); vm_compute; reflexivity|].
  split; [vm_compute; reflexivity|]. split; [vm_compute; reflexivity|].
  split; [vm_compute; reflexivity|]. split; [vm_compute; reflexivity|vm_compute; reflexivity].
Qed.

(** ** Concrete instances of the earlier contracts *)

Lemma to_RoomDataExternal_total_witness :
  ∃ d mp op opr, to_RoomDataExternal (ex_room 1) 7 [INT_ATTR_EXTERNAL_1_ID] = Ok d ∧
    slots_consistent (ex_room 1) mp op opr.
Proof.
  destruct (to_RoomDataExternal_total (ex_room 1) 7 [INT_ATTR_EXTERNAL_1_ID] ex_room_inv)
    as (d & mp & op & opr & H & Hc & _). eauto 6.
Defined.

(** Attribute 1 of the room is at most 5. *)
Definition ex_filtered_search : SearchRoomRequest :=
  mkSearchRoomRequest 0 1 0 1 20 0 0
    [mkIntSearchFilter (new_from_value 4) (Some (mkIntAttr (new_from_value INT_ATTR_EXTERNAL_1_ID) 5))] [] [].

Lemma is_match_sound_witness :
  is_match (ex_room 1) ex_filtered_search = Ok true ∧
  Forall (int_filter_holds (ex_room 1)) (sr_int_filter ex_filtered_search).
Proof.
  split; [vm_compute; reflexivity|].
  apply (is_match_sound (ex_room 1) ex_filtered_search). vm_compute. reflexivity.
Defined.

Lemma mesh_join_connects_witness :
  ∃ n, build_join_notifs (ex_room 1) (ex_join 1 None) 33 signaling_info_new ∅ = Ok n ∧ jn_no_signaling n = None.
Proof.
  destruct (mesh_join_connects (ex_room 1) (ex_join 1 None) 33 signaling_info_new ∅
              (mkSignalParam SignalingMesh 0 0)) as (n & H & _ & Hn & _).
  - apply ex_room_inv.
  - vm_compute. eexists. reflexivity.
  - vm_compute. reflexivity.
  - reflexivity.
  - vm_compute. reflexivity.
  - eauto.
Defined.
