(* ===== verification/GuiRoom.v ===== *)
(** * A lobby room of the older matchmaking API
    (src/src/server/gui_room_manager.rs, [GuiRoom])

    Attributes, members, the messages a room is reported in and the search
    predicates. *)

From S2P Require Import Prelude Protocol Messages RoomData.

Definition GUI_ROOM_ID_SIZE : nat := 28.
Abbreviation GuiRoomId := bytes.

Definition SCE_NP_MATCHING_ATTR_TYPE_BASIC_NUM : Z := 2.
Definition SCE_NP_MATCHING_ATTR_TYPE_GAME_BIN : Z := 3.
Definition SCE_NP_MATCHING_ATTR_TYPE_GAME_NUM : Z := 4.

Definition SCE_NP_MATCHING_ROOM_ATTR_ID_ROOM_SEARCH_FLAG : Z := 7.

Definition SCE_NP_MATCHING_CONDITION_SEARCH_EQ : Z := 0.
Definition SCE_NP_MATCHING_CONDITION_SEARCH_NE : Z := 1.

(** ** Binary attributes *)

Record GuiRoomBinAttr := mkGuiRoomBinAttr {
  gb_data : bytes;
  gb_cur_size : nat;
}.

Definition GuiRoomBinAttr_default (n : nat) : GuiRoomBinAttr := mkGuiRoomBinAttr (replicate n 0) 0.

(** Data over the capacity is cut, shorter data is followed by zeros. *)
Definition GuiRoomBinAttr_from_protobuf (n : nat) (pb : MatchingAttr) : GuiRoomBinAttr :=
  let cur_size := Nat.min (length (ma_data pb)) n in
  mkGuiRoomBinAttr (take cur_size (ma_data pb) ++ drop cur_size (replicate n 0)) cur_size.

Definition GuiRoomBinAttr_gen_MatchingAttr (a : GuiRoomBinAttr) (attr_id : Z) : MatchingAttr :=
  mkMatchingAttr SCE_NP_MATCHING_ATTR_TYPE_GAME_BIN attr_id 0 (take (gb_cur_size a) (gb_data a)).

(** ** Members *)

Record GuiRoomMember := mkGuiRoomMember {
  gm_npid : string;
  gm_online_name : string;
  gm_avatar_url : string;
  gm_owner : bool;
}.
#[export] Instance gui_member_eta : Eta GuiRoomMember := λ m,
  mkGuiRoomMember (gm_npid m) (gm_online_name m) (gm_avatar_url m) (gm_owner m).

Definition from_clientinfo (cinfo : ClientInfo) (owner : bool) : GuiRoomMember :=
  mkGuiRoomMember (ci_npid cinfo) (ci_online_name cinfo) (ci_avatar_url cinfo) owner.

Definition GuiRoomMember_to_protobuf (m : GuiRoomMember) : GuiUserInfo :=
  mkGuiUserInfo (Some (mkUserInfo (gm_npid m) (gm_online_name m) (gm_avatar_url m))) (gm_owner m).

(** ** The room *)

Record GuiRoom := mkGuiRoom {
  gr_total_slots : Z;
  gr_private_slots : Z;
  gr_privilege_grant : bool;
  gr_stealth : bool;
  gr_members : gmap Z GuiRoomMember;
  gr_num_attrs : list Z;
  gr_big_bin_attrs : list GuiRoomBinAttr;
  gr_small_bin_attrs : list GuiRoomBinAttr;
  gr_communication_id : ComId;
  gr_quickmatch_room : bool;
}.
#[export] Instance gui_room_eta : Eta GuiRoom := λ r,
  mkGuiRoom (gr_total_slots r) (gr_private_slots r) (gr_privilege_grant r) (gr_stealth r)
    (gr_members r) (gr_num_attrs r) (gr_big_bin_attrs r) (gr_small_bin_attrs r)
    (gr_communication_id r) (gr_quickmatch_room r).

Definition set_attr (room : GuiRoom) (attr : MatchingAttr) : R GuiRoom :=
  let id := ma_attr_id attr in
  if bool_decide (ma_attr_type attr = SCE_NP_MATCHING_ATTR_TYPE_GAME_BIN) then
    if bool_decide (1 ≤ id ≤ 2) then
      let? l := index_set (gr_big_bin_attrs room) (id - 1) (GuiRoomBinAttr_from_protobuf 256 attr) in
      Ok (room <| gr_big_bin_attrs := l |>)
    else if bool_decide (3 ≤ id ≤ 16) then
      let? l := index_set (gr_small_bin_attrs room) (id - 3) (GuiRoomBinAttr_from_protobuf 64 attr) in
      Ok (room <| gr_small_bin_attrs := l |>)
    else Ok room
  else if bool_decide (ma_attr_type attr = SCE_NP_MATCHING_ATTR_TYPE_GAME_NUM) then
    if bool_decide (1 ≤ id ≤ 16) then
      let? l := index_set (gr_num_attrs room) (id - 1) (ma_num attr) in
      Ok (room <| gr_num_attrs := l |>)
    else Ok room
  else Ok room.

Definition GuiRoom_from_protobuf (pb : CreateRoomGuiRequest) (com_id : ComId) : R GuiRoom :=
  let total_slots := Z.min (crg_total_slots pb) 64 in
  let private_slots := Z.min (Z.min (crg_private_slots pb) 64) total_slots in
  res_fold set_attr
    (mkGuiRoom total_slots private_slots (crg_privilege_grant pb) (crg_stealth pb) ∅
       (replicate 16 0) (replicate 2 (GuiRoomBinAttr_default 256)) (replicate 14 (GuiRoomBinAttr_default 64))
       com_id false)
    (crg_game_attrs pb).

(** One condition of a quick match: an equality on a number fixes the attribute. *)
Definition quickmatch_cond (room : GuiRoom) (cond : MatchingSearchCondition) : R GuiRoom :=
  if bool_decide (msc_attr_type cond = SCE_NP_MATCHING_ATTR_TYPE_GAME_NUM) then
    if bool_decide (1 ≤ msc_attr_id cond ≤ 16) then
      if bool_decide (msc_comp_op cond = SCE_NP_MATCHING_CONDITION_SEARCH_EQ) then
        let? l := index_set (gr_num_attrs room) (msc_attr_id cond - 1) (msc_comp_value cond) in
        Ok (room <| gr_num_attrs := l |>)
      else Ok room
    else Ok room
  else Ok room.

Definition from_quickmatch_protobuf (pb : QuickMatchGuiRequest) (com_id : ComId) : R GuiRoom :=
  res_fold quickmatch_cond
    (mkGuiRoom (Z.min (qm_available_num pb) 64) 0 true false ∅
       (replicate 16 0) (replicate 2 (GuiRoomBinAttr_default 256)) (replicate 14 (GuiRoomBinAttr_default 64))
       com_id true)
    (qm_conds pb).

Definition gui_add_member (cinfo : ClientInfo) (owner : bool) (room : GuiRoom) : GuiRoom :=
  room <| gr_members ::= <[ci_user_id cinfo := from_clientinfo cinfo owner]> |>.

(** ** Reports *)

Section reports.
Context `{!HashOrder}.

(** [member_filter]: [None] lists everyone, [Some 0] too, another id only that
    member. *)
Definition gen_MatchingRoomStatus (room : GuiRoom) (id : GuiRoomId) (member_filter : option Z)
  (extra_member : option GuiRoomMember) : MatchingRoomStatus :=
  let all := GuiRoomMember_to_protobuf <$> hash_map_values (gr_members room) in
  let members :=
    match member_filter with
    | Some user_id =>
        if bool_decide (user_id ≠ 0) then
          match gr_members room !! user_id with
          | Some member => [GuiRoomMember_to_protobuf member]
          | None => []
          end
        else all
    | None => all
    end in
  mkMatchingRoomStatus id
    (members ++ match extra_member with Some m => [GuiRoomMember_to_protobuf m] | None => [] end) "" [].
End reports.

Definition gen_MatchingAttr (room : GuiRoom) (attr_type attr_id : Z) : R (option MatchingAttr) :=
  let members := wrap_u32 (Z.of_nat (size (gr_members room))) in
  let num n := Ok (Some (mkMatchingAttr attr_type attr_id n [])) in
  if bool_decide (attr_type = SCE_NP_MATCHING_ATTR_TYPE_BASIC_NUM) then
    match attr_id with
    | 1 => num (gr_total_slots room)
    | 2 => num (gr_private_slots room)
    | 3 => num members
    | 4 => num members
    | 5 => num 0
    | 6 => num (if gr_privilege_grant room then 1 else 0)
    | 7 => num (if gr_stealth room then 1 else 0)
    | _ => Ok None
    end
  else if bool_decide (attr_type = SCE_NP_MATCHING_ATTR_TYPE_GAME_BIN) then
    if bool_decide (1 ≤ attr_id ≤ 2) then
      let? a := index (gr_big_bin_attrs room) (attr_id - 1) in
      Ok (Some (GuiRoomBinAttr_gen_MatchingAttr a attr_id))
    else if bool_decide (3 ≤ attr_id ≤ 16) then
      let? a := index (gr_small_bin_attrs room) (attr_id - 3) in
      Ok (Some (GuiRoomBinAttr_gen_MatchingAttr a attr_id))
    else Ok None
  else if bool_decide (attr_type = SCE_NP_MATCHING_ATTR_TYPE_GAME_NUM) then
    if bool_decide (attr_id = 0) || bool_decide (16 < attr_id) then Ok None
    else let? n := index (gr_num_attrs room) (attr_id - 1) in num n
  else Ok None.

(** The attributes asked for that exist. *)
Definition gen_attrs (room : GuiRoom) (attrs : list (Z * Z)) : R (list MatchingAttr) :=
  let? l := res_map_list (λ '(ty, id), gen_MatchingAttr room ty id) attrs in
  Ok (omap (λ o, o) l).

Definition parsed_attrs (attrs : list MatchingAttr) : list (Z * Z) :=
  (λ a, (ma_attr_type a, ma_attr_id a)) <$> attrs.

Definition gen_MatchingSearchJoinRoomInfo `{!HashOrder} (room : GuiRoom) (id : GuiRoomId)
  (member_filter : option Z) (extra_member : option GuiRoomMember) (attrs : list MatchingAttr) :
  R MatchingSearchJoinRoomInfo :=
  let? result_attrs := gen_attrs room (parsed_attrs attrs) in
  Ok (mkMatchingSearchJoinRoomInfo (Some (gen_MatchingRoomStatus room id member_filter extra_member)) result_attrs).

Definition gen_MatchingRoom (room : GuiRoom) (id : GuiRoomId) (attrs : list (Z * Z)) : R MatchingRoom :=
  let? result_attrs := gen_attrs room attrs in
  Ok (mkMatchingRoom id result_attrs).

(** ** Searching *)

Definition match_value (value cmp_value cmp_op : Z) : bool :=
  match cmp_op with
  | 0 => bool_decide (value = cmp_value)
  | 1 => bool_decide (value ≠ cmp_value)
  | 2 => bool_decide (value < cmp_value)
  | 3 => bool_decide (value ≤ cmp_value)
  | 4 => bool_decide (cmp_value < value)
  | 5 => bool_decide (cmp_value ≤ value)
  | _ => false
  end.

(** The conditions on attributes: one with an unexpected type or id is skipped,
    the first that fails ends the loop. *)
Fixpoint match_conds (room : GuiRoom) (conds : list MatchingSearchCondition) : R bool :=
  match conds with
  | [] => Ok true
  | cond :: conds =>
      if bool_decide (msc_attr_type cond = SCE_NP_MATCHING_ATTR_TYPE_BASIC_NUM) then
        if bool_decide (msc_attr_id cond ≠ 1) then match_conds room conds
        else if match_value (gr_total_slots room) (msc_comp_value cond) (msc_comp_op cond)
        then match_conds room conds else Ok false
      else if bool_decide (msc_attr_type cond = SCE_NP_MATCHING_ATTR_TYPE_GAME_NUM) then
        if bool_decide (msc_attr_id cond = 0) || bool_decide (8 < msc_attr_id cond) then match_conds room conds
        else
          let? n := index (gr_num_attrs room) (msc_attr_id cond - 1) in
          if match_value n (msc_comp_value cond) (msc_comp_op cond) then match_conds room conds else Ok false
      else match_conds room conds
  end.

Definition gui_is_match (room : GuiRoom) (conds : list MatchingSearchCondition) (check_full : bool) : R bool :=
  if gr_quickmatch_room room || gr_stealth room then Ok false
  else if check_full && bool_decide (Z.of_nat (size (gr_members room)) = gr_total_slots room) then Ok false
  else match_conds room conds.

Fixpoint quickmatch_conds (room : GuiRoom) (conds : list MatchingSearchCondition) : R bool :=
  match conds with
  | [] => Ok true
  | cond :: conds =>
      if bool_decide (msc_attr_type cond ≠ SCE_NP_MATCHING_ATTR_TYPE_GAME_NUM)
         || bool_decide (msc_attr_id cond = 0) || bool_decide (8 < msc_attr_id cond)
         || (bool_decide (msc_comp_op cond ≠ SCE_NP_MATCHING_CONDITION_SEARCH_EQ)
             && bool_decide (msc_comp_op cond ≠ SCE_NP_MATCHING_CONDITION_SEARCH_NE))
      then quickmatch_conds room conds
      else
        let? n := index (gr_num_attrs room) (msc_attr_id cond - 1) in
        if match_value n (msc_comp_value cond) (msc_comp_op cond) then quickmatch_conds room conds else Ok false
  end.

Definition is_quickmatch (room : GuiRoom) (req : QuickMatchGuiRequest) : R bool :=
  if negb (gr_quickmatch_room room) || gr_stealth room
     || bool_decide (gr_total_slots room ≠ qm_available_num req) then Ok false
  else quickmatch_conds room (qm_conds req).
