(* ===== verification/GuiRoomManager.v ===== *)
(** * The lobby room manager (src/src/server/gui_room_manager.rs, [GuiRoomManager])

    Rooms keyed by a 28-character id (the title and a running number in
    hexadecimal), with the indexes by title and by user. *)

From S2P Require Import Prelude Protocol Messages RoomData GuiRoom.

Record GuiRoomManager := mkGuiRoomManager {
  gg_cur_room_id : Z;
  gg_rooms : gmap GuiRoomId GuiRoom;
  gg_comid_rooms : gmap ComId (gset GuiRoomId);
  gg_user_rooms : gmap Z (gset GuiRoomId);
}.
#[export] Instance gui_manager_eta : Eta GuiRoomManager := λ m,
  mkGuiRoomManager (gg_cur_room_id m) (gg_rooms m) (gg_comid_rooms m) (gg_user_rooms m).

Abbreviation GM := (M GuiRoomManager ErrorType).

Definition GuiRoomManager_new : GuiRoomManager := mkGuiRoomManager 1 ∅ ∅ ∅.

Definition pb_vec_to_room_id (pb_vec : bytes) : R GuiRoomId :=
  if bool_decide (length pb_vec = GUI_ROOM_ID_SIZE) then Ok pb_vec else Err Malformed.

(** [{:X}] of a digit. *)
Definition hex_digit (d : Z) : Z := if bool_decide (d < 10) then 0x30 + d else 0x41 + (d - 10).

(** [{:016X}]: sixteen digits, the most significant first. *)
Fixpoint hex_digits (n : nat) (v : Z) : bytes :=
  match n with
  | O => []
  | S n => hex_digits n (v / 16) ++ [hex_digit (v mod 16)]
  end.

Definition gui_room_id (com_id : ComId) (n : Z) : GuiRoomId :=
  bytes_of_string (com_id_to_string com_id) ++ hex_digits 16 n.

(** A title that does not print as twelve bytes makes the conversion fail. *)
Definition generate_room_id (com_id : ComId) : GM GuiRoomId :=
  do cur_room_id <- gets gg_cur_room_id;
  let room_id := gui_room_id com_id cur_room_id in
  if bool_decide (length room_id ≠ GUI_ROOM_ID_SIZE) then panic
  else
    do! modify (λ m, m <| gg_cur_room_id := wrap_u64 (cur_room_id + 1) |>);
    ret room_id.

Definition insert_room (com_id : ComId) (room_id : GuiRoomId) (room : GuiRoom) : GM unit :=
  modify (λ m, m <| gg_rooms ::= <[room_id := room]> |>
                 <| gg_comid_rooms ::= entry_insert com_id room_id |>).

(** The method runs on the stored room; the membership must be new. *)
Definition add_member_to_room (room_id : GuiRoomId) (cinfo : ClientInfo) (owner : bool) : GM unit :=
  do! zoom (λ m, gg_rooms m !! room_id) (λ room m, m <| gg_rooms ::= <[room_id := room]> |>)
        (modify (gui_add_member cinfo owner));
  do present <- gets (λ m, bool_decide (in_entry (gg_user_rooms m) (ci_user_id cinfo) room_id));
  do! modify (λ m, m <| gg_user_rooms ::= entry_insert (ci_user_id cinfo) room_id |>);
  if present : bool then panic else ret tt.

Definition get_gui_room (room_id : GuiRoomId) : GM GuiRoom :=
  asks (λ m, unwrap (gg_rooms m !! room_id)).

Definition member_ids (room : GuiRoom) : gset Z := dom (gr_members room).

Section manager.
Context `{!HashOrder}.

(** The first room of the title that satisfies [p], in the order of the set. *)
Fixpoint find_room (m : GuiRoomManager) (p : GuiRoom → R bool) (ids : list GuiRoomId) : R (option GuiRoomId) :=
  match ids with
  | [] => Ok None
  | id :: ids =>
      let? room := unwrap (gg_rooms m !! id) in
      let? b := p room in
      if b : bool then Ok (Some id) else find_room m p ids
  end.

Definition title_rooms (m : GuiRoomManager) (com_id : ComId) : list GuiRoomId :=
  match gg_comid_rooms m !! com_id with
  | Some ids => hash_iter ids
  | None => []
  end.

Definition quickmatch_gui (com_id : ComId) (req : QuickMatchGuiRequest) (cinfo : ClientInfo) :
  GM (MatchingGuiRoomId * option (gset Z * MatchingRoomStatus)) :=
  do found_room <- asks (λ m, find_room m (λ room, is_quickmatch room req) (title_rooms m com_id));
  do room_id <-
    match found_room with
    | Some found_room => do! add_member_to_room found_room cinfo false; ret found_room
    | None =>
        do room_id <- generate_room_id com_id;
        do room <- lift (from_quickmatch_protobuf req com_id);
        do! insert_room com_id room_id room;
        do! add_member_to_room room_id cinfo true;
        ret room_id
    end;
  do room <- get_gui_room room_id;
  do notification_infos <-
    (if bool_decide (Z.of_nat (size (gr_members room)) = gr_total_slots room) then
       let room := room <| gr_stealth := true |> in
       do! modify (λ m, m <| gg_rooms ::= <[room_id := room]> |>);
       ret (Some (member_ids room ∖ {[ci_user_id cinfo]}, gen_MatchingRoomStatus room room_id None None))
     else ret None);
  ret (mkMatchingGuiRoomId room_id, notification_infos).

Definition create_room_gui (com_id : ComId) (req : CreateRoomGuiRequest) (cinfo : ClientInfo) :
  GM MatchingRoomStatus :=
  do room_id <- generate_room_id com_id;
  do room <- lift (GuiRoom_from_protobuf req com_id);
  do! insert_room com_id room_id room;
  do! add_member_to_room room_id cinfo true;
  do room <- get_gui_room room_id;
  ret (gen_MatchingRoomStatus room room_id None None).

Definition join_room_gui (room_id : GuiRoomId) (cinfo : ClientInfo) :
  GM (MatchingRoomStatus * gset Z * MatchingRoomStatus) :=
  do room <- asks (λ m, ok_or RoomMissing (gg_rooms m !! room_id));
  if bool_decide (Z.of_nat (size (gr_members room)) = gr_total_slots room) then fail RoomFull
  else if bool_decide (is_Some (gr_members room !! ci_user_id cinfo)) then fail RoomAlreadyJoined
  else
    let ids := member_ids room in
    do! add_member_to_room room_id cinfo false;
    do room <- get_gui_room room_id;
    ret (gen_MatchingRoomStatus room room_id None None, ids,
         gen_MatchingRoomStatus room room_id (Some (ci_user_id cinfo)) None).

(** [assert!(comid_rooms.get_mut(..).unwrap().remove(..))] and
    [assert!(rooms.remove(..).is_some())]. *)
Definition remove_room (com_id : ComId) (room_id : GuiRoomId) : GM unit :=
  do ids <- asks (λ m, unwrap (gg_comid_rooms m !! com_id));
  do! modify (λ m, m <| gg_comid_rooms ::= entry_remove com_id room_id |>);
  do! (if bool_decide (room_id ∈ ids) then ret tt else panic);
  do present <- gets (λ m, bool_decide (is_Some (gg_rooms m !! room_id)));
  do! modify (λ m, m <| gg_rooms ::= delete room_id |>);
  if present : bool then ret tt else panic.

(** [user_rooms.get_mut(&user_id).unwrap().remove(room_id)]. *)
Definition forget_user (room_id : GuiRoomId) (user_id : Z) : GM unit :=
  do _ <- asks (λ m, unwrap (gg_user_rooms m !! user_id));
  modify (λ m, m <| gg_user_rooms ::= entry_remove user_id room_id |>).

Definition leave_room_gui (rng : nat) (room_id : GuiRoomId) (cinfo : ClientInfo) :
  GM (MatchingRoomStatus * gset Z * list (Notif.NotificationType * MatchingRoomStatus)) :=
  do room <- asks (λ m, ok_or RoomMissing (gg_rooms m !! room_id));
  match gr_members room !! ci_user_id cinfo with
  | None => fail NotFound
  | Some member_left =>
      let room := room <| gr_members ::= delete (ci_user_id cinfo) |> in
      do! modify (λ m, m <| gg_rooms ::= <[room_id := room]> |>);
      do! forget_user room_id (ci_user_id cinfo);
      let set_user_ids := member_ids room in
      let reply := gen_MatchingRoomStatus room room_id (Some 0) None in
      if bool_decide (gr_members room = ∅) then
        do! remove_room (gr_communication_id room) room_id;
        ret (reply, ∅, [])
      else if gm_owner member_left then
        let member_left := member_left <| gm_owner := false |> in
        if negb (gr_privilege_grant room) then
          do! for_each (forget_user room_id) (hash_iter set_user_ids);
          let notif := gen_MatchingRoomStatus room room_id (Some 0) None in
          do! remove_room (gr_communication_id room) room_id;
          ret (reply, set_user_ids, [(Notif.RoomDisappearedGUI, notif)])
        else
          let random_user := gen_range rng (size (gr_members room)) in
          do new_owner <- lift (unwrap (hash_map_iter (gr_members room) !! random_user));
          let room := room <| gr_members ::= alter (λ m, m <| gm_owner := true |>) new_owner.1 |> in
          do! modify (λ m, m <| gg_rooms ::= <[room_id := room]> |>);
          let changed := gen_MatchingRoomStatus room room_id (Some new_owner.1) (Some member_left) in
          let left := gen_MatchingRoomStatus room room_id (Some 0) (Some member_left) in
          ret (reply, set_user_ids, [(Notif.RoomOwnerChangedGUI, changed); (Notif.MemberLeftRoomGUI, left)])
      else
        let left := gen_MatchingRoomStatus room room_id (Some 0) (Some member_left) in
        ret (reply, set_user_ids, [(Notif.MemberLeftRoomGUI, left)])
  end.

(** ** Lists and searches *)

Definition range_start (req : GetRoomListGuiRequest) : Z :=
  if bool_decide (grl_range_start req = 0) then 1 else grl_range_start req.

Definition range_max (req : GetRoomListGuiRequest) : Z :=
  if bool_decide (grl_range_max req = 0) || bool_decide (20 < grl_range_max req) then 20
  else grl_range_max req.

Definition matching_rooms (m : GuiRoomManager) (p : GuiRoom → R bool) (ids : list GuiRoomId) :
  R (list (GuiRoomId * GuiRoom)) :=
  res_fold (λ acc id,
    let? room := unwrap (gg_rooms m !! id) in
    let? b := p room in
    Ok (if b : bool then acc ++ [(id, room)] else acc)) [] ids.

Definition get_room_list_gui (m : GuiRoomManager) (com_id : ComId) (req : GetRoomListGuiRequest) :
  R MatchingRoomList :=
  let? matching := matching_rooms m (λ room, gui_is_match room (grl_conds req) false) (title_rooms m com_id) in
  let? rooms :=
    if bool_decide (range_start req ≤ Z.of_nat (length matching)) then
      let start := Z.to_nat (range_start req - 1) in
      let num_to_get := Nat.min (length matching - start) (Z.to_nat (range_max req)) in
      res_map_list (λ '(id, room), gen_MatchingRoom room id (parsed_attrs (grl_attrs req)))
        (take num_to_get (drop start matching))
    else Ok [] in
  Ok (mkMatchingRoomList (range_start req) (wrap_u32 (Z.of_nat (length matching))) rooms).

Definition search_join_gui (com_id : ComId) (req : SearchJoinRoomGuiRequest) (cinfo : ClientInfo) :
  GM (MatchingSearchJoinRoomInfo * gset Z * MatchingRoomStatus) :=
  do found_room <- asks (λ m, find_room m (λ room, gui_is_match room (sj_conds req) true) (title_rooms m com_id));
  match found_room with
  | None => fail NotFound
  | Some room_id =>
      do room <- get_gui_room room_id;
      let ids := member_ids room in
      do! add_member_to_room room_id cinfo false;
      do room <- get_gui_room room_id;
      do reply <- lift (gen_MatchingSearchJoinRoomInfo room room_id None None (sj_attrs req));
      ret (reply, ids, gen_MatchingRoomStatus room room_id (Some (ci_user_id cinfo)) None)
  end.
End manager.

Definition gui_get_rooms_by_user (m : GuiRoomManager) (user : Z) : option (gset GuiRoomId) :=
  gg_user_rooms m !! user.

(** ** Room settings *)

Definition get_room_and_check_ownership (m : GuiRoomManager) (room_id : GuiRoomId) (req_user_id : Z) : R GuiRoom :=
  let? room := ok_or RoomMissing (gg_rooms m !! room_id) in
  let? member := ok_or NotFound (gr_members room !! req_user_id) in
  if negb (gm_owner member) then Err Unauthorized else Ok room.

Definition set_search_flag (room_id : GuiRoomId) (stealth : bool) (req_user_id : Z) : GM unit :=
  do room <- asks (λ m, get_room_and_check_ownership m room_id req_user_id);
  if negb (gr_quickmatch_room room)
  then modify (λ m, m <| gg_rooms ::= <[room_id := room <| gr_stealth := stealth |>]> |>)
  else ret tt.

Definition get_search_flag (m : GuiRoomManager) (room_id : GuiRoomId) : R MatchingRoom :=
  let? room := ok_or NotFound (gg_rooms m !! room_id) in
  gen_MatchingRoom room room_id
    [(SCE_NP_MATCHING_ATTR_TYPE_BASIC_NUM, SCE_NP_MATCHING_ROOM_ATTR_ID_ROOM_SEARCH_FLAG)].

Definition set_room_info_gui (room_id : GuiRoomId) (attrs : list MatchingAttr) (req_user_id : Z) : GM unit :=
  do room <- asks (λ m, get_room_and_check_ownership m room_id req_user_id);
  do room <- lift (res_fold set_attr room attrs);
  modify (λ m, m <| gg_rooms ::= <[room_id := room]> |>).

Definition get_room_info_gui (m : GuiRoomManager) (room_id : GuiRoomId) (attrs : list MatchingAttr) : R MatchingRoom :=
  let? room := ok_or RoomMissing (gg_rooms m !! room_id) in
  gen_MatchingRoom room room_id (parsed_attrs attrs).
