(* ===== verification/GuiInv.v ===== *)
(** * What the lobby room manager promises

    Room ids are unique, the indexes by title and user are exact, a room always
    has members and at most one owner (exactly one as long as no operation
    panicked), and leaving never panics. *)

From S2P Require Import Prelude Protocol Messages StreamExtractor RoomData RoomInv GuiRoom GuiRoomManager.

(** ** Room ids *)

Lemma hex_digit_inj a b : 0 ≤ a < 16 → 0 ≤ b < 16 → hex_digit a = hex_digit b → a = b.
Proof. unfold hex_digit. intros. repeat case_bool_decide; lia. Qed.

Lemma length_hex_digits n v : length (hex_digits n v) = n.
Proof. revert v. induction n; intros v; simpl; [done|]. rewrite length_app, IHn. simpl. lia. Qed.

Lemma hex_digits_inj n v w :
  0 ≤ v < 16 ^ Z.of_nat n → 0 ≤ w < 16 ^ Z.of_nat n → hex_digits n v = hex_digits n w → v = w.
Proof.
  revert v w. induction n as [|n IH]; intros v w Hv Hw; cbn [hex_digits].
  - change (16 ^ Z.of_nat 0) with 1 in *. lia.
  - rewrite Nat2Z.inj_succ, Z.pow_succ_r in Hv, Hw by lia.
    intros [H1 H2]%app_inj_2; [|done]. injection H2 as H2.
    apply IH in H1; [|split; [apply Z.div_pos; lia|apply Z.div_lt_upper_bound; lia]..].
    apply hex_digit_inj in H2; [|apply Z.mod_pos_bound; lia..].
    rewrite (Z.div_mod v 16), (Z.div_mod w 16) by lia. congruence.
Qed.

(** Titles that print as twelve characters; every id [get_com_id] accepts does. *)
Definition com_ascii (c : ComId) : Prop := length c = COMMUNICATION_ID_SIZE ∧ Forall (λ b, 0 ≤ b < 128) c.

Lemma bytes_of_string_of_bytes bs : Forall is_u8 bs → bytes_of_string (string_of_bytes bs) = bs.
Proof.
  unfold bytes_of_string, string_of_bytes. rewrite String.list_ascii_of_string_of_list_ascii.
  induction 1 as [|b bs Hb _ IH]; [done|]. cbn. f_equal; [|exact IH].
  unfold is_u8 in Hb. rewrite Ascii.nat_ascii_embedding; lia.
Qed.

Lemma com_ascii_string c : com_ascii c → bytes_of_string (com_id_to_string c) = c.
Proof.
  intros [_ Hc]. unfold com_id_to_string, string_of_chars.
  assert (c ≫= utf8_of_u8 = c) as ->.
  { induction Hc as [|b c Hb _ IH]; [done|]. cbn. fold (mbind (M:=list) utf8_of_u8 c).
    unfold utf8_of_u8 at 1. rewrite bool_decide_eq_true_2 by lia. simpl. f_equal. exact IH. }
  apply bytes_of_string_of_bytes. eapply Forall_impl; [exact Hc|]. unfold is_u8. lia.
Qed.

Lemma gui_room_id_eq c n : com_ascii c → gui_room_id c n = c ++ hex_digits 16 n.
Proof. intros Hc. unfold gui_room_id. by rewrite com_ascii_string. Qed.

Lemma gui_room_id_inj c n c' n' :
  com_ascii c → com_ascii c' → 0 ≤ n < 2 ^ 64 → 0 ≤ n' < 2 ^ 64 →
  gui_room_id c n = gui_room_id c' n' → c = c' ∧ n = n'.
Proof.
  intros Hc Hc' Hn Hn'. rewrite !gui_room_id_eq by done.
  intros [-> Hh]%app_inj_2; [|by rewrite !length_hex_digits]. split; [done|].
  apply (hex_digits_inj 16); done.
Qed.

(** ** The invariant *)

Definition owner_of (room : GuiRoom) (uid : Z) : Prop :=
  ∃ m, gr_members room !! uid = Some m ∧ gm_owner m = true.

(** [strict] asks for an owner. *)
Record gui_room_ok (strict : bool) (room : GuiRoom) : Prop := {
  gk_num : length (gr_num_attrs room) = 16%nat;
  gk_big : length (gr_big_bin_attrs room) = 2%nat;
  gk_small : length (gr_small_bin_attrs room) = 14%nat;
  gk_members : gr_members room ≠ ∅;
  gk_one_owner : ∀ u1 u2, owner_of room u1 → owner_of room u2 → u1 = u2;
  gk_owner : strict = true → ∃ u, owner_of room u;
}.

Record gui_inv (strict : bool) (m : GuiRoomManager) : Prop := {
  gi_room : ∀ id room, gg_rooms m !! id = Some room →
    gui_room_ok strict room ∧ com_ascii (gr_communication_id room) ∧
    ∃ n, 1 ≤ n < gg_cur_room_id m ∧ id = gui_room_id (gr_communication_id room) n;
  gi_com : ∀ c id, in_entry (gg_comid_rooms m) c id ↔
    ∃ room, gg_rooms m !! id = Some room ∧ gr_communication_id room = c;
  gi_user : ∀ uid id, in_entry (gg_user_rooms m) uid id ↔
    ∃ room, gg_rooms m !! id = Some room ∧ uid ∈ member_ids room;
  gi_cur : 1 ≤ gg_cur_room_id m < 2 ^ 64;
}.

Lemma gui_inv_new : gui_inv true GuiRoomManager_new.
Proof.
  split; simpl; try (intros; rewrite ?lookup_empty in *; done).
  all: intros; split; [intros []%in_entry_empty|intros (? & ? & _); simplify_map_eq].
Qed.

Lemma gui_room_ok_weaken b room : gui_room_ok b room → gui_room_ok false room.
Proof. intros []. by split. Qed.

Lemma gui_inv_weaken b m : gui_inv b m → gui_inv false m.
Proof.
  intros [Hr Hc Hu Hn]. split; try done. intros id room Hroom.
  destruct (Hr _ _ Hroom) as (Hok & ? & ?). split; [by eapply gui_room_ok_weaken|done].
Qed.

(** ** Updates of the manager *)

(** Storing [room'] in the place of [room], with the users of [room'] registered;
    the two rooms have the same title. *)
Lemma gui_put_room b m id room room' users' :
  gui_inv b m → gg_rooms m !! id = Some room → gui_room_ok b room' →
  gr_communication_id room' = gr_communication_id room →
  (∀ uid id', in_entry users' uid id' ↔
     (id' ≠ id ∧ in_entry (gg_user_rooms m) uid id') ∨ (id' = id ∧ uid ∈ member_ids room')) →
  gui_inv b (m <| gg_rooms ::= <[id := room']> |> <| gg_user_rooms := users' |>).
Proof.
  intros [Hr Hc Hu Hn] Hroom Hok' Hcom Husers. destruct (Hr _ _ Hroom) as (_ & Ha & Hid).
  split; simpl.
  - intros id0 r0 [[<- <-]|[_ Hr0]]%lookup_insert_Some; [|by apply Hr]. by rewrite Hcom.
  - intros c0 id0. rewrite Hc. symmetry. eapply exists_insert_same; [done|]. by rewrite Hcom.
  - intros uid id0. rewrite Husers, exists_insert, Hu.
    split; [intros [[? ?]|[-> ?]]|intros [[<- ?]|[? ?]]]; [by right|by left|by right|left; auto].
  - done.
Qed.

(** Adding a room under a fresh id. *)
Lemma gui_add_room b m c n room users' :
  gui_inv b m → com_ascii c → n = gg_cur_room_id m → n + 1 < 2 ^ 64 →
  gui_room_ok b room → gr_communication_id room = c →
  (∀ uid id', in_entry users' uid id' ↔
     in_entry (gg_user_rooms m) uid id' ∨ (id' = gui_room_id c n ∧ uid ∈ member_ids room)) →
  gg_rooms m !! gui_room_id c n = None ∧
  gui_inv b (m <| gg_cur_room_id := n + 1 |> <| gg_rooms ::= <[gui_room_id c n := room]> |>
               <| gg_comid_rooms ::= entry_insert c (gui_room_id c n) |> <| gg_user_rooms := users' |>).
Proof.
  intros [Hr Hc Hu Hn] Ha -> Hlt Hok Hcom Husers.
  set (id := gui_room_id c (gg_cur_room_id m)) in *.
  assert (gg_rooms m !! id = None) as Hfresh.
  { apply eq_None_not_Some. intros [r Hr0]. destruct (Hr _ _ Hr0) as (_ & Ha0 & n0 & Hn0 & Heq).
    apply gui_room_id_inj in Heq as [_ ?]; [lia|done|done|lia|lia]. }
  split; [done|].
  assert (∀ (P : GuiRoom → Prop) id0, (∃ r, gg_rooms m !! id0 = Some r ∧ P r) → id ≠ id0) as Hne.
  { intros P id0 (r & Hr0 & _) <-. congruence. }
  split; simpl.
  - intros id0 r0 [[<- <-]|[_ Hr0]]%lookup_insert_Some.
    + rewrite Hcom. split; [done|]. split; [done|]. exists (gg_cur_room_id m). split; [lia|done].
    + destruct (Hr _ _ Hr0) as (? & ? & n0 & ? & ?). split; [done|]. split; [done|]. exists n0. split; [lia|done].
  - intros c0 id0. rewrite in_entry_insert, Hc, exists_insert, Hcom. split.
    + intros [[<- <-]|Hex]; [by left|right; split; [exact (Hne _ _ Hex)|done]].
    + intros [[<- <-]|[_ ?]]; [by left|by right].
  - intros uid id0. rewrite Husers, Hu, exists_insert. split.
    + intros [Hex|[-> ?]]; [right; split; [exact (Hne _ _ Hex)|done]|by left].
    + intros [[<- ?]|[_ ?]]; [by right|by left].
  - lia.
Qed.

(** Removing a room. *)
Lemma gui_delete_room b m id room coms' users' :
  gui_inv b m → gg_rooms m !! id = Some room →
  (∀ c id', in_entry coms' c id' ↔ id' ≠ id ∧ in_entry (gg_comid_rooms m) c id') →
  (∀ uid id', in_entry users' uid id' ↔ id' ≠ id ∧ in_entry (gg_user_rooms m) uid id') →
  gui_inv b (m <| gg_rooms ::= delete id |> <| gg_comid_rooms := coms' |> <| gg_user_rooms := users' |>).
Proof.
  intros [Hr Hc Hu Hn] Hroom Hcoms Husers. split; simpl.
  - intros id0 r0 [_ Hr0]%lookup_delete_Some. by apply Hr.
  - intros c0 id0. rewrite Hcoms, exists_delete, Hc. naive_solver.
  - intros uid id0. rewrite Husers, exists_delete, Hu. naive_solver.
  - done.
Qed.
