(* ===== verification/GuiMachine.v ===== *)
(** * The operations of the lobby room manager

    Each operation keeps the manager's invariant, whatever its outcome; the
    manager as a state machine; and the contract of each operation. *)

From S2P Require Import Prelude Protocol Messages StreamExtractor RoomData RoomInv GuiRoom GuiRoomManager.
From S2P Require Import GuiInv.

(** ** Rooms *)

Record arrays_ok (room : GuiRoom) : Prop := {
  ao_num : length (gr_num_attrs room) = 16%nat;
  ao_big : length (gr_big_bin_attrs room) = 2%nat;
  ao_small : length (gr_small_bin_attrs room) = 14%nat;
}.

(** What attribute updates leave alone. *)
Definition gui_core (room : GuiRoom) :=
  (gr_total_slots room, gr_private_slots room, gr_privilege_grant room, gr_stealth room,
   gr_members room, gr_communication_id room, gr_quickmatch_room room).

Lemma set_attr_total room a :
  arrays_ok room → ∃ room', set_attr room a = Ok room' ∧ arrays_ok room' ∧ gui_core room' = gui_core room.
Proof.
  intros [Hn Hb Hs]. unfold set_attr.
  repeat case_bool_decide; try (eexists; split; [reflexivity|]; split; [by split|done]);
    rewrite index_set_Ok by (rewrite ?Hn, ?Hb, ?Hs; lia); simpl; eexists; (split; [reflexivity|]);
    (split; [split; simpl; rewrite ?length_insert; done|done]).
Qed.

Lemma quickmatch_cond_total room a :
  arrays_ok room → ∃ room', quickmatch_cond room a = Ok room' ∧ arrays_ok room' ∧ gui_core room' = gui_core room.
Proof.
  intros [Hn Hb Hs]. unfold quickmatch_cond.
  repeat case_bool_decide; try (eexists; split; [reflexivity|]; split; [by split|done]);
    rewrite index_set_Ok by (rewrite ?Hn; lia); simpl; eexists; (split; [reflexivity|]);
    (split; [split; simpl; rewrite ?length_insert; done|done]).
Qed.

Lemma attr_fold_total {A} (f : GuiRoom → A → R GuiRoom) room xs :
  (∀ room a, arrays_ok room → ∃ room', f room a = Ok room' ∧ arrays_ok room' ∧ gui_core room' = gui_core room) →
  arrays_ok room → ∃ room', res_fold f room xs = Ok room' ∧ arrays_ok room' ∧ gui_core room' = gui_core room.
Proof.
  intros Hf. revert room. induction xs as [|x xs IH]; intros room Ha; simpl; [eauto|].
  destruct (Hf room x Ha) as (r1 & -> & Ha1 & Hc1). cbn [res_bind].
  destruct (IH r1 Ha1) as (r2 & -> & Ha2 & Hc2). exists r2. rewrite Hc2. done.
Qed.

Lemma GuiRoom_from_protobuf_total pb c :
  ∃ room, GuiRoom_from_protobuf pb c = Ok room ∧ arrays_ok room ∧ gr_members room = ∅ ∧
    gr_communication_id room = c ∧ gr_quickmatch_room room = false.
Proof.
  unfold GuiRoom_from_protobuf.
  match goal with |- context [res_fold set_attr ?r ?xs] =>
    destruct (attr_fold_total set_attr r xs set_attr_total) as (room & -> & Ha & [= _ _ _ _ ? ? ?]) end;
    [by split|]. exists room. done.
Qed.

Lemma from_quickmatch_protobuf_total pb c :
  ∃ room, from_quickmatch_protobuf pb c = Ok room ∧ arrays_ok room ∧ gr_members room = ∅ ∧
    gr_communication_id room = c ∧ gr_quickmatch_room room = true.
Proof.
  unfold from_quickmatch_protobuf.
  match goal with |- context [res_fold quickmatch_cond ?r ?xs] =>
    destruct (attr_fold_total quickmatch_cond r xs quickmatch_cond_total) as (room & -> & Ha & [= _ _ _ _ ? ? ?]) end;
    [by split|]. exists room. done.
Qed.

Lemma gui_room_ok_core b room room' :
  gui_room_ok b room → arrays_ok room' → gr_members room' = gr_members room → gui_room_ok b room'.
Proof.
  intros [_ _ _ Hm H1 Ho] [? ? ?] Heq. split; try done; [by rewrite Heq|..].
  - unfold owner_of. rewrite Heq. exact H1.
  - unfold owner_of. rewrite Heq. exact Ho.
Qed.

Lemma gui_room_ok_arrays b room : gui_room_ok b room → arrays_ok room.
Proof. intros []. by split. Qed.

(** The creator of a new room is its owner. *)
Lemma first_member_ok b cinfo room :
  arrays_ok room → gr_members room = ∅ → gui_room_ok b (gui_add_member cinfo true room).
Proof.
  intros [? ? ?] Hm. split; simpl; try done; rewrite ?Hm.
  - intros H. by apply insert_non_empty in H.
  - unfold owner_of. simpl. rewrite Hm. intros u1 u2 (m1 & H1 & _) (m2 & H2 & _).
    apply lookup_insert_Some in H1 as [[<- _]|[_ H1]]; [|by rewrite lookup_empty in H1].
    apply lookup_insert_Some in H2 as [[<- _]|[_ H2]]; [done|by rewrite lookup_empty in H2].
  - intros _. exists (ci_user_id cinfo), (from_clientinfo cinfo true). simpl. by rewrite Hm, lookup_insert_eq.
Qed.

(** A further member never is an owner; it may replace one that was. *)
Lemma next_member_ok b cinfo room :
  gui_room_ok b room →
  gui_room_ok (b && bool_decide (ci_user_id cinfo ∉ member_ids room)) (gui_add_member cinfo false room).
Proof.
  intros [? ? ? Hm H1 Ho].
  assert (∀ u, owner_of (gui_add_member cinfo false room) u ↔ owner_of room u ∧ u ≠ ci_user_id cinfo) as Hown.
  { intros u. unfold owner_of. simpl. setoid_rewrite lookup_insert_Some. naive_solver. }
  split; simpl; try done.
  - intros H'. by apply insert_non_empty in H'.
  - intros u1 u2 [? _]%Hown [? _]%Hown. auto.
  - intros Hb. bool_hyps. destruct (Ho) as [u Hu]; [done|]. exists u. apply Hown. split; [done|].
    intros ->. destruct Hu as (mm & Hmm & _).
    match goal with H : _ ∉ _ |- _ => apply H end. unfold member_ids. apply elem_of_dom. eauto.
Qed.

Lemma member_ids_add cinfo o room :
  member_ids (gui_add_member cinfo o room) = {[ci_user_id cinfo]} ∪ member_ids room.
Proof. unfold member_ids, gui_add_member. simpl. apply dom_insert_L. Qed.

(** ** Building blocks *)

Lemma generate_room_id_spec b m c Q :
  gui_inv b m → com_ascii c → gg_cur_room_id m + 1 < 2 ^ 64 →
  Q (Ok (gui_room_id c (gg_cur_room_id m))) (m <| gg_cur_room_id := gg_cur_room_id m + 1 |>) →
  wp (generate_room_id c) m Q.
Proof.
  intros Hi Hc Hlt HQ. unfold generate_room_id. wp_step. wp_step.
  rewrite bool_decide_eq_false_2.
  - wp_step. wp_step. wp_step. unfold wrap_u64. rewrite Z.mod_small by (pose proof (gi_cur _ _ Hi); lia). done.
  - intros Hne. apply Hne. rewrite gui_room_id_eq, length_app, length_hex_digits by done.
    by rewrite (proj1 Hc).
Qed.

Lemma add_member_to_room_spec m id room cinfo o Q :
  gg_rooms m !! id = Some room →
  Q (if bool_decide (in_entry (gg_user_rooms m) (ci_user_id cinfo) id) then Panic else Ok tt)
    (m <| gg_rooms ::= <[id := gui_add_member cinfo o room]> |>
       <| gg_user_rooms ::= entry_insert (ci_user_id cinfo) id |>) →
  wp (add_member_to_room id cinfo o) m Q.
Proof.
  intros Hr HQ. unfold add_member_to_room. wp_step. eapply wp_zoom; [exact Hr|]. wp_step. wp_step. wp_step.
  wp_step. wp_step. simpl. case_bool_decide; exact HQ.
Qed.

Lemma in_entry_member b m id room uid :
  gui_inv b m → gg_rooms m !! id = Some room → in_entry (gg_user_rooms m) uid id ↔ uid ∈ member_ids room.
Proof. intros Hi Hr. rewrite (gi_user _ _ Hi). split; [|eauto]. intros (r & Hr' & ?). congruence. Qed.

(** A user enters a stored room (again). *)
Lemma gui_enter b m id room cinfo :
  gui_inv b m → gg_rooms m !! id = Some room →
  gui_inv (b && bool_decide (ci_user_id cinfo ∉ member_ids room))
    (m <| gg_rooms ::= <[id := gui_add_member cinfo false room]> |>
       <| gg_user_rooms ::= entry_insert (ci_user_id cinfo) id |>).
Proof.
  intros Hi Hr. destruct (gi_room _ _ Hi _ _ Hr) as (Hok & _).
  assert (gui_inv (b && bool_decide (ci_user_id cinfo ∉ member_ids room)) m) as Hi'.
  { destruct (bool_decide _); [by rewrite andb_true_r|]. rewrite andb_false_r. by eapply gui_inv_weaken. }
  apply (gui_put_room _ m id room _ _ Hi' Hr); [by apply next_member_ok|done|].
  intros uid id'. rewrite in_entry_insert, member_ids_add, elem_of_union, elem_of_singleton.
  rewrite <- (in_entry_member _ _ _ _ _ Hi Hr). destruct (decide (id' = id)); naive_solver.
Qed.

(** A new room with its creator. *)
Lemma gui_open b m c room cinfo :
  gui_inv b m → com_ascii c → gg_cur_room_id m + 1 < 2 ^ 64 →
  arrays_ok room → gr_members room = ∅ → gr_communication_id room = c →
  let id := gui_room_id c (gg_cur_room_id m) in
  gg_rooms m !! id = None ∧ ¬ in_entry (gg_user_rooms m) (ci_user_id cinfo) id ∧
  gui_inv b (m <| gg_cur_room_id := gg_cur_room_id m + 1 |>
               <| gg_rooms ::= <[id := gui_add_member cinfo true room]> |>
               <| gg_comid_rooms ::= entry_insert c id |>
               <| gg_user_rooms ::= entry_insert (ci_user_id cinfo) id |>).
Proof.
  intros Hi Hc Hlt Ha Hm Hcom id.
  destruct (gui_add_room b m c (gg_cur_room_id m) (gui_add_member cinfo true room)
    (entry_insert (ci_user_id cinfo) id (gg_user_rooms m)) Hi Hc eq_refl Hlt) as [Hfresh Hi'].
  - by apply first_member_ok.
  - done.
  - intros uid id'. rewrite in_entry_insert, member_ids_add. unfold member_ids. rewrite Hm. fold id. set_solver.
  - split; [done|]. split; [|exact Hi'].
    rewrite (gi_user _ _ Hi). fold id in Hfresh. intros (r & Hr & _). congruence.
Qed.

(** ** Operations *)

Section operations.
Context `{!HashOrder}.

Definition create_gui_post (b : bool) (c : ComId) (cinfo : ClientInfo) (m : GuiRoomManager)
  (r : R MatchingRoomStatus) (m' : GuiRoomManager) : Prop :=
  gui_inv b m' ∧
  match r with
  | Ok status => let id := gui_room_id c (gg_cur_room_id m) in
      mrs_id status = id ∧ gg_rooms m !! id = None ∧
      ∃ room, gg_rooms m' = <[id := room]> (gg_rooms m) ∧ gr_communication_id room = c ∧
        gr_members room = {[ci_user_id cinfo := from_clientinfo cinfo true]}
  | _ => False
  end.

Lemma create_room_gui_spec b m c req cinfo :
  gui_inv b m → com_ascii c → gg_cur_room_id m + 1 < 2 ^ 64 →
  wp (create_room_gui c req cinfo) m (create_gui_post b c cinfo m).
Proof.
  intros Hi Hc Hlt. unfold create_room_gui. wp_step. eapply generate_room_id_spec; [done..|]. cbn beta iota.
  wp_step. wp_step. destruct (GuiRoom_from_protobuf_total req c) as (room & -> & Ha & Hm & Hcom & _).
  wp_step. unfold insert_room. wp_step.
  destruct (gui_open b m c room cinfo Hi Hc Hlt Ha Hm Hcom) as (Hfresh & Hnew & Hi').
  set (id := gui_room_id c (gg_cur_room_id m)) in *.
  wp_step. eapply (add_member_to_room_spec _ id room); [apply lookup_insert_eq|]. cbn beta iota.
  rewrite bool_decide_eq_false_2 by exact Hnew.
  wp_step. unfold get_gui_room. wp_step. simpl. rewrite lookup_insert_eq. cbn [unwrap]. wp_step.
  rewrite insert_insert_eq. split; [exact Hi'|]. split; [done|]. split; [done|].
  exists (gui_add_member cinfo true room). split; [done|]. split; [done|].
  simpl. by rewrite Hm, insert_empty.
Qed.

Definition join_gui_post (b : bool) (id : GuiRoomId) (cinfo : ClientInfo) (m : GuiRoomManager)
  (r : R (MatchingRoomStatus * gset Z * MatchingRoomStatus)) (m' : GuiRoomManager) : Prop :=
  gui_inv b m' ∧
  match r with
  | Ok (_, ids, _) => ∃ room, gg_rooms m !! id = Some room ∧ ids = member_ids room ∧
      Z.of_nat (size (gr_members room)) ≠ gr_total_slots room ∧ ci_user_id cinfo ∉ ids ∧
      gg_rooms m' = <[id := gui_add_member cinfo false room]> (gg_rooms m)
  | Err e => m' = m ∧
      match gg_rooms m !! id with
      | None => e = RoomMissing
      | Some room => (e = RoomFull ∧ Z.of_nat (size (gr_members room)) = gr_total_slots room) ∨
                     (e = RoomAlreadyJoined ∧ ci_user_id cinfo ∈ member_ids room)
      end
  | Panic => False
  end.

Lemma join_room_gui_spec b m id cinfo :
  gui_inv b m → wp (join_room_gui id cinfo) m (join_gui_post b id cinfo m).
Proof.
  intros Hi. unfold join_room_gui. wp_step. wp_step. unfold join_gui_post.
  destruct (gg_rooms m !! id) as [room|] eqn:Hr; cbn [ok_or]; [|done].
  case_bool_decide as Hfull; [wp_step; split; [done|]; auto|].
  case_bool_decide as Hin.
  { wp_step. split; [done|]. split; [done|]. right. split; [done|]. by apply elem_of_dom. }
  assert (ci_user_id cinfo ∉ member_ids room) as Hnew by (unfold member_ids; by rewrite elem_of_dom).
  wp_step. eapply add_member_to_room_spec; [done|].
  rewrite bool_decide_eq_false_2 by by rewrite (in_entry_member _ _ _ _ _ Hi Hr).
  wp_step. unfold get_gui_room. wp_step. simpl. rewrite lookup_insert_eq. cbn [unwrap]. wp_step.
  pose proof (gui_enter b m id room cinfo Hi Hr) as Hi'. rewrite bool_decide_eq_true_2, andb_true_r in Hi' by done.
  split; [exact Hi'|]. exists room. done.
Qed.

(** ** Leaving *)

Lemma remove_room_spec m c id room Q :
  in_entry (gg_comid_rooms m) c id → gg_rooms m !! id = Some room →
  Q (Ok tt) (m <| gg_comid_rooms ::= entry_remove c id |> <| gg_rooms ::= delete id |>) →
  wp (remove_room c id) m Q.
Proof.
  intros Hin Hr HQ. unfold remove_room. destruct (in_entry_is_Some _ _ _ Hin) as [ids Hids].
  wp_step. wp_step. rewrite Hids. cbn [unwrap]. wp_step. wp_step. wp_step.
  rewrite bool_decide_eq_true_2 by (unfold in_entry in Hin; by rewrite Hids in Hin).
  wp_step. wp_step. wp_step. simpl. rewrite (bool_decide_eq_true_2 (is_Some _)) by (rewrite Hr; eauto).
  wp_step. wp_step. done.
Qed.

Lemma forget_user_spec m id uid Q :
  is_Some (gg_user_rooms m !! uid) →
  Q (Ok tt) (m <| gg_user_rooms ::= entry_remove uid id |>) → wp (forget_user id uid) m Q.
Proof.
  intros [s Hs] HQ. unfold forget_user. wp_step. wp_step. rewrite Hs. cbn [unwrap]. by wp_step.
Qed.

(** Unregistering a list of users from a room. *)
Lemma forget_users_spec id uids m Q :
  (∀ u, u ∈ uids → is_Some (gg_user_rooms m !! u)) →
  (∀ users', (∀ u id', in_entry users' u id' ↔
      in_entry (gg_user_rooms m) u id' ∧ ¬ (id' = id ∧ u ∈ uids)) →
    Q (Ok tt) (m <| gg_user_rooms := users' |>)) →
  wp (for_each (forget_user id) uids) m Q.
Proof.
  revert m. induction uids as [|u uids IH]; intros m Hs HQ; cbn [for_each].
  - wp_step. assert (m = m <| gg_user_rooms := gg_user_rooms m |>) as E by by destruct m.
    rewrite E. apply HQ. set_solver.
  - wp_step. apply forget_user_spec; [apply Hs; set_solver|]. apply IH.
    + intros u' Hu'. simpl. unfold entry_remove. rewrite lookup_alter. case_decide.
      * subst. destruct (Hs u') as [s Hs']; [set_solver|]. rewrite Hs'. simpl. eauto.
      * apply Hs. set_solver.
    + intros users' Hu'. apply HQ. intros u' id'. rewrite Hu'. simpl. rewrite in_entry_remove. set_solver.
Qed.

(** The members left after a departure. *)
Definition without (uid : Z) (room : GuiRoom) : GuiRoom := room <| gr_members ::= delete uid |>.

Lemma member_ids_without uid room : member_ids (without uid room) = member_ids room ∖ {[uid]}.
Proof. unfold member_ids, without. simpl. apply dom_delete_L. Qed.

Definition leave_gui_post (b : bool) (id : GuiRoomId) (uid : Z) (m : GuiRoomManager)
  (r : R (MatchingRoomStatus * gset Z * list (Notif.NotificationType * MatchingRoomStatus)))
  (m' : GuiRoomManager) : Prop :=
  gui_inv b m' ∧
  match r with
  | Ok (_, ids, _) => ∃ room mem, gg_rooms m !! id = Some room ∧ gr_members room !! uid = Some mem ∧
      ids = member_ids room ∖ {[uid]} ∧
      ¬ in_entry (gg_user_rooms m') uid id ∧
      (gg_rooms m' !! id = None ↔ ids = ∅ ∨ (gm_owner mem = true ∧ gr_privilege_grant room = false)) ∧
      (∀ id', id' ≠ id → gg_rooms m' !! id' = gg_rooms m !! id')
  | Err e => m' = m ∧ ¬ in_entry (gg_user_rooms m) uid id
  | Panic => False
  end.

(** The room is gone, with every registration of it. *)
Lemma gui_close b m id room users' :
  gui_inv b m → gg_rooms m !! id = Some room →
  (∀ uid id', in_entry users' uid id' ↔ id' ≠ id ∧ in_entry (gg_user_rooms m) uid id') →
  gui_inv b (m <| gg_rooms ::= delete id |>
               <| gg_comid_rooms ::= entry_remove (gr_communication_id room) id |>
               <| gg_user_rooms := users' |>).
Proof.
  intros Hi Hr Hu. apply (gui_delete_room b m id room _ users' Hi Hr); [|done].
  intros c id'. simpl. rewrite in_entry_remove, (gi_com _ _ Hi). split.
  - intros [(r & Hr' & <-) Hn]. split; [|eauto]. intros ->. apply Hn. split; [congruence|done].
  - intros [Hne ?]. split; [done|]. intros [_ ?]. congruence.
Qed.

Lemma without_not_owner b uid mem room :
  gui_room_ok b room → gr_members room !! uid = Some mem → gm_owner mem = false →
  gr_members (without uid room) ≠ ∅ → gui_room_ok b (without uid room).
Proof.
  intros [? ? ? _ H1 Ho] Hu Hno Hne.
  assert (∀ u, owner_of (without uid room) u ↔ owner_of room u) as Hown.
  { intros u. unfold owner_of. simpl. split.
    - intros (m & [_ Hm]%lookup_delete_Some & Hm'). eauto.
    - intros (m & Hm & Hm'). exists m. rewrite lookup_delete_ne; [done|]. intros <-. congruence. }
  split; try done.
  - intros u1 u2 ?%Hown ?%Hown. auto.
  - intros Hb. destruct (Ho Hb) as [u Hu']. exists u. by apply Hown.
Qed.

Lemma new_owner_ok b uid mem room o mo :
  gui_room_ok b room → gr_members room !! uid = Some mem → gm_owner mem = true →
  gr_members (without uid room) !! o = Some mo →
  gui_room_ok b ((without uid room) <| gr_members ::= alter (λ m, m <| gm_owner := true |>) o |>).
Proof.
  intros [? ? ? _ H1 Ho] Hu Hyes Hmo.
  match goal with |- gui_room_ok _ ?r => set (room' := r) end.
  assert (∀ u, owner_of room' u ↔ u = o) as Hown.
  { intros u. unfold owner_of, room'. simpl. rewrite lookup_alter. case_decide as E.
    - subst u. simpl in Hmo. rewrite Hmo. simpl. split; [done|]. intros _. eauto.
    - split; [|congruence]. intros (m & [Hne Hm]%lookup_delete_Some & Hmo'). destruct Hne.
      apply H1; [by exists mem|by exists m]. }
  split; try done.
  - intros H'. apply (f_equal (lookup o)) in H'. unfold room' in H'. simpl in H', Hmo.
    by rewrite lookup_alter_eq, Hmo, lookup_empty in H'.
  - intros u1 u2 ->%Hown ->%Hown. done.
  - intros _. exists o. by apply Hown.
Qed.

(** The departure when the room goes on as [room']. *)
Lemma leave_gui_stay b m id room mem uid room' reply notifs :
  gui_inv b m → gg_rooms m !! id = Some room → gr_members room !! uid = Some mem →
  gui_room_ok b room' → gr_communication_id room' = gr_communication_id room →
  member_ids room' = member_ids room ∖ {[uid]} →
  (gm_owner mem = true → gr_privilege_grant room = true) →
  leave_gui_post b id uid m (Ok (reply, member_ids room ∖ {[uid]}, notifs))
    (m <| gg_rooms ::= <[id := room']> |> <| gg_user_rooms ::= entry_remove uid id |>).
Proof.
  intros Hi Hr Hu Hok Hcom Hids Hgrant. split.
  - apply (gui_put_room _ m id room room' _ Hi Hr Hok Hcom).
    intros u id'. rewrite in_entry_remove, Hids.
    pose proof (in_entry_member _ _ _ _ u Hi Hr). destruct (decide (id' = id)) as [->|]; set_solver.
  - exists room, mem. split; [done|]. split; [done|]. split; [done|]. simpl.
    split; [rewrite in_entry_remove; naive_solver|]. rewrite lookup_insert_eq. split; [|by intros; apply lookup_insert_ne].
    split; [done|]. intros [He|[Ho Hg]]; [|specialize (Hgrant Ho); congruence].
    exfalso. apply (gk_members _ _ Hok). apply (dom_empty_inv_L (D:=gset Z)). unfold member_ids in *. congruence.
Qed.

(** The departure that ends the room. *)
Lemma leave_gui_end b m id room mem uid users' reply ids notifs :
  gui_inv b m → gg_rooms m !! id = Some room → gr_members room !! uid = Some mem →
  ids = member_ids room ∖ {[uid]} → ids = ∅ ∨ (gm_owner mem = true ∧ gr_privilege_grant room = false) →
  (∀ u id', in_entry users' u id' ↔ id' ≠ id ∧ in_entry (gg_user_rooms m) u id') →
  leave_gui_post b id uid m (Ok (reply, ids, notifs))
    (m <| gg_rooms ::= delete id |> <| gg_comid_rooms ::= entry_remove (gr_communication_id room) id |>
       <| gg_user_rooms := users' |>).
Proof.
  intros Hi Hr Hu Hids Hend Hus. split; [by apply gui_close|]. exists room, mem.
  split; [done|]. split; [done|]. split; [done|]. simpl. split; [rewrite Hus; naive_solver|].
  rewrite lookup_delete_eq. split; [done|]. intros. by apply lookup_delete_ne.
Qed.

(** The draw of the next owner finds a member. *)
Lemma draw_member rng (ms : gmap Z GuiRoomMember) :
  ms ≠ ∅ → ∃ o mo, hash_map_iter ms !! gen_range rng (size ms) = Some (o, mo) ∧ ms !! o = Some mo.
Proof.
  intros Hne. destruct (lookup_lt_is_Some_2 (hash_map_iter ms) (gen_range rng (size ms))) as [[o mo] Hoo].
  - rewrite length_hash_map_iter. apply gen_range_lt, Nat.neq_0_lt_0. by intros ?%map_size_empty_inv.
  - exists o, mo. split; [done|]. by apply list_elem_of_lookup_2, elem_of_hash_map_iter in Hoo.
Qed.

(** The last member's registration is the last of the room. *)
Lemma last_member_entries b m id room uid u id' :
  gui_inv b m → gg_rooms m !! id = Some room → member_ids room ∖ {[uid]} = ∅ →
  in_entry (entry_remove uid id (gg_user_rooms m)) u id' ↔ id' ≠ id ∧ in_entry (gg_user_rooms m) u id'.
Proof.
  intros Hi Hr Hids. rewrite in_entry_remove.
  pose proof (in_entry_member _ _ _ _ u Hi Hr). destruct (decide (id' = id)) as [->|]; set_solver.
Qed.

Lemma leave_room_gui_spec b rng m id cinfo :
  gui_inv b m → wp (leave_room_gui rng id cinfo) m (leave_gui_post b id (ci_user_id cinfo) m).
Proof.
  intros Hi. unfold leave_room_gui. set (uid := ci_user_id cinfo). wp_step. wp_step.
  destruct (gg_rooms m !! id) as [room|] eqn:Hr; cbn [ok_or].
  2: { split; [done|]. split; [done|]. rewrite (gi_user _ _ Hi). intros (? & ? & _). congruence. }
  destruct (gr_members room !! uid) as [mem|] eqn:Hu.
  2: { wp_step. split; [done|]. split; [done|]. rewrite (in_entry_member _ _ _ _ _ Hi Hr).
       unfold member_ids. rewrite elem_of_dom, Hu. by intros [? ?]. }
  destruct (gi_room _ _ Hi _ _ Hr) as (Hok & _).
  assert (uid ∈ member_ids room) as Hin by (apply elem_of_dom; eauto).
  change (room <| gr_members ::= delete uid |>) with (without uid room).
  wp_step. wp_step. wp_step. apply forget_user_spec.
  { apply (in_entry_is_Some _ _ id). simpl. by apply (in_entry_member _ _ _ _ _ Hi Hr). }
  cbn beta iota. rewrite member_ids_without.
  change (gr_communication_id (without uid room)) with (gr_communication_id room).
  case_bool_decide as Hemp; [|destruct (gm_owner mem) eqn:Hown; [|]].
  - assert (member_ids room ∖ {[uid]} = ∅) as Hids.
    { rewrite <- member_ids_without. unfold member_ids. by rewrite Hemp, dom_empty_L. }
    wp_step. eapply remove_room_spec; [simpl; by apply (gi_com _ _ Hi); eauto|apply lookup_insert_eq|].
    wp_step. simpl. rewrite delete_insert_eq.
    eapply (leave_gui_end b m id room mem uid); try done; [by left|].
    intros u id'. by eapply last_member_entries.
  - change (gr_privilege_grant (without uid room)) with (gr_privilege_grant room).
    destruct (gr_privilege_grant room) eqn:Hg; cbn [negb].
    + wp_step. wp_step.
      destruct (draw_member rng (gr_members (without uid room)) Hemp) as (o & mo & -> & Hoo). cbn [unwrap].
      wp_step. wp_step. wp_step. simpl. rewrite insert_insert_eq.
      match goal with |- leave_gui_post _ _ _ _ (Ok (?r, _, ?n)) _ =>
        pose proof (leave_gui_stay b m id room mem uid
          ((without uid room) <| gr_members ::= alter (λ m, m <| gm_owner := true |>) o |>) r n) as Hstay end.
      simpl in Hstay. apply Hstay; try done.
      * by eapply new_owner_ok.
      * unfold member_ids. simpl. by rewrite dom_alter_L, dom_delete_L.
    + wp_step. apply forget_users_spec.
      { intros u Hu'. rewrite elem_of_hash_iter in Hu'. apply (in_entry_is_Some _ _ id). simpl.
        rewrite in_entry_remove, (in_entry_member _ _ _ _ _ Hi Hr). set_solver. }
      intros users' Hus. cbn beta iota. wp_step.
      eapply remove_room_spec; [simpl; by apply (gi_com _ _ Hi); eauto|apply lookup_insert_eq|].
      wp_step. simpl. rewrite delete_insert_eq.
      eapply (leave_gui_end b m id room mem uid); try done; [by right|].
      intros u id'. rewrite Hus. simpl. rewrite in_entry_remove.
      pose proof (in_entry_member _ _ _ _ u Hi Hr).
      setoid_rewrite elem_of_hash_iter. destruct (decide (id' = id)) as [->|]; set_solver.
  - wp_step. eapply (leave_gui_stay b m id room mem uid (without uid room)); try done.
    + by eapply without_not_owner.
    + by rewrite member_ids_without.
    + congruence.
Qed.

(** ** Quick matches and searches *)

Lemma find_room_Some m p ids id :
  find_room m p ids = Ok (Some id) → id ∈ ids ∧ ∃ room, gg_rooms m !! id = Some room ∧ p room = Ok true.
Proof.
  induction ids as [|i ids IH]; simpl; [done|].
  intros (room & Hr & (b & Hb & Hf)%res_bind_Ok)%res_bind_Ok. destruct b.
  - injection Hf as <-. split; [set_solver|]. exists room. split; [|done].
    by destruct (gg_rooms m !! i); simplify_eq/=.
  - apply IH in Hf as [? ?]. split; [set_solver|done].
Qed.

Lemma find_room_total m (p : GuiRoom → R bool) ids :
  (∀ id, id ∈ ids → ∃ room b, gg_rooms m !! id = Some room ∧ p room = Ok b) →
  ∃ o, find_room m p ids = Ok o.
Proof.
  induction ids as [|i ids IH]; intros Hall; simpl; [eauto|].
  destruct (Hall i) as (room & b & -> & Hb); [set_solver|]. simpl. rewrite Hb. simpl.
  destruct b; [eauto|]. apply IH. set_solver.
Qed.

Lemma title_rooms_present b m c id :
  gui_inv b m → id ∈ title_rooms m c → ∃ room, gg_rooms m !! id = Some room ∧ gr_communication_id room = c.
Proof.
  intros Hi. unfold title_rooms. destruct (gg_comid_rooms m !! c) as [ids|] eqn:Hids; [|set_solver].
  rewrite elem_of_hash_iter. intros Hin. apply (gi_com _ _ Hi). unfold in_entry. by rewrite Hids.
Qed.

(** The number in a condition is unsigned. *)
Definition conds_wf (conds : list MatchingSearchCondition) : Prop := Forall (λ cond, 0 ≤ msc_attr_id cond) conds.

Lemma match_conds_total room conds :
  arrays_ok room → conds_wf conds → ∃ b, match_conds room conds = Ok b.
Proof.
  intros [Hn _ _]. induction 1 as [|cond conds Hc _ IH]; simpl; [eauto|].
  case_bool_decide; [case_bool_decide; [done|]; destruct (match_value _ _ _); eauto|].
  case_bool_decide; [|done]. destruct (_ || _) eqn:E; [done|]. bool_hyps.
  destruct (@index_lt ErrorType _ (gr_num_attrs room) (msc_attr_id cond - 1)) as (x & -> & _); [lia|].
  simpl. destruct (match_value _ _ _); eauto.
Qed.

Lemma quickmatch_conds_total room conds :
  arrays_ok room → conds_wf conds → ∃ b, quickmatch_conds room conds = Ok b.
Proof.
  intros [Hn _ _]. induction 1 as [|cond conds Hc _ IH]; simpl; [eauto|].
  destruct (_ || _ || _ || _) eqn:E; [done|]. bool_hyps.
  destruct (@index_lt ErrorType _ (gr_num_attrs room) (msc_attr_id cond - 1)) as (x & -> & _); [lia|].
  simpl. destruct (match_value _ _ _); eauto.
Qed.

(** The search of a consistent manager answers. *)
Lemma find_title_room b m c (p : GuiRoom → R bool) :
  gui_inv b m → (∀ room, arrays_ok room → ∃ v, p room = Ok v) →
  ∃ o, find_room m p (title_rooms m c) = Ok o ∧
    ∀ id, o = Some id → ∃ room, gg_rooms m !! id = Some room ∧ p room = Ok true.
Proof.
  intros Hi Hp. destruct (find_room_total m p (title_rooms m c)) as [o Ho].
  - intros id Hin. destruct (title_rooms_present _ _ _ _ Hi Hin) as (room & Hr & _).
    destruct (Hp room) as [v Hv]; [|eauto]. apply (gi_room _ _ Hi) in Hr as (Hok & _).
    by eapply gui_room_ok_arrays.
  - exists o. split; [done|]. intros id ->. by apply find_room_Some in Ho as [_ ?].
Qed.

Definition not_panic {A} (r : R A) : bool := match r with Panic => false | _ => true end.

(** Entering a found room: a panic exactly when the user is already in it. *)
Lemma enter_found b m id room cinfo :
  gui_inv b m → gg_rooms m !! id = Some room →
  wp (add_member_to_room id cinfo false) m (λ r m',
    gui_inv (b && not_panic r) m' ∧
    gg_rooms m' = <[id := gui_add_member cinfo false room]> (gg_rooms m) ∧
    (r = Ok tt ∧ ci_user_id cinfo ∉ member_ids room ∨ r = Panic ∧ ci_user_id cinfo ∈ member_ids room)).
Proof.
  intros Hi Hr. eapply add_member_to_room_spec; [done|].
  pose proof (gui_enter b m id room cinfo Hi Hr) as Hi'.
  pose proof (in_entry_member b m id room (ci_user_id cinfo) Hi Hr) as Hin.
  destruct (decide (ci_user_id cinfo ∈ member_ids room)).
  - rewrite bool_decide_eq_false_2 in Hi' by tauto. rewrite (bool_decide_eq_true_2 (in_entry _ _ _)) by tauto.
    split; [exact Hi'|]. split; [done|]. by right.
  - rewrite bool_decide_eq_true_2 in Hi' by done. rewrite (bool_decide_eq_false_2 (in_entry _ _ _)) by tauto.
    split; [exact Hi'|]. split; [done|]. by left.
Qed.

Definition quickmatch_post (b : bool) (c : ComId) (req : QuickMatchGuiRequest) (cinfo : ClientInfo)
  (m : GuiRoomManager) (r : R (MatchingGuiRoomId * option (gset Z * MatchingRoomStatus)))
  (m' : GuiRoomManager) : Prop :=
  gui_inv (b && not_panic r) m' ∧
  match r with
  | Ok (msg, notif) => ∃ room', gg_rooms m' !! mgri_id msg = Some room' ∧
      ci_user_id cinfo ∈ member_ids room' ∧
      (∀ id, id ≠ mgri_id msg → gg_rooms m' !! id = gg_rooms m !! id) ∧
      match notif with
      | Some (ids, _) => Z.of_nat (size (gr_members room')) = gr_total_slots room' ∧
          gr_stealth room' = true ∧ ids = member_ids room' ∖ {[ci_user_id cinfo]}
      | None => Z.of_nat (size (gr_members room')) ≠ gr_total_slots room'
      end
  | Err _ => False
  | Panic => ∃ id room, gg_rooms m !! id = Some room ∧ is_quickmatch room req = Ok true ∧
      ci_user_id cinfo ∈ member_ids room
  end.

(** The part of a quick match after the user entered the room. *)
Lemma quickmatch_finish b c req cinfo m m1 id room :
  gui_inv b m1 → gg_rooms m1 !! id = Some room → ci_user_id cinfo ∈ member_ids room →
  (∀ id', id' ≠ id → gg_rooms m1 !! id' = gg_rooms m !! id') →
  wp (do room <- get_gui_room id;
      do notification_infos <-
        (if bool_decide (Z.of_nat (size (gr_members room)) = gr_total_slots room) then
           let room := room <| gr_stealth := true |> in
           do! modify (λ m, m <| gg_rooms ::= <[id := room]> |>);
           ret (Some (member_ids room ∖ {[ci_user_id cinfo]}, gen_MatchingRoomStatus room id None None))
         else ret None);
      ret (mkMatchingGuiRoomId id, notification_infos)) m1 (quickmatch_post b c req cinfo m).
Proof.
  intros Hi Hr Hin Hother. wp_step. unfold get_gui_room. wp_step. rewrite Hr. cbn [unwrap]. wp_step.
  case_bool_decide as Hfull.
  - wp_step. wp_step. wp_step. wp_step. unfold quickmatch_post, not_panic. rewrite andb_true_r. split.
    + destruct (gi_room _ _ Hi _ _ Hr) as (Hok & _).
      assert (gui_inv b (m1 <| gg_rooms ::= <[id := room <| gr_stealth := true |>]> |>
        <| gg_user_rooms := gg_user_rooms m1 |>)) as Hput; [|exact Hput].
      apply (gui_put_room b m1 id room _ _ Hi Hr); [|done|].
      * eapply gui_room_ok_core; [exact Hok| |done]. destruct Hok. by split.
      * intros u id'. pose proof (in_entry_member _ _ _ _ u Hi Hr).
        destruct (decide (id' = id)) as [->|]; naive_solver.
    + exists (room <| gr_stealth := true |>). simpl. rewrite lookup_insert_eq. split; [done|]. split; [done|].
      split; [|done]. intros id' Hne. rewrite lookup_insert_ne by done. by apply Hother.
  - wp_step. wp_step. unfold quickmatch_post, not_panic. rewrite andb_true_r. split; [done|].
    exists room. done.
Qed.

Lemma quickmatch_gui_spec b c req cinfo m :
  gui_inv b m → com_ascii c → gg_cur_room_id m + 1 < 2 ^ 64 → conds_wf (qm_conds req) →
  wp (quickmatch_gui c req cinfo) m (quickmatch_post b c req cinfo m).
Proof.
  intros Hi Hc Hlt Hwf. unfold quickmatch_gui. wp_step. wp_step.
  destruct (find_title_room b m c (λ room, is_quickmatch room req) Hi) as (o & -> & Ho).
  { intros room Ha. unfold is_quickmatch. destruct (_ || _); [eauto|]. by apply quickmatch_conds_total. }
  wp_step. destruct o as [id|].
  - destruct (Ho id eq_refl) as (room & Hr & Hq). wp_step.
    eapply wp_mono; [|apply (enter_found b m id room cinfo Hi Hr)].
    intros r m1 (Hi1 & Hr1 & [[-> Hnew]|[-> Hold]]).
    + wp_step. simpl in Hi1. rewrite andb_true_r in Hi1.
      eapply (quickmatch_finish b c req cinfo m m1 id (gui_add_member cinfo false room)).
      * done.
      * rewrite Hr1. apply lookup_insert_eq.
      * rewrite member_ids_add. set_solver.
      * intros id' Hne. rewrite Hr1. by apply lookup_insert_ne.
    + split; [done|]. exists id, room. done.
  - wp_step. eapply generate_room_id_spec; [done..|]. cbn beta iota.
    wp_step. wp_step. destruct (from_quickmatch_protobuf_total req c) as (room & -> & Ha & Hm & Hcom & _).
    wp_step. unfold insert_room. wp_step.
    destruct (gui_open b m c room cinfo Hi Hc Hlt Ha Hm Hcom) as (Hfresh & Hnew & Hi').
    set (id := gui_room_id c (gg_cur_room_id m)) in *.
    wp_step. eapply (add_member_to_room_spec _ id room); [apply lookup_insert_eq|]. cbn beta iota.
    rewrite bool_decide_eq_false_2 by exact Hnew. wp_step.
    eapply (quickmatch_finish b c req cinfo m _ id (gui_add_member cinfo true room)).
    + simpl. rewrite insert_insert_eq. exact Hi'.
    + simpl. apply lookup_insert_eq.
    + rewrite member_ids_add. set_solver.
    + intros id' Hne. simpl. by rewrite !lookup_insert_ne.
Qed.

Definition search_join_post (b : bool) (req : SearchJoinRoomGuiRequest) (cinfo : ClientInfo)
  (m : GuiRoomManager) (r : R (MatchingSearchJoinRoomInfo * gset Z * MatchingRoomStatus))
  (m' : GuiRoomManager) : Prop :=
  gui_inv (b && not_panic r) m' ∧
  match r with
  | Ok (_, ids, _) => ∃ id room, gg_rooms m !! id = Some room ∧ gui_is_match room (sj_conds req) true = Ok true ∧
      ids = member_ids room ∧ ci_user_id cinfo ∉ ids ∧
      gg_rooms m' = <[id := gui_add_member cinfo false room]> (gg_rooms m)
  | Err e => e = NotFound ∧ m' = m
  | Panic => ∃ id room, gg_rooms m !! id = Some room ∧ gui_is_match room (sj_conds req) true = Ok true ∧
      ci_user_id cinfo ∈ member_ids room
  end.

Lemma gen_attrs_total room attrs :
  arrays_ok room → Forall (λ a, 0 ≤ ma_attr_id a) attrs → ∃ l, gen_attrs room (parsed_attrs attrs) = Ok l.
Proof.
  intros [Hn Hb Hs] Hall. unfold gen_attrs, parsed_attrs.
  assert (∃ l, res_map_list (λ '(ty, id), gen_MatchingAttr room ty id)
    ((λ a, (ma_attr_type a, ma_attr_id a)) <$> attrs) = Ok l) as [l ->]; [|simpl; eauto].
  induction Hall as [|a attrs Ha _ IH]; simpl; [eauto|]. destruct IH as [l Hl]. fold (fmap (M:=list) (λ a, (ma_attr_type a, ma_attr_id a)) attrs).
  assert (∃ o, gen_MatchingAttr room (ma_attr_type a) (ma_attr_id a) = Ok o) as [o ->];
    [|simpl; rewrite Hl; simpl; eauto].
  unfold gen_MatchingAttr. case_bool_decide; [repeat case_match; eauto|].
  case_bool_decide; [case_bool_decide; [|case_bool_decide; [|eauto]]|case_bool_decide; [|eauto]].
  - destruct (@index_lt ErrorType _ (gr_big_bin_attrs room) (ma_attr_id a - 1)) as (x & -> & _); [lia|]. simpl; eauto.
  - destruct (@index_lt ErrorType _ (gr_small_bin_attrs room) (ma_attr_id a - 3)) as (x & -> & _); [lia|]. simpl; eauto.
  - destruct (_ || _) eqn:E; [eauto|]. bool_hyps.
    destruct (@index_lt ErrorType _ (gr_num_attrs room) (ma_attr_id a - 1)) as (x & -> & _); [lia|]. simpl; eauto.
Qed.

Lemma search_join_gui_spec b c req cinfo m :
  gui_inv b m → conds_wf (sj_conds req) → Forall (λ a, 0 ≤ ma_attr_id a) (sj_attrs req) →
  wp (search_join_gui c req cinfo) m (search_join_post b req cinfo m).
Proof.
  intros Hi Hwf Hattrs. unfold search_join_gui. wp_step. wp_step.
  destruct (find_title_room b m c (λ room, gui_is_match room (sj_conds req) true) Hi) as (o & -> & Ho).
  { intros room Ha. unfold gui_is_match. destruct (_ || _); [eauto|]. destruct (_ && _); [eauto|].
    by apply match_conds_total. }
  destruct o as [id|]; [|wp_step; unfold search_join_post; simpl; by rewrite andb_true_r].
  destruct (Ho id eq_refl) as (room & Hr & Hq). wp_step. unfold get_gui_room. wp_step. rewrite Hr. cbn [unwrap].
  wp_step. eapply wp_mono; [|apply (enter_found b m id room cinfo Hi Hr)].
  intros r m1 (Hi1 & Hr1 & [[-> Hnew]|[-> Hold]]); [|split; [done|]; by exists id, room].
  wp_step. wp_step. rewrite Hr1, lookup_insert_eq. cbn [unwrap]. wp_step. wp_step.
  simpl in Hi1. rewrite andb_true_r in Hi1.
  destruct (gen_attrs_total (gui_add_member cinfo false room) (sj_attrs req)) as [l Hl]; [|done|].
  { eapply gui_room_ok_arrays, (gi_room _ _ Hi1 id). rewrite Hr1. apply lookup_insert_eq. }
  unfold gen_MatchingSearchJoinRoomInfo. rewrite Hl. cbn [res_bind]. wp_step.
  split; [simpl; by rewrite andb_true_r|]. exists id, room. done.
Qed.

(** ** Settings *)

Lemma put_same_members b m id room room' :
  gui_inv b m → gg_rooms m !! id = Some room → arrays_ok room' →
  gr_members room' = gr_members room → gr_communication_id room' = gr_communication_id room →
  gui_inv b (m <| gg_rooms ::= <[id := room']> |>).
Proof.
  intros Hi Hr Ha Hm Hcom. destruct (gi_room _ _ Hi _ _ Hr) as (Hok & _).
  assert (gui_inv b (m <| gg_rooms ::= <[id := room']> |> <| gg_user_rooms := gg_user_rooms m |>)) as Hput;
    [|exact Hput].
  apply (gui_put_room b m id room _ _ Hi Hr); [by eapply gui_room_ok_core|done|].
  intros u id'. pose proof (in_entry_member _ _ _ _ u Hi Hr) as Hu. unfold member_ids in *. rewrite Hm.
  destruct (decide (id' = id)) as [->|]; naive_solver.
Qed.
End operations.

Lemma check_ownership_Ok m id uid room :
  get_room_and_check_ownership m id uid = Ok room ↔ gg_rooms m !! id = Some room ∧ owner_of room uid.
Proof.
  unfold get_room_and_check_ownership, owner_of. destruct (gg_rooms m !! id) as [r|]; simpl; [|naive_solver].
  destruct (gr_members r !! uid) as [mem|] eqn:Hm; simpl; [|split; [done|intros [[= <-] (? & ? & _)]; congruence]].
  destruct (gm_owner mem) eqn:Ho; simpl; split.
  - intros [= <-]. split; [done|]. by exists mem.
  - by intros [[= <-] _].
  - done.
  - intros [[= <-] (? & ? & ?)]. congruence.
Qed.

Lemma check_ownership_no_panic m id uid : no_panic (get_room_and_check_ownership m id uid).
Proof.
  unfold get_room_and_check_ownership. destruct (gg_rooms m !! id) as [r|]; simpl; [|done].
  destruct (gr_members r !! uid) as [mem|]; simpl; [|done]. by destruct (negb _).
Qed.

(** A setting: carried out for the owner, refused with nothing changed for anyone
    else. *)
Definition setting_post (b : bool) (id : GuiRoomId) (uid : Z) (f : GuiRoom → GuiRoom → Prop)
  (m : GuiRoomManager) (r : R unit) (m' : GuiRoomManager) : Prop :=
  gui_inv b m' ∧
  match r with
  | Ok _ => ∃ room room', gg_rooms m !! id = Some room ∧ owner_of room uid ∧ f room room' ∧
      gg_rooms m' = <[id := room']> (gg_rooms m)
  | Err _ => m' = m ∧ ¬ ∃ room, gg_rooms m !! id = Some room ∧ owner_of room uid
  | Panic => False
  end.

Lemma set_search_flag_spec b m id stealth uid :
  gui_inv b m →
  wp (set_search_flag id stealth uid) m (setting_post b id uid (λ room room',
    room' = if gr_quickmatch_room room then room else room <| gr_stealth := stealth |>) m).
Proof.
  intros Hi. unfold set_search_flag. wp_step. wp_step.
  pose proof (check_ownership_Ok m id uid) as Hok. pose proof (check_ownership_no_panic m id uid) as Hnp.
  destruct (get_room_and_check_ownership m id uid) as [room|e|]; [|split; [done|]; split; [done|]|done].
  - destruct (proj1 (Hok room) eq_refl) as [Hr Ho].
    pose proof (gui_room_ok_arrays _ _ (proj1 (gi_room _ _ Hi _ _ Hr))) as [? ? ?].
    destruct (gr_quickmatch_room room) eqn:Hq; cbn [negb]; wp_step; split.
    + done.
    + exists room, room. rewrite Hq. split; [done|]. split; [done|]. split; [done|]. by rewrite insert_id.
    + by eapply put_same_members.
    + exists room, (room <| gr_stealth := stealth |>). by rewrite Hq.
  - intros (room & Hr & Ho). discriminate (proj2 (Hok room) (conj Hr Ho)).
Qed.

Lemma set_room_info_gui_spec b m id attrs uid :
  gui_inv b m →
  wp (set_room_info_gui id attrs uid) m (setting_post b id uid (λ room room',
    res_fold set_attr room attrs = Ok room' ∧ gui_core room' = gui_core room) m).
Proof.
  intros Hi. unfold set_room_info_gui. wp_step. wp_step.
  pose proof (check_ownership_Ok m id uid) as Hok. pose proof (check_ownership_no_panic m id uid) as Hnp.
  destruct (get_room_and_check_ownership m id uid) as [room|e|]; [|split; [done|]; split; [done|]|done].
  - destruct (proj1 (Hok room) eq_refl) as [Hr Ho].
    pose proof (gui_room_ok_arrays _ _ (proj1 (gi_room _ _ Hi _ _ Hr))) as Ha.
    destruct (attr_fold_total set_attr room attrs set_attr_total Ha) as (room' & Hf & Ha' & Hcore).
    wp_step. wp_step. rewrite Hf. wp_step. pose proof Hcore as [= _ _ _ _ Hm Hcom _]. split.
    + by eapply put_same_members.
    + exists room, room'. done.
  - intros (room & Hr & Ho). discriminate (proj2 (Hok room) (conj Hr Ho)).
Qed.
