(* ===== verification/GuiRules.v ===== *)
(** * The lobby room manager as a state machine, and its contracts *)

From S2P Require Import Prelude Protocol Messages StreamExtractor RoomData RoomInv GuiRoom GuiRoomManager.
From S2P Require Import GuiInv GuiMachine RoomMachine.

#[export] Instance com_ascii_dec c : Decision (com_ascii c).
Proof. unfold com_ascii. apply _. Defined.

#[export] Instance conds_wf_dec conds : Decision (conds_wf conds).
Proof. unfold conds_wf. apply _. Defined.

(** The operations of the request handlers (src/src/server/client/cmd_room_gui.rs). *)
Inductive gui_op : Type :=
| GuiCreate (c : ComId) (req : CreateRoomGuiRequest) (cinfo : ClientInfo)
| GuiJoin (id : GuiRoomId) (cinfo : ClientInfo)
| GuiLeave (rng : nat) (id : GuiRoomId) (cinfo : ClientInfo)
| GuiQuickMatch (c : ComId) (req : QuickMatchGuiRequest) (cinfo : ClientInfo)
| GuiSearchJoin (c : ComId) (req : SearchJoinRoomGuiRequest) (cinfo : ClientInfo)
| GuiSetFlag (id : GuiRoomId) (stealth : bool) (uid : Z)
| GuiSetInfo (id : GuiRoomId) (attrs : list MatchingAttr) (uid : Z).

Section machine.
Context `{!HashOrder}.

Definition outcome {A} (out : R A * GuiRoomManager) : bool * GuiRoomManager := (not_panic out.1, out.2).

Definition has_room_id (c : ComId) (m : GuiRoomManager) : bool :=
  bool_decide (com_ascii c) && bool_decide (gg_cur_room_id m + 1 < 2 ^ 64).

(** Whether the operation ended without a panic, and the state after it; [None]
    outside the guards: titles are validated, the numbers of a message are
    unsigned, the room number has not wrapped. *)
Definition gui_run (op : gui_op) (m : GuiRoomManager) : option (bool * GuiRoomManager) :=
  match op with
  | GuiCreate c req cinfo => if has_room_id c m then Some (outcome (create_room_gui c req cinfo m)) else None
  | GuiJoin id cinfo => Some (outcome (join_room_gui id cinfo m))
  | GuiLeave rng id cinfo => Some (outcome (leave_room_gui rng id cinfo m))
  | GuiQuickMatch c req cinfo =>
      if has_room_id c m && bool_decide (conds_wf (qm_conds req))
      then Some (outcome (quickmatch_gui c req cinfo m)) else None
  | GuiSearchJoin c req cinfo =>
      if bool_decide (conds_wf (sj_conds req)) && bool_decide (Forall (λ a, 0 ≤ ma_attr_id a) (sj_attrs req))
      then Some (outcome (search_join_gui c req cinfo m)) else None
  | GuiSetFlag id stealth uid => Some (outcome (set_search_flag id stealth uid m))
  | GuiSetInfo id attrs uid => Some (outcome (set_room_info_gui id attrs uid m))
  end.

(** [strict] leaves the panicking operations out. *)
Inductive gui_step (strict : bool) : GuiRoomManager → GuiRoomManager → Prop :=
| gui_step_op op m ok m' :
    gui_run op m = Some (ok, m') → (strict = true → ok = true) → gui_step strict m m'.

Fixpoint gui_runs (ops : list gui_op) (m : GuiRoomManager) : option (bool * GuiRoomManager) :=
  match ops with
  | [] => Some (true, m)
  | op :: ops =>
      match gui_run op m with
      | Some (ok, m') => (λ '(ok', m''), (ok && ok', m'')) <$> gui_runs ops m'
      | None => None
      end
  end.

Lemma gui_runs_steps ops strict m ok m' :
  gui_runs ops m = Some (ok, m') → (strict = true → ok = true) → rtc (gui_step strict) m m'.
Proof.
  revert m ok. induction ops as [|op ops IH]; intros m ok; simpl; [intros [= <- <-]; done|].
  destruct (gui_run op m) as [[ok1 m1]|] eqn:H1; [|done].
  intros ([ok2 m2] & H2 & [= -> ->])%fmap_Some Hs. eapply rtc_l.
  - econstructor; [exact H1|]. intros E. specialize (Hs E). by apply andb_true_iff in Hs as [? _].
  - eapply IH; [exact H2|]. intros E. specialize (Hs E). by apply andb_true_iff in Hs as [_ ?].
Qed.

Lemma gui_run_inv strict op m ok m' :
  gui_inv strict m → gui_run op m = Some (ok, m') → gui_inv (strict && ok) m'.
Proof.
  intros Hi.
  assert (∀ o, gui_inv strict m' → gui_inv (strict && o) m') as Hweak.
  { intros [] H'; [by rewrite andb_true_r|]. rewrite andb_false_r. by eapply gui_inv_weaken. }
  destruct op; simpl.
  - unfold has_room_id. destruct (_ && _) eqn:E; [|done]. bool_hyps. intros [= <- <-].
    destruct (create_room_gui_spec strict m c req cinfo) as [? _]; auto.
  - intros [= <- <-]. destruct (join_room_gui_spec strict m id cinfo) as [? _]; auto.
  - intros [= <- <-]. destruct (leave_room_gui_spec strict rng m id cinfo) as [? _]; auto.
  - unfold has_room_id. destruct (_ && _ && _) eqn:E; [|done]. bool_hyps. intros [= <- <-].
    destruct (quickmatch_gui_spec strict c req cinfo m) as [? _]; auto.
  - destruct (_ && _) eqn:E; [|done]. bool_hyps. intros [= <- <-].
    destruct (search_join_gui_spec strict c req cinfo m) as [? _]; auto.
  - intros [= <- <-]. destruct (set_search_flag_spec strict m id stealth uid) as [? _]; auto.
  - intros [= <- <-]. destruct (set_room_info_gui_spec strict m id attrs uid) as [? _]; auto.
Qed.

Lemma gui_reachable_inv strict m : rtc (gui_step strict) GuiRoomManager_new m → gui_inv strict m.
Proof.
  assert (gui_inv strict GuiRoomManager_new) as Hnew
    by (destruct strict; [|eapply gui_inv_weaken]; exact gui_inv_new).
  revert Hnew. generalize GuiRoomManager_new. intros m0 Hi.
  induction 1 as [|m1 m2 m3 [op ? ok ? Hrun Hs] _ IH]; [done|]. apply IH.
  pose proof (gui_run_inv _ _ _ _ _ Hi Hrun) as Hi'. destruct strict; [|done]. by rewrite (Hs eq_refl) in Hi'.
Qed.
End machine.

(** A public room of [alice], to run the machine on. *)
Definition ex_gui_create : CreateRoomGuiRequest := mkCreateRoomGuiRequest 4 0 true false [].

Definition ex_gui_id : GuiRoomId := gui_room_id ex_com 1.

Definition ex_gui_ops : list gui_op :=
  [GuiCreate ex_com ex_gui_create (ex_user 7 "alice"); GuiJoin ex_gui_id (ex_user 8 "bob")].

Definition ex_gui : GuiRoomManager :=
  match @gui_runs elements_order ex_gui_ops GuiRoomManager_new with
  | Some (_, m) => m
  | None => GuiRoomManager_new
  end.

Lemma ex_gui_inv : gui_inv true ex_gui.
Proof.
  apply (@gui_reachable_inv elements_order).
  apply (@gui_runs_steps elements_order ex_gui_ops true _ true); [vm_compute; reflexivity|done].
Qed.

(** In every state the lobby room manager can reach, whatever the iteration
    order of its hash maps: a room is stored under the id made of its title and a
    number below the counter, the title index lists exactly the rooms of the title and
    the user index exactly the memberships (also after operations that panicked); a
    room is never empty and never has two owners; and when no operation panicked every
    room has exactly one owner. *)
Theorem gui_reachable_consistent `{!HashOrder} strict m :
  rtc (gui_step strict) GuiRoomManager_new m →
  gui_inv strict m ∧
  ∀ id room, gg_rooms m !! id = Some room →
    length id = GUI_ROOM_ID_SIZE ∧ gr_members room ≠ ∅ ∧
    (strict = true → ∃ u, owner_of room u ∧ ∀ u', owner_of room u' → u' = u).
Proof.
  intros Hr. apply gui_reachable_inv in Hr as Hi. split; [done|]. intros id room Hroom.
  destruct (gi_room _ _ Hi _ _ Hroom) as (Hok & Hc & n & _ & ->).
  split; [rewrite gui_room_id_eq, length_app, length_hex_digits, (proj1 Hc) by done; done|].
  split; [apply Hok|]. intros Hs. destruct (gk_owner _ _ Hok Hs) as [u Hu]. exists u. split; [done|].
  intros u' Hu'. by apply (gk_one_owner _ _ Hok).
Qed.

Lemma gui_reachable_consistent_witness :
  is_Some (gg_rooms ex_gui !! ex_gui_id) ∧ gui_inv true ex_gui.
Proof.
  split; [vm_compute; eauto|]. apply (@gui_reachable_consistent elements_order true ex_gui).
  apply (@gui_runs_steps elements_order ex_gui_ops true _ true); [vm_compute; reflexivity|reflexivity].
Defined.

(** Leaving a lobby room never panics.  It is refused, with nothing changed,
    exactly when the user is not in the room; otherwise the user is unregistered, the
    others are reported, the room ends exactly when nobody is left or its owner left
    without granting ownership, every other room is untouched, and the invariant
    holds again (so a room that goes on has one owner). *)
Theorem leave_room_gui_correct `{!HashOrder} strict rng m id cinfo :
  gui_inv strict m → wp (leave_room_gui rng id cinfo) m (leave_gui_post strict id (ci_user_id cinfo) m).
Proof. apply leave_room_gui_spec. Qed.

Lemma leave_room_gui_correct_witness :
  wp (@leave_room_gui elements_order 0 ex_gui_id (ex_user 7 "alice")) ex_gui
    (leave_gui_post true ex_gui_id 7 ex_gui).
Proof. apply (@leave_room_gui_correct elements_order true 0 ex_gui ex_gui_id). exact ex_gui_inv. Defined.

(** A creation never panics and never reuses an id: it adds exactly one room,
    of the title, whose only member is the creator, as owner. *)
Theorem create_room_gui_correct `{!HashOrder} strict m c req cinfo :
  gui_inv strict m → com_ascii c → gg_cur_room_id m + 1 < 2 ^ 64 →
  wp (create_room_gui c req cinfo) m (create_gui_post strict c cinfo m).
Proof. apply create_room_gui_spec. Qed.

Lemma create_room_gui_correct_witness :
  wp (@create_room_gui elements_order ex_com ex_gui_create (ex_user 9 "carol")) ex_gui
    (create_gui_post true ex_com (ex_user 9 "carol") ex_gui).
Proof.
  apply (@create_room_gui_correct elements_order); [exact ex_gui_inv| |vm_compute; reflexivity].
  apply (bool_decide_eq_true_1 (com_ascii ex_com)). vm_compute. reflexivity.
Defined.

(** A join by id never panics: it adds the user as a plain member of a room
    that was not full and did not have it, and reports the members there before; the
    refusals (no such room, full, already in it) are exactly those and change
    nothing. *)
Theorem join_room_gui_correct `{!HashOrder} strict m id cinfo :
  gui_inv strict m → wp (join_room_gui id cinfo) m (join_gui_post strict id cinfo m).
Proof. apply join_room_gui_spec. Qed.

Lemma join_room_gui_correct_witness :
  wp (@join_room_gui elements_order ex_gui_id (ex_user 9 "carol")) ex_gui
    (join_gui_post true ex_gui_id (ex_user 9 "carol") ex_gui).
Proof. apply (@join_room_gui_correct elements_order). exact ex_gui_inv. Defined.

(** A quick match ends with the user in the room it reports, and every other
    room untouched; when that room is now complete it is hidden from further matches
    and the other members are notified, otherwise nobody is; and the operation panics
    only when a room matching the request already has the user, which keeps the
    invariant but may cost the room its owner. *)
Theorem quickmatch_gui_correct `{!HashOrder} strict c req cinfo m :
  gui_inv strict m → com_ascii c → gg_cur_room_id m + 1 < 2 ^ 64 → conds_wf (qm_conds req) →
  wp (quickmatch_gui c req cinfo) m (quickmatch_post strict c req cinfo m).
Proof. apply quickmatch_gui_spec. Qed.

Lemma quickmatch_gui_correct_witness :
  wp (@quickmatch_gui elements_order ex_com (mkQuickMatchGuiRequest [] 2) (ex_user 9 "carol")) ex_gui
    (quickmatch_post true ex_com (mkQuickMatchGuiRequest [] 2) (ex_user 9 "carol") ex_gui).
Proof.
  apply (@quickmatch_gui_correct elements_order); [exact ex_gui_inv| |vm_compute; reflexivity|constructor].
  apply (bool_decide_eq_true_1 (com_ascii ex_com)). vm_compute. reflexivity.
Defined.

(** Only the owner of a lobby room changes its search flag or its attributes;
    the flag of a quick-match room stays as it is, attribute updates touch nothing but
    attributes, and a request of anyone else is refused with nothing changed. *)
Theorem gui_settings_owner_only strict m id stealth attrs uid :
  gui_inv strict m →
  wp (set_search_flag id stealth uid) m (setting_post strict id uid (λ room room',
    room' = if gr_quickmatch_room room then room else room <| gr_stealth := stealth |>) m) ∧
  wp (set_room_info_gui id attrs uid) m (setting_post strict id uid (λ room room',
    res_fold set_attr room attrs = Ok room' ∧ gui_core room' = gui_core room) m).
Proof. intros Hi. split; [by apply set_search_flag_spec|by apply set_room_info_gui_spec]. Qed.

Lemma gui_settings_owner_only_witness :
  (set_search_flag ex_gui_id true 8 ex_gui).1 = Err Unauthorized ∧
  gui_inv true (set_search_flag ex_gui_id true 7 ex_gui).2.
Proof.
  split; [vm_compute; reflexivity|].
  destruct (gui_settings_owner_only true ex_gui ex_gui_id true [] 7 ex_gui_inv) as [[H _] _]. exact H.
Defined.

(** A user that is already in the room a search finds panics the request
    ([assert!] in [add_member_to_room]) after its member entry was overwritten: the
    owner of a room that search-joins it leaves the room without an owner, and from
    then on nobody can change its settings. *)
Theorem search_join_own_room_panics :
  ∃ m', @search_join_gui elements_order ex_com (mkSearchJoinRoomGuiRequest [] []) (ex_user 7 "alice") ex_gui
          = (Panic, m') ∧
    ∃ room, gg_rooms m' !! ex_gui_id = Some room ∧ size (gr_members room) = 2%nat ∧
      (∀ uid, ¬ owner_of room uid) ∧
      (∀ uid, get_room_and_check_ownership m' ex_gui_id uid ≠ Ok room).
Proof.
  set (out := @search_join_gui elements_order ex_com (mkSearchJoinRoomGuiRequest [] []) (ex_user 7 "alice") ex_gui).
  set (room := default (mkGuiRoom 0 0 false false ∅ [] [] [] [] false) (gg_rooms out.2 !! ex_gui_id)).
  assert (∀ uid, ¬ owner_of room uid) as Hno.
  { intros uid (mem & Hm & Ho).
    assert (map_Forall (λ _ m, gm_owner m = false) (gr_members room)) as Hall.
    { apply (bool_decide_eq_true_1 (map_Forall (λ _ m, gm_owner m = false) (gr_members room))).
      vm_compute. reflexivity. }
    specialize (Hall uid mem Hm). simpl in Hall. congruence. }
  exists out.2. split; [vm_compute; reflexivity|]. exists room. split; [vm_compute; reflexivity|].
  split; [vm_compute; reflexivity|]. split; [exact Hno|].
  intros uid Hok. apply check_ownership_Ok in Hok as [_ Ho]. by apply (Hno uid).
Qed.
