(* ===== verification/ScoreCache.v ===== *)
(** * The score cache (src/src/server/score_cache.rs)

    Every score board is kept in memory as a sorted vector with a reverse index
    from (user, character) to the position.  [insert_score] removes a previous
    score, finds the place by binary search, re-indexes what moved and drops what
    falls below the rank limit. *)

From S2P Require Import Prelude Protocol Messages RoomData.

(** ** Rows (src/src/server/database/db_score.rs) *)

Record DbBoardInfo := mkDbBoardInfo {
  bi_rank_limit : Z;
  bi_update_mode : Z;
  bi_sort_mode : Z;
  bi_upload_num_limit : Z;
  bi_upload_size_limit : Z;
}.

Definition DbBoardInfo_default : DbBoardInfo := mkDbBoardInfo 500 0 0 60 50000000.

Record DbScoreInfo := mkDbScoreInfo {
  si_user_id : Z;
  si_character_id : Z;
  si_score : Z;
  si_comment : option string;
  si_game_info : option bytes;
  si_data_id : option Z;
  si_timestamp : Z;
}.
#[export] Instance score_info_eta : Eta DbScoreInfo := λ s,
  mkDbScoreInfo (si_user_id s) (si_character_id s) (si_score s) (si_comment s) (si_game_info s)
    (si_data_id s) (si_timestamp s).

(** [DbScoreInfo::cmp]: by score in the board's direction, then earlier first, then
    the higher user id first. *)
Definition score_cmp (self other : DbScoreInfo) (sort_mode : Z) : comparison :=
  let ret_value := if bool_decide (sort_mode = 0) then Lt else Gt in
  match Z.compare (si_score self) (si_score other) with
  | Gt => ret_value
  | Lt => CompOpp ret_value
  | Eq =>
      match Z.compare (si_timestamp self) (si_timestamp other) with
      | Lt => Lt
      | Gt => Gt
      | Eq => Z.compare (si_user_id other) (si_user_id self)
      end
  end.

(** ** Vectors *)

(** [slice::binary_search_by] of the standard library: [Ok] ([inl]) the index of
    a match, [Err] ([inr]) the insertion point. *)
Fixpoint bs_loop {A} (f : A → comparison) (l : list A) (fuel base size : nat) : nat :=
  match fuel with
  | O => base
  | S fuel =>
      if bool_decide (size ≤ 1)%nat then base
      else
        let half := Nat.div2 size in
        let mid := (base + half)%nat in
        let base := match l !! mid with
                    | Some x => match f x with Gt => base | _ => mid end
                    | None => base
                    end in
        bs_loop f l fuel base (size - half)
  end.

Definition binary_search_by {A} (f : A → comparison) (l : list A) : nat + nat :=
  match l with
  | [] => inr 0%nat
  | _ =>
      let base := bs_loop f l (length l) 0 (length l) in
      match l !! base with
      | Some x =>
          match f x with
          | Eq => inl base
          | Lt => inr (S base)
          | Gt => inr base
          end
      | None => inr base
      end
  end.

(** [Vec::remove] and [Vec::insert]: a position out of range panics. *)
Definition vec_remove {E A} (pos : nat) (l : list A) : res E (list A) :=
  if bool_decide (pos < length l)%nat then Ok (delete pos l) else Panic.

Definition vec_insert {E A} (pos : nat) (x : A) (l : list A) : res E (list A) :=
  if bool_decide (pos ≤ length l)%nat then Ok (take pos l ++ x :: drop pos l) else Panic.

(** ** Tables *)

Abbreviation NpidLookup := (gmap Z (gmap Z nat)).

Record ScoreTableCache := mkScoreTableCache {
  st_sorted_scores : list DbScoreInfo;
  st_npid_lookup : NpidLookup;
  st_table_info : DbBoardInfo;
  st_last_insert : Z;
}.
#[export] Instance score_table_eta : Eta ScoreTableCache := λ t,
  mkScoreTableCache (st_sorted_scores t) (st_npid_lookup t) (st_table_info t) (st_last_insert t).

Definition ScoreTableCache_from_db (db_info : DbBoardInfo) : ScoreTableCache :=
  mkScoreTableCache [] ∅ db_info 0.

(** [npid_lookup[&user_id][&character_id]], where present. *)
Definition npid_get (m : NpidLookup) (user_id character_id : Z) : option nat :=
  m !! user_id ≫= (.!! character_id).

(** [npid_lookup.entry(user_id).or_default().insert(character_id, pos)]. *)
Definition npid_insert (user_id character_id : Z) (pos : nat) (m : NpidLookup) : NpidLookup :=
  <[user_id := <[character_id := pos]> (default ∅ (m !! user_id))]> m.

(** [npid_lookup.get_mut(&user_id).unwrap().remove(&character_id)]. *)
Definition npid_remove (user_id character_id : Z) (m : NpidLookup) : NpidLookup :=
  alter (delete character_id) user_id m.

Record ScoreUserCache := mkScoreUserCache {
  su_npid : string;
  su_online_name : string;
}.

Abbreviation TableDescription := (string * Z)%type.

Record ScoresCache := mkScoresCache {
  sc_tables : gmap TableDescription ScoreTableCache;
  sc_users : gmap Z ScoreUserCache;
}.
#[export] Instance scores_cache_eta : Eta ScoresCache := λ c, mkScoresCache (sc_tables c) (sc_users c).

Abbreviation SC := (M ScoresCache ErrorType).
Abbreviation ST := (M ScoreTableCache ErrorType).

Definition ScoresCache_new : ScoresCache := mkScoresCache ∅ ∅.

Definition table_desc (com_id : ComId) (board_id : Z) : TableDescription := (com_id_to_string com_id, board_id).

Definition get_table (c : ScoresCache) (com_id : ComId) (board_id : Z) : option ScoreTableCache :=
  sc_tables c !! table_desc com_id board_id.

Definition get_table_or_insert (com_id : ComId) (board_id : Z) (db_info : DbBoardInfo) : SC ScoreTableCache :=
  do found <- gets (λ c, get_table c com_id board_id);
  match found with
  | Some table => ret table
  | None =>
      let table := ScoreTableCache_from_db db_info in
      do! modify (λ c, c <| sc_tables ::= <[table_desc com_id board_id := table]> |>);
      ret table
  end.

(** Works on the table behind its lock. *)
Definition with_table {A} (com_id : ComId) (board_id : Z) (m : ST A) : SC A :=
  zoom (λ c, sc_tables c !! table_desc com_id board_id)
    (λ t c, c <| sc_tables ::= <[table_desc com_id board_id := t]> |>) m.

Definition add_user (user_id : Z) (npid online_name : string) : SC unit :=
  do users <- gets sc_users;
  if bool_decide (is_Some (users !! user_id)) then ret tt
  else modify (λ c, c <| sc_users ::= <[user_id := mkScoreUserCache npid online_name]> |>).

(** ** Insertion *)

(** Takes the previous score of the user and character out; its position. *)
Definition remove_previous (score : DbScoreInfo) : ST (option nat) :=
  do found <- gets (λ t, npid_get (st_npid_lookup t) (si_user_id score) (si_character_id score));
  match found with
  | None => ret None
  | Some pos =>
      do l <- asks (λ t, vec_remove pos (st_sorted_scores t));
      do! modify (λ t, t <| st_sorted_scores := l |>);
      ret (Some pos)
  end.

(** The condition of the insertion. *)
Definition belongs (t : ScoreTableCache) (score : DbScoreInfo) : R bool :=
  if bool_decide (Z.of_nat (length (st_sorted_scores t)) < bi_rank_limit (st_table_info t)) then Ok true
  else
    let? last_score := unwrap (last (st_sorted_scores t)) in
    Ok (match score_cmp score last_score (bi_sort_mode (st_table_info t)) with Lt => true | _ => false end).

(** The position, the vector and the index entry of the new score. *)
Definition place_score (score : DbScoreInfo) : ST nat :=
  do insert_pos <- asks (λ t,
    match binary_search_by (λ probe, score_cmp probe score (bi_sort_mode (st_table_info t))) (st_sorted_scores t) with
    | inl _ => Panic
    | inr pos => Ok pos
    end);
  do l <- asks (λ t, vec_insert insert_pos score (st_sorted_scores t));
  do! modify (λ t, t <| st_sorted_scores := l |>
                     <| st_npid_lookup ::= npid_insert (si_user_id score) (si_character_id score) insert_pos |>);
  ret insert_pos.

(** One iteration of the re-indexing loop. *)
Definition reindex_step (i : nat) : ST unit :=
  do cur <- asks (λ t, unwrap (st_sorted_scores t !! i));
  do _ <- asks (λ t, unwrap (npid_get (st_npid_lookup t) (si_user_id cur) (si_character_id cur)));
  modify (λ t, t <| st_npid_lookup ::= npid_insert (si_user_id cur) (si_character_id cur) i |>).

Definition reindex (start : nat) : ST unit :=
  do len <- gets (λ t, length (st_sorted_scores t));
  for_each reindex_step (seq start (len - start)).

(** Drops the last score of a board over its limit. *)
Definition trim : ST unit :=
  do len <- gets (λ t, length (st_sorted_scores t));
  do limit <- gets (λ t, bi_rank_limit (st_table_info t));
  if bool_decide (limit < Z.of_nat len) then
    do last_score <- asks (λ t, unwrap (last (st_sorted_scores t)));
    do l <- asks (λ t, vec_remove (len - 1) (st_sorted_scores t));
    do! modify (λ t, t <| st_sorted_scores := l |>);
    do _ <- asks (λ t, unwrap (st_npid_lookup t !! si_user_id last_score));
    modify (λ t, t <| st_npid_lookup ::= npid_remove (si_user_id last_score) (si_character_id last_score) |>)
  else ret tt.

Definition reorder_start (initial_pos : option nat) (insert_pos : nat) : nat :=
  match initial_pos with
  | Some pos => Nat.min pos (insert_pos + 1)
  | None => insert_pos + 1
  end.

(** The rank of the score, from one; one below the limit when it did not make the
    board. *)
Definition insert_score (now : Z) (db_info : DbBoardInfo) (com_id : ComId) (board_id : Z) (score : DbScoreInfo)
  (npid online_name : string) : SC Z :=
  do _ <- get_table_or_insert com_id board_id db_info;
  do initial_pos <- with_table com_id board_id (remove_previous score);
  do! with_table com_id board_id (modify (λ t, t <| st_last_insert := now |>));
  do fits <- with_table com_id board_id (asks (λ t, belongs t score));
  if fits : bool then
    do insert_pos <- with_table com_id board_id (place_score score);
    do! add_user (si_user_id score) npid online_name;
    do! with_table com_id board_id (reindex (reorder_start initial_pos insert_pos));
    do! with_table com_id board_id trim;
    ret (wrap_u32 (Z.of_nat insert_pos + 1))
  else
    do limit <- with_table com_id board_id (gets (λ t, bi_rank_limit (st_table_info t)));
    ret (wrap_u32 (limit + 1)).

(** ** Queries *)

Record ScoreRankDataCache := mkScoreRankDataCache {
  rc_npid : string;
  rc_online_name : string;
  rc_pcid : Z;
  rc_rank : Z;
  rc_score : Z;
  rc_has_gamedata : bool;
  rc_timestamp : Z;
}.

Definition ScoreRankDataCache_default : ScoreRankDataCache := mkScoreRankDataCache "" "" 0 0 0 false 0.

Record GetScoreResultCache := mkGetScoreResultCache {
  gs_scores : list ScoreRankDataCache;
  gs_comments : option (list string);
  gs_infos : option (list bytes);
  gs_timestamp : Z;
  gs_total_records : Z;
}.

Definition ScoreRankDataCache_to_protobuf (s : ScoreRankDataCache) : ScoreRankData :=
  mkScoreRankData (rc_npid s) (rc_online_name s) (rc_pcid s) (wrap_u32 (rc_rank s + 1)) (rc_score s)
    (rc_has_gamedata s) (rc_timestamp s).

(** [GetScoreResultCache::serialize], up to the encoding. *)
Definition serialize (r : GetScoreResultCache) : GetScoreResponse :=
  mkGetScoreResponse (ScoreRankDataCache_to_protobuf <$> gs_scores r) (default [] (gs_comments r))
    (mkScoreInfo <$> default [] (gs_infos r)) (gs_timestamp r) (gs_total_records r).

(** The row, comment and game information of the score at [index]. *)
Definition score_row (cur_user : ScoreUserCache) (index : nat) (cur_score : DbScoreInfo) :
  ScoreRankDataCache * string * bytes :=
  (mkScoreRankDataCache (su_npid cur_user) (su_online_name cur_user) (si_character_id cur_score)
     (wrap_u32 (Z.of_nat index)) (si_score cur_score) (bool_decide (is_Some (si_data_id cur_score)))
     (si_timestamp cur_score),
   default ""%string (si_comment cur_score), default [] (si_game_info cur_score)).

Definition score_result (with_comment with_gameinfo : bool) (t : ScoreTableCache)
  (rows : list (ScoreRankDataCache * string * bytes)) : GetScoreResultCache :=
  mkGetScoreResultCache (rows.*1.*1)
    (if with_comment then Some (rows.*1.*2) else None) (if with_gameinfo then Some (rows.*2) else None)
    (st_last_insert t) (wrap_u32 (Z.of_nat (length (st_sorted_scores t)))).

Definition get_score_range (com_id : ComId) (board_id start_rank num_ranks : Z)
  (with_comment with_gameinfo : bool) : SC GetScoreResultCache :=
  do table <- get_table_or_insert com_id board_id DbBoardInfo_default;
  do users <- gets sc_users;
  let start_index := wrap_u32 (start_rank - 1) in
  let end_index := Z.min (start_index + num_ranks) (Z.of_nat (length (st_sorted_scores table))) in
  do rows <- lift (res_map_list (λ index,
    let? cur_score := unwrap (st_sorted_scores table !! Z.to_nat index) in
    let? cur_user := unwrap (users !! si_user_id cur_score) in
    Ok (score_row cur_user (Z.to_nat index) cur_score)) (seqZ start_index (end_index - start_index)));
  ret (score_result with_comment with_gameinfo table rows).

Definition get_score_ids (com_id : ComId) (board_id : Z) (npids : list (Z * Z))
  (with_comment with_gameinfo : bool) : SC GetScoreResultCache :=
  do table <- get_table_or_insert com_id board_id DbBoardInfo_default;
  do users <- gets sc_users;
  do rows <- lift (res_map_list (λ '(user_id, pcid),
    match npid_get (st_npid_lookup table) user_id pcid with
    | None => Ok (ScoreRankDataCache_default, ""%string, [])
    | Some index =>
        let? cur_user := unwrap (users !! user_id) in
        let? cur_score := unwrap (st_sorted_scores table !! index) in
        Ok (score_row cur_user index cur_score)
    end) npids);
  ret (score_result with_comment with_gameinfo table rows).

(** ** Game data *)

Definition score_position (t : ScoreTableCache) (user_id character_id : Z) : R nat :=
  ok_or NotFound (npid_get (st_npid_lookup t) user_id character_id).

Definition contains_score_with_no_data (com_id : ComId) (user_id character_id board_id score : Z) : SC unit :=
  do table <- get_table_or_insert com_id board_id DbBoardInfo_default;
  do rank <- lift (score_position table user_id character_id);
  do the_score <- lift (unwrap (st_sorted_scores table !! rank));
  if bool_decide (si_score the_score ≠ score) then fail ScoreInvalid
  else if bool_decide (is_Some (si_data_id the_score)) then fail ScoreHasData
  else ret tt.

Definition set_game_data (com_id : ComId) (user_id character_id board_id data_id : Z) : SC unit :=
  do _ <- get_table_or_insert com_id board_id DbBoardInfo_default;
  with_table com_id board_id
    (do rank <- asks (λ t, score_position t user_id character_id);
     do the_score <- asks (λ t, unwrap (st_sorted_scores t !! rank));
     modify (λ t, t <| st_sorted_scores ::= <[rank := the_score <| si_data_id := Some data_id |>]> |>)).

Definition get_game_data_id (com_id : ComId) (user_id character_id board_id : Z) : SC Z :=
  do table <- get_table_or_insert com_id board_id DbBoardInfo_default;
  do rank <- lift (score_position table user_id character_id);
  do the_score <- lift (unwrap (st_sorted_scores table !! rank));
  match si_data_id the_score with
  | Some data_id => ret data_id
  | None => fail NotFound
  end.
