(* ===== verification/ScoreInv.v ===== *)
(** * What the score cache promises

    [score_cmp] is a strict total order on scores of different users, the binary
    search finds the insertion point, and [insert_score] computes what inserting
    into a sorted list and cutting at the limit would, keeping the reverse index
    exact. *)

From S2P Require Import Prelude Protocol Messages RoomData RoomInv ScoreCache.

(** ** The order *)

(** The triple a score is ordered by. *)
Definition score_key (mode : Z) (s : DbScoreInfo) : Z * Z * Z :=
  (if bool_decide (mode = 0) then - si_score s else si_score s, si_timestamp s, - si_user_id s).

Definition key_lt (a b : Z * Z * Z) : Prop :=
  a.1.1 < b.1.1 ∨ (a.1.1 = b.1.1 ∧ (a.1.2 < b.1.2 ∨ (a.1.2 = b.1.2 ∧ a.2 < b.2))).

Definition score_lt (mode : Z) (a b : DbScoreInfo) : Prop := key_lt (score_key mode a) (score_key mode b).

Lemma score_cmp_spec mode a b :
  match score_cmp a b mode with
  | Lt => score_lt mode a b
  | Gt => score_lt mode b a
  | Eq => score_key mode a = score_key mode b
  end.
Proof.
  unfold score_cmp, score_lt, key_lt, score_key. simpl.
  destruct (Z.compare_spec (si_score a) (si_score b)), (Z.compare_spec (si_timestamp a) (si_timestamp b)),
    (Z.compare_spec (si_user_id b) (si_user_id a)), (bool_decide (mode = 0)); simpl; first [lia|congruence].
Qed.

Lemma score_lt_irrefl mode a : ¬ score_lt mode a a.
Proof. unfold score_lt, key_lt. lia. Qed.

#[export] Instance score_lt_trans mode : Transitive (score_lt mode).
Proof. intros a b c. unfold score_lt, key_lt. lia. Qed.

Lemma score_cmp_Lt mode a b : score_cmp a b mode = Lt ↔ score_lt mode a b.
Proof.
  pose proof (score_cmp_spec mode a b) as H. split; [intros E; by rewrite E in H|].
  intros Hlt. destruct (score_cmp a b mode); [|done|].
  - exfalso. unfold score_lt in Hlt. rewrite H in Hlt. unfold key_lt in Hlt. lia.
  - exfalso. apply (score_lt_irrefl mode a). by etransitivity.
Qed.

Lemma score_cmp_Gt mode a b : score_cmp a b mode = Gt ↔ score_lt mode b a.
Proof.
  pose proof (score_cmp_spec mode a b) as H. split; [intros E; by rewrite E in H|].
  intros Hlt. destruct (score_cmp a b mode); [| |done].
  - exfalso. unfold score_lt in Hlt. rewrite H in Hlt. unfold key_lt in Hlt. lia.
  - exfalso. apply (score_lt_irrefl mode a). by etransitivity.
Qed.

(** ** The binary search *)

Section search.
Context {A : Type} (f : A → comparison).

(** The loop keeps the boundary [n] between the two parts in its window. *)
Lemma bs_loop_spec l n fuel base size :
  (∀ i x, l !! i = Some x → f x = if bool_decide (i < n)%nat then Lt else Gt) →
  (size ≤ fuel → 1 ≤ size → base + size ≤ length l → n ≤ base + size → base = 0 ∨ base < n →
   let b := bs_loop f l fuel base size in b < length l ∧ (n = S b ∨ (n = 0 ∧ b = 0)))%nat.
Proof.
  intros Hf. revert base size. induction fuel as [|fuel IH]; intros base size Hs H1 Hl Hn Hb; simpl; [lia|].
  case_bool_decide as Hsz; [lia|].
  assert (1 ≤ Nat.div2 size ∧ Nat.div2 size + Nat.div2 size ≤ size)%nat as Hh.
  { rewrite Nat.div2_div. pose proof (Nat.div_mod_eq size 2). pose proof (Nat.mod_upper_bound size 2).
    assert (size / 2 ≠ 0)%nat; lia. }
  destruct (lookup_lt_is_Some_2 l (base + Nat.div2 size)) as [x Hx]; [lia|].
  rewrite Hx, (Hf _ _ Hx). case_bool_decide; apply IH; lia.
Qed.

Lemma binary_search_spec pre post :
  Forall (λ x, f x = Lt) pre → Forall (λ x, f x = Gt) post →
  binary_search_by f (pre ++ post) = inr (length pre).
Proof.
  intros Hpre Hpost.
  assert (∀ i x, (pre ++ post) !! i = Some x → f x = if bool_decide (i < length pre)%nat then Lt else Gt) as Hf.
  { intros i x Hx. case_bool_decide.
    - rewrite lookup_app_l in Hx by done. by eapply (Forall_lookup_1 (λ x, f x = Lt)).
    - rewrite lookup_app_r in Hx by lia. by eapply (Forall_lookup_1 (λ x, f x = Gt)). }
  unfold binary_search_by. destruct (pre ++ post) as [|y l'] eqn:E.
  { by apply app_eq_nil in E as [-> _]. }
  rewrite <- E in *. assert (length (pre ++ post) ≠ 0)%nat as Hne by by rewrite E.
  pose proof (bs_loop_spec (pre ++ post) (length pre) (length (pre ++ post)) 0 (length (pre ++ post)) Hf) as Hb.
  simpl in Hb. destruct Hb as [Hlt Hn]; [lia|lia|lia|rewrite length_app; lia|by left|].
  set (b := bs_loop _ _ _ _ _) in *.
  destruct (lookup_lt_is_Some_2 _ _ Hlt) as [x Hx]. rewrite Hx, (Hf _ _ Hx).
  case_bool_decide; f_equal; lia.
Qed.
End search.

(** ** The reference *)

(** Who a score belongs to. *)
Definition skey (s : DbScoreInfo) : Z * Z := (si_user_id s, si_character_id s).

#[export] Instance score_lt_dec mode a b : Decision (score_lt mode a b).
Proof. unfold score_lt, key_lt. apply _. Defined.

Definition scores_without (s : DbScoreInfo) (l : list DbScoreInfo) : list DbScoreInfo :=
  filter (λ x, skey x ≠ skey s) l.

Definition better (mode : Z) (s : DbScoreInfo) (l : list DbScoreInfo) : list DbScoreInfo :=
  filter (λ x, score_lt mode x s) l.

Definition not_better (mode : Z) (s : DbScoreInfo) (l : list DbScoreInfo) : list DbScoreInfo :=
  filter (λ x, ¬ score_lt mode x s) l.

(** The score among the others, in its place. *)
Definition insert_ref (mode : Z) (s : DbScoreInfo) (l : list DbScoreInfo) : list DbScoreInfo :=
  better mode s l ++ s :: not_better mode s l.

(** The board after [s] was recorded: the other scores and [s], cut at the limit. *)
Definition board_ref (info : DbBoardInfo) (s : DbScoreInfo) (l : list DbScoreInfo) : list DbScoreInfo :=
  take (Z.to_nat (bi_rank_limit info)) (insert_ref (bi_sort_mode info) s (scores_without s l)).

(** Scores of other users or characters do not tie with [s]. *)
Definition no_tie (mode : Z) (s : DbScoreInfo) (l : list DbScoreInfo) : Prop :=
  ∀ x, x ∈ l → skey x ≠ skey s → score_key mode x ≠ score_key mode s.

Section lists.
Context (mode : Z).
Implicit Types (l : list DbScoreInfo) (s : DbScoreInfo).

Lemma score_lt_total s x : score_key mode x ≠ score_key mode s → ¬ score_lt mode x s → score_lt mode s x.
Proof.
  intros Hne Hn. pose proof (score_cmp_spec mode x s) as Hc.
  destruct (score_cmp x s mode); [done|done|done].
Qed.

Lemma not_better_above s l :
  StronglySorted (score_lt mode) l → (∀ x, x ∈ l → score_key mode x ≠ score_key mode s) →
  l = better mode s l ++ not_better mode s l ∧
  Forall (λ x, score_lt mode x s) (better mode s l) ∧ Forall (λ x, score_lt mode s x) (not_better mode s l).
Proof.
  intros Hs Hne. split; [|split].
  - induction Hs as [|x l Hs IH Hall]; [done|]. unfold better, not_better in *.
    assert (∀ y, y ∈ l → score_key mode y ≠ score_key mode s) as Hne'
      by (intros y Hy; apply Hne, elem_of_cons; auto).
    destruct (decide (score_lt mode x s)) as [Hlt|Hn].
    + rewrite filter_cons_True, filter_cons_False by tauto. simpl. f_equal. by apply IH.
    + rewrite filter_cons_False, filter_cons_True by done.
      assert (score_lt mode s x) as Hsx by (apply score_lt_total; [apply Hne, elem_of_cons; auto|done]).
      assert (∀ y, y ∈ l → ¬ score_lt mode y s) as Hno.
      { intros y Hy Hys. rewrite Forall_forall in Hall. specialize (Hall y Hy).
        apply (score_lt_irrefl mode s). by transitivity x; [|transitivity y]. }
      assert (filter (λ x, score_lt mode x s) l = []) as E1.
      { destruct (filter (λ x, score_lt mode x s) l) as [|y l'] eqn:E; [done|].
        assert (y ∈ filter (λ x, score_lt mode x s) l) as [Hy1 Hy2]%list_elem_of_filter by (rewrite E; set_solver).
        by destruct (Hno y Hy2). }
      rewrite E1 in *. simpl in *. f_equal. by apply IH.
  - apply Forall_forall. intros x [? _]%list_elem_of_filter. done.
  - apply Forall_forall. intros x [Hn Hx]%list_elem_of_filter. apply score_lt_total; auto.
Qed.

Lemma sorted_insert s pre post :
  StronglySorted (score_lt mode) (pre ++ post) →
  Forall (λ x, score_lt mode x s) pre → Forall (λ x, score_lt mode s x) post →
  StronglySorted (score_lt mode) (pre ++ s :: post).
Proof.
  intros Hs Hpre Hpost. induction Hpre as [|x pre Hx Hpre IH]; simpl in *.
  - by constructor.
  - inversion Hs as [|? ? Hs' Hall]; subst. constructor; [by apply IH|].
    rewrite Forall_app in *. destruct Hall as [Ha1 Ha2]. split; [done|]. constructor; [done|].
    eapply Forall_impl; [exact Ha2|]. done.
Qed.

Lemma sorted_sublist l l' :
  StronglySorted (score_lt mode) l → l' `sublist_of` l → StronglySorted (score_lt mode) l'.
Proof.
  intros Hs. revert l'. induction Hs as [|x l Hs IH Hall]; intros l' Hl'.
  - apply sublist_nil_r in Hl' as ->. constructor.
  - inversion Hl' as [|? k ? Hk|? k ? Hk]; subst; [|by apply IH]. constructor; [by apply IH|].
    apply Forall_forall. intros y Hy. rewrite Forall_forall in Hall. apply Hall. by eapply elem_of_sublist.
Qed.

Lemma without_none s l : skey s ∉ skey <$> l → scores_without s l = l.
Proof.
  unfold scores_without. induction l as [|x l IH]; [done|]. rewrite fmap_cons, not_elem_of_cons. intros [Hne Hl].
  rewrite filter_cons_True by congruence. f_equal. by apply IH.
Qed.

Lemma without_delete s l pos x :
  NoDup (skey <$> l) → l !! pos = Some x → skey x = skey s → delete pos l = scores_without s l.
Proof.
  unfold scores_without. revert pos. induction l as [|y l IH]; intros pos Hnd Hx Hk; [done|].
  rewrite fmap_cons, NoDup_cons in Hnd. destruct Hnd as [Hni Hnd]. destruct pos as [|pos]; simpl in *.
  - injection Hx as ->. rewrite filter_cons_False by naive_solver. symmetry. apply without_none. by rewrite <- Hk.
  - rewrite filter_cons_True.
    + f_equal. by apply IH.
    + intros Hy. apply Hni. rewrite Hy, <- Hk. apply list_elem_of_fmap. exists x. split; [done|].
      by eapply list_elem_of_lookup_2.
Qed.
End lists.

(** ** The reverse index *)

Definition lk (m : NpidLookup) (k : Z * Z) : option nat := npid_get m k.1 k.2.

Lemma lk_insert m k i k' : lk (npid_insert k.1 k.2 i m) k' = if decide (k = k') then Some i else lk m k'.
Proof.
  destruct k as [u c], k' as [u' c']. unfold lk, npid_get, npid_insert. simpl. rewrite lookup_insert.
  case_decide as Hu; [subst u'; simpl; rewrite lookup_insert; case_decide as Hc; [subst; by rewrite decide_True|]
                     |by rewrite decide_False by congruence].
  rewrite decide_False by congruence. by destruct (m !! u); simpl; rewrite ?lookup_empty.
Qed.

Lemma lk_remove m k k' : lk (npid_remove k.1 k.2 m) k' = if decide (k = k') then None else lk m k'.
Proof.
  destruct k as [u c], k' as [u' c']. unfold lk, npid_get, npid_remove. simpl. rewrite lookup_alter.
  case_decide as Hu; [subst u'|by rewrite decide_False by congruence].
  destruct (m !! u); simpl; [rewrite lookup_delete|by case_decide].
  case_decide as Hc; [subst; by rewrite decide_True|by rewrite decide_False by congruence].
Qed.

Lemma lk_is_Some_user m k : is_Some (lk m k) → is_Some (m !! k.1).
Proof. unfold lk, npid_get. destruct (m !! k.1); [eauto|by intros [? ?]]. Qed.

(** The index is right for the first [n] positions, and has an entry exactly for
    every score. *)
Record indexed (m : NpidLookup) (l : list DbScoreInfo) (n : nat) : Prop := {
  ix_prefix : ∀ j x, (j < n)%nat → l !! j = Some x → lk m (skey x) = Some j;
  ix_dom : ∀ k, is_Some (lk m k) ↔ k ∈ skey <$> l;
}.

Lemma indexed_lookup m l k i :
  NoDup (skey <$> l) → indexed m l (length l) → lk m k = Some i ↔ ∃ s, l !! i = Some s ∧ skey s = k.
Proof.
  intros Hnd [Hp Hd]. split.
  - intros Hk. assert (k ∈ skey <$> l) as (x & -> & [j Hj]%list_elem_of_lookup)%list_elem_of_fmap
      by (apply Hd; eauto).
    assert (lk m (skey x) = Some j) as Hk' by (apply Hp; [by eapply lookup_lt_Some|done]).
    exists x. split; [congruence|done].
  - intros (s & Hs & <-). apply Hp; [by eapply lookup_lt_Some|done].
Qed.

(** ** The invariant of a table *)

Abbreviation limit_of t := (bi_rank_limit (st_table_info t)).
Abbreviation mode_of t := (bi_sort_mode (st_table_info t)).

Record table_inv (t : ScoreTableCache) : Prop := {
  ti_sorted : StronglySorted (score_lt (mode_of t)) (st_sorted_scores t);
  ti_nodup : NoDup (skey <$> st_sorted_scores t);
  ti_indexed : indexed (st_npid_lookup t) (st_sorted_scores t) (length (st_sorted_scores t));
  ti_limit : Z.of_nat (length (st_sorted_scores t)) ≤ limit_of t;
}.

Lemma table_inv_new info : 0 ≤ bi_rank_limit info → table_inv (ScoreTableCache_from_db info).
Proof.
  intros Hl. split; simpl; [constructor|constructor| |done]. split; [by intros|].
  intros k. split; [by intros [? ?]|set_solver].
Qed.

Definition same_info (t t' : ScoreTableCache) : Prop :=
  st_table_info t' = st_table_info t ∧ st_last_insert t' = st_last_insert t.

(** ** The steps of an insertion *)

Lemma remove_previous_spec t s Q :
  table_inv t →
  (∀ o, (o = None → skey s ∉ skey <$> st_sorted_scores t) →
        (∀ pos, o = Some pos → ∃ x, st_sorted_scores t !! pos = Some x ∧ skey x = skey s) →
        match o with
        | None => scores_without s (st_sorted_scores t) = st_sorted_scores t
        | Some pos => scores_without s (st_sorted_scores t) = delete pos (st_sorted_scores t)
        end →
        Q (Ok o) (t <| st_sorted_scores := scores_without s (st_sorted_scores t) |>)) →
  wp (remove_previous s) t Q.
Proof.
  intros Hi HQ. unfold remove_previous. wp_step. wp_step.
  change (npid_get (st_npid_lookup t) (si_user_id s) (si_character_id s)) with (lk (st_npid_lookup t) (skey s)).
  destruct (lk (st_npid_lookup t) (skey s)) as [pos|] eqn:Hk.
  - apply (indexed_lookup _ _ _ _ (ti_nodup _ Hi) (ti_indexed _ Hi)) in Hk as (x & Hx & Hkey).
    pose proof (without_delete s _ _ _ (ti_nodup _ Hi) Hx Hkey) as Hd.
    wp_step. wp_step. unfold vec_remove.
    rewrite bool_decide_eq_true_2 by by eapply lookup_lt_Some. wp_step. wp_step. wp_step. rewrite Hd.
    apply HQ; [done| |done]. intros pos' [= <-]. eauto.
  - assert (skey s ∉ skey <$> st_sorted_scores t) as Hn.
    { rewrite <- (ix_dom _ _ _ (ti_indexed _ Hi)). rewrite Hk. by intros [? ?]. }
    wp_step. pose proof (without_none s _ Hn) as Hw.
    assert (t = t <| st_sorted_scores := scores_without s (st_sorted_scores t) |>) as E by (rewrite Hw; by destruct t).
    rewrite E. apply HQ; [done|done|done].
Qed.

Lemma without_keys s l k : k ∈ skey <$> scores_without s l ↔ k ∈ skey <$> l ∧ k ≠ skey s.
Proof.
  unfold scores_without. rewrite !list_elem_of_fmap. setoid_rewrite list_elem_of_filter. naive_solver.
Qed.

Lemma without_sublist s l : scores_without s l `sublist_of` l.
Proof.
  unfold scores_without. induction l as [|x l IH]; [done|]. destruct (decide (skey x ≠ skey s)).
  - rewrite filter_cons_True by done. by apply sublist_skip.
  - rewrite filter_cons_False by done. by apply sublist_cons.
Qed.

Lemma insert_ref_elem mode s l x : x ∈ insert_ref mode s l ↔ x = s ∨ x ∈ l.
Proof.
  unfold insert_ref, better, not_better. rewrite elem_of_app, elem_of_cons, !list_elem_of_filter.
  destruct (decide (score_lt mode x s)); tauto.
Qed.

Lemma insert_ref_keys mode s l k : k ∈ skey <$> insert_ref mode s l ↔ k = skey s ∨ k ∈ skey <$> l.
Proof. rewrite !list_elem_of_fmap. setoid_rewrite insert_ref_elem. naive_solver. Qed.

Lemma insert_ref_perm mode s l : insert_ref mode s l ≡ₚ s :: l.
Proof.
  unfold insert_ref. rewrite <- Permutation_middle. constructor. unfold better, not_better.
  induction l as [|x l IH]; [done|]. destruct (decide (score_lt mode x s)).
  - rewrite filter_cons_True, filter_cons_False by tauto. simpl. by rewrite IH.
  - rewrite filter_cons_False, filter_cons_True by tauto. by rewrite <- Permutation_middle, IH.
Qed.

(** The new vector is the reference list, and positions before the first one that
    may have moved are right. *)
Lemma place_score_spec t s l1 Q :
  st_sorted_scores t = l1 → StronglySorted (score_lt (mode_of t)) l1 →
  (∀ x, x ∈ l1 → score_key (mode_of t) x ≠ score_key (mode_of t) s) →
  Q (Ok (length (better (mode_of t) s l1)))
    (t <| st_sorted_scores := insert_ref (mode_of t) s l1 |>
       <| st_npid_lookup ::= npid_insert (si_user_id s) (si_character_id s) (length (better (mode_of t) s l1)) |>) →
  wp (place_score s) t Q.
Proof.
  intros El Hs Hne HQ. destruct (not_better_above (mode_of t) s l1 Hs Hne) as (Hl & Hpre & Hpost).
  unfold insert_ref in HQ.
  set (pre := better (mode_of t) s l1) in *. set (post := not_better (mode_of t) s l1) in *.
  clearbody pre post. subst l1. unfold place_score. wp_step. wp_step. rewrite Hl, binary_search_spec.
  - wp_step. wp_step. rewrite Hl. unfold vec_insert.
    rewrite bool_decide_eq_true_2 by (rewrite length_app; lia).
    wp_step. wp_step. wp_step. rewrite take_app_length, drop_app_length. exact HQ.
  - eapply Forall_impl; [exact Hpre|]. intros x Hx. by apply score_cmp_Lt.
  - eapply Forall_impl; [exact Hpost|]. intros x Hx. by apply score_cmp_Gt.
Qed.

Lemma lookup_insert_ref_before mode s l j :
  StronglySorted (score_lt mode) l → (∀ x, x ∈ l → score_key mode x ≠ score_key mode s) →
  (j < length (better mode s l))%nat → insert_ref mode s l !! j = l !! j.
Proof.
  intros Hs Hne Hj. destruct (not_better_above mode s l Hs Hne) as (Hl & _).
  rewrite Hl at 2. unfold insert_ref. by rewrite !lookup_app_l.
Qed.

(** After [place_score] the index is right up to the position where re-indexing
    starts. *)
Lemma placed_indexed t s o :
  table_inv t →
  (∀ x, x ∈ scores_without s (st_sorted_scores t) → score_key (mode_of t) x ≠ score_key (mode_of t) s) →
  match o with
  | None => scores_without s (st_sorted_scores t) = st_sorted_scores t
  | Some pos => scores_without s (st_sorted_scores t) = delete pos (st_sorted_scores t)
  end →
  let l1 := scores_without s (st_sorted_scores t) in
  let n := length (better (mode_of t) s l1) in
  indexed (npid_insert (si_user_id s) (si_character_id s) n (st_npid_lookup t))
    (insert_ref (mode_of t) s l1) (reorder_start o n).
Proof.
  intros Hi Hne Ho l1 n. pose proof (ti_indexed _ Hi) as [Hp Hd].
  assert (StronglySorted (score_lt (mode_of t)) l1) as Hs1
    by (eapply sorted_sublist; [apply Hi|apply without_sublist]).
  split.
  - intros j x Hj Hx. rewrite (lk_insert _ (skey s)).
    destruct (decide (j = n)) as [->|Hjn].
    { unfold insert_ref in Hx. rewrite list_lookup_middle in Hx by done. injection Hx as ->.
      by rewrite decide_True. }
    assert (j < n)%nat as Hlt by (destruct o; simpl in Hj; lia).
    rewrite lookup_insert_ref_before in Hx by done.
    assert (skey x ≠ skey s) as Hk.
    { apply list_elem_of_lookup_2 in Hx. by apply list_elem_of_filter in Hx as [? _]. }
    rewrite decide_False by congruence.
    assert (st_sorted_scores t !! j = Some x) as Hx'.
    { destruct o as [pos|]; unfold l1 in Hx; rewrite Ho in Hx; [|done].
      simpl in Hj. rewrite list_lookup_delete_lt in Hx by lia. done. }
    apply Hp; [by eapply lookup_lt_Some|done].
  - intros k. rewrite (lk_insert _ (skey s)), insert_ref_keys. unfold l1. rewrite without_keys.
    case_decide as Hk.
    + subst. split; [by left|eauto].
    + rewrite Hd. naive_solver.
Qed.

Lemma reindex_loop_spec n start t Q :
  let l := st_sorted_scores t in
  (start + n = length l)%nat → NoDup (skey <$> l) → indexed (st_npid_lookup t) l start →
  (∀ m, indexed m l (length l) → Q (Ok tt) (t <| st_npid_lookup := m |>)) →
  wp (for_each reindex_step (seq start n)) t Q.
Proof.
  intros l. revert start t l. induction n as [|n IH]; intros start t l Hlen Hnd Hix HQ; cbn [seq for_each].
  - wp_step. assert (t = t <| st_npid_lookup := st_npid_lookup t |>) as E by by destruct t.
    rewrite E. apply HQ. by replace (length l) with start by lia.
  - destruct (lookup_lt_is_Some_2 l start) as [x Hx]; [lia|].
    assert (skey x ∈ skey <$> l) as Hin by (apply list_elem_of_fmap_2, list_elem_of_lookup_2 with start; done).
    apply (ix_dom _ _ _ Hix) in Hin as [i Hk].
    wp_step. unfold reindex_step. wp_step. wp_step. fold l. rewrite Hx. cbn [unwrap]. wp_step. wp_step.
    change (npid_get (st_npid_lookup t) (si_user_id x) (si_character_id x)) with (lk (st_npid_lookup t) (skey x)).
    rewrite Hk. cbn [unwrap]. wp_step.
    apply IH; [simpl; fold l; lia|done| |intros m Hm; exact (HQ m Hm)]. simpl. fold l. split.
    + intros j y Hj Hy. rewrite (lk_insert _ (skey x)). case_decide as Hxy.
      * assert (j = start) as ->; [|done].
        apply (NoDup_lookup (skey <$> l) j start (skey y) Hnd); rewrite list_lookup_fmap;
          [by rewrite Hy|rewrite Hx; simpl; congruence].
      * apply (ix_prefix _ _ _ Hix); [|done]. assert (j ≠ start); [|lia]. intros ->. congruence.
    + intros k. rewrite (lk_insert _ (skey x)). case_decide as Hxk; [|apply Hix].
      subst. split; [|eauto]. intros _. apply list_elem_of_fmap_2, list_elem_of_lookup_2 with start. done.
Qed.

Lemma reindex_spec t start Q :
  let l := st_sorted_scores t in
  (start ≤ length l)%nat → NoDup (skey <$> l) → indexed (st_npid_lookup t) l start →
  (∀ m, indexed m l (length l) → Q (Ok tt) (t <| st_npid_lookup := m |>)) →
  wp (reindex start) t Q.
Proof.
  intros l Hs Hnd Hix HQ. unfold reindex. wp_step. wp_step. apply reindex_loop_spec; try done. fold l. lia.
Qed.

Lemma last_cut {A} (l : list A) n :
  length l = S n → ∃ x, last l = Some x ∧ l = take n l ++ [x] ∧ delete n l = take n l ∧ l !! n = Some x.
Proof.
  intros Hl. destruct (lookup_lt_is_Some_2 l n) as [x Hx]; [lia|]. exists x.
  assert (l = take n l ++ [x]) as E by (rewrite <- (take_S_r _ _ _ Hx); by rewrite take_ge by lia).
  assert (length (take n l) = n) as Hn by (rewrite length_take; lia).
  split; [by rewrite E, last_snoc|]. split; [done|]. split; [|done].
  rewrite delete_take_drop, (drop_ge l (S n)), app_nil_r by lia. done.
Qed.

(** Cutting an indexed board at its limit. *)
Lemma trim_spec t Q :
  let l := st_sorted_scores t in
  NoDup (skey <$> l) → indexed (st_npid_lookup t) l (length l) → 0 ≤ limit_of t →
  Z.of_nat (length l) ≤ limit_of t + 1 →
  (∀ m, let l' := take (Z.to_nat (limit_of t)) l in indexed m l' (length l') →
     Q (Ok tt) (t <| st_sorted_scores := l' |> <| st_npid_lookup := m |>)) →
  wp trim t Q.
Proof.
  intros l Hnd Hix H0 Hlen HQ. unfold trim. wp_step. wp_step. wp_step. wp_step. fold l.
  case_bool_decide as Hover.
  - destruct (last_cut l (Z.to_nat (limit_of t))) as (x & Hlast & Hl & Hdel & Hx); [lia|].
    replace (length l - 1)%nat with (Z.to_nat (limit_of t)) by lia.
    wp_step. wp_step. fold l. rewrite Hlast. cbn [unwrap]. wp_step. wp_step. fold l. unfold vec_remove.
    rewrite bool_decide_eq_true_2 by lia. wp_step. wp_step. wp_step. wp_step. simpl.
    assert (lk (st_npid_lookup t) (skey x) = Some (Z.to_nat (limit_of t))) as Hk
      by (apply (ix_prefix _ _ _ Hix); [lia|done]).
    destruct (lk_is_Some_user (st_npid_lookup t) (skey x)) as [mm Hmm]; [eauto|]. simpl in Hmm. rewrite Hmm.
    cbn [unwrap]. wp_step. rewrite Hdel. apply HQ.
    assert (skey x ∉ skey <$> take (Z.to_nat (limit_of t)) l) as Hni.
    { rewrite Hl, fmap_app, NoDup_app in Hnd. destruct Hnd as (_ & Hd & _). intros H.
      apply (Hd _ H). set_solver. }
    split.
    + intros j y Hj Hy. rewrite (lk_remove _ (skey x)). rewrite decide_False.
      * rewrite length_take in Hj. rewrite lookup_take in Hy. case_decide; [|done].
        apply (ix_prefix _ _ _ Hix); [lia|done].
      * intros E. apply Hni. rewrite E. apply list_elem_of_fmap_2, list_elem_of_lookup_2 with j. done.
    + intros k. rewrite (lk_remove _ (skey x)). case_decide as E.
      * subst. split; [by intros [? ?]|done].
      * rewrite (ix_dom _ _ _ Hix). rewrite Hl at 1. rewrite fmap_app, elem_of_app. simpl. set_solver.
  - wp_step. assert (t = t <| st_sorted_scores := take (Z.to_nat (limit_of t)) l |>
        <| st_npid_lookup := st_npid_lookup t |>) as E.
    { rewrite take_ge by lia. unfold l. by destruct t. }
    rewrite E. apply HQ. by rewrite take_ge by lia.
Qed.
