(* ===== verification/ScoreBoard.v ===== *)
(** * Recording and reading scores

    The contract of [insert_score] and of the queries on the whole cache. *)

From S2P Require Import Prelude Protocol Messages RoomData RoomInv RoomReports ScoreCache ScoreInv RoomMachine.

(** The table an operation works on: the cached one, or a new one. *)
Definition the_table (c : ScoresCache) (com_id : ComId) (board_id : Z) (info : DbBoardInfo) : ScoreTableCache :=
  default (ScoreTableCache_from_db info) (get_table c com_id board_id).

Definition put_table (com_id : ComId) (board_id : Z) (t : ScoreTableCache) (c : ScoresCache) : ScoresCache :=
  c <| sc_tables ::= <[table_desc com_id board_id := t]> |>.

Lemma put_table_twice com bid t t' c : put_table com bid t' (put_table com bid t c) = put_table com bid t' c.
Proof. unfold put_table. destruct c. unfold set_field. simpl. by rewrite insert_insert_eq. Qed.

Lemma get_put_table com bid t c : get_table (put_table com bid t c) com bid = Some t.
Proof. apply lookup_insert_eq. Qed.

Lemma get_table_or_insert_spec c com bid info Q :
  Q (Ok (the_table c com bid info)) (put_table com bid (the_table c com bid info) c) →
  wp (get_table_or_insert com bid info) c Q.
Proof.
  unfold get_table_or_insert, the_table. intros HQ. wp_step. wp_step.
  destruct (get_table c com bid) as [t|] eqn:Ht; simpl in HQ.
  - wp_step. assert (c = put_table com bid t c) as E.
    { unfold put_table. destruct c. unfold set_field. simpl. f_equal. symmetry. by apply insert_id. }
    by rewrite E.
  - wp_step. wp_step. wp_step. exact HQ.
Qed.

Lemma get_table_or_insert_eq c com bid info :
  get_table_or_insert com bid info c =
    (Ok (the_table c com bid info), put_table com bid (the_table c com bid info) c).
Proof.
  pose proof (get_table_or_insert_spec c com bid info
    (λ r c', (r, c') = (Ok (the_table c com bid info), put_table com bid (the_table c com bid info) c)) eq_refl) as H.
  unfold wp in H. by destruct (get_table_or_insert com bid info c).
Qed.

(** The programs on a table run on the state [put_table t c]. *)
Lemma wp_with_table {A} com bid (m : ST A) t c Q :
  wp m t (λ r t', Q r (put_table com bid t' c)) → wp (with_table com bid m) (put_table com bid t c) Q.
Proof.
  intros Hm. unfold with_table. eapply wp_zoom; [apply get_put_table|].
  eapply wp_mono; [|exact Hm]. intros r t' HQ. cbn beta in HQ.
  rewrite <- (put_table_twice com bid t t' c) in HQ. exact HQ.
Qed.

(** The rank of [s] on a board: one more than the scores above it. *)
Definition rank_ref (info : DbBoardInfo) (s : DbScoreInfo) (l : list DbScoreInfo) : Z :=
  1 + Z.of_nat (length (better (bi_sort_mode info) s (scores_without s l))).

Definition insert_post (now : Z) (com_id : ComId) (board_id : Z) (s : DbScoreInfo) (c : ScoresCache)
  (t : ScoreTableCache) (r : R Z) (c' : ScoresCache) : Prop :=
  r = Ok (rank_ref (st_table_info t) s (st_sorted_scores t)) ∧
  ∃ t', sc_tables c' = <[table_desc com_id board_id := t']> (sc_tables c) ∧ table_inv t' ∧
    st_sorted_scores t' = board_ref (st_table_info t) s (st_sorted_scores t) ∧
    st_table_info t' = st_table_info t ∧ st_last_insert t' = now ∧
    sc_users c ⊆ sc_users c' ∧ (s ∈ st_sorted_scores t' → is_Some (sc_users c' !! si_user_id s)).

Lemma without_no_tie mode s l :
  no_tie mode s l → ∀ x, x ∈ scores_without s l → score_key mode x ≠ score_key mode s.
Proof. intros Hn x [Hk Hx]%list_elem_of_filter. auto. Qed.

Lemma sublist_fmap {A B} (f : A → B) (l l' : list A) : l `sublist_of` l' → f <$> l `sublist_of` f <$> l'.
Proof. induction 1; simpl; [constructor|by apply sublist_skip|by apply sublist_cons]. Qed.

Lemma insert_ref_nodup mode s l : NoDup (skey <$> l) → NoDup (skey <$> insert_ref mode s (scores_without s l)).
Proof.
  intros Hnd. rewrite (fmap_Permutation skey _ _ (insert_ref_perm mode s (scores_without s l))).
  rewrite fmap_cons, NoDup_cons. split; [rewrite without_keys; naive_solver|].
  eapply sublist_NoDup; [exact Hnd|]. apply sublist_fmap, without_sublist.
Qed.

Lemma insert_ref_sorted mode s l :
  StronglySorted (score_lt mode) l → no_tie mode s l →
  StronglySorted (score_lt mode) (insert_ref mode s (scores_without s l)).
Proof.
  intros Hs Hn.
  assert (StronglySorted (score_lt mode) (scores_without s l)) as Hs1
    by (eapply sorted_sublist; [exact Hs|apply without_sublist]).
  destruct (not_better_above mode s _ Hs1 (without_no_tie _ _ _ Hn)) as (Hl & Hpre & Hpost).
  apply sorted_insert; [by rewrite <- Hl|done|done].
Qed.

Lemma add_user_spec uid npid name c Q :
  (∀ users, sc_users c ⊆ users → is_Some (users !! uid) → Q (Ok tt) (c <| sc_users := users |>)) →
  wp (add_user uid npid name) c Q.
Proof.
  intros HQ. unfold add_user. wp_step. wp_step. case_bool_decide as Hu; wp_step.
  - assert (c = c <| sc_users := sc_users c |>) as E by by destruct c. rewrite E. by apply HQ.
  - apply HQ; [|rewrite lookup_insert_eq; eauto]. apply insert_subseteq. by apply eq_None_not_Some.
Qed.

Lemma put_users com bid t c users :
  (put_table com bid t c) <| sc_users := users |> = put_table com bid t (c <| sc_users := users |>).
Proof. by destruct c. Qed.

(** A score below every score of a full board changes nothing. *)
Lemma board_ref_full info s l x :
  StronglySorted (score_lt (bi_sort_mode info)) l → no_tie (bi_sort_mode info) s l → scores_without s l = l →
  Z.of_nat (length l) = bi_rank_limit info → last l = Some x → score_cmp s x (bi_sort_mode info) ≠ Lt →
  board_ref info s l = l ∧ length (better (bi_sort_mode info) s l) = length l.
Proof.
  intros Hs Hn Hw Hlen Hlast Hc. set (mode := bi_sort_mode info) in *.
  assert (∀ y, y ∈ l → score_key mode y ≠ score_key mode s) as Hne
    by (rewrite <- Hw; by apply without_no_tie).
  destruct (not_better_above mode s l Hs Hne) as (Hl & _ & Hpost).
  assert (not_better mode s l = []) as Hnil.
  { destruct (not_better mode s l) as [|y post] eqn:E using rev_ind; [done|]. exfalso.
    rewrite Hl, app_assoc, last_snoc in Hlast. injection Hlast as ->.
    rewrite Forall_app, Forall_singleton in Hpost. destruct Hpost as [_ Hsx]. by apply Hc, score_cmp_Lt. }
  rewrite Hnil, app_nil_r in Hl. split; [|by rewrite <- Hl].
  unfold board_ref. rewrite Hw. unfold insert_ref. fold mode. rewrite <- Hl, Hnil, <- Hlen, Nat2Z.id.
  apply take_app_length.
Qed.

Lemma better_length mode s l : (length (better mode s l) ≤ length l)%nat.
Proof. unfold better. apply length_filter. Qed.

Lemma length_insert_ref mode s l : length (insert_ref mode s l) = S (length l).
Proof. by rewrite (insert_ref_perm mode s l). Qed.

Lemma rank_ref_wrap info s l :
  Z.of_nat (length l) ≤ bi_rank_limit info → bi_rank_limit info + 1 < 2 ^ 32 →
  wrap_u32 (Z.of_nat (length (better (bi_sort_mode info) s (scores_without s l))) + 1) = rank_ref info s l.
Proof.
  intros Hl Hlt. unfold rank_ref, wrap_u32.
  pose proof (better_length (bi_sort_mode info) s (scores_without s l)).
  pose proof (sublist_length _ _ (without_sublist s l)). rewrite Z.mod_small; lia.
Qed.

(** The part of [insert_score] after the score was found to belong on the board. *)
Lemma insert_fits now com bid s npid name c t o :
  table_inv t → 1 ≤ limit_of t → limit_of t + 1 < 2 ^ 32 → no_tie (mode_of t) s (st_sorted_scores t) →
  match o with
  | None => scores_without s (st_sorted_scores t) = st_sorted_scores t
  | Some pos => scores_without s (st_sorted_scores t) = delete pos (st_sorted_scores t)
  end →
  wp (do insert_pos <- with_table com bid (place_score s);
      do! add_user (si_user_id s) npid name;
      do! with_table com bid (reindex (reorder_start o insert_pos));
      do! with_table com bid trim;
      ret (wrap_u32 (Z.of_nat insert_pos + 1)))
    (put_table com bid (t <| st_sorted_scores := scores_without s (st_sorted_scores t) |> <| st_last_insert := now |>) c)
    (insert_post now com bid s c t).
Proof.
  intros Hi H1 H2 Hn Ho.
  set (l1 := scores_without s (st_sorted_scores t)). set (L := insert_ref (mode_of t) s l1).
  assert (length l1 ≤ length (st_sorted_scores t))%nat as Hl1 by apply sublist_length, without_sublist.
  pose proof (ti_limit _ Hi) as Hlim.
  assert (StronglySorted (score_lt (mode_of t)) L) as HsL by (apply insert_ref_sorted; [apply Hi|done]).
  assert (NoDup (skey <$> L)) as HndL by apply insert_ref_nodup, Hi.
  wp_step. apply wp_with_table.
  eapply (place_score_spec _ s l1); [done| |by apply without_no_tie|].
  { eapply sorted_sublist; [apply Hi|apply without_sublist]. }
  wp_step. apply add_user_spec. intros users Hsub Huser. rewrite put_users.
  set (c1 := c <| sc_users := users |>). cbn beta iota. wp_step. apply wp_with_table.
  apply reindex_spec; simpl.
  - fold L. unfold L. rewrite length_insert_ref. pose proof (better_length (mode_of t) s l1).
    destruct o; simpl; lia.
  - exact HndL.
  - by apply placed_indexed; [|apply without_no_tie|].
  - intros m Hm. wp_step. apply wp_with_table. apply trim_spec; simpl; try done; [lia| |].
    + fold L. unfold L. rewrite length_insert_ref. lia.
    + intros m' Hm'. wp_step. split; [by apply (f_equal Ok), (rank_ref_wrap (st_table_info t))|].
      eexists. split; [reflexivity|]. split; [split; simpl|].
      * eapply sorted_sublist; [exact HsL|apply sublist_take].
      * eapply sublist_NoDup; [exact HndL|]. apply sublist_fmap, sublist_take.
      * exact Hm'.
      * rewrite length_take. lia.
      * split; [done|]. split; [done|]. split; [done|]. split; [done|]. by intros _.
Qed.

Lemma insert_score_spec now info com bid s npid name c :
  let t := the_table c com bid info in
  table_inv t → 1 ≤ limit_of t → limit_of t + 1 < 2 ^ 32 → no_tie (mode_of t) s (st_sorted_scores t) →
  wp (insert_score now info com bid s npid name) c (insert_post now com bid s c t).
Proof.
  intros t Hi H1 H2 Hn. unfold insert_score. wp_step. apply get_table_or_insert_spec. fold t. cbn beta iota.
  wp_step. apply wp_with_table. apply remove_previous_spec; [done|]. intros o Hnone Hsome Ho. cbn beta iota.
  wp_step. apply wp_with_table. wp_step. cbn beta iota.
  wp_step. apply wp_with_table. wp_step.
  set (t1 := (t <| st_sorted_scores := _ |>) <| st_last_insert := now |>).
  assert (length (st_sorted_scores t1) ≤ length (st_sorted_scores t))%nat as Hl1
    by apply sublist_length, without_sublist.
  pose proof (ti_limit _ Hi) as Hlim.
  unfold belongs. case_bool_decide as Hroom; cbn [res_bind].
  - by apply insert_fits.
  - change (limit_of t1) with (limit_of t) in *.
    assert (o = None) as ->.
    { destruct o as [pos|]; [|done]. exfalso. destruct (Hsome pos eq_refl) as (x & Hx & _).
      apply lookup_lt_Some in Hx. apply Hroom. simpl. rewrite Ho, length_delete by eauto using lookup_lt_is_Some_2. lia. }
    assert (st_sorted_scores t1 = st_sorted_scores t) as E1 by exact Ho.
    destruct (last (st_sorted_scores t1)) as [x|] eqn:Hlast.
    2: { apply last_None in Hlast. rewrite Hlast in Hroom. simpl in Hroom. lia. }
    cbn [unwrap res_bind]. change (mode_of t1) with (mode_of t).
    destruct (score_cmp s x (mode_of t)) eqn:Hc; [|by apply insert_fits|].
    all: rewrite E1 in Hlast, Hl1, Hroom;
      destruct (board_ref_full (st_table_info t) s (st_sorted_scores t) x) as [Hb Hlen];
      [apply Hi|done|exact Ho|lia|done|congruence|];
      wp_step; apply wp_with_table; wp_step; wp_step; change (limit_of t1) with (limit_of t);
      (split; [unfold rank_ref; rewrite Ho, Hlen; unfold wrap_u32; rewrite Z.mod_small by lia; f_equal; lia|]);
      exists t1; (split; [done|]);
      (split; [destruct Hi; split; rewrite ?E1; done|]); rewrite E1, Hb;
      (split; [done|]; split; [done|]; split; [done|]; split; [done|]).
    all: intros Hin; exfalso; apply (Hnone eq_refl), list_elem_of_fmap_2, Hin.
Qed.

(** ** The cache *)

(** Every table is consistent, its limit is a usable [u32], and every user with a
    score is known by name. *)
Definition cache_inv (c : ScoresCache) : Prop :=
  ∀ d t, sc_tables c !! d = Some t →
    table_inv t ∧ 1 ≤ limit_of t < 2 ^ 32 - 1 ∧
    ∀ x, x ∈ st_sorted_scores t → is_Some (sc_users c !! si_user_id x).

Definition info_ok (info : DbBoardInfo) : Prop := 1 ≤ bi_rank_limit info < 2 ^ 32 - 1.

Lemma the_table_inv c com bid info :
  cache_inv c → info_ok info →
  let t := the_table c com bid info in
  table_inv t ∧ 1 ≤ limit_of t < 2 ^ 32 - 1 ∧
  ∀ x, x ∈ st_sorted_scores t → is_Some (sc_users c !! si_user_id x).
Proof.
  intros Hc Hinfo. unfold the_table, get_table. destruct (sc_tables c !! _) as [t|] eqn:Ht; simpl; [by eapply Hc|].
  split; [apply table_inv_new; unfold info_ok in *; lia|]. split; [done|]. set_solver.
Qed.

Lemma put_table_inv c com bid t :
  cache_inv c → table_inv t → 1 ≤ limit_of t < 2 ^ 32 - 1 →
  (∀ x, x ∈ st_sorted_scores t → is_Some (sc_users c !! si_user_id x)) → cache_inv (put_table com bid t c).
Proof.
  intros Hc Ht Hl Hu d t0. simpl. intros [[_ <-]|[_ H0]]%lookup_insert_Some; [done|by eapply Hc].
Qed.

Lemma board_ref_elem info s l x : x ∈ board_ref info s l → x = s ∨ x ∈ l.
Proof.
  unfold board_ref. intros Hx%subseteq_take. apply insert_ref_elem in Hx as [->|Hx]; [by left|].
  right. by apply list_elem_of_filter in Hx as [_ ?].
Qed.

Lemma insert_score_keeps now info com bid s npid name c :
  cache_inv c → info_ok info →
  no_tie (mode_of (the_table c com bid info)) s (st_sorted_scores (the_table c com bid info)) →
  wp (insert_score now info com bid s npid name) c (λ r c',
    cache_inv c' ∧ insert_post now com bid s c (the_table c com bid info) r c').
Proof.
  intros Hc Hinfo Hn. destruct (the_table_inv c com bid info Hc Hinfo) as (Hi & Hl & Hu).
  eapply wp_mono; [|apply insert_score_spec; [done|lia|lia|done]].
  intros r c' Hpost. split; [|done]. destruct Hpost as (_ & t' & Et & Hi' & Hsc & Hinf & _ & Hsub & Hs).
  intros d t0. rewrite Et. intros [[_ <-]|[_ H0]]%lookup_insert_Some.
  - split; [done|]. split; [by rewrite Hinf|]. intros x Hx. pose proof Hx as Hx'. rewrite Hsc in Hx'.
    apply board_ref_elem in Hx' as [->|Hx']; [by apply Hs|].
    destruct (Hu x Hx') as [u Hux]. exists u. by eapply lookup_weaken.
  - destruct (Hc _ _ H0) as (? & ? & Hu0). split; [done|]. split; [done|]. intros x Hx.
    destruct (Hu0 x Hx) as [u Hux]. exists u. by eapply lookup_weaken.
Qed.

(** ** Contracts *)

(** C14: recording a score never panics, and does what inserting it into the
    board without the player's previous score and cutting at the limit does: the
    board stays sorted and exactly indexed, the rank returned is one more than the
    number of better scores of others (one past the limit when the score did not make
    the board), no other board changes, and every name on the board stays known.  The
    scores of other players must not tie in score, time and user id. *)
Theorem insert_score_correct now info com bid s npid name c :
  cache_inv c → info_ok info →
  no_tie (mode_of (the_table c com bid info)) s (st_sorted_scores (the_table c com bid info)) →
  wp (insert_score now info com bid s npid name) c (λ r c',
    cache_inv c' ∧ insert_post now com bid s c (the_table c com bid info) r c').
Proof. apply insert_score_keeps. Qed.

Definition ex_score (uid score time : Z) : DbScoreInfo := mkDbScoreInfo uid 0 score None None None time.

Lemma cache_inv_new : cache_inv ScoresCache_new.
Proof. intros d t Ht. simpl in Ht. by rewrite lookup_empty in Ht. Qed.

Lemma insert_score_correct_witness :
  (insert_score 9 DbBoardInfo_default ex_com 1 (ex_score 7 100 3) "alice" "Alice" ScoresCache_new).1 = Ok 1 ∧
  cache_inv (insert_score 9 DbBoardInfo_default ex_com 1 (ex_score 7 100 3) "alice" "Alice" ScoresCache_new).2.
Proof.
  split; [vm_compute; reflexivity|].
  apply (insert_score_correct 9 DbBoardInfo_default ex_com 1 (ex_score 7 100 3) "alice" "Alice" ScoresCache_new).
  - exact cache_inv_new.
  - unfold info_ok. simpl. lia.
  - intros x Hx. vm_compute in Hx. inversion Hx.
Defined.

(** Positions of the reference board. *)
Lemma board_ref_rank info s l :
  rank_ref info s l ≤ bi_rank_limit info → board_ref info s l !! Z.to_nat (rank_ref info s l - 1) = Some s.
Proof.
  unfold rank_ref, board_ref. intros Hr. rewrite lookup_take_lt by lia. unfold insert_ref.
  apply list_lookup_middle. lia.
Qed.

(** A score that made the board is read back under its player: right after
    recording it, asking for that user and character returns the score, its
    rank and the player's name, and a score that did not make the board is reported
    as absent. *)
Theorem record_then_read now info com bid s npid name c rank c' :
  cache_inv c → info_ok info →
  no_tie (mode_of (the_table c com bid info)) s (st_sorted_scores (the_table c com bid info)) →
  insert_score now info com bid s npid name c = (Ok rank, c') →
  let row := if bool_decide (rank ≤ limit_of (the_table c com bid info))
             then from_option (λ u, (score_row u (Z.to_nat (rank - 1)) s).1.1) ScoreRankDataCache_default
                    (sc_users c' !! si_user_id s)
             else ScoreRankDataCache_default in
  ∃ res, get_score_ids com bid [(si_user_id s, si_character_id s)] false false c' = (Ok res, c') ∧
    gs_scores res = [row] ∧ 
    (rank ≤ limit_of (the_table c com bid info) → is_Some (sc_users c' !! si_user_id s)).
Proof.
  intros Hc Hinfo Hn Hrun row. set (t := the_table c com bid info) in *.
  destruct (wp_run _ _ _ _ _ Hrun (insert_score_keeps now info com bid s npid name c Hc Hinfo Hn))
    as (Hc' & [= Hrank] & t' & Et & Hi' & Hsc & Hinf & _ & _ & Hs). fold t in Hrank, Hsc, Hinf.
  unfold get_score_ids, bind at 1, get_table_or_insert, bind at 1, gets, get_table.
  rewrite Et, lookup_insert_eq. unfold ret at 1, bind at 1, bind, lift, ret. cbn [res_map_list].
  change (npid_get (st_npid_lookup t') (si_user_id s) (si_character_id s)) with (lk (st_npid_lookup t') (skey s)).
  pose proof (λ i, indexed_lookup _ _ (skey s) i (ti_nodup _ Hi') (ti_indexed _ Hi')) as Hlk.
  unfold row. case_bool_decide as Hr.
  - assert (st_sorted_scores t' !! Z.to_nat (rank - 1) = Some s) as Hpos.
    { rewrite Hsc, Hrank. apply board_ref_rank. by rewrite <- Hrank. }
    rewrite (proj2 (Hlk (Z.to_nat (rank - 1)))) by eauto.
    destruct (Hs (list_elem_of_lookup_2 _ _ _ Hpos)) as [u Hu]. rewrite Hu, Hpos. simpl.
    eexists. split; [reflexivity|]. split; [done|eauto].
  - assert (lk (st_npid_lookup t') (skey s) = None) as ->; [|simpl; eexists; split; [reflexivity|]; split; [done|lia]].
    apply eq_None_not_Some. intros [i (x & Hx & Hk)%Hlk].
    rewrite Hsc in Hx. unfold board_ref in Hx. rewrite lookup_take in Hx. case_decide as Hlt; [|done].
    unfold insert_ref in Hx. rewrite lookup_app_l in Hx.
    + apply list_elem_of_lookup_2 in Hx. unfold better, scores_without in Hx. rewrite !list_elem_of_filter in Hx. tauto.
    + unfold rank_ref in Hrank. lia.
Qed.

Lemma record_then_read_witness :
  let out := insert_score 9 DbBoardInfo_default ex_com 1 (ex_score 7 100 3) "alice" "Alice" ScoresCache_new in
  ∃ res, get_score_ids ex_com 1 [(7, 0)] false false out.2 = (Ok res, out.2) ∧
    gs_scores res = [mkScoreRankDataCache "alice" "Alice" 0 0 100 false 3].
Proof.
  intros out.
  destruct (record_then_read 9 DbBoardInfo_default ex_com 1 (ex_score 7 100 3) "alice" "Alice" ScoresCache_new
    1 out.2) as (res & H1 & H2 & _).
  - exact cache_inv_new.
  - unfold info_ok. simpl. lia.
  - intros x Hx. vm_compute in Hx. inversion Hx.
  - vm_compute. reflexivity.
  - exists res. split; [exact H1|]. rewrite H2. vm_compute. reflexivity.
Defined.

(** Reading a range of ranks of a consistent cache never panics, whatever the
    numbers asked for: it returns, in order, the rows of the scores whose ranks are in
    the range, each with its own rank and its player's name, and no more than the
    board has. *)
Theorem get_score_range_correct com bid start num wc wg c :
  cache_inv c → 0 ≤ num →
  let t := the_table c com bid DbBoardInfo_default in
  let first := Z.to_nat (wrap_u32 (start - 1)) in
  ∃ res, get_score_range com bid start num wc wg c = (Ok res, put_table com bid t c) ∧
    length (gs_scores res) = Nat.min (Z.to_nat num) (length (st_sorted_scores t) - first) ∧
    ∀ i row, gs_scores res !! i = Some row →
      ∃ s u, st_sorted_scores t !! (first + i)%nat = Some s ∧ sc_users c !! si_user_id s = Some u ∧
        row = (score_row u (first + i) s).1.1.
Proof.
  intros Hc Hnum t first.
  destruct (the_table_inv c com bid DbBoardInfo_default Hc) as (_ & _ & Hu); [split; simpl; lia|]. fold t in Hu.
  unfold get_score_range, bind at 1. rewrite get_table_or_insert_eq. fold t. unfold bind, gets, lift, ret. simpl.
  set (start0 := wrap_u32 (start - 1)) in *. set (end0 := Z.min _ _).
  assert (0 ≤ start0) as H0 by (apply Z.mod_pos_bound; lia).
  match goal with |- context [res_map_list ?f ?xs] => set (row_of := f); set (idx := xs) end.
  assert (∀ i, i ∈ idx → ∃ s u, st_sorted_scores t !! Z.to_nat i = Some s ∧
    sc_users c !! si_user_id s = Some u ∧ row_of i = Ok (score_row u (Z.to_nat i) s)) as Hrow.
  { intros i Hi%elem_of_seqZ. destruct (lookup_lt_is_Some_2 (st_sorted_scores t) (Z.to_nat i)) as [s Hs]; [lia|].
    destruct (Hu s) as [u Hus]; [by eapply list_elem_of_lookup_2|]. exists s, u. split; [done|]. split; [done|].
    unfold row_of. rewrite Hs. simpl. by rewrite Hus. }
  destruct (res_map_list_total row_of idx) as [rows Hrows].
  { intros i Hi. destruct (Hrow i Hi) as (s & u & _ & _ & ->). eauto. }
  rewrite Hrows. eexists. split; [reflexivity|]. apply res_map_list_Ok in Hrows as Hf. simpl. split.
  - rewrite !length_fmap, <- (Forall2_length _ _ _ Hf). unfold idx. rewrite length_seqZ. unfold first, end0. lia.
  - intros i row. rewrite !list_lookup_fmap, !fmap_Some. intros (r1 & (r2 & Hr2 & ->)%fmap_Some & ->).
    destruct (Forall2_lookup_r _ _ _ _ _ Hf Hr2) as (k & Hk & Hok).
    destruct (Hrow k) as (s & u & Hs & Hus & Hk'); [by eapply list_elem_of_lookup_2|].
    rewrite Hk' in Hok. injection Hok as <-. apply lookup_seqZ in Hk as [-> _].
    replace (Z.to_nat (start0 + Z.of_nat i)) with (first + i)%nat in * by (unfold first; lia). eauto.
Qed.

Lemma get_score_range_correct_witness :
  ∃ res, get_score_range ex_com 1 1 10 false false ScoresCache_new =
           (Ok res, put_table ex_com 1 (the_table ScoresCache_new ex_com 1 DbBoardInfo_default) ScoresCache_new) ∧
    length (gs_scores res) = 0%nat.
Proof.
  destruct (get_score_range_correct ex_com 1 1 10 false false ScoresCache_new cache_inv_new) as (res & H1 & H2 & _);
    [lia|]. exists res. split; [exact H1|]. rewrite H2. vm_compute. reflexivity.
Defined.

(** ** The order of the database *)

(** [ORDER BY score DESC (or ASC), timestamp ASC, user_id ASC] of
    [get_scores_from_table], which fills a board at start-up. *)
Definition db_before (sort_mode : Z) (a b : DbScoreInfo) : Prop :=
  let ord := if bool_decide (sort_mode = 0) then - si_score a else si_score a in
  let ord' := if bool_decide (sort_mode = 0) then - si_score b else si_score b in
  ord < ord' ∨ (ord = ord' ∧ (si_timestamp a < si_timestamp b ∨
    (si_timestamp a = si_timestamp b ∧ si_user_id a < si_user_id b))).

(** Scores that tie in score and time are ordered one way by the query that
    fills a board at start-up (lower user id first) and the other way by the
    comparison the binary search relies on (higher user id first): such a board is
    not sorted for the cache. *)
Theorem tie_order_differs mode a b :
  si_score a = si_score b → si_timestamp a = si_timestamp b → si_user_id a < si_user_id b →
  db_before mode a b ∧ score_cmp a b mode = Gt ∧ ¬ StronglySorted (score_lt mode) [a; b].
Proof.
  intros Hs Ht Hu.
  assert (score_lt mode b a) as Hlt.
  { unfold score_lt, key_lt, score_key. simpl. rewrite Hs, Ht. lia. }
  split; [|split].
  - unfold db_before. rewrite Hs, Ht. lia.
  - by apply score_cmp_Gt.
  - intros Hsrt. inversion Hsrt as [|? ? _ Hall]. inversion Hall; subst.
    apply (score_lt_irrefl mode a). by transitivity b.
Qed.

Lemma tie_order_differs_witness :
  db_before 0 (ex_score 1 5 3) (ex_score 2 5 3) ∧ score_cmp (ex_score 1 5 3) (ex_score 2 5 3) 0 = Gt.
Proof.
  destruct (tie_order_differs 0 (ex_score 1 5 3) (ex_score 2 5 3)) as (H1 & H2 & _);
    [reflexivity|reflexivity|vm_compute; reflexivity|]. split; [exact H1|exact H2].
Defined.

(** ** The cache as a state machine *)

Lemma sorted_by_key mode l l' :
  score_key mode <$> l' = score_key mode <$> l →
  StronglySorted (score_lt mode) l → StronglySorted (score_lt mode) l'.
Proof.
  revert l. induction l' as [|x' l' IH]; intros [|x l] E; try done.
  assert (score_key mode x' = score_key mode x ∧ score_key mode <$> l' = score_key mode <$> l) as [Ex El]
    by (split; [exact (f_equal (List.hd (score_key mode x)) E)|exact (f_equal (@List.tl _) E)]).
  intros Hs. inversion Hs as [|? ? Hs' Hall]; subst. constructor; [by eapply IH|].
  apply Forall_forall. intros y' Hy'. unfold score_lt in *. rewrite Forall_forall in Hall.
  assert (score_key mode y' ∈ score_key mode <$> l) as (y & -> & Hy)%list_elem_of_fmap
    by (rewrite <- El; by apply list_elem_of_fmap_2).
  rewrite Ex. by apply Hall.
Qed.

Lemma fmap_insert_same {A B} (f : A → B) (l : list A) i x x' :
  l !! i = Some x → f x' = f x → f <$> <[i := x']> l = f <$> l.
Proof.
  intros Hx Hf. rewrite list_fmap_insert, Hf. apply list_insert_id. by rewrite list_lookup_fmap, Hx.
Qed.

(** Replacing a score by one with the same owner and key. *)
Lemma table_inv_data t i x x' :
  table_inv t → st_sorted_scores t !! i = Some x → skey x' = skey x →
  score_key (mode_of t) x' = score_key (mode_of t) x →
  table_inv (t <| st_sorted_scores ::= <[i := x']> |>).
Proof.
  intros [Hs Hnd [Hp Hd] Hl] Hx Hk Hsk.
  assert (skey <$> <[i := x']> (st_sorted_scores t) = skey <$> st_sorted_scores t) as Ek
    by by eapply fmap_insert_same.
  split; simpl.
  - eapply sorted_by_key; [|exact Hs]. by eapply fmap_insert_same.
  - by rewrite Ek.
  - rewrite length_insert. split; [|by rewrite Ek].
    intros j y Hj Hy. assert ((skey <$> st_sorted_scores t) !! j = Some (skey y)) as Hj'
      by (rewrite <- Ek, list_lookup_fmap, Hy; done).
    rewrite list_lookup_fmap, fmap_Some in Hj'. destruct Hj' as (y0 & Hy0 & ->). by apply Hp.
  - by rewrite length_insert.
Qed.

Lemma set_game_data_keeps com uid cid bid data_id c :
  cache_inv c → wp (set_game_data com uid cid bid data_id) c (λ _ c', cache_inv c').
Proof.
  intros Hc. destruct (the_table_inv c com bid DbBoardInfo_default Hc) as (Hi & Hl & Hu); [split; simpl; lia|].
  unfold set_game_data. wp_step. apply get_table_or_insert_spec. cbn beta iota.
  set (t := the_table c com bid DbBoardInfo_default) in *.
  apply wp_with_table. wp_step. wp_step. unfold score_position.
  destruct (npid_get (st_npid_lookup t) uid cid) as [rank|] eqn:Hk; cbn [ok_or]; [|by apply put_table_inv].
  wp_step. wp_step. destruct (st_sorted_scores t !! rank) as [x|] eqn:Hx; cbn [unwrap]; [|by apply put_table_inv].
  wp_step. apply put_table_inv; [done|by eapply table_inv_data|done|].
  intros y Hy. simpl in Hy. apply list_elem_of_lookup in Hy as [j Hy].
  apply list_lookup_insert_Some in Hy as [(<- & <- & _)|(_ & Hy)].
  - simpl. apply Hu. by eapply list_elem_of_lookup_2.
  - apply Hu. by eapply list_elem_of_lookup_2.
Qed.

(** Operations of the cache: recording (with the condition under which the order is
    strict), attaching game data, and a read, which may create the table. *)
Inductive score_step : ScoresCache → ScoresCache → Prop :=
| step_insert now info com bid s npid name c :
    info_ok info → no_tie (mode_of (the_table c com bid info)) s (st_sorted_scores (the_table c com bid info)) →
    score_step c (insert_score now info com bid s npid name c).2
| step_data com uid cid bid data_id c : score_step c (set_game_data com uid cid bid data_id c).2
| step_read com bid c : score_step c (get_table_or_insert com bid DbBoardInfo_default c).2.

Lemma score_step_keeps c c' : cache_inv c → score_step c c' → cache_inv c'.
Proof.
  intros Hc Hstep. destruct Hstep.
  - by apply (insert_score_keeps now info com bid s npid name c).
  - by apply set_game_data_keeps.
  - rewrite get_table_or_insert_eq. simpl.
    destruct (the_table_inv c com bid DbBoardInfo_default Hc) as (? & ? & ?); [split; simpl; lia|].
    by apply put_table_inv.
Qed.

(** Every state of the cache reachable by recording scores, attaching game data
    and reading is consistent: each board is sorted, holds at most one score per user
    and character, is indexed exactly, stays within its limit, and every player on it
    is known by name; so on every board, positions and index agree. *)
Theorem score_cache_consistent c :
  rtc score_step ScoresCache_new c →
  cache_inv c ∧
  ∀ d t, sc_tables c !! d = Some t →
    ∀ uid cid i, npid_get (st_npid_lookup t) uid cid = Some i ↔
      ∃ s, st_sorted_scores t !! i = Some s ∧ si_user_id s = uid ∧ si_character_id s = cid.
Proof.
  intros Hr. assert (cache_inv c) as Hc.
  { revert Hr. generalize cache_inv_new. generalize ScoresCache_new. intros c0 Hc0.
    induction 1 as [|c1 c2 c3 Hs _ IH]; [done|]. apply IH. by eapply score_step_keeps. }
  split; [done|]. intros d t Ht uid cid i. destruct (Hc d t Ht) as (Hi & _).
  rewrite (indexed_lookup _ _ (uid, cid) i (ti_nodup _ Hi) (ti_indexed _ Hi)).
  unfold skey. split; intros (s & Hs & Hk); exists s; (split; [done|]); [by simplify_eq|].
  by destruct Hk as [-> ->].
Qed.

Lemma score_cache_consistent_witness :
  let c := (insert_score 9 DbBoardInfo_default ex_com 1 (ex_score 7 100 3) "alice" "Alice" ScoresCache_new).2 in
  is_Some (get_table c ex_com 1) ∧ cache_inv c.
Proof.
  intros c. split; [vm_compute; eauto|]. apply (score_cache_consistent c).
  eapply rtc_l; [|apply rtc_refl]. apply step_insert.
  - unfold info_ok. simpl. lia.
  - intros x Hx. vm_compute in Hx. inversion Hx.
Defined.
