(* ===== verification/Text.v ===== *)
(** * Text

    What the code uses of Rust's [str], on the UTF-8 bytes of a string: trimming,
    splitting, lines and the parsing of unsigned integers. *)

From S2P Require Import Prelude Protocol.

(** ** White space *)

(** The characters with the property White_Space, in UTF-8. *)
Definition white_space : list bytes :=
  [[9]; [10]; [11]; [12]; [13]; [32]; [0xC2; 0x85]; [0xC2; 0xA0]; [0xE1; 0x9A; 0x80]]
  ++ ((λ b, [0xE2; 0x80; b]) <$> [0x80; 0x81; 0x82; 0x83; 0x84; 0x85; 0x86; 0x87; 0x88; 0x89; 0x8A; 0xA8; 0xA9; 0xAF])
  ++ [[0xE2; 0x81; 0x9F]; [0xE3; 0x80; 0x80]].

Definition starts_with (p s : bytes) : bool := bool_decide (take (length p) s = p).

(** Drops the given words off the front, as long as there is one. *)
Fixpoint strip_words (words : list bytes) (fuel : nat) (s : bytes) : bytes :=
  match fuel with
  | O => s
  | S fuel =>
      match find (λ w, starts_with w s) words with
      | Some w => strip_words words fuel (drop (length w) s)
      | None => s
      end
  end.

Definition trim_start (s : bytes) : bytes := strip_words white_space (length s) s.
Definition trim_end (s : bytes) : bytes := rev (strip_words ((λ w : bytes, rev w) <$> white_space) (length s) (rev s)).
Definition str_trim (s : bytes) : bytes := trim_end (trim_start s).

(** ** Splitting *)

(** [str::split(c)] for an ASCII character: one piece more than separators. *)
Fixpoint split (sep : Z) (s : bytes) : list bytes :=
  match s with
  | [] => [[]]
  | b :: s =>
      if bool_decide (b = sep) then [] :: split sep s
      else match split sep s with
           | [] => [[b]]
           | piece :: pieces => (b :: piece) :: pieces
           end
  end.

(** [str::splitn(2, c)]: the rest after the first separator is one piece. *)
Fixpoint split_once (sep : Z) (s : bytes) : option (bytes * bytes) :=
  match s with
  | [] => None
  | b :: s =>
      if bool_decide (b = sep) then Some ([], s)
      else '(x, y) ← split_once sep s; Some (b :: x, y)
  end.

Definition splitn2 (sep : Z) (s : bytes) : list bytes :=
  match split_once sep s with
  | Some (x, y) => [x; y]
  | None => [s]
  end.

(** [str::split("=>")]. *)
Fixpoint split_arrow (s : bytes) : list bytes :=
  match s with
  | 61 :: 62 :: s => [] :: split_arrow s
  | b :: s =>
      match split_arrow s with
      | [] => [[b]]
      | piece :: pieces => (b :: piece) :: pieces
      end
  | [] => [[]]
  end.

Definition join (sep : Z) (pieces : list bytes) : bytes :=
  match pieces with
  | [] => []
  | p :: ps => p ++ (ps ≫= λ q, sep :: q)
  end.

(** [str::lines]: pieces between line feeds, without a carriage return at their end;
    nothing after a final line feed. *)
Definition strip_cr (s : bytes) : bytes :=
  match last s with
  | Some 13 => take (length s - 1) s
  | _ => s
  end.

Definition lines (s : bytes) : list bytes :=
  let pieces := split 10 s in
  let pieces := match last pieces with Some [] => removelast pieces | _ => pieces end in
  strip_cr <$> pieces.

(** ** Numbers *)

Definition parse_digit (acc : option Z) (b : Z) : option Z :=
  n ← acc; if bool_decide (48 ≤ b ≤ 57) then Some (10 * n + (b - 48)) else None.

(** [str::parse] for an unsigned type with this maximum: digits after an optional plus
    sign. *)
Definition parse_unsigned (max : Z) (s : bytes) : option Z :=
  let digits := match s with 43 :: s => s | s => s end in
  if bool_decide (digits = []) then None
  else
    n ← foldl parse_digit (Some 0) digits;
    if bool_decide (n ≤ max) then Some n else None.

(** All pieces parse ([collect] into a [Result]). *)
Definition parse_all (max : Z) (pieces : list bytes) : option (list Z) := mapM (parse_unsigned max) pieces.

Definition eq_ignore_ascii_case (a b : bytes) : bool :=
  bool_decide (to_ascii_lowercase (string_of_bytes a) = to_ascii_lowercase (string_of_bytes b)).

(** ** Lemmas *)

Lemma split_no_sep sep s : sep ∉ s → split sep s = [s].
Proof.
  induction s as [|b s IH]; simpl; [done|]. intros [Hb Hs]%not_elem_of_cons.
  rewrite bool_decide_false by done. by rewrite IH.
Qed.

Lemma split_app sep x s : sep ∉ x → split sep (x ++ sep :: s) = x :: split sep s.
Proof.
  induction x as [|b x IH]; simpl; intros Hx.
  - by rewrite bool_decide_true.
  - apply not_elem_of_cons in Hx as [Hb Hx]. rewrite bool_decide_false by done. by rewrite IH.
Qed.

(** Splitting undoes joining when no piece has the separator. *)
Lemma split_join sep p ps : Forall (λ q, sep ∉ q) (p :: ps) → split sep (join sep (p :: ps)) = p :: ps.
Proof.
  simpl. revert p. induction ps as [|q ps IH]; intros p Hf; inversion_clear Hf as [|?? Hp Hps].
  - rewrite app_nil_r. by apply split_no_sep.
  - simpl. rewrite split_app by done. f_equal. by apply IH.
Qed.
