(* ===== verification/Json.v ===== *)
(** * JSON texts

    What the HTTP services write is text; what a consumer sees of it is the JSON value
    the text stands for.  This file has the values, a reader for the part of RFC 8259
    the server uses (integers, strings with two-character escapes, arrays, objects,
    white space), the printing of integers and of quoted strings, and the rules by which
    a printed text is read back. *)

From S2P Require Import Prelude Protocol Text.

Inductive json :=
| JNull
| JBool (b : bool)
| JNum (n : Z)
| JStr (s : bytes)
| JArr (l : list json)
| JObj (l : list (bytes * json)).

(** ** Printing *)

Abbreviation text := bytes_of_string.

Definition spaces (n : nat) : bytes := replicate n 32.

(** [{}] of an integer. *)
Fixpoint dec_digits (fuel : nat) (n : Z) : bytes :=
  match fuel with
  | O => []
  | S fuel => if bool_decide (n < 10) then [48 + n] else dec_digits fuel (n / 10) ++ [48 + n mod 10]
  end.

Definition show_int (n : Z) : bytes :=
  (if bool_decide (n < 0) then [45] else []) ++ dec_digits (S (Z.to_nat (Z.log2 (Z.abs n)))) (Z.abs n).

Definition show_bool (b : bool) : bytes := if b then text "true" else text "false".

Definition quoted (s : bytes) : bytes := [34] ++ s ++ [34].

(** The texts one per line, with a comma after all but the last. *)
Fixpoint comma_lines (texts : list bytes) : bytes :=
  match texts with
  | [] => []
  | [t] => t ++ [10]
  | t :: texts => t ++ [44; 10] ++ comma_lines texts
  end.

(** ** Reading *)

Definition is_ws (b : Z) : bool := bool_decide (b = 32 ∨ b = 9 ∨ b = 10 ∨ b = 13).
Definition is_digit (b : Z) : bool := bool_decide (48 ≤ b ≤ 57).

Fixpoint skip_ws (s : bytes) : bytes :=
  match s with
  | b :: s' => if is_ws b then skip_ws s' else s
  | [] => []
  end.

Fixpoint span_digits (s : bytes) : bytes * bytes :=
  match s with
  | b :: s' => if is_digit b then (λ '(d, r), (b :: d, r)) (span_digits s') else ([], s)
  | [] => ([], [])
  end.

(** A number without fraction and exponent: no leading zero. *)
Definition read_natural (s : bytes) : option (Z * bytes) :=
  let '(d, r) := span_digits s in
  match d with
  | [] => None
  | b :: d' => if bool_decide (b = 48 ∧ d' ≠ []) then None else n ← foldl parse_digit (Some 0) d; Some (n, r)
  end.

Definition read_number (s : bytes) : option (Z * bytes) :=
  match s with
  | b :: s' => if bool_decide (b = 45) then '(n, r) ← read_natural s'; Some (- n, r) else read_natural s
  | [] => None
  end.

(** The character of a two-character escape. *)
Definition unescape (b : Z) : option Z :=
  if bool_decide (b ∈ [34; 47; 92]) then Some b
  else if bool_decide (b = 98) then Some 8
  else if bool_decide (b = 102) then Some 12
  else if bool_decide (b = 110) then Some 10
  else if bool_decide (b = 114) then Some 13
  else if bool_decide (b = 116) then Some 9
  else None.

(** A string after its opening quote: control characters must not occur in it. *)
Fixpoint read_string (s : bytes) : option (bytes * bytes) :=
  match s with
  | [] => None
  | b :: s =>
      if bool_decide (b = 34) then Some ([], s)
      else if bool_decide (b = 92) then
        match s with
        | [] => None
        | c :: s => u ← unescape c; '(t, r) ← read_string s; Some (u :: t, r)
        end
      else if bool_decide (b < 32) then None
      else '(t, r) ← read_string s; Some (b :: t, r)
  end.

Definition strip_prefix (p s : bytes) : option bytes :=
  if starts_with p s then Some (drop (length p) s) else None.

Definition read_word (w : bytes) (v : json) (s : bytes) : option (json * bytes) :=
  r ← strip_prefix w s; Some (v, r).

(** The separator after an element: a comma (more follow) or the closing bracket. *)
Definition read_separator (close : Z) (s : bytes) : option (bool * bytes) :=
  match skip_ws s with
  | b :: r => if bool_decide (b = 44) then Some (true, r) else if bool_decide (b = close) then Some (false, r) else None
  | [] => None
  end.

(** An empty array or object: the rest after its closing bracket. *)
Definition closes (close : Z) (s : bytes) : option bytes :=
  match skip_ws s with
  | b :: r => if bool_decide (b = close) then Some r else None
  | [] => None
  end.

Fixpoint read_value (fuel : nat) (s : bytes) : option (json * bytes) :=
  match fuel with
  | O => None
  | S n =>
      match skip_ws s with
      | [] => None
      | b :: r =>
          if bool_decide (b = 34) then '(t, r) ← read_string r; Some (JStr t, r)
          else if bool_decide (b = 91) then
            match closes 93 r with
            | Some r => Some (JArr [], r)
            | None => '(l, r) ← read_elements n r; Some (JArr l, r)
            end
          else if bool_decide (b = 123) then
            match closes 125 r with
            | Some r => Some (JObj [], r)
            | None => '(l, r) ← read_members n r; Some (JObj l, r)
            end
          else if bool_decide (b = 116) then read_word (text "true") (JBool true) (b :: r)
          else if bool_decide (b = 102) then read_word (text "false") (JBool false) (b :: r)
          else if bool_decide (b = 110) then read_word (text "null") JNull (b :: r)
          else '(z, r) ← read_number (b :: r); Some (JNum z, r)
      end
  end
with read_elements (fuel : nat) (s : bytes) : option (list json * bytes) :=
  match fuel with
  | O => None
  | S n =>
      '(v, r) ← read_value n s;
      '(more, r) ← read_separator 93 r;
      if more : bool then '(l, r) ← read_elements n r; Some (v :: l, r) else Some ([v], r)
  end
with read_members (fuel : nat) (s : bytes) : option (list (bytes * json) * bytes) :=
  match fuel with
  | O => None
  | S n =>
      match skip_ws s with
      | b :: r =>
          if bool_decide (b = 34) then
            '(k, r) ← read_string r;
            match skip_ws r with
            | c :: r =>
                if bool_decide (c = 58) then
                  '(v, r) ← read_value n r;
                  '(more, r) ← read_separator 125 r;
                  if more : bool then '(l, r) ← read_members n r; Some ((k, v) :: l, r) else Some ([(k, v)], r)
                else None
            | [] => None
            end
          else None
      | [] => None
      end
  end.

(** The value of a whole text; every level of nesting takes a byte, so the length of
    the text is enough fuel. *)
Definition parse_json (s : bytes) : option json :=
  '(v, r) ← read_value (S (length s)) s;
  if bool_decide (skip_ws r = []) then Some v else None.

Example parse_json_example :
  parse_json (text "[ 1, -20 , {" ++ quoted (text "a") ++ text ": [], " ++ quoted (text "b") ++ text ":true } ]") =
    Some (JArr [JNum 1; JNum (-20); JObj [(text "a", JArr []); (text "b", JBool true)]]).
Proof. vm_compute. reflexivity. Qed.

(** ** Integers are read back *)

Lemma is_digit_true b : is_digit b = true ↔ 48 ≤ b ≤ 57.
Proof. apply bool_decide_eq_true. Qed.

(** What may follow a number. *)
Definition no_digit (s : bytes) : Prop := ∀ b r, s = b :: r → is_digit b = false.

Lemma span_digits_app d r :
  Forall (λ b, is_digit b = true) d → no_digit r → span_digits (d ++ r) = (d, r).
Proof.
  intros Hd Hr. induction Hd as [|b d Hb _ IH]; simpl.
  - destruct r as [|b r]; [done|]. simpl. by rewrite (Hr b r).
  - by rewrite Hb, IH.
Qed.

Lemma dec_digits_range fuel n : 0 ≤ n → Forall (λ b, is_digit b = true) (dec_digits fuel n).
Proof.
  revert n. induction fuel as [|fuel IH]; intros n Hn; simpl; [done|]. case_bool_decide.
  - apply Forall_singleton, is_digit_true. lia.
  - apply Forall_app. split; [apply IH, Z.div_pos; lia|]. apply Forall_singleton, is_digit_true.
    pose proof (Z.mod_pos_bound n 10). lia.
Qed.

Lemma parse_dec_digits fuel n :
  (0 < fuel)%nat → 0 ≤ n < 10 ^ Z.of_nat fuel → foldl parse_digit (Some 0) (dec_digits fuel n) = Some n.
Proof.
  revert n. induction fuel as [|fuel IH]; intros n Hf Hn; [lia|]. simpl. case_bool_decide as Hlt.
  - simpl. rewrite bool_decide_true by lia. f_equal. lia.
  - rewrite Nat2Z.inj_succ, Z.pow_succ_r in Hn by lia.
    assert (0 < n / 10) by (apply Z.div_str_pos; lia). assert (n / 10 < 10 ^ Z.of_nat fuel) by (apply Z.div_lt_upper_bound; lia).
    destruct fuel as [|fuel]; [simpl in *; lia|]. rewrite foldl_app, IH by lia. simpl.
    pose proof (Z.mod_pos_bound n 10 ltac:(lia)). rewrite bool_decide_true by lia. f_equal.
    pose proof (Z.div_mod n 10). lia.
Qed.

Lemma dec_digits_cons fuel n : ∃ b d, dec_digits (S fuel) n = b :: d.
Proof. simpl. case_bool_decide; [eauto|]. destruct (dec_digits fuel (n / 10)); simpl; eauto. Qed.

Lemma dec_digits_head fuel n b d : 0 < n < 10 ^ Z.of_nat fuel → dec_digits fuel n = b :: d → b ≠ 48.
Proof.
  revert n b d. induction fuel as [|fuel IH]; intros n b d Hn Hd; [done|]. simpl in Hd. case_bool_decide.
  - simplify_eq. lia.
  - rewrite Nat2Z.inj_succ, Z.pow_succ_r in Hn by lia.
    assert (0 < n / 10 < 10 ^ Z.of_nat fuel) as Hq
      by (split; [apply Z.div_str_pos; lia|apply Z.div_lt_upper_bound; lia]).
    destruct fuel as [|fuel]; [simpl in Hq; lia|]. destruct (dec_digits_cons fuel (n / 10)) as (b' & d' & E).
    rewrite E in Hd. simplify_eq/=. by eapply IH.
Qed.

Lemma read_natural_digits fuel n r :
  (0 < fuel)%nat → 0 ≤ n < 10 ^ Z.of_nat fuel → no_digit r → read_natural (dec_digits fuel n ++ r) = Some (n, r).
Proof.
  intros Hf Hn Hr. unfold read_natural. rewrite span_digits_app by (done || by apply dec_digits_range; lia).
  destruct fuel as [|fuel]; [lia|]. destruct (dec_digits_cons fuel n) as (b & d & E).
  pose proof (parse_dec_digits (S fuel) n Hf Hn) as Hp. rewrite E in *. rewrite bool_decide_false; [by rewrite Hp|].
  intros [-> Hd]. destruct (decide (n = 0)) as [->|]; [simpl in E; by simplify_eq|].
  by apply (dec_digits_head (S fuel) n 48 d ltac:(lia) E).
Qed.

Lemma fuel_enough n : 0 ≤ n → n < 10 ^ Z.of_nat (S (Z.to_nat (Z.log2 n))).
Proof.
  intros Hn. pose proof (Z.log2_nonneg n). rewrite Nat2Z.inj_succ, Z2Nat.id by done.
  destruct (decide (n = 0)) as [->|]; [done|].
  eapply Z.lt_le_trans; [apply Z.log2_spec; lia|]. apply Z.pow_le_mono_l. lia.
Qed.

(** The digits of a natural number: at least one, and read back. *)
Lemma natural_text n r :
  0 ≤ n → no_digit r → ∃ b d, dec_digits (S (Z.to_nat (Z.log2 n))) n = b :: d ∧ 48 ≤ b ≤ 57 ∧
    read_natural ((b :: d) ++ r) = Some (n, r).
Proof.
  intros Hn Hr. destruct (dec_digits_cons (Z.to_nat (Z.log2 n)) n) as (b & d & E). exists b, d. split; [done|].
  rewrite <- E. split.
  - pose proof (dec_digits_range (S (Z.to_nat (Z.log2 n))) n Hn) as Hd. rewrite E in Hd.
    by apply Forall_cons in Hd as [Hb%is_digit_true _].
  - apply read_natural_digits; [lia|split; [done|by apply fuel_enough]|done].
Qed.

Lemma read_number_show n r : no_digit r → read_number (show_int n ++ r) = Some (n, r).
Proof.
  intros Hr. unfold show_int. destruct (natural_text (Z.abs n) r) as (b & d & -> & Hb & Hnat); [lia|done|].
  case_bool_decide; simpl app in *; unfold read_number.
  - rewrite bool_decide_true, Hnat by done. simpl. by rewrite Z.abs_neq, Z.opp_involutive by lia.
  - rewrite bool_decide_false, Hnat by lia. by rewrite Z.abs_eq by lia.
Qed.

Lemma show_int_head n : ∃ b d, show_int n = b :: d ∧ (b = 45 ∨ 48 ≤ b ≤ 57).
Proof.
  unfold show_int. destruct (natural_text (Z.abs n) []) as (b & d & -> & Hb & _); [lia|intros ??; discriminate|].
  case_bool_decide; simpl; eauto.
Qed.

(** ** Strings are read back *)

(** A printable text: no quote, backslash or control character. *)
Definition plain_char (b : Z) : bool := bool_decide (32 ≤ b ∧ b ≠ 34 ∧ b ≠ 92).
Definition plain (s : bytes) : bool := forallb plain_char s.

Lemma read_string_plain s r : plain s = true → read_string (s ++ [34] ++ r) = Some (s, r).
Proof.
  induction s as [|b s IH]; simpl; [done|]. intros [Hb Hs]%andb_true_iff. apply bool_decide_eq_true in Hb as (? & ? & ?).
  rewrite !bool_decide_false by lia. simpl in IH. by rewrite IH.
Qed.

(** ** White space *)

Definition blank (w : bytes) : Prop := Forall (λ b, is_ws b = true) w.

Lemma skip_ws_blank w s : blank w → skip_ws (w ++ s) = skip_ws s.
Proof. induction 1 as [|b w Hb _ IH]; simpl; [done|]. by rewrite Hb. Qed.

Lemma blank_spaces n : blank (spaces n).
Proof. by apply Forall_replicate. Qed.

Lemma no_digit_cons b r : is_digit b = false → no_digit (b :: r).
Proof. intros Hb b' r' [= <- _]. done. Qed.

Lemma is_ws_digit b : is_ws b = true → is_digit b = false.
Proof. unfold is_ws, is_digit. intros Hb%bool_decide_eq_true. apply bool_decide_eq_false. lia. Qed.

Lemma no_digit_blank w b r : blank w → is_digit b = false → no_digit (w ++ b :: r).
Proof.
  intros Hw Hb. destruct Hw as [|b' w Hb' _]; simpl; apply no_digit_cons; [done|]. by apply is_ws_digit.
Qed.

Lemma read_separator_comma close w r : blank w → read_separator close (w ++ 44 :: r) = Some (true, r).
Proof. intros Hw. unfold read_separator. by rewrite skip_ws_blank. Qed.

Lemma read_separator_close close w r :
  close = 93 ∨ close = 125 → blank w → read_separator close (w ++ close :: r) = Some (false, r).
Proof. intros Hc Hw. unfold read_separator. rewrite skip_ws_blank by done. by destruct Hc as [->| ->]. Qed.

(** ** Texts and the values they are read as *)

(** The text stands for the value, whatever follows it (a digit apart), with the length
    of the text as fuel; the same for the inside of an array and of an object, their
    closing bracket included. *)
Definition reads (t : bytes) (v : json) : Prop :=
  ∀ n r, (length t < n)%nat → no_digit r → read_value n (t ++ r) = Some (v, r).

Definition reads_elements (t : bytes) (l : list json) : Prop :=
  ∀ n r, (length t < n)%nat → read_elements n (t ++ r) = Some (l, r).

Definition reads_members (t : bytes) (l : list (bytes * json)) : Prop :=
  ∀ n r, (length t < n)%nat → read_members n (t ++ r) = Some (l, r).

(** [name: value], without the blanks before it. *)
Definition member (name : bytes) (colon value : bytes) : bytes := quoted name ++ colon ++ value.

Definition is_colon (c : bytes) : Prop := ∃ w w', c = w ++ [58] ++ w' ∧ blank w ∧ blank w'.

Lemma read_value_blank n w s : blank w → read_value n (w ++ s) = read_value n s.
Proof. intros Hw. destruct n; [done|]. cbn [read_value]. by rewrite skip_ws_blank. Qed.

Lemma read_members_blank n w s : blank w → read_members n (w ++ s) = read_members n s.
Proof. intros Hw. destruct n; [done|]. cbn [read_members]. by rewrite skip_ws_blank. Qed.

Lemma reads_blank w t v : blank w → reads t v → reads (w ++ t) v.
Proof.
  intros Hw Ht n r Hn Hr. rewrite length_app in Hn. rewrite <- app_assoc, read_value_blank by done. apply Ht; [lia|done].
Qed.

Lemma members_blank w t l : blank w → reads_members t l → reads_members (w ++ t) l.
Proof.
  intros Hw Ht n r Hn. rewrite length_app in Hn. rewrite <- app_assoc, read_members_blank by done. apply Ht; lia.
Qed.

Lemma elements_blank w t l : blank w → reads_elements t l → reads_elements (w ++ t) l.
Proof.
  intros Hw Ht n r Hn. rewrite length_app in Hn. destruct n as [|n]; [lia|].
  rewrite <- (Ht (S n)) by lia. cbn [read_elements]. by rewrite <- app_assoc, read_value_blank.
Qed.

Lemma reads_num n : reads (show_int n) (JNum n).
Proof.
  intros [|k] r Hk Hr; [lia|]. pose proof (read_number_show n r Hr) as Hn.
  destruct (show_int_head n) as (b & d & E & Hb). rewrite E in *. cbn [read_value app skip_ws].
  assert (is_ws b = false) as -> by (apply bool_decide_eq_false; lia).
  rewrite !bool_decide_false by lia. simpl app in Hn. by rewrite Hn.
Qed.

Lemma reads_bool b : reads (show_bool b) (JBool b).
Proof. intros [|k] r Hk Hr; [lia|]. by destruct b. Qed.

Lemma reads_str s t : (∀ r, read_string (s ++ [34] ++ r) = Some (t, r)) → reads (quoted s) (JStr t).
Proof.
  intros Hs [|k] r Hk Hr; [lia|]. unfold quoted. rewrite <- !app_assoc. cbn [read_value app skip_ws].
  change (is_ws 34) with false. cbn iota. rewrite bool_decide_true by done. simpl app in Hs. by rewrite Hs.
Qed.

Lemma read_value_open n s v r : read_value n s = Some (v, r) → closes 93 s = None.
Proof.
  destruct n; [done|]. cbn [read_value]. unfold closes. destruct (skip_ws s) as [|b t]; [done|].
  destruct (decide (b = 93)) as [->|]; [vm_compute; discriminate|by rewrite (bool_decide_false (b = 93))].
Qed.

Lemma read_members_open n s l r : read_members n s = Some (l, r) → closes 125 s = None.
Proof.
  destruct n; [done|]. cbn [read_members]. unfold closes. destruct (skip_ws s) as [|b t]; [done|].
  destruct (decide (b = 125)) as [->|]; [vm_compute; discriminate|by rewrite (bool_decide_false (b = 125))].
Qed.

Lemma reads_arr_nil w : blank w → reads ([91] ++ w ++ [93]) (JArr []).
Proof.
  intros Hw [|n] r Hn Hr; [lia|]. rewrite <- !app_assoc. simpl app. cbn [read_value skip_ws].
  change (is_ws 91) with false. cbn iota. rewrite bool_decide_false, bool_decide_true by done. unfold closes.
  by rewrite skip_ws_blank.
Qed.

Lemma reads_arr t l : reads_elements t l → reads ([91] ++ t) (JArr l).
Proof.
  intros Ht [|n] r Hn Hr; [lia|]. simpl in Hn. pose proof (Ht n r ltac:(lia)) as He.
  cbn [read_value app skip_ws]. change (is_ws 91) with false. cbn iota. rewrite bool_decide_false, bool_decide_true by done.
  destruct n as [|n]; [lia|]. pose proof He as Hv. cbn [read_elements] in Hv.
  destruct (read_value n (t ++ r)) as [[v r']|] eqn:E; [|done]. apply read_value_open in E as ->. by rewrite He.
Qed.

Lemma reads_obj t l : reads_members t l → reads ([123] ++ t) (JObj l).
Proof.
  intros Ht [|n] r Hn Hr; [lia|]. simpl in Hn. pose proof (Ht n r ltac:(lia)) as He.
  cbn [read_value app skip_ws]. change (is_ws 123) with false. cbn iota.
  rewrite !bool_decide_false, bool_decide_true by done. by rewrite (read_members_open _ _ _ _ He), He.
Qed.

Lemma elements_last t v w : reads t v → blank w → reads_elements (t ++ w ++ [93]) [v].
Proof.
  intros Ht Hw [|n] r Hn; [lia|]. rewrite !length_app in Hn. simpl in Hn. cbn [read_elements].
  rewrite <- !app_assoc. simpl app. rewrite Ht by (lia || by apply no_digit_blank). cbn. by rewrite read_separator_close by auto.
Qed.

Lemma elements_cons t v w ts l :
  reads t v → blank w → reads_elements ts l → reads_elements (t ++ w ++ [44] ++ ts) (v :: l).
Proof.
  intros Ht Hw Hts [|n] r Hn; [lia|]. rewrite !length_app in Hn. simpl in Hn. cbn [read_elements]. rewrite <- !app_assoc. simpl app.
  rewrite Ht by (lia || by apply no_digit_blank). cbn. rewrite read_separator_comma by auto. cbn.
  by rewrite Hts by lia.
Qed.

(** The pairs of a name and a value text that stand for the members of an object. *)
Lemma read_member_text {A} k colon t v n r (f : bytes → json → bytes → option A) :
  plain k = true → is_colon colon → reads t v → no_digit r → (length t < n)%nat →
  match skip_ws (member k colon t ++ r) with
  | b :: r =>
      if bool_decide (b = 34) then
        '(k, r) ← read_string r;
        match skip_ws r with
        | c :: r => if bool_decide (c = 58) then '(v, r) ← read_value n r; f k v r else None
        | [] => None
        end
      else None
  | [] => None
  end = f k v r.
Proof.
  intros Hk (w & w' & -> & Hw & Hw') Ht Hr Hn. unfold member, quoted. rewrite <- !app_assoc.
  change ([34] ++ k ++ ?x) with (34 :: k ++ x). cbn [skip_ws]. change (is_ws 34) with false. cbn iota.
  rewrite bool_decide_true, read_string_plain by done. cbn [mbind option_bind]. rewrite skip_ws_blank by done.
  change ([58] ++ ?x) with (58 :: x). cbn [skip_ws]. change (is_ws 58) with false. cbn iota.
  rewrite bool_decide_true, read_value_blank, Ht by done. done.
Qed.

Lemma members_last k colon t v w :
  plain k = true → is_colon colon → reads t v → blank w → reads_members (member k colon t ++ w ++ [125]) [(k, v)].
Proof.
  intros Hk Hc Ht Hw [|n] r Hn; [lia|]. unfold member in Hn. rewrite !length_app in Hn. simpl in Hn.
  cbn [read_members]. rewrite <- !app_assoc.
  rewrite (read_member_text k colon t v n); [|done|done|done| |lia].
  - cbn. by rewrite read_separator_close by auto.
  - by apply no_digit_blank.
Qed.

Lemma members_cons k colon t v w ts l :
  plain k = true → is_colon colon → reads t v → blank w → reads_members ts l →
  reads_members (member k colon t ++ w ++ [44] ++ ts) ((k, v) :: l).
Proof.
  intros Hk Hc Ht Hw Hts [|n] r Hn; [lia|]. unfold member in Hn. rewrite !length_app in Hn. simpl in Hn.
  cbn [read_members]. rewrite <- !app_assoc.
  rewrite (read_member_text k colon t v n); [|done|done|done| |lia].
  - cbn. rewrite read_separator_comma by auto. cbn. by rewrite Hts by lia.
  - by apply no_digit_blank.
Qed.

(** A text with a member of an object in it. *)
Definition reads_member (t : bytes) (kv : bytes * json) : Prop :=
  ∃ w colon t', t = w ++ member kv.1 colon t' ∧ blank w ∧ plain kv.1 = true ∧ is_colon colon ∧ reads t' kv.2.

(** A value with blanks after it. *)
Definition reads_padded (t : bytes) (v : json) : Prop := ∃ t' w, t = t' ++ w ∧ reads t' v ∧ blank w.

Lemma reads_padded_0 t v : reads t v → reads_padded t v.
Proof. intros Ht. exists t, []. rewrite app_nil_r. split_and!; [done..|constructor]. Qed.

(** Lines separated by commas are the elements of an array, and the members of an
    object. *)
Lemma elements_lines texts vals w :
  Forall2 reads_padded texts vals → vals ≠ [] → blank w → reads_elements (comma_lines texts ++ w ++ [93]) vals.
Proof.
  intros Hf Hne Hw. induction Hf as [|t v texts vals Ht Hf IH]; [done|].
  destruct Ht as (t0 & w0 & -> & Ht & Hw0). destruct Hf as [|t' v' texts vals Ht' Hf].
  - replace (comma_lines _ ++ w ++ [93]) with (t0 ++ (w0 ++ [10] ++ w) ++ [93]) by (simpl; by rewrite <- !app_assoc).
    apply elements_last; [done|]. apply Forall_app. split; [done|]. by apply Forall_cons.
  - change (comma_lines (?t :: t' :: texts)) with (t ++ [44; 10] ++ comma_lines (t' :: texts)).
    rewrite <- !app_assoc. apply (elements_cons t0 v w0 ([10] ++ _)); [done|done|].
    apply elements_blank; [by apply Forall_singleton|]. by apply IH.
Qed.

Lemma members_lines texts l w :
  Forall2 reads_member texts l → l ≠ [] → blank w → reads_members (comma_lines texts ++ w ++ [125]) l.
Proof.
  intros Hf Hne Hw. induction Hf as [|t [k v] texts l Ht Hf IH]; [done|].
  destruct Ht as (w' & colon & t' & -> & Hw' & Hk & Hc & Ht'). destruct Hf as [|t2 kv2 texts l Ht2 Hf].
  - simpl. rewrite <- !app_assoc. apply members_blank; [done|].
    apply (members_last k colon t' v ([10] ++ w)); [done..|]. by apply Forall_cons.
  - change (comma_lines (?t :: t2 :: texts)) with (t ++ [44; 10] ++ comma_lines (t2 :: texts)).
    rewrite <- !app_assoc. apply members_blank; [done|].
    apply (members_cons k colon t' v [] ([10] ++ _)); [done..|constructor|].
    apply members_blank; [by apply Forall_singleton|]. by apply IH.
Qed.

Lemma comma_lines_cons t texts : comma_lines (t :: texts) = t ++ (texts ≫= λ t, [44; 10] ++ t) ++ [10].
Proof.
  revert t. induction texts as [|t' texts IH]; intros t; [done|].
  change (comma_lines (t :: t' :: texts)) with (t ++ [44; 10] ++ comma_lines (t' :: texts)).
  rewrite IH. simpl. by rewrite <- !app_assoc.
Qed.

Lemma parse_reads t v : reads t v → parse_json t = Some v.
Proof.
  intros Ht. unfold parse_json. rewrite <- (app_nil_r t) at 2. rewrite Ht by (lia || by intros ??). done.
Qed.

#[export] Hint Resolve reads_num reads_bool reads_blank reads_arr reads_obj blank_spaces : json.
