(* ===== verification/Http.v ===== *)
(** * HTTP

    What the statistics server (hyper) and the API server (axum) see of a request and
    say in a response: the parts of the libraries' types that the code reads and
    writes.  The path is that of [Uri::path], still percent-encoded. *)

From S2P Require Import Prelude.

Inductive Method := GET | HEAD | POST | OtherMethod.

#[export] Instance method_eq_dec : EqDecision Method.
Proof. solve_decision. Defined.

Record Request := mkRequest {
  rq_method : Method;
  rq_path : bytes;
  rq_api_key : option bytes;
  rq_body : bytes;
}.

Record Response := mkResponse {
  rs_status : Z;
  rs_content_type : option string;
  rs_body : bytes;
}.

#[export] Instance response_eq_dec : EqDecision Response.
Proof. solve_decision. Defined.

(** [Response::new], and a response with [Content-Type: application/json]. *)
Definition Response_new (body : bytes) : Response := mkResponse 200 None body.
Definition json_response (status : Z) (body : bytes) : Response := mkResponse status (Some "application/json"%string) body.
