(* ===== verification/Database.v ===== *)
(** * The database (src/src/server/database.rs)

    The tables as finite maps from their primary keys, and the SQL statements the
    server issues as atomic steps on them: each statement either fails without an
    effect (an unexpected error, or a violated constraint) or takes effect as a
    whole.  [Database] is what the migrations leave; foreign keys are enforced, as
    in the bundled SQLite. *)

From S2P Require Import Prelude Protocol ScoreCache.

(** ** Errors *)

Inductive DbError :=
| DbInternal
| DbInvalid
| DbEmpty
| DbWrongPass
| DbWrongToken
| DbExistingUsername
| DbExistingEmail
| DbScoreNotBest.

#[export] Instance DbError_eq_dec : EqDecision DbError.
Proof. solve_decision. Defined.

(** The errors of [rusqlite] the code tells apart: no row, a violated constraint (with
    the column of the message), anything else. *)
Inductive SqlError :=
| QueryReturnedNoRows
| ConstraintViolation (column : string)
| SqliteFailure.

(** ** Tables *)

Record Account := mkAccount {
  ac_username : string;
  ac_hash : bytes;
  ac_salt : bytes;
  ac_online_name : string;
  ac_avatar_url : string;
  ac_email : string;
  ac_email_check : string;
  ac_token : string;
  ac_reset_token : option string;
  ac_admin : bool;
  ac_stat_agent : bool;
  ac_banned : bool;
}.
#[export] Instance account_eta : Eta Account := λ a,
  mkAccount (ac_username a) (ac_hash a) (ac_salt a) (ac_online_name a) (ac_avatar_url a) (ac_email a)
    (ac_email_check a) (ac_token a) (ac_reset_token a) (ac_admin a) (ac_stat_agent a) (ac_banned a).

Record AccountTimestamp := mkAccountTimestamp {
  at_creation : Z;
  at_last_login : option Z;
  at_token_last_sent : option Z;
  at_reset_emit : option Z;
}.
#[export] Instance account_timestamp_eta : Eta AccountTimestamp := λ t,
  mkAccountTimestamp (at_creation t) (at_last_login t) (at_token_last_sent t) (at_reset_emit t).

(** A row of [score], without its key. *)
Record ScoreRow := mkScoreRow {
  sr_score : Z;
  sr_comment : option string;
  sr_game_info : option bytes;
  sr_data_id : option Z;
  sr_timestamp : Z;
}.
#[export] Instance score_row_eta : Eta ScoreRow := λ r,
  mkScoreRow (sr_score r) (sr_comment r) (sr_game_info r) (sr_data_id r) (sr_timestamp r).

(** A row of [tus_var] or [tus_var_vuser], and of the two data tables.  A variable
    outside the 64-bit range is a REAL in the table (see [sql_add]). *)
Record TusVarRow := mkTusVarRow {
  tv_value : Z;
  tv_timestamp : Z;
  tv_author : Z;
}.
#[export] Instance tus_var_row_eta : Eta TusVarRow := λ r, mkTusVarRow (tv_value r) (tv_timestamp r) (tv_author r).

Record TusDataRow := mkTusDataRow {
  td_data_id : Z;
  td_info : bytes;
  td_timestamp : Z;
  td_author : Z;
}.
#[export] Instance tus_data_row_eta : Eta TusDataRow := λ r,
  mkTusDataRow (td_data_id r) (td_info r) (td_timestamp r) (td_author r).

(** The tables of title user storage are keyed by owner, title and slot; the owner is
    a user id or the name of a virtual user. *)
Abbreviation TusVars K := (gmap (K * ComId * Z) TusVarRow).
Abbreviation TusDatas K := (gmap (K * ComId * Z) TusDataRow).

(** [db_sequence] is the largest user id ever given (AUTOINCREMENT); [db_faults] says
    of the statements to come whether they fail unexpectedly (none when it is used
    up). *)
Record Database := mkDatabase {
  db_account : gmap Z Account;
  db_sequence : Z;
  db_account_timestamp : gmap Z AccountTimestamp;
  db_friendship : gmap (Z * Z) (Z * Z);
  db_servers : gset (string * Z);
  db_worlds : gmap (string * Z) Z;
  db_lobbies : gmap (string * Z) Z;
  db_score_table : gmap (string * Z) DbBoardInfo;
  db_score : gmap (string * Z * Z * Z) ScoreRow;
  db_tus_var : TusVars Z;
  db_tus_var_vuser : TusVars string;
  db_tus_data : TusDatas Z;
  db_tus_data_vuser : TusDatas string;
  db_username_hash : gmap bytes Z;
  db_email_hash : gmap bytes Z;
  db_username_salt : option bytes;
  db_email_salt : option bytes;
  db_faults : list bool;
}.
#[export] Instance database_eta : Eta Database := λ d,
  mkDatabase (db_account d) (db_sequence d) (db_account_timestamp d) (db_friendship d) (db_servers d)
    (db_worlds d) (db_lobbies d) (db_score_table d) (db_score d) (db_tus_var d) (db_tus_var_vuser d)
    (db_tus_data d) (db_tus_data_vuser d) (db_username_hash d) (db_email_hash d) (db_username_salt d)
    (db_email_salt d) (db_faults d).

Definition empty_db : Database := mkDatabase ∅ 0 ∅ ∅ ∅ ∅ ∅ ∅ ∅ ∅ ∅ ∅ ∅ ∅ ∅ None None [].

(** What the server does not implement itself: [argon2::hash_raw] of a password (or
    name) and a salt, [lettre]'s parser of addresses, the nearest double of an integer,
    the constraint SQLite reports when a new account violates both of its unique
    constraints. *)
Class External := {
  hash_raw : bytes → bytes → option bytes;
  valid_address : string → bool;
  round_double : Z → Z;
  username_checked_first : bool;
}.

(** ** Statements *)

Abbreviation SQL := (M Database SqlError).
Abbreviation DB := (M Database DbError).

(** One statement. *)
Definition sql {A} (f : Database → SqlError + A * Database) : SQL A := λ db,
  match db_faults db with
  | true :: faults => (Err SqliteFailure, db <| db_faults := faults |>)
  | faults =>
      let db := db <| db_faults := tail faults |> in
      match f db with
      | inl e => (Err e, db)
      | inr (a, db') => (Ok a, db')
      end
  end.

(** An UPDATE or DELETE without constraints, a SELECT of all rows, and a SELECT of one
    row. *)
Definition execute (f : Database → Database) : SQL unit := sql (λ db, inr (tt, f db)).
Definition select {A} (f : Database → A) : SQL A := sql (λ db, inr (f db, db)).
Definition query_row {A} (f : Database → option A) : SQL A :=
  sql (λ db, match f db with Some a => inr (a, db) | None => inl QueryReturnedNoRows end).

(** [.map_err(|_| DbError::Internal)]. *)
Definition internal {A} (m : SQL A) : DB A := map_err (λ _, DbInternal) m.

(** [QueryReturnedNoRows] is [DbError::Empty], the rest [DbError::Internal]. *)
Definition or_empty {A} (m : SQL A) : DB A :=
  map_err (λ e, match e with QueryReturnedNoRows => DbEmpty | _ => DbInternal end) m.

(** Integer addition of SQLite: a sum that leaves the 64-bit range is done on doubles;
    a double in range goes back to an integer when it is stored in an INTEGER column. *)
Definition in_i64 (z : Z) : bool := bool_decide (- 2 ^ 63 ≤ z < 2 ^ 63).

Definition sql_add `{!External} (a b : Z) : Z :=
  if in_i64 a && in_i64 b && in_i64 (a + b) then a + b else round_double (a + b).

(** ** Constraints *)

Definition has_account (db : Database) (user_id : Z) : bool := bool_decide (is_Some (db_account db !! user_id)).

(** The row with this user name, exactly. *)
Definition find_account (db : Database) (username : string) : option (Z * Account) :=
  head (filter (λ '(_, a), ac_username a = username) (map_to_list (db_account db))).

(** [UNIQUE(username COLLATE NOCASE)] and [email_check TEXT UNIQUE]. *)
Definition username_taken (db : Database) (username : string) : bool :=
  existsb (λ '(_, a), bool_decide (to_ascii_lowercase (ac_username a) = to_ascii_lowercase username))
    (map_to_list (db_account db)).

Definition email_taken (db : Database) (email_check : string) : bool :=
  existsb (λ '(_, a), bool_decide (ac_email_check a = email_check)) (map_to_list (db_account db)).

Definition account_conflict `{!External} (db : Database) (a : Account) : option string :=
  let by_name := if username_taken db (ac_username a) then Some "account.username"%string else None in
  let by_email := if email_taken db (ac_email_check a) then Some "account.email_check"%string else None in
  if username_checked_first then match by_name with Some c => Some c | None => by_email end
  else match by_email with Some c => Some c | None => by_name end.

(** [INSERT INTO account]: the id is one above every id given before. *)
Definition insert_account `{!External} (a : Account) : SQL unit := sql (λ db,
  match account_conflict db a with
  | Some column => inl (ConstraintViolation column)
  | None =>
      let user_id := db_sequence db + 1 in
      if in_i64 user_id
      then inr (tt, db <| db_account ::= <[user_id := a]> |> <| db_sequence := user_id |>)
      else inl SqliteFailure
  end).

(** [INSERT INTO account_timestamp]: once per account, which exists. *)
Definition insert_account_timestamp (user_id : Z) (t : AccountTimestamp) : SQL unit := sql (λ db,
  if bool_decide (is_Some (db_account_timestamp db !! user_id)) then inl (ConstraintViolation "account_timestamp.user_id")
  else if has_account db user_id then inr (tt, db <| db_account_timestamp ::= <[user_id := t]> |>)
  else inl (ConstraintViolation "")).

(** [UPDATE account_timestamp ... WHERE user_id = ?]. *)
Definition update_account_timestamp (user_id : Z) (f : AccountTimestamp → AccountTimestamp) : SQL unit :=
  execute (λ db, db <| db_account_timestamp ::= alter f user_id |>).

(** The rows of the data tables written by none of these users. *)
Definition authors_clear (ids : gset Z) (db : Database) : bool :=
  forallb (λ r, bool_decide (tv_author r ∉ ids)) (map_to_list (db_tus_var db)).*2 &&
  forallb (λ r, bool_decide (tv_author r ∉ ids)) (map_to_list (db_tus_var_vuser db)).*2 &&
  forallb (λ r, bool_decide (td_author r ∉ ids)) (map_to_list (db_tus_data db)).*2 &&
  forallb (λ r, bool_decide (td_author r ∉ ids)) (map_to_list (db_tus_data_vuser db)).*2.

(** The rows that go with the accounts ([ON DELETE CASCADE]). *)
Definition cascade (ids : gset Z) (db : Database) : Database :=
  db <| db_account ::= filter (λ '(u, _), u ∉ ids) |>
     <| db_account_timestamp ::= filter (λ '(u, _), u ∉ ids) |>
     <| db_friendship ::= filter (λ '((u, v), _), u ∉ ids ∧ v ∉ ids) |>
     <| db_score ::= filter (λ '((_, _, u, _), _), u ∉ ids) |>
     <| db_tus_var ::= filter (λ '((u, _, _), _), u ∉ ids) |>
     <| db_tus_data ::= filter (λ '((u, _, _), _), u ∉ ids) |>.

(** [DELETE FROM account WHERE user_id IN ids]: refused while some stored value is
    authored by one of them. *)
Definition delete_accounts (ids : gset Z) : SQL unit := sql (λ db,
  let db' := cascade (ids ∩ dom (db_account db)) db in
  if authors_clear (ids ∩ dom (db_account db)) db' then inr (tt, db') else inl (ConstraintViolation "")).

(** [UPDATE <table> SET author_id = new WHERE author_id = old]. *)
Definition reauthor {K} `{Countable K} {V} (author : V → Z) (set_author : Z → V → V) (old new : Z)
  (get : Database → gmap K V) (put : gmap K V → Database → Database) : SQL unit := sql (λ db,
  let touched := existsb (λ r, bool_decide (author r = old)) (map_to_list (get db)).*2 in
  if touched && negb (has_account db new) then inl (ConstraintViolation "")
  else inr (tt, put ((λ r, if bool_decide (author r = old) then set_author new r else r) <$> get db) db)).
