(* ===== verification/Accounts.v ===== *)
(** * Accounts, friends and servers in the database (src/src/server/database.rs)

    The methods of [Database] on accounts, their time stamps and the hashes of
    deleted ones, on friendships, and on the servers and worlds of titles.  The
    clock ([now], in seconds) and the random bytes are arguments. *)

From S2P Require Import Prelude Protocol ScoreCache Database.

Definition DELETED_USER_USERNAME : string := "DeletedUser".

(** The bytes [StdRng] draws for one request: a salt of 64 and a token of 8. *)
Record Draw := mkDraw {
  rn_salt : bytes;
  rn_token : bytes;
}.

(** [get_timestamp_days] of the same clock. *)
Definition days (now : Z) : Z := now / (60 * 60 * 24).

(** One byte as [{:02X}]. *)
Definition hex_digit (d : Z) : Z := if bool_decide (d < 10) then 48 + d else 55 + d.
Definition hex_byte (b : Z) : bytes := [hex_digit (b / 16); hex_digit (b mod 16)].

Definition generate_token (rng : Draw) : string := string_of_bytes (rn_token rng ≫= hex_byte).

Record UserQueryResult := mkUserQueryResult {
  uq_user_id : Z;
  uq_account : Account;
}.

Record UserAdminInfo := mkUserAdminInfo {
  ua_user_id : Z;
  ua_username : string;
  ua_online_name : string;
  ua_avatar_url : string;
  ua_admin : bool;
  ua_banned : bool;
  ua_creation : option Z;
  ua_last_login : option Z;
}.

Definition FriendStatus_Friend : Z := Z.shiftl 1 0.
Definition FriendStatus_Blocked : Z := Z.shiftl 1 1.

Record UserRelationships := mkUserRelationships {
  ur_friends : list (Z * string);
  ur_friend_requests : list (Z * string);
  ur_friend_requests_received : list (Z * string);
  ur_blocked : list (Z * string);
}.

Section accounts.
Context `{!External}.

Definition hash_password (rng : Draw) (password : string) : res DbError (bytes * bytes) :=
  let? hash := unwrap (hash_raw (bytes_of_string password) (rn_salt rng)) in Ok (hash, rn_salt rng).

(** ** Names and addresses of deleted accounts *)

Definition get_username_salt : DB bytes := internal (query_row db_username_salt).
Definition get_email_salt : DB bytes := internal (query_row db_email_salt).

Definition hash_username (username : string) : DB bytes :=
  do username_salt <- get_username_salt;
  lift (ok_or DbInternal (hash_raw (bytes_of_string username) username_salt)).

Definition hash_email (email_check : string) : DB bytes :=
  do email_salt <- get_email_salt;
  lift (ok_or DbInternal (hash_raw (bytes_of_string email_check) email_salt)).

Definition check_username_vs_deleted (username : string) : DB unit :=
  do username_hash <- hash_username username;
  do known <- internal (select (λ db, bool_decide (is_Some (db_username_hash db !! username_hash))));
  if known : bool then fail DbExistingUsername else ret tt.

Definition check_email_vs_deleted (email_check : string) : DB unit :=
  do email_hash <- hash_email email_check;
  do known <- internal (select (λ db, bool_decide (is_Some (db_email_hash db !! email_hash))));
  if known : bool then fail DbExistingEmail else ret tt.

Definition insert_username_hash (hash : bytes) (date : Z) : SQL unit := sql (λ db,
  if bool_decide (is_Some (db_username_hash db !! hash)) then inl (ConstraintViolation "username_hash.hash_value")
  else inr (tt, db <| db_username_hash ::= <[hash := date]> |>)).

Definition insert_email_hash (hash : bytes) (date : Z) : SQL unit := sql (λ db,
  if bool_decide (is_Some (db_email_hash db !! hash)) then inl (ConstraintViolation "email_hash.hash_value")
  else inr (tt, db <| db_email_hash ::= <[hash := date]> |>)).

(** [DELETE ... WHERE hash_date < timestamp]: the number of rows. *)
Definition expired (timestamp : Z) (m : gmap bytes Z) : Z := Z.of_nat (size (filter (λ '(_, d), d < timestamp) m)).

Definition drop_username_hashes (timestamp : Z) : SQL Z := sql (λ db,
  inr (expired timestamp (db_username_hash db), db <| db_username_hash ::= filter (λ '(_, d), ¬ d < timestamp) |>)).

Definition drop_email_hashes (timestamp : Z) : SQL Z := sql (λ db,
  inr (expired timestamp (db_email_hash db), db <| db_email_hash ::= filter (λ '(_, d), ¬ d < timestamp) |>)).

(** The numbers of user name and address hashes that were dropped. *)
Definition cleanup_expired_hashes (now : Z) : DB (Z * Z) :=
  let timestamp := days now - 3 * 30 in
  if bool_decide (timestamp < 0) then fail DbInternal
  else
    do num_username <- internal (drop_username_hashes timestamp);
    do num_email <- internal (drop_email_hashes timestamp);
    ret (num_username, num_email).

(** ** Lookups *)

Definition get_user_id (npid : string) : DB Z :=
  or_empty (query_row (λ db, fst <$> find_account db npid)).

Definition get_username (user_id : Z) : DB string :=
  or_empty (query_row (λ db, ac_username <$> db_account db !! user_id)).

Definition get_email_check (user_id : Z) : DB string :=
  or_empty (query_row (λ db, ac_email_check <$> db_account db !! user_id)).

Definition get_deleted_user_id : DB Z := map_err (λ _, DbInternal) (get_user_id DELETED_USER_USERNAME).

Definition check_user (username password token : string) (check_token : bool) : DB UserQueryResult :=
  do found <- or_empty (query_row (λ db, find_account db username));
  let '(user_id, res) := found in
  if check_token && bool_decide (ac_token res ≠ token) then fail DbWrongToken
  else
    do hash <- lift (unwrap (hash_raw (bytes_of_string password) (ac_salt res)));
    if bool_decide (hash ≠ ac_hash res) then fail DbWrongPass
    else ret (mkUserQueryResult user_id res).

Definition check_email (username email : string) : DB (Z * string) :=
  or_empty (query_row (λ db,
    '(user_id, a) ← find_account db username;
    if bool_decide (ac_email_check a = email) then Some (user_id, ac_email a) else None)).

Definition check_reset_token (username reset_token : string) : DB Z :=
  or_empty (query_row (λ db,
    '(user_id, a) ← find_account db username;
    if bool_decide (ac_reset_token a = Some reset_token) then Some user_id else None)).

Definition get_user_admin_info (username : string) : DB UserAdminInfo :=
  or_empty (query_row (λ db,
    '(user_id, a) ← find_account db username;
    let t := db_account_timestamp db !! user_id in
    Some (mkUserAdminInfo user_id (ac_username a) (ac_online_name a) (ac_avatar_url a) (ac_admin a)
            (ac_banned a) (at_creation <$> t) (t ≫= at_last_login)))).

(** ** Creation and deletion *)

Definition new_account (username : string) (hash salt : bytes) (online_name avatar_url email email_check token : string)
  (is_admin : bool) : Account :=
  mkAccount username hash salt online_name avatar_url email email_check token None is_admin false false.

(** The token of the new account. *)
Definition db_add_user (now : Z) (rng : Draw)
  (username password online_name avatar_url email email_check : string) (is_admin : bool) : DB string :=
  do! check_username_vs_deleted username;
  do! check_email_vs_deleted email_check;
  do (hash, salt) <- lift (hash_password rng password);
  let token_str := generate_token rng in
  do inserted <- attempt (insert_account
    (new_account username hash salt online_name avatar_url email email_check token_str is_admin));
  match inserted with
  | Err (ConstraintViolation column) =>
      if bool_decide (column = "account.username"%string) then fail DbExistingUsername
      else if bool_decide (column = "account.email_check"%string) then fail DbExistingEmail
      else fail DbInternal
  | Err _ => fail DbInternal
  | _ =>
      do user_id <- unwrap_result (get_user_id username);
      do! internal (insert_account_timestamp user_id (mkAccountTimestamp now None None None));
      ret token_str
  end.

(** The values the user wrote pass to the account of deleted users. *)
Definition reauthor_tus_var (old new : Z) : SQL unit :=
  reauthor tv_author (λ u r, r <| tv_author := u |>) old new db_tus_var (λ m db, db <| db_tus_var := m |>).
Definition reauthor_tus_data (old new : Z) : SQL unit :=
  reauthor td_author (λ u r, r <| td_author := u |>) old new db_tus_data (λ m db, db <| db_tus_data := m |>).
Definition reauthor_tus_var_vuser (old new : Z) : SQL unit :=
  reauthor tv_author (λ u r, r <| tv_author := u |>) old new db_tus_var_vuser (λ m db, db <| db_tus_var_vuser := m |>).
Definition reauthor_tus_data_vuser (old new : Z) : SQL unit :=
  reauthor td_author (λ u r, r <| td_author := u |>) old new db_tus_data_vuser (λ m db, db <| db_tus_data_vuser := m |>).

Definition disown (user_id deleted_userid : Z) : DB unit :=
  do! internal (reauthor_tus_var user_id deleted_userid);
  do! internal (reauthor_tus_data user_id deleted_userid);
  do! internal (reauthor_tus_var_vuser user_id deleted_userid);
  internal (reauthor_tus_data_vuser user_id deleted_userid).

Definition delete_user (now user_id : Z) (username email_check : string) : DB unit :=
  if bool_decide (username = DELETED_USER_USERNAME) then fail DbInternal
  else
    do username_hash <- hash_username username;
    do email_hash <- hash_email email_check;
    do deleted_userid <- get_deleted_user_id;
    let timestamp := days now in
    do _ <- attempt (insert_username_hash username_hash timestamp);
    do _ <- attempt (insert_email_hash email_hash timestamp);
    do! disown user_id deleted_userid;
    internal (delete_accounts {[user_id]}).

(** Accounts older than 30 days that never logged in; how many. *)
Definition stale_accounts (timestamp : Z) (db : Database) : gset Z :=
  dom (filter (λ '(_, t), at_creation t < timestamp ∧ at_last_login t = None) (db_account_timestamp db)).

Definition delete_account_timestamps (ids : gset Z) : SQL unit :=
  execute (λ db, db <| db_account_timestamp ::= filter (λ '(u, _), u ∉ ids) |>).

Definition delete_friendships (ids : gset Z) : SQL unit :=
  execute (λ db, db <| db_friendship ::= filter (λ '((u, v), _), ¬ (u ∈ ids ∨ v ∈ ids)) |>).

Definition cleanup_never_used_accounts (now : Z) : M Database unit Z :=
  let timestamp := now - 60 * 60 * 24 * 30 in
  if bool_decide (timestamp < 0) then fail tt
  else
    do stale_user_ids <- map_err (λ _, tt) (select (stale_accounts timestamp));
    if bool_decide (stale_user_ids = ∅) then ret 0
    else
      do! map_err (λ _, tt) (delete_account_timestamps stale_user_ids);
      do! map_err (λ _, tt) (delete_friendships stale_user_ids);
      do! map_err (λ _, tt) (delete_accounts stale_user_ids);
      ret (Z.of_nat (size stale_user_ids)).

(** ** Updates *)

(** [UPDATE account SET ... WHERE user_id = ?]. *)
Definition set_password (hash salt : bytes) (token_str : string) (user_id : Z) (old_token : string) : SQL unit :=
  execute (λ db, db <| db_account ::= alter (λ a,
    if bool_decide (ac_reset_token a = Some old_token)
    then a <| ac_hash := hash |> <| ac_salt := salt |> <| ac_reset_token := Some token_str |>
    else a) user_id |>).

Definition set_reset_token (token_str : string) (user_id : Z) : SQL unit :=
  execute (λ db, db <| db_account ::= alter (λ a, a <| ac_reset_token := Some token_str |>) user_id |>).

Definition set_banned (user_id : Z) : SQL unit :=
  execute (λ db, db <| db_account ::= alter (λ a, a <| ac_banned := true |>) user_id |>).

(** Only while the token is still the one that was checked. *)
Definition update_user_password (rng : Draw) (user_id : Z) (old_token new_password : string) : DB unit :=
  do (hash, salt) <- lift (hash_password rng new_password);
  let token_str := generate_token rng in
  internal (set_password hash salt token_str user_id old_token).

Definition update_password_token (rng : Draw) (user_id : Z) : DB string :=
  let token_str := generate_token rng in
  do! internal (set_reset_token token_str user_id);
  ret token_str.

Definition ban_user (user_id : Z) : DB unit :=
  internal (set_banned user_id).

Definition update_login_time (now user_id : Z) : DB unit :=
  internal (update_account_timestamp user_id (λ t, t <| at_last_login := Some now |>)).

Definition get_reset_password_token_sent_time (user_id : Z) : DB (option Z) :=
  internal (query_row (λ db, at_reset_emit <$> db_account_timestamp db !! user_id)).

Definition set_reset_password_token_sent_time (now user_id : Z) : DB unit :=
  internal (update_account_timestamp user_id (λ t, t <| at_reset_emit := Some now |>)).

Definition get_token_sent_time (user_id : Z) : DB (option Z) :=
  internal (query_row (λ db, at_token_last_sent <$> db_account_timestamp db !! user_id)).

Definition set_token_sent_time (now user_id : Z) : DB unit :=
  internal (update_account_timestamp user_id (λ t, t <| at_token_last_sent := Some now |>)).
End accounts.
