(* ===== verification/Friendships.v ===== *)
(** * Friendships, servers and worlds in the database (src/src/server/database.rs)

    A friendship is one row for an ordered pair of users with the status of each
    towards the other; the methods take the pair in either order. *)

From S2P Require Import Prelude Protocol ScoreCache Database Accounts.

(** ** Friendships *)

Definition get_ordered_userids (user_id_1 user_id_2 : Z) : Z * Z * bool :=
  if bool_decide (user_id_1 < user_id_2) then (user_id_1, user_id_2, false) else (user_id_2, user_id_1, true).

Definition get_rel_status (user_id friend_user_id : Z) : DB (Z * Z) :=
  if bool_decide (user_id = friend_user_id) then fail DbInvalid
  else
    let '(first, second, swapped) := get_ordered_userids user_id friend_user_id in
    do (status_first, status_second) <- or_empty (query_row (λ db, db_friendship db !! (first, second)));
    ret (if swapped : bool then (status_second, status_first) else (status_first, status_second)).

(** [REPLACE INTO friendship]: the users exist and are in order. *)
Definition replace_friendship (first second status_first status_second : Z) : SQL unit := sql (λ db,
  if bool_decide (first < second) && has_account db first && has_account db second
  then inr (tt, db <| db_friendship ::= <[(first, second) := (status_first, status_second)]> |>)
  else inl (ConstraintViolation "")).

Definition set_rel_status (user_id friend_user_id status_user status_friend : Z) : DB unit :=
  if bool_decide (user_id = friend_user_id) then fail DbInvalid
  else
    let '(first, second, swapped) := get_ordered_userids user_id friend_user_id in
    let '(status_first, status_second) :=
      if swapped : bool then (status_friend, status_user) else (status_user, status_friend) in
    internal (replace_friendship first second status_first status_second).

(** What a row says to one of its users: the other one and the two statuses. *)
Definition seen_by (user_id : Z) (row : Z * Z * (Z * Z)) : Z * Z * Z :=
  let '(user_id_1, user_id_2, (status_user_1, status_user_2)) := row in
  if bool_decide (user_id_1 ≠ user_id) then (user_id_1, status_user_2, status_user_1)
  else (user_id_2, status_user_1, status_user_2).

Definition is_friend (rel : Z * Z * Z) : bool :=
  let '(_, status_user, status_other) := rel in
  bool_decide ((status_user, status_other) = (FriendStatus_Friend, FriendStatus_Friend)).

Definition is_request_sent (rel : Z * Z * Z) : bool :=
  let '(_, status_user, status_other) := rel in bool_decide ((status_user, status_other) = (FriendStatus_Friend, 0)).

Definition is_request_received (rel : Z * Z * Z) : bool :=
  let '(_, status_user, status_other) := rel in bool_decide ((status_user, status_other) = (0, FriendStatus_Friend)).

Definition is_blocked (rel : Z * Z * Z) : bool :=
  let '(_, _, status_other) := rel in negb (bool_decide (Z.land status_other FriendStatus_Blocked = 0)).

Section relationships.
Context `{!HashOrder}.

(** The rows a user takes part in, in the order of the table. *)
Definition friendship_rows (user_id : Z) (db : Database) : list (Z * Z * (Z * Z)) :=
  filter (λ '(u, v, _), u = user_id ∨ v = user_id) (hash_map_iter (db_friendship db)).

(** The names of the users that still exist. *)
Fixpoint userid_to_username (v_id : list Z) : DB (list (Z * string)) :=
  match v_id with
  | [] => ret []
  | id :: v_id =>
      do found <- attempt (get_username id);
      do names <- userid_to_username v_id;
      ret (match found with Ok username => (id, username) :: names | _ => names end)
  end.

Definition get_relationships (user_id : Z) : DB UserRelationships :=
  do rows <- internal (select (friendship_rows user_id));
  let rels := seen_by user_id <$> rows in
  let of_kind (kind : Z * Z * Z → bool) := (filter kind rels).*1.*1 in
  do friends <- userid_to_username (of_kind is_friend);
  do friend_requests <- userid_to_username (of_kind is_request_sent);
  do friend_requests_received <- userid_to_username (of_kind is_request_received);
  do blocked <- userid_to_username (of_kind is_blocked);
  ret (mkUserRelationships friends friend_requests friend_requests_received blocked).

(** [SELECT user_id, username, online_name FROM account WHERE user_id IN (...)]. *)
Definition get_username_and_online_name_from_user_ids (user_list : gset Z) : DB (list (Z * string * string)) :=
  internal (select (λ db,
    (λ '(u, a), (u, ac_username a, ac_online_name a)) <$>
      filter (λ '(u, _), u ∈ user_list) (hash_map_iter (db_account db)))).

(** ** Servers and worlds *)

Definition insert_server (com_id : string) (server_id : Z) : SQL unit := sql (λ db,
  if bool_decide ((com_id, server_id) ∈ db_servers db) then inl (ConstraintViolation "server.communication_id")
  else inr (tt, db <| db_servers ::= union {[(com_id, server_id)]} |>)).

Definition insert_world (com_id : string) (server_id world_id : Z) : SQL unit := sql (λ db,
  if bool_decide (is_Some (db_worlds db !! (com_id, world_id))) then inl (ConstraintViolation "world.communication_id")
  else if bool_decide ((com_id, server_id) ∈ db_servers db)
  then inr (tt, db <| db_worlds ::= <[(com_id, world_id) := server_id]> |>)
  else inl (ConstraintViolation "")).

Definition insert_lobby (com_id : string) (world_id lobby_id : Z) : SQL unit := sql (λ db,
  if bool_decide (is_Some (db_lobbies db !! (com_id, lobby_id))) then inl (ConstraintViolation "lobby.communication_id")
  else if bool_decide (is_Some (db_worlds db !! (com_id, world_id)))
  then inr (tt, db <| db_lobbies ::= <[(com_id, lobby_id) := world_id]> |>)
  else inl (ConstraintViolation "")).

Definition create_server (com_id : ComId) (server_id : Z) : DB unit :=
  if bool_decide (server_id ≠ 1) then fail DbInternal
  else internal (insert_server (com_id_to_string com_id) server_id).

Definition server_ids (com_id : string) (db : Database) : list Z :=
  (filter (λ '(c, _), c = com_id) (hash_iter (db_servers db))).*2.

(** The nested call passes [create_missing = false], so it is the plain query. *)
Definition get_server_list (com_id : ComId) (create_missing : bool) : DB (list Z) :=
  let query := unwrap_result (select (server_ids (com_id_to_string com_id))) in
  do list_servers <- query;
  if bool_decide (list_servers = []) && create_missing then
    do! create_server com_id 1;
    query
  else ret list_servers.

Definition world_ids (com_id : string) (server_id : Z) (db : Database) : list Z :=
  (filter (λ '(c, _, s), c = com_id ∧ s = server_id) (hash_map_iter (db_worlds db))).*1.*2.

(** [SELECT MAX(world_id)]: nothing without a world. *)
Definition max_world_id (com_id : string) (db : Database) : option Z :=
  match (filter (λ '(c, _, _), c = com_id) (hash_map_iter (db_worlds db))).*1.*2 with
  | [] => None
  | w :: ws => Some (foldl Z.max w ws)
  end.

(** The worlds of an existing server. *)
Definition query_worlds (com_id : string) (server_id : Z) : DB (list Z) :=
  do known <- internal (select (λ db, bool_decide ((com_id, server_id) ∈ db_servers db)));
  if negb known then fail DbEmpty
  else unwrap_result (select (world_ids com_id server_id)).

Definition get_world_list (com_id : ComId) (server_id : Z) (create_missing : bool) : DB (list Z) :=
  let com_id_str := com_id_to_string com_id in
  do list_worlds <- query_worlds com_id_str server_id;
  if bool_decide (list_worlds = []) && create_missing then
    do cur_max_res <- attempt (query_row (max_world_id com_id_str));
    let new_wid := match cur_max_res with Ok cur_max => wrap_u32 (cur_max + 1) | _ => 65537 end in
    do! internal (insert_world com_id_str server_id new_wid);
    query_worlds com_id_str server_id
  else ret list_worlds.
End relationships.

(** A world by its id, or the world of the lobby.  Two zeroes are refused before any
    query ([InvalidQuery]). *)
Definition get_corresponding_server (com_id : ComId) (world_id lobby_id : Z) : SQL Z :=
  let com_id_str := com_id_to_string com_id in
  if bool_decide (world_id = 0) && bool_decide (lobby_id = 0) then fail SqliteFailure
  else
    do world <- (if bool_decide (world_id = 0)
                 then query_row (λ db, db_lobbies db !! (com_id_str, to_signed 64 lobby_id))
                 else ret world_id);
    query_row (λ db, db_worlds db !! (com_id_str, world)).
