(* ===== verification/DbScore.v ===== *)
(** * Scores in the database (src/src/server/database/db_score.rs) *)

From S2P Require Import Prelude Protocol ScoreCache Database.

(** ** Boards *)

Definition insert_score_table (key : string * Z) (info : DbBoardInfo) : SQL unit := sql (λ db,
  if bool_decide (is_Some (db_score_table db !! key)) then inl (ConstraintViolation "score_table.communication_id")
  else inr (tt, db <| db_score_table ::= <[key := info]> |>)).

Definition create_score_board (com_id : ComId) (board_id : Z) : DB unit :=
  internal (insert_score_table (com_id_to_string com_id, board_id) DbBoardInfo_default).

Definition replace_score_table (key : string * Z) (info : DbBoardInfo) : SQL unit :=
  execute (λ db, db <| db_score_table ::= <[key := info]> |>).

Definition create_or_set_score_board_details (com_id : string) (board_id : Z) (board_infos : DbBoardInfo) : DB unit :=
  internal (replace_score_table (com_id, board_id) board_infos).

Definition get_score_tables : DB (gmap (string * Z) DbBoardInfo) := internal (select db_score_table).

(** The nested call passes [create_missing = false]. *)
Definition db_get_board_infos (com_id : ComId) (board_id : Z) (create_missing : bool) : DB DbBoardInfo :=
  let query := query_row (λ db, db_score_table db !! (com_id_to_string com_id, board_id)) in
  do res <- attempt query;
  match res with
  | Ok infos => ret infos
  | Err QueryReturnedNoRows =>
      if create_missing then
        do! create_score_board com_id board_id;
        or_empty query
      else fail DbEmpty
  | _ => fail DbInternal
  end.

(** ** Scores *)

Definition score_key (com_id : ComId) (board_id user_id character_id : Z) : string * Z * Z * Z :=
  (com_id_to_string com_id, board_id, user_id, character_id).

(** Whether the upsert replaces the score [old] by [new]: a normal board keeps the
    better one, a forced board the last one. *)
Definition replaces (infos : DbBoardInfo) (new old : Z) : bool :=
  if bool_decide (bi_update_mode infos = 0) then
    if bool_decide (bi_sort_mode infos = 0) then bool_decide (old ≤ new) else bool_decide (new ≤ old)
  else true.

(** [INSERT INTO score ... ON CONFLICT DO UPDATE ... WHERE]: the number of rows. *)
Definition upsert_score (infos : DbBoardInfo) (key : string * Z * Z * Z) (row : ScoreRow) : SQL Z := sql (λ db,
  let put := inr (1, db <| db_score ::= <[key := row]> |>) in
  match db_score db !! key with
  | None => if has_account db key.1.2 then put else inl (ConstraintViolation "")
  | Some old => if replaces infos (sr_score row) (sr_score old) then put else inr (0, db)
  end).

Definition new_score_row (score_infos : DbScoreInfo) : ScoreRow :=
  mkScoreRow (si_score score_infos) (si_comment score_infos) (si_game_info score_infos) None (si_timestamp score_infos).

Definition db_record_score (com_id : ComId) (board_id : Z) (score_infos : DbScoreInfo) (create_missing : bool) :
  DB DbBoardInfo :=
  do board_infos <- db_get_board_infos com_id board_id create_missing;
  do n <- internal (upsert_score board_infos
    (score_key com_id board_id (si_user_id score_infos) (si_character_id score_infos)) (new_score_row score_infos));
  if bool_decide (n = 1) then ret board_infos else fail DbScoreNotBest.

(** [UPDATE score SET data_id = ? WHERE ... AND score = ?]: the number of rows; data
    ids are unique. *)
Definition update_score_data (key : string * Z * Z * Z) (score data_id : Z) : SQL Z := sql (λ db,
  match db_score db !! key with
  | Some row =>
      if bool_decide (sr_score row = score) then
        if existsb (λ '(k, r), bool_decide (k ≠ key) && bool_decide (sr_data_id r = Some data_id))
             (map_to_list (db_score db))
        then inl (ConstraintViolation "score.data_id")
        else inr (1, db <| db_score ::= <[key := row <| sr_data_id := Some data_id |>]> |>)
      else inr (0, db)
  | None => inr (0, db)
  end).

Definition set_score_data (com_id : ComId) (user_id character_id board_id score data_id : Z) : DB unit :=
  do n <- internal (update_score_data (score_key com_id board_id user_id character_id) score data_id);
  if bool_decide (n = 1) then ret tt else fail DbInvalid.

Definition score_get_all_data_ids : DB (gset Z) :=
  internal (select (λ db, list_to_set (omap sr_data_id (map_to_list (db_score db)).*2))).

(** ** Reading a board *)

Definition score_of_row (user_id character_id : Z) (r : ScoreRow) : DbScoreInfo :=
  mkDbScoreInfo user_id character_id (sr_score r) (sr_comment r) (sr_game_info r) (sr_data_id r) (sr_timestamp r).

(** [ORDER BY score DESC|ASC, timestamp ASC, user_id ASC]. *)
Definition score_order (sort_mode : Z) (a b : DbScoreInfo) : Prop :=
  let '(x, y) := if bool_decide (sort_mode = 0) then (si_score b, si_score a) else (si_score a, si_score b) in
  x < y ∨ x = y ∧ (si_timestamp a < si_timestamp b ∨
                   si_timestamp a = si_timestamp b ∧ si_user_id a ≤ si_user_id b).

#[export] Instance score_order_dec sort_mode : RelDecision (score_order sort_mode).
Proof. intros a b. unfold score_order. destruct (if bool_decide _ then _ else _). apply _. Defined.

Definition board_rows (com_id : string) (board_id : Z) (db : Database) : list DbScoreInfo :=
  omap (λ '((c, b, u, p), r), if bool_decide (c = com_id ∧ b = board_id) then Some (score_of_row u p r) else None)
    (map_to_list (db_score db)).

Definition get_scores_from_table (com_id : string) (board_id : Z) (table_info : DbBoardInfo) : DB (list DbScoreInfo) :=
  internal (select (λ db,
    take (Z.to_nat (bi_rank_limit table_info))
      (merge_sort (score_order (bi_sort_mode table_info)) (board_rows com_id board_id db)))).
