(* ===== verification/DbTus.v ===== *)
(** * Title user storage in the database (src/src/server/database/db_tus.rs)

    A slot of a user or of a virtual user holds a variable and a piece of data.  The
    two kinds of owners have tables of their own and methods of the same shape; the
    statements are written once, for any table, and the methods name the table. *)

From S2P Require Import Prelude Protocol ScoreCache Database.

Inductive TusSorting := SortDescendingDate | SortAscendingDate | SortDescendingValue | SortAscendingValue.
Inductive TusOpeType := OpEqual | OpNotEqual | OpGreaterThan | OpGreaterOrEqual | OpLessThan | OpLessOrEqual.
Inductive TusStatusSorting := StatusDescendingDate | StatusAscendingDate.

(** [FromPrimitive::from_i32]. *)
Definition TusSorting_from_i32 (n : Z) : option TusSorting :=
  match n with
  | 1 => Some SortDescendingDate
  | 2 => Some SortAscendingDate
  | 3 => Some SortDescendingValue
  | 4 => Some SortAscendingValue
  | _ => None
  end.

Definition TusOpeType_from_i32 (n : Z) : option TusOpeType :=
  match n with
  | 1 => Some OpEqual
  | 2 => Some OpNotEqual
  | 3 => Some OpGreaterThan
  | 4 => Some OpGreaterOrEqual
  | 5 => Some OpLessThan
  | 6 => Some OpLessOrEqual
  | _ => None
  end.

Definition TusStatusSorting_from_i32 (n : Z) : option TusStatusSorting :=
  match n with
  | 1 => Some StatusDescendingDate
  | 2 => Some StatusAscendingDate
  | _ => None
  end.

(** ** Statements on one table *)

(** A table of the database: where it is, and whether an owner may have rows in it (a
    user id refers to an account, the name of a virtual user to nothing). *)
Record Table (K V : Type) `{Countable K} := mkTable {
  tb_get : Database → gmap (K * ComId * Z) V;
  tb_put : gmap (K * ComId * Z) V → Database → Database;
  tb_owner_ok : Database → K → bool;
  tb_author : V → Z;
}.
Arguments mkTable {K V _ _}.
Arguments tb_get {K V _ _}.
Arguments tb_put {K V _ _}.
Arguments tb_owner_ok {K V _ _}.
Arguments tb_author {K V _ _}.

Definition tus_var : Table Z TusVarRow :=
  mkTable db_tus_var (λ m db, db <| db_tus_var := m |>) has_account tv_author.
Definition tus_var_vuser : Table string TusVarRow :=
  mkTable db_tus_var_vuser (λ m db, db <| db_tus_var_vuser := m |>) (λ _ _, true) tv_author.
Definition tus_data : Table Z TusDataRow :=
  mkTable db_tus_data (λ m db, db <| db_tus_data := m |>) has_account td_author.
Definition tus_data_vuser : Table string TusDataRow :=
  mkTable db_tus_data_vuser (λ m db, db <| db_tus_data_vuser := m |>) (λ _ _, true) td_author.

Section statements.
Context {K V : Type} `{Countable K} (t : Table K V).

(** [INSERT INTO t VALUES row ON CONFLICT (key) DO UPDATE SET ... WHERE guard]: the row
    it leaves, or [None] when the row there does not satisfy the guard.  [merge] is the
    row after the update.  The owner and the author have accounts. *)
Definition upsert (key : K * ComId * Z) (row : V) (guard : V → bool) (merge : V → V) : SQL (option V) := sql (λ db,
  let write r :=
    if tb_owner_ok t db key.1.1 && has_account db (tb_author t r)
    then inr (Some r, tb_put t (<[key := r]> (tb_get t db)) db)
    else inl (ConstraintViolation "") in
  match tb_get t db !! key with
  | None => write row
  | Some old => if guard old then write (merge old) else inr (None, db)
  end).

Definition get_slot (key : K * ComId * Z) : SQL V := query_row (λ db, tb_get t db !! key).

(** [DELETE ... WHERE communication_id = ? AND owner = ? AND slot_id IN (slots)]. *)
Definition delete_slots (owner : K) (com_id : ComId) (slot_list : list Z) : SQL unit := execute (λ db,
  tb_put t (filter (λ '((o, c, s), _), ¬ (o = owner ∧ c = com_id ∧ s ∈ slot_list)) (tb_get t db)) db).

(** The row the statement returned, or the unchanged one, which is read again. *)
Definition upsert_or_get (key : K * ComId * Z) (row : V) (guard : V → bool) (merge : V → V) : DB V :=
  do res <- attempt (upsert key row guard merge);
  match res with
  | Ok (Some r) => ret r
  | Ok None => internal (get_slot key)
  | _ => fail DbInternal
  end.
End statements.

(** ** Variables *)

Record DbTusVarInfo := mkDbTusVarInfo {
  vi_timestamp : Z;
  vi_author_id : Z;
  vi_variable : Z;
}.

(** [r.get_unwrap(2)] as [i64]: a REAL does not convert. *)
Definition var_info {E} (r : TusVarRow) : res E DbTusVarInfo :=
  if in_i64 (tv_value r) then Ok (mkDbTusVarInfo (tv_timestamp r) (tv_author r) (tv_value r)) else Panic.

(** The conditions of [prepare_cond_string]. *)
Definition cond_holds (compare_timestamp compare_author : option Z) (timestamp author_id : Z) : bool :=
  from_option (λ c, bool_decide (timestamp ≤ c)) true compare_timestamp &&
  from_option (λ c, bool_decide (author_id = c)) true compare_author.

Definition compare_with (op : TusOpeType) (a b : Z) : bool :=
  match op with
  | OpEqual => bool_decide (a = b)
  | OpNotEqual => bool_decide (a ≠ b)
  | OpGreaterThan => bool_decide (b < a)
  | OpGreaterOrEqual => bool_decide (b ≤ a)
  | OpLessThan => bool_decide (a < b)
  | OpLessOrEqual => bool_decide (a ≤ b)
  end.

Section variables.
Context `{!External} {K : Type} `{Countable K} (t : Table K TusVarRow).

(** The bodies of the methods for one of the two tables. *)
Definition set_variable (com_id : ComId) (owner : K) (slot value author_id timestamp : Z) : DB unit :=
  let row := mkTusVarRow value timestamp author_id in
  do written <- internal (upsert t (owner, com_id, slot) row (λ _, true) (λ _, row));
  match written with
  | Some _ => ret tt
  | None => fail DbInvalid
  end.

Definition get_variable (com_id : ComId) (owner : K) (slot : Z) : DB DbTusVarInfo :=
  do row <- or_empty (get_slot t (owner, com_id, slot));
  lift (var_info row).

Definition add_and_get_variable (com_id : ComId) (owner : K) (slot value author_id timestamp : Z)
  (compare_timestamp compare_author : option Z) : DB DbTusVarInfo :=
  do row <- upsert_or_get t (owner, com_id, slot) (mkTusVarRow value timestamp author_id)
    (λ old, cond_holds compare_timestamp compare_author (tv_timestamp old) (tv_author old))
    (λ old, mkTusVarRow (sql_add (tv_value old) value) timestamp author_id);
  lift (var_info row).

Definition try_and_set_variable (com_id : ComId) (owner : K) (slot value_to_set author_id timestamp compare_value : Z)
  (compare_op : TusOpeType) (compare_timestamp compare_author : option Z) : DB DbTusVarInfo :=
  let row := mkTusVarRow value_to_set timestamp author_id in
  do row <- upsert_or_get t (owner, com_id, slot) row
    (λ old, compare_with compare_op (tv_value old) compare_value &&
            cond_holds compare_timestamp compare_author (tv_timestamp old) (tv_author old))
    (λ _, row);
  lift (var_info row).
End variables.

Section methods.
Context `{!External}.

Definition tus_set_vuser_variable : ComId → string → Z → Z → Z → Z → DB unit := set_variable tus_var_vuser.
Definition tus_set_user_variable : ComId → Z → Z → Z → Z → Z → DB unit := set_variable tus_var.
Definition tus_get_vuser_variable : ComId → string → Z → DB DbTusVarInfo := get_variable tus_var_vuser.
Definition tus_get_user_variable : ComId → Z → Z → DB DbTusVarInfo := get_variable tus_var.

Definition tus_add_and_get_user_variable :
  ComId → Z → Z → Z → Z → Z → option Z → option Z → DB DbTusVarInfo := add_and_get_variable tus_var.
Definition tus_add_and_get_vuser_variable :
  ComId → string → Z → Z → Z → Z → option Z → option Z → DB DbTusVarInfo := add_and_get_variable tus_var_vuser.

Definition tus_try_and_set_user_variable :
  ComId → Z → Z → Z → Z → Z → Z → TusOpeType → option Z → option Z → DB DbTusVarInfo :=
  try_and_set_variable tus_var.
Definition tus_try_and_set_vuser_variable :
  ComId → string → Z → Z → Z → Z → Z → TusOpeType → option Z → option Z → DB DbTusVarInfo :=
  try_and_set_variable tus_var_vuser.

Definition tus_delete_user_variable_with_slotlist (com_id : ComId) (user : Z) (slot_list : list Z) : DB unit :=
  internal (delete_slots tus_var user com_id slot_list).
Definition tus_delete_vuser_variable_with_slotlist (com_id : ComId) (vuser : string) (slot_list : list Z) : DB unit :=
  internal (delete_slots tus_var_vuser vuser com_id slot_list).

(** ** Data *)

Record DbTusDataStatus := mkDbTusDataStatus {
  ds_timestamp : Z;
  ds_author_id : Z;
  ds_data_id : Z;
}.

Definition data_status (r : TusDataRow) : DbTusDataStatus :=
  mkDbTusDataStatus (td_timestamp r) (td_author r) (td_data_id r).

(** Nothing when the slot is empty. *)
Definition data_timestamp_and_author {K} `{Countable K} (t : Table K TusDataRow) (com_id : ComId) (owner : K) (slot : Z) :
  DB (option (Z * Z)) :=
  do res <- attempt (get_slot t (owner, com_id, slot));
  match res with
  | Ok row => ret (Some (td_timestamp row, td_author row))
  | Err QueryReturnedNoRows => ret None
  | _ => fail DbInternal
  end.

Definition set_data {K} `{Countable K} (t : Table K TusDataRow) (com_id : ComId) (owner : K) (slot data_id : Z)
  (info : option bytes) (author_id timestamp : Z) (compare_timestamp compare_author : option Z) : DB unit :=
  let row := mkTusDataRow data_id (default [] info) timestamp author_id in
  do written <- internal (upsert t (owner, com_id, slot) row
    (λ old, cond_holds compare_timestamp compare_author (td_timestamp old) (td_author old)) (λ _, row));
  match written with
  | Some _ => ret tt
  | None => fail DbEmpty
  end.

Definition get_data {K} `{Countable K} (t : Table K TusDataRow) (com_id : ComId) (owner : K) (slot : Z) :
  DB (DbTusDataStatus * bytes) :=
  do row <- or_empty (get_slot t (owner, com_id, slot));
  ret (data_status row, td_info row).

Definition tus_get_user_data_timestamp_and_author : ComId → Z → Z → DB (option (Z * Z)) :=
  data_timestamp_and_author tus_data.
Definition tus_get_vuser_data_timestamp_and_author : ComId → string → Z → DB (option (Z * Z)) :=
  data_timestamp_and_author tus_data_vuser.
Definition tus_set_user_data :
  ComId → Z → Z → Z → option bytes → Z → Z → option Z → option Z → DB unit := set_data tus_data.
Definition tus_set_vuser_data :
  ComId → string → Z → Z → option bytes → Z → Z → option Z → option Z → DB unit := set_data tus_data_vuser.
Definition tus_get_user_data : ComId → Z → Z → DB (DbTusDataStatus * bytes) := get_data tus_data.
Definition tus_get_vuser_data : ComId → string → Z → DB (DbTusDataStatus * bytes) := get_data tus_data_vuser.

Definition tus_delete_user_data_with_slotlist (com_id : ComId) (user : Z) (slot_list : list Z) : DB unit :=
  internal (delete_slots tus_data user com_id slot_list).
Definition tus_delete_vuser_data_with_slotlist (com_id : ComId) (vuser : string) (slot_list : list Z) : DB unit :=
  internal (delete_slots tus_data_vuser vuser com_id slot_list).
End methods.

(** ** Slots of many users *)

(** The rows of a slot for a list of users, in the order of the table. *)
Definition rows_of_users `{!HashOrder} {V} (m : gmap (Z * ComId * Z) V) (com_id : ComId) (user_list : list Z) (slot : Z) :
  list (Z * V) :=
  omap (λ '((o, c, s), r), if bool_decide (c = com_id ∧ s = slot ∧ o ∈ user_list) then Some (o, r) else None)
    (hash_map_iter m).

(** [ORDER BY] one column: stable on the order of the rows. *)
Definition var_order (sorting : TusSorting) (a b : Z * TusVarRow) : Prop :=
  match sorting with
  | SortDescendingDate => tv_timestamp b.2 ≤ tv_timestamp a.2
  | SortAscendingDate => tv_timestamp a.2 ≤ tv_timestamp b.2
  | SortDescendingValue => tv_value b.2 ≤ tv_value a.2
  | SortAscendingValue => tv_value a.2 ≤ tv_value b.2
  end.

#[export] Instance var_order_dec sorting : RelDecision (var_order sorting).
Proof. intros a b. destruct sorting; simpl; apply _. Defined.

Definition data_order (sorting : TusStatusSorting) (a b : Z * TusDataRow) : Prop :=
  match sorting with
  | StatusDescendingDate => td_timestamp b.2 ≤ td_timestamp a.2
  | StatusAscendingDate => td_timestamp a.2 ≤ td_timestamp b.2
  end.

#[export] Instance data_order_dec sorting : RelDecision (data_order sorting).
Proof. intros a b. destruct sorting; simpl; apply _. Defined.

Section lists.
Context `{!HashOrder}.

Definition tus_get_user_variable_from_user_list (com_id : ComId) (user_list : list Z) (slot : Z)
  (sorting : TusSorting) (max : Z) : DB (list (Z * DbTusVarInfo)) :=
  do rows <- internal (select (λ db,
    take (Z.to_nat max) (merge_sort (var_order sorting) (rows_of_users (db_tus_var db) com_id user_list slot))));
  lift (res_map_list (λ '(o, r), let? info := var_info r in Ok (o, info)) rows).

Definition tus_get_user_data_from_user_list (com_id : ComId) (user_list : list Z) (slot : Z)
  (sorting : TusStatusSorting) (max : Z) : DB (list (Z * DbTusDataStatus * bytes)) :=
  internal (select (λ db,
    (λ '(o, r), (o, data_status r, td_info r)) <$>
      take (Z.to_nat max) (merge_sort (data_order sorting) (rows_of_users (db_tus_data db) com_id user_list slot)))).

(** Every data id in use; an id that occurs twice is an error. *)
Definition tus_get_all_data_ids : DB (gset Z) :=
  do ids <- internal (select (λ db, (td_data_id <$> (map_to_list (db_tus_data db)).*2)));
  do! (if bool_decide (NoDup ids) then ret tt else fail DbInternal);
  do vuser_ids <- internal (select (λ db, (td_data_id <$> (map_to_list (db_tus_data_vuser db)).*2)));
  if bool_decide (NoDup (ids ++ vuser_ids)) then ret (list_to_set (ids ++ vuser_ids)) else fail DbInternal.
End lists.
