(* ===== verification/Config.v ===== *)
(** * Configuration (src/src/main.rs, and the files read by src/src/server)

    [Config] and the four text files the server reads: rpcn.cfg, server_redirs.cfg and
    domains_whitelist.txt (src/src/main.rs), servers.cfg
    (src/src/server/database.rs) and scoreboards.cfg
    (src/src/server/client/cmd_score.rs).  The content of a file is an argument,
    [None] when it cannot be read. *)

From S2P Require Import Prelude Protocol Text ScoreCache Database Accounts Friendships DbScore.

Record Config := mkConfig {
  cf_create_missing : bool;
  cf_verbosity : string;
  cf_host_ipv4 : string;
  cf_host_ipv6 : string;
  cf_port : string;
  cf_email_url : string;
  cf_banned_domains : gset string;
  cf_server_redirs : gmap ComId ComId;
  cf_ticket_signing : bool;
  cf_stat_server_host_and_port : option (string * string);
  cf_stat_server_path : string;
  cf_stat_server_cache_life : Z;
  cf_api_server_host_and_port : option (string * string);
  cf_api_server_api_key : string;
  cf_admins_list : list string;
}.
#[export] Instance config_eta : Eta Config := λ c,
  mkConfig (cf_create_missing c) (cf_verbosity c) (cf_host_ipv4 c) (cf_host_ipv6 c) (cf_port c) (cf_email_url c)
    (cf_banned_domains c) (cf_server_redirs c) (cf_ticket_signing c) (cf_stat_server_host_and_port c)
    (cf_stat_server_path c) (cf_stat_server_cache_life c) (cf_api_server_host_and_port c)
    (cf_api_server_api_key c) (cf_admins_list c).

Definition Config_new : Config :=
  mkConfig true "INFO" "0.0.0.0" "0:0:0:0:0:0:0:0" "31313" "" ∅ ∅ false None "rpcn_stats" 0 None "" [].

Definition is_create_missing (c : Config) : bool := cf_create_missing c.
Definition is_email_validated (c : Config) : bool := negb (bool_decide (cf_email_url c = ""%string)).
Definition is_banned_domain (c : Config) (domain : string) : bool := bool_decide (domain ∈ cf_banned_domains c).
Definition get_server_redirection (c : Config) (com_id : ComId) : ComId := default com_id (cf_server_redirs c !! com_id).

(** ** Names *)

Definition is_ascii_alphanumeric (b : Z) : bool :=
  bool_decide (48 ≤ b ≤ 57) || bool_decide (65 ≤ b ≤ 90) || bool_decide (97 ≤ b ≤ 122).

Definition is_valid_client_username (npid : string) : bool :=
  let bs := bytes_of_string npid in
  bool_decide (3 ≤ length bs)%nat && bool_decide (length bs ≤ 16)%nat &&
  forallb (λ x, is_ascii_alphanumeric x || bool_decide (x = 45) || bool_decide (x = 95)) bs &&
  bool_decide (npid ≠ DELETED_USER_USERNAME).

(** ** rpcn.cfg *)

(** A line that is blank or a comment. *)
Definition skipped (l : bytes) : bool :=
  match str_trim l with
  | [] => true
  | b :: _ => bool_decide (b = 35)
  end.

Definition config_entry (l : bytes) : option (bytes * bytes) :=
  if skipped l then None
  else match splitn2 61 (str_trim l) with
       | [name; value] => Some (name, value)
       | _ => None
       end.

(** A later entry of the same name wins. *)
Definition config_data (file : bytes) : gmap bytes bytes :=
  foldl (λ m '(name, value), <[name := value]> m) ∅ (omap config_entry (lines file)).

(** What is asked of other crates while the configuration is loaded: the name of a
    level of [tracing], the name of a digest of [openssl], and whether the signing key
    of the tickets could be loaded. *)
Record ConfigEnv := mkConfigEnv {
  ce_level : string → option string;
  ce_digest_known : string → bool;
  ce_ticket_key_ok : bool;
}.

Section load.
Variables (ce : ConfigEnv) (file : bytes).

Definition entry (name : string) : option bytes := config_data file !! bytes_of_string name.

Definition set_bool (name : string) (d_bool : bool) : bool :=
  match entry name with
  | Some s =>
      if eq_ignore_ascii_case s (bytes_of_string "true") then true
      else if eq_ignore_ascii_case s (bytes_of_string "false") then false
      else d_bool
  | None => d_bool
  end.

Definition set_string (name : string) (d_str : string) : string := from_option string_of_bytes d_str (entry name).

Definition set_u32 (name : string) (d_u32 : Z) : Z :=
  default d_u32 (entry name ≫= parse_unsigned u32_max).

Definition set_verbosity (d_verbosity : string) : string :=
  default d_verbosity (entry "Verbosity" ≫= λ data, ce_level ce (string_of_bytes data)).

Definition set_admins_list (d_list : list string) : list string :=
  match entry "AdminsList" with
  | Some data =>
      if bool_decide (data = []) then d_list
      else
        let admins_list := (λ a, string_of_bytes (str_trim a)) <$> split 44 data in
        if existsb (λ username, negb (is_valid_client_username username)) admins_list then d_list else admins_list
  | None => d_list
  end.

(** A pair of host and port, when both are given. *)
Definition set_binds (host port : string) : option (string * string) :=
  let host := set_string host "" in
  let port := set_string port "" in
  if bool_decide (host = ""%string) || bool_decide (port = ""%string) then None else Some (host, port).

Definition email_deprecated : bool :=
  match entry "EmailValidated" with
  | Some s => eq_ignore_ascii_case s (bytes_of_string "true")
  | None => false
  end.

(** The settings in the order of the code; the deprecated setting stops it half way. *)
Definition load_entries : M Config unit unit :=
  do! modify (λ c, c <| cf_create_missing ::= set_bool "CreateMissing" |> <| cf_verbosity ::= set_verbosity |>
                     <| cf_host_ipv4 ::= set_string "Host" |> <| cf_host_ipv6 ::= set_string "HostIPv6" |>
                     <| cf_port ::= set_string "Port" |>);
  if email_deprecated then fail tt
  else
    do! modify (λ c, c <| cf_email_url ::= set_string "EmailUrl" |>);
    do! (if set_bool "SignTickets" false && ce_ticket_key_ok ce && ce_digest_known ce (set_string "SignTicketsDigest" "")
         then modify (λ c, c <| cf_ticket_signing := true |>) else ret tt);
    do! (if set_bool "StatServer" false then
           modify (λ c, c <| cf_stat_server_path ::= set_string "StatServerPath" |>
                          <| cf_stat_server_cache_life ::= set_u32 "StatServerCacheLife" |>
                          <| cf_stat_server_host_and_port ::= (λ old,
                               match set_binds "StatServerHost" "StatServerPort" with Some b => Some b | None => old end) |>)
         else ret tt);
    do! (if set_bool "ApiServer" false then
           modify (λ c, c <| cf_api_server_api_key ::= set_string "ApiServerApiKey" |>
                          <| cf_api_server_host_and_port ::= (λ old,
                               match set_binds "ApiServerHost" "ApiServerPort" with Some b => Some b | None => old end) |>)
         else ret tt);
    modify (λ c, c <| cf_admins_list ::= set_admins_list |>).
End load.

Definition load_config_file (ce : ConfigEnv) (file : option bytes) : M Config unit unit :=
  match file with
  | Some file => load_entries ce file
  | None => fail tt
  end.

(** ** domains_whitelist.txt and server_redirs.cfg *)

Definition load_domains_banlist (file : option bytes) (c : Config) : Config :=
  match file with
  | Some file =>
      c <| cf_banned_domains := list_to_set ((λ x, to_ascii_lowercase (string_of_bytes (str_trim x))) <$> lines file) |>
  | None => c
  end.

Definition redirection (line : bytes) : option (ComId * ComId) :=
  let parsed := str_trim <$> split_arrow (str_trim line) in
  match line with
  | [] => None
  | b :: _ =>
      if bool_decide (b = 35) then None
      else match parsed with
           | [from; to] =>
               if bool_decide (length from = COMMUNICATION_ID_SIZE) && bool_decide (length to = COMMUNICATION_ID_SIZE)
               then Some (from, to) else None
           | _ => None
           end
  end.

Definition load_server_redirections (file : option bytes) (c : Config) : Config :=
  match file with
  | Some file => c <| cf_server_redirs := foldl (λ m '(from, to), <[from := to]> m) ∅ (omap redirection (lines file)) |>
  | None => c
  end.

(** ** servers.cfg *)

Abbreviation ServerLine := (string * Z * Z * list Z)%type.

Definition server_line (l : bytes) : option ServerLine :=
  if skipped l then None
  else match str_trim <$> split 124 (str_trim l) with
       | [com_id; server; world; lobbies] =>
           if bool_decide (length com_id ≠ COMMUNICATION_ID_SIZE) then None
           else
             server ← parse_unsigned u16_max server;
             world ← parse_unsigned u32_max world;
             lobbies ← (if bool_decide (str_trim lobbies = []) then Some [] else parse_all u64_max (split 44 (str_trim lobbies)));
             Some (string_of_bytes com_id, server, world, lobbies)
       | _ => None
       end.

(** A lobby id above the signed range cannot be bound to a statement. *)
Definition insert_config_lobby (com_id : string) (world lobby : Z) : SQL unit :=
  if in_i64 lobby then insert_lobby com_id world lobby else fail SqliteFailure.

(** A row that exists already, or any other failure, is passed over. *)
Definition insert_config_server (l : ServerLine) : DB unit :=
  let '(com_id, server, world, lobbies) := l in
  do _ <- attempt (insert_server com_id server);
  do _ <- attempt (insert_world com_id server world);
  for_each (λ lobby, do _ <- attempt (insert_config_lobby com_id world lobby); ret tt) lobbies.

Definition update_servers_cfg (file : option bytes) : DB unit :=
  match file with
  | None => fail DbInternal
  | Some file => for_each insert_config_server (omap server_line (lines file))
  end.

(** ** scoreboards.cfg *)

Record ScoreboardConfig := mkScoreboardConfig {
  sb_communication_id : string;
  sb_tables : list Z;
  sb_infos : DbBoardInfo;
}.

Definition update_mode_of (s : bytes) : option Z :=
  if bool_decide (s = bytes_of_string "NORMAL_UPDATE") then Some 0
  else if bool_decide (s = bytes_of_string "FORCE_UPDATE") then Some 1 else None.

Definition sort_mode_of (s : bytes) : option Z :=
  if bool_decide (s = bytes_of_string "DESCENDING_ORDER") then Some 0
  else if bool_decide (s = bytes_of_string "ASCENDING_ORDER") then Some 1 else None.

Definition scoreboard_line (l : bytes) : option ScoreboardConfig :=
  if skipped l then None
  else match str_trim <$> split 124 (str_trim l) with
       | [communication_id; tables; rank_limit; update_mode; sort_mode; upload_num_limit; upload_size_limit] =>
           tables ← parse_all u32_max (str_trim <$> split 44 tables);
           rank_limit ← parse_unsigned u32_max rank_limit;
           update_mode ← update_mode_of update_mode;
           sort_mode ← sort_mode_of sort_mode;
           upload_num_limit ← parse_unsigned u32_max upload_num_limit;
           upload_size_limit ← parse_unsigned u32_max upload_size_limit;
           Some (mkScoreboardConfig (string_of_bytes communication_id) tables
                   (mkDbBoardInfo rank_limit update_mode sort_mode upload_num_limit upload_size_limit))
       | _ => None
       end.

Definition setup_config_scoreboards (file : option bytes) : DB unit :=
  match file with
  | None => fail DbInternal
  | Some file =>
      for_each (λ config, for_each (λ table,
        create_or_set_score_board_details (sb_communication_id config) table (sb_infos config)) (sb_tables config))
        (omap scoreboard_line (lines file))
  end.
