(* ===== verification/DataFiles.v ===== *)
(** * Data files (src/src/server/utils.rs, client/cmd_tus.rs, client/cmd_score.rs)

    The data of scores and of title user storage is kept in files named after their
    id.  A directory maps file names to contents; ids come from a counter that starts
    above every file found at start-up. *)

From S2P Require Import Prelude Protocol Text Database DbTus DbScore.

Record DataDir := mkDataDir {
  dd_dispenser : Z;
  dd_files : gmap bytes bytes;
}.
#[export] Instance data_dir_eta : Eta DataDir := λ d, mkDataDir (dd_dispenser d) (dd_files d).

Definition TUS_FILE_EXTENSION : bytes := bytes_of_string "tdt".
Definition SCORE_FILE_EXTENSION : bytes := bytes_of_string "sdt".

(** What the operating system does with a request to write a file. *)
Inductive FileOutcome :=
| FileOk
| CreateFails
| WriteFails (written : nat).

(** ** Names *)

(** [{:020}] of a [u64]. *)
Fixpoint fixed_digits (k : nat) (n : Z) : bytes :=
  match k with
  | O => []
  | S k => fixed_digits k (n / 10) ++ [48 + n mod 10]
  end.

(** [tus_id_to_path] and [score_id_to_path], inside the directory. *)
Definition id_to_path (extension : bytes) (id : Z) : bytes := fixed_digits 20 id ++ [46] ++ extension.

(** The id of a file name, if it is one of a data file. *)
Definition path_id (extension name : bytes) : option Z :=
  '(file_prefix, file_suffix) ← split_once 46 name;
  if bool_decide (file_suffix = extension) then parse_unsigned u64_max file_prefix else None.

Definition get_ids_from_directory (extension : bytes) (d : DataDir) : gset Z :=
  list_to_set (omap (path_id extension) (elements (dom (dd_files d)))).

(** The largest id there is, plus one. *)
Definition create_data_directory (extension : bytes) (d : DataDir) : Z :=
  wrap_u64 (foldr Z.max 0 (elements (get_ids_from_directory extension d)) + 1).

(** [initialize_tus_data_handler] and [initialize_score_data_handler]. *)
Definition initialize_data_handler (extension : bytes) (d : DataDir) : DataDir :=
  d <| dd_dispenser := create_data_directory extension d |>.

(** ** Files *)

(** [create_tus_data_file] and [create_score_data_file]: the id of the new file, 0 when
    it could not be written. *)
Definition create_data_file {E} (extension : bytes) (os : FileOutcome) (data : bytes) : M DataDir E Z :=
  do id <- gets dd_dispenser;
  do! modify (λ d, d <| dd_dispenser := wrap_u64 (id + 1) |>);
  let path := id_to_path extension id in
  match os with
  | CreateFails => ret 0
  | WriteFails written => do! modify (λ d, d <| dd_files ::= <[path := take written data]> |>); ret 0
  | FileOk => do! modify (λ d, d <| dd_files ::= <[path := data]> |>); ret id
  end.

(** [get_tus_data_file] and [get_score_data_file]. *)
Definition get_data_file (extension : bytes) (read_ok : bool) (id : Z) (d : DataDir) : res ErrorType bytes :=
  if read_ok then ok_or NotFound (dd_files d !! id_to_path extension id) else Err NotFound.

(** [delete_tus_data] and [delete_score_data]: a missing file is only logged. *)
Definition delete_data_file (extension : bytes) (id : Z) (d : DataDir) : DataDir :=
  d <| dd_files ::= delete (id_to_path extension id) |>.

(** The files of the scores. *)
Definition initialize_score_data_handler : DataDir → DataDir := initialize_data_handler SCORE_FILE_EXTENSION.
Definition score_id_to_path : Z → bytes := id_to_path SCORE_FILE_EXTENSION.
Definition create_score_data_file {E} : FileOutcome → bytes → M DataDir E Z := create_data_file SCORE_FILE_EXTENSION.
Definition get_score_data_file : bool → Z → DataDir → res ErrorType bytes := get_data_file SCORE_FILE_EXTENSION.
Definition delete_score_data : Z → DataDir → DataDir := delete_data_file SCORE_FILE_EXTENSION.

(** ** Cleaning *)

(** The files no row refers to, removed one by one; a file whose name is not the one
    its id is printed as cannot be removed, which ends the cleaning. *)
Fixpoint remove_ids (extension : bytes) (ids : list Z) (d : DataDir) : DataDir * bool :=
  match ids with
  | [] => (d, true)
  | id :: ids =>
      if bool_decide (is_Some (dd_files d !! id_to_path extension id))
      then remove_ids extension ids (delete_data_file extension id d)
      else (d, false)
  end.

(** [clean_tus_data] and [clean_score_data] on the ids the database uses. *)
Definition clean_data `{!HashOrder} (extension : bytes) (db_ids_list : gset Z) (d : DataDir) : DataDir * bool :=
  remove_ids extension (hash_iter (get_ids_from_directory extension d ∖ db_ids_list)) d.

Definition clean_tus_data `{!HashOrder} : M (Database * DataDir) unit unit := λ '(db, d),
  match tus_get_all_data_ids db with
  | (Ok ids, db') => let '(d', ok) := clean_data TUS_FILE_EXTENSION ids d in (if ok : bool then Ok tt else Err tt, (db', d'))
  | (Err _, db') => (Err tt, (db', d))
  | (Panic, db') => (Panic, (db', d))
  end.

Definition clean_score_data `{!HashOrder} : M (Database * DataDir) unit unit := λ '(db, d),
  match score_get_all_data_ids db with
  | (Ok ids, db') => let '(d', ok) := clean_data SCORE_FILE_EXTENSION ids d in (if ok : bool then Ok tt else Err tt, (db', d'))
  | (Err _, db') => (Err tt, (db', d))
  | (Panic, db') => (Panic, (db', d))
  end.
