(* ===== verification/DataRules.v ===== *)
(** * Data files: names and ids

    The name of a file gives its id back, so an id above those of all files names no
    file yet: a directory that was initialized at start-up never overwrites a file. *)

From S2P Require Import Prelude Protocol Text Database DbTus DbScore DataFiles.

(** ** Names *)

Lemma parse_fixed_digits k n acc :
  0 ≤ n → foldl parse_digit (Some acc) (fixed_digits k n) = Some (acc * 10 ^ Z.of_nat k + n mod 10 ^ Z.of_nat k).
Proof.
  revert n. induction k as [|k IH]; intros n Hn.
  - simpl. rewrite Z.mod_1_r. f_equal. lia.
  - change (fixed_digits (S k) n) with (fixed_digits k (n / 10) ++ [48 + n mod 10]). rewrite foldl_app, IH by (apply Z.div_pos; lia).
    pose proof (Z.mod_pos_bound n 10 ltac:(lia)). simpl foldl. unfold parse_digit. simpl.
    rewrite bool_decide_true by lia. f_equal. rewrite Nat2Z.inj_succ, Z.pow_succ_r by lia.
    rewrite (Z.rem_mul_r n 10) by lia. lia.
Qed.

Lemma fixed_digits_range k n : Forall (λ b, 48 ≤ b ≤ 57) (fixed_digits k n).
Proof.
  revert n. induction k as [|k IH]; intros n; [constructor|]. simpl. apply Forall_app. split; [apply IH|].
  constructor; [|constructor]. pose proof (Z.mod_pos_bound n 10 ltac:(lia)). lia.
Qed.

Lemma fixed_digits_length k n : length (fixed_digits k n) = k.
Proof. revert n. induction k as [|k IH]; intros n; [done|]. simpl. rewrite length_app, IH. simpl. lia. Qed.

Lemma split_once_app sep x y : sep ∉ x → split_once sep (x ++ sep :: y) = Some (x, y).
Proof.
  induction x as [|b x IH]; simpl; intros Hx; [by rewrite bool_decide_true|].
  apply not_elem_of_cons in Hx as [Hb Hx]. rewrite bool_decide_false by done. by rewrite IH.
Qed.

Lemma parse_unsigned_digits max b digits n :
  48 ≤ b → foldl parse_digit (Some 0) (b :: digits) = Some n → n ≤ max → parse_unsigned max (b :: digits) = Some n.
Proof.
  intros Hb Hp Hn. unfold parse_unsigned.
  assert (∀ s : bytes, s = b :: digits →
    (if bool_decide (s = []) then None else (foldl parse_digit (Some 0) s) ≫= λ n, if bool_decide (n ≤ max) then Some n else None) = Some n)
    as Hrun.
  { intros s ->. rewrite bool_decide_false by done. rewrite Hp. simpl. by rewrite bool_decide_true. }
  apply Hrun. repeat case_match; done || lia.
Qed.

Lemma path_id_to_path extension id : 0 ≤ id < 2 ^ 64 → path_id extension (id_to_path extension id) = Some id.
Proof.
  intros Hid. unfold path_id, id_to_path. pose proof (fixed_digits_range 20 id) as Hr.
  pose proof (fixed_digits_length 20 id) as Hl. change ([46] ++ extension) with (46 :: extension). rewrite split_once_app.
  2: { intros Hin. rewrite Forall_forall in Hr. specialize (Hr _ Hin). lia. }
  destruct (fixed_digits 20 id) as [|b digits] eqn:Hd; [done|]. simpl. rewrite bool_decide_true by done.
  apply Forall_cons in Hr as [Hb _]. simpl in Hb. apply parse_unsigned_digits; [lia| |change u64_max with (2 ^ 64 - 1); lia].
  rewrite <- Hd, parse_fixed_digits by lia. f_equal. rewrite Z.mod_small; [lia|]. split; [lia|].
  etransitivity; [apply Hid|done].
Qed.

Lemma id_to_path_inj extension id id' :
  0 ≤ id < 2 ^ 64 → 0 ≤ id' < 2 ^ 64 → id_to_path extension id = id_to_path extension id' → id = id'.
Proof. intros H H' E. apply (f_equal (path_id extension)) in E. rewrite !path_id_to_path in E by done. congruence. Qed.

(** ** Directories *)

(** Every file there is has an id the counter is past. *)
Definition fresh_dir (extension : bytes) (d : DataDir) : Prop :=
  0 < dd_dispenser d ∧
  ∀ name id, is_Some (dd_files d !! name) → path_id extension name = Some id → id < dd_dispenser d.

(** What a running server does to a directory; the counter does not wrap. *)
Inductive data_step (extension : bytes) : DataDir → DataDir → Prop :=
| step_create os data d :
    dd_dispenser d + 1 < 2 ^ 64 → data_step extension d (create_data_file (E := unit) extension os data d).2
| step_delete id d : data_step extension d (delete_data_file extension id d).

Lemma fresh_dir_unused extension d :
  fresh_dir extension d → dd_dispenser d < 2 ^ 64 → dd_files d !! id_to_path extension (dd_dispenser d) = None.
Proof.
  intros [Hp Hf] Hd. apply eq_None_not_Some. intros Hs. apply (Hf _ (dd_dispenser d)) in Hs; [lia|].
  apply path_id_to_path. lia.
Qed.

(** The state after a file was asked for. *)
Lemma create_data_file_run {E} extension os data d :
  0 ≤ dd_dispenser d → dd_dispenser d + 1 < 2 ^ 64 →
  create_data_file (E := E) extension os data d =
    (Ok (match os with FileOk => dd_dispenser d | _ => 0 end),
     mkDataDir (dd_dispenser d + 1)
       match os with
       | CreateFails => dd_files d
       | WriteFails n => <[id_to_path extension (dd_dispenser d) := take n data]> (dd_files d)
       | FileOk => <[id_to_path extension (dd_dispenser d) := data]> (dd_files d)
       end).
Proof.
  intros Hp Hd. assert (wrap_u64 (dd_dispenser d + 1) = dd_dispenser d + 1) as Hw.
  { unfold wrap_u64. apply Z.mod_small. lia. }
  unfold create_data_file, bind, gets, modify, ret. simpl. rewrite Hw. by destruct os.
Qed.

Lemma fresh_dir_step extension d d' : fresh_dir extension d → data_step extension d d' → fresh_dir extension d'.
Proof.
  intros Hfresh Hstep. destruct Hstep as [os data d0 Hd|id d0]; destruct Hfresh as [Hp Hf]; simpl in *.
  - rewrite create_data_file_run by lia. split; simpl; [lia|]. intros name id Hs Hid.
    assert (is_Some (dd_files d0 !! name) ∨ name = id_to_path extension (dd_dispenser d0)) as [Hold | ->].
    { destruct os; [|by left|]; apply lookup_insert_is_Some in Hs as [<- | [_ Hs]]; auto. }
    + specialize (Hf _ _ Hold Hid). lia.
    + rewrite path_id_to_path in Hid by lia. injection Hid as <-. lia.
  - split; [done|]. intros name i Hs.
    change (is_Some (delete (id_to_path extension id) (dd_files d0) !! name)) in Hs. apply lookup_delete_is_Some in Hs as [_ Hs]. by apply Hf.
Qed.

Lemma le_max x l : x ∈ l → x ≤ foldr Z.max 0 l.
Proof. induction l; intros Hx; [by apply not_elem_of_nil in Hx|]. apply elem_of_cons in Hx as [->|Hx]; simpl; [lia|]. specialize (IHl Hx). lia. Qed.

Lemma max_bound l b : 0 ≤ b → (∀ x, x ∈ l → x ≤ b) → 0 ≤ foldr Z.max 0 l ≤ b.
Proof.
  intros Hb. induction l as [|x l IH]; simpl; intros Hl; [lia|]. specialize (Hl x ltac:(left)) as Hx.
  specialize (IH (λ y Hy, Hl y ltac:(by right))). lia.
Qed.

Lemma fresh_dir_start extension d :
  (∀ id, id ∈ get_ids_from_directory extension d → id < 2 ^ 64 - 1) →
  fresh_dir extension (initialize_data_handler extension d).
Proof.
  intros Hb. set (ids := elements (get_ids_from_directory extension d)).
  pose proof (max_bound ids (2 ^ 64 - 2) ltac:(lia)) as Hm.
  assert (0 ≤ foldr Z.max 0 ids ≤ 2 ^ 64 - 2) as Hr.
  { apply Hm. intros x Hx. apply elem_of_elements, Hb in Hx. lia. }
  assert (create_data_directory extension d = foldr Z.max 0 ids + 1) as Hc.
  { unfold create_data_directory, wrap_u64. fold ids. apply Z.mod_small. lia. }
  split; simpl; rewrite Hc; [lia|]. intros name id Hs Hid. cut (id ≤ foldr Z.max 0 ids); [lia|]. apply le_max.
  apply elem_of_elements, elem_of_list_to_set, list_elem_of_omap. exists name. split; [|done].
  by apply elem_of_elements, elem_of_dom.
Qed.

Definition ex_dir : DataDir := mkDataDir 0 {[id_to_path TUS_FILE_EXTENSION 5 := [1]; id_to_path TUS_FILE_EXTENSION 9 := [2]]}.

(** Data files never overwrite each other.  A directory that was initialized at
    start-up, after any creations (successful or not) and deletions, gives the next file an
    id above those of all files there: every existing file keeps its content, the id leads
    back to the data that was written, and a failed write yields the id 0. *)
Theorem data_files_kept extension d0 d os data :
  (∀ id, id ∈ get_ids_from_directory extension d0 → id < 2 ^ 64 - 1) →
  rtc (data_step extension) (initialize_data_handler extension d0) d → dd_dispenser d + 1 < 2 ^ 64 →
  ∃ id d', create_data_file (E := ErrorType) extension os data d = (Ok id, d') ∧
    dd_files d ⊆ dd_files d' ∧ dd_dispenser d < dd_dispenser d' ∧
    (os = FileOk → get_data_file extension true id d' = Ok data ∧ get_data_file extension true id d = Err NotFound) ∧
    (os ≠ FileOk → id = 0).
Proof.
  intros Hb Hr Hd. assert (fresh_dir extension d) as Hf.
  { apply fresh_dir_start in Hb. clear Hd. induction Hr; [done|]. by apply IHHr, (fresh_dir_step _ x). }
  pose proof Hf as [Hp _]. apply fresh_dir_unused in Hf; [|lia]. rewrite create_data_file_run by lia.
  eexists _, _. split; [done|]. split_and!; [|simpl; lia| |by destruct os].
  - destruct os; [by apply insert_subseteq|done|by apply insert_subseteq].
  - intros ->. unfold get_data_file. cbn [dd_files]. by rewrite lookup_insert_eq, Hf.
Qed.

Lemma data_files_kept_witness :
  ∃ id d', create_data_file (E := ErrorType) TUS_FILE_EXTENSION FileOk [3; 4]
             (initialize_data_handler TUS_FILE_EXTENSION ex_dir) = (Ok id, d') ∧
    dd_files (initialize_data_handler TUS_FILE_EXTENSION ex_dir) ⊆ dd_files d' ∧ 10 < dd_dispenser d' ∧
    (FileOk = FileOk → get_data_file TUS_FILE_EXTENSION true id d' = Ok [3; 4] ∧
       get_data_file TUS_FILE_EXTENSION true id (initialize_data_handler TUS_FILE_EXTENSION ex_dir) = Err NotFound) ∧
    (FileOk ≠ FileOk → id = 0).
Proof.
  apply (data_files_kept TUS_FILE_EXTENSION ex_dir (initialize_data_handler TUS_FILE_EXTENSION ex_dir) FileOk [3; 4]);
    [|apply rtc_refl|vm_compute; reflexivity].
  assert (get_ids_from_directory TUS_FILE_EXTENSION ex_dir = {[5; 9]}) as -> by (vm_compute; reflexivity).
  intros id Hid. apply elem_of_union in Hid as [->%elem_of_singleton | ->%elem_of_singleton]; lia.
Defined.

(** ** Cleaning *)

(** Every data file has the name its id is printed as. *)
Definition canonical (extension : bytes) (d : DataDir) : Prop :=
  ∀ name id, is_Some (dd_files d !! name) → path_id extension name = Some id → name = id_to_path extension id.

Lemma remove_ids_run extension l d :
  NoDup l → (∀ id, id ∈ l → is_Some (dd_files d !! id_to_path extension id)) →
  (∀ id id', id ∈ l → id' ∈ l → id_to_path extension id = id_to_path extension id' → id = id') →
  remove_ids extension l d = (mkDataDir (dd_dispenser d) (foldr (λ id, delete (id_to_path extension id)) (dd_files d) (rev l)), true).
Proof.
  revert d. induction l as [|id l IH]; intros d Hnd Hf Hinj; [by destruct d|]. apply NoDup_cons in Hnd as [Hid Hnd].
  simpl remove_ids. rewrite bool_decide_true by (apply Hf; left). rewrite IH; [|done| |].
  - simpl rev. by rewrite foldr_app.
  - intros id' Hid'. change (is_Some (delete (id_to_path extension id) (dd_files d) !! id_to_path extension id')).
    apply lookup_delete_is_Some. split; [|by apply Hf; right].
    intros Heq. apply Hinj in Heq; [by subst|left|by right].
  - intros id1 id2 H1 H2. apply Hinj; by right.
Qed.

Lemma lookup_foldr_delete {K V} `{Countable K} {B} (f : B → K) (l : list B) (m : gmap K V) k :
  foldr (λ b, delete (f b)) m l !! k = if decide (k ∈ f <$> l) then None else m !! k.
Proof.
  induction l as [|b l IH]; cbn [foldr]; [by rewrite decide_False by apply not_elem_of_nil|].
  destruct (decide (f b = k)) as [<-|Hne].
  - rewrite lookup_delete_eq. by rewrite decide_True by (rewrite fmap_cons; left).
  - rewrite lookup_delete_ne, IH by done. rewrite fmap_cons. destruct (decide (k ∈ f <$> l)).
    + by rewrite decide_True by (by right).
    + rewrite decide_False; [done|]. rewrite not_elem_of_cons. done.
Qed.

Lemma elem_of_rev {A} (x : A) l : x ∈ rev l ↔ x ∈ l.
Proof. by rewrite !list_elem_of_In, <- in_rev. Qed.

Lemma elem_of_directory_ids extension d id :
  id ∈ get_ids_from_directory extension d ↔ ∃ name, is_Some (dd_files d !! name) ∧ path_id extension name = Some id.
Proof.
  unfold get_ids_from_directory. rewrite elem_of_list_to_set, list_elem_of_omap.
  by setoid_rewrite elem_of_elements; setoid_rewrite elem_of_dom.
Qed.

(** Cleaning a directory at start-up runs to its end and is exact: with file names
    as the server writes them, no removal fails, every data file no row refers to is gone,
    and every other file is kept. *)
Theorem clean_data_exact `{!HashOrder} extension ids d :
  canonical extension d →
  ∃ d', clean_data extension ids d = (d', true) ∧ dd_dispenser d' = dd_dispenser d ∧
    ∀ name, dd_files d' !! name =
      match path_id extension name with
      | Some id => if decide (id ∈ ids) then dd_files d !! name else None
      | None => dd_files d !! name
      end.
Proof.
  intros Hcan. unfold clean_data. set (unused := hash_iter (get_ids_from_directory extension d ∖ ids)).
  assert (∀ id, id ∈ unused ↔ (∃ name, is_Some (dd_files d !! name) ∧ path_id extension name = Some id) ∧ id ∉ ids) as Hu.
  { intros id. unfold unused. by rewrite elem_of_hash_iter, elem_of_difference, elem_of_directory_ids. }
  assert (∀ id, id ∈ unused → is_Some (dd_files d !! id_to_path extension id) ∧ path_id extension (id_to_path extension id) = Some id) as Hp.
  { intros id Hid. apply Hu in Hid as [(name & Hs & Hpath) _]. by rewrite <- (Hcan _ _ Hs Hpath). }
  rewrite remove_ids_run; [|apply NoDup_hash_iter|intros id Hid; by apply Hp|].
  2: { intros id id' Hid Hid' Heq. apply Hp in Hid as [_ Hid], Hid' as [_ Hid']. congruence. }
  eexists. split; [done|]. split; [done|]. intros name. cbn [dd_files]. rewrite lookup_foldr_delete.
  destruct (decide _) as [Hin|Hout].
  - apply list_elem_of_fmap in Hin as (id & -> & Hid). rewrite elem_of_rev in Hid. pose proof (Hp _ Hid) as [_ ->].
    apply Hu in Hid as [_ Hid]. by rewrite decide_False.
  - destruct (path_id extension name) as [id|] eqn:Hpath; [|done]. destruct (decide (id ∈ ids)); [done|].
    apply eq_None_not_Some. intros Hs. apply Hout, list_elem_of_fmap. exists id. split; [by apply Hcan|].
    apply elem_of_rev, Hu. split; [by eexists|done].
Qed.

Lemma clean_data_exact_witness :
  ∃ d', @clean_data elements_order TUS_FILE_EXTENSION {[9]} ex_dir = (d', true) ∧ dd_dispenser d' = dd_dispenser ex_dir ∧
    ∀ name, dd_files d' !! name =
      match path_id TUS_FILE_EXTENSION name with
      | Some id => if decide (id ∈ ({[9]} : gset Z)) then dd_files ex_dir !! name else None
      | None => dd_files ex_dir !! name
      end.
Proof.
  apply (@clean_data_exact elements_order TUS_FILE_EXTENSION {[9]} ex_dir). intros name id [x Hx] Hid.
  change ((({[id_to_path TUS_FILE_EXTENSION 5 := [1]; id_to_path TUS_FILE_EXTENSION 9 := [2]]}) : gmap bytes bytes) !! name = Some x) in Hx.
  apply lookup_insert_Some in Hx as [[<- _]|[_ Hx]]; [|apply lookup_singleton_Some in Hx as [<- _]];
    rewrite path_id_to_path in Hid by lia; by injection Hid as <-.
Defined.
