(* ===== verification/Ticket.v ===== *)
(** * Authentication tickets (src/src/server/client/ticket.rs)

    A ticket is a version, a size and a sequence of tagged fields, all big-endian;
    a blob is a field that nests others.  The signature comes from OpenSSL and is a
    parameter. *)

From S2P Require Import Prelude Protocol.

Inductive TicketData : Type :=
| TEmpty
| TU32 (value : Z)
| TU64 (value : Z)
| TTime (value : Z)
| TBinary (data : bytes)
| TBString (data : bytes)
| TBlob (id : Z) (sdata : list TicketData).

Definition ticket_data_id (d : TicketData) : Z :=
  match d with
  | TEmpty => 0
  | TU32 _ => 1
  | TU64 _ => 2
  | TBString _ => 4
  | TTime _ => 7
  | TBinary _ => 8
  | TBlob id _ => Z.lor 0x3000 id
  end.

(** The sum of a blob is taken in [u16]. *)
Fixpoint ticket_data_len (d : TicketData) : Z :=
  match d with
  | TEmpty => 0
  | TU32 _ => 4
  | TU64 _ => 8
  | TBString data => wrap_u16 (Z.of_nat (length data))
  | TTime _ => 8
  | TBinary data => wrap_u16 (Z.of_nat (length data))
  | TBlob _ sdata => fold_right (λ x acc, wrap_u16 (wrap_u16 (ticket_data_len x + 4) + acc)) 0 sdata
  end.

Fixpoint ticket_data_write (d : TicketData) : bytes :=
  to_be_bytes 2 (ticket_data_id d) ++ to_be_bytes 2 (ticket_data_len d) ++
  match d with
  | TEmpty => []
  | TU32 value => to_be_bytes 4 value
  | TU64 value => to_be_bytes 8 value
  | TBString data => data
  | TTime time => to_be_bytes 8 time
  | TBinary data => data
  | TBlob _ sdata => flat_map ticket_data_write sdata
  end.

(** [Vec::resize(n, 0)]. *)
Definition resize_zero (n : nat) (bs : bytes) : bytes := take n bs ++ replicate (n - length bs) 0.

(** [format!("{}", n)] of an unsigned number, least significant digit last. *)
Fixpoint decimal_digits (fuel : nat) (n : Z) (acc : bytes) : bytes :=
  match fuel with
  | O => acc
  | S fuel =>
      let acc := (0x30 + n mod 10) :: acc in
      if bool_decide (n < 10) then acc else decimal_digits fuel (n / 10) acc
  end.

(** Twenty digits are enough for a [u64]. *)
Definition decimal (n : Z) : bytes := decimal_digits 20 n [].

Section ticket.
(** [sign data]: the signature of the configured key, [None] when no key is
    configured or OpenSSL fails. *)
Context (sign : bytes → option bytes).

Definition sign_ticket (user_blob : TicketData) : TicketData :=
  match sign (ticket_data_write user_blob) with
  | None => TBlob 2 [TBinary [0; 0; 0; 0]; TBinary (replicate 56 0)]
  | Some vec_sign => TBlob 2 [TBinary (bytes_of_string "RPCN"); TBinary vec_sign]
  end.

(** [ticket_id] is what the dispenser returned, [now] the time in milliseconds. *)
Definition Ticket_new (ticket_id now user_id : Z) (npid service_id : string) (cookie : bytes) : list TicketData :=
  let serial_vec := resize_zero 0x14 (decimal ticket_id) in
  let issued_date := wrap_u64 (now - 60 * 1000) in
  let expire_date := wrap_u64 (issued_date + 60 * 1000 * 15) in
  let online_id := resize_zero 0x20 (bytes_of_string npid) in
  let service_id := resize_zero 0x18 (bytes_of_string service_id) in
  let user_data :=
    [ TBinary serial_vec; TU32 0x100; TTime issued_date; TTime expire_date; TU64 user_id; TBString online_id;
      TBinary [0x62; 0x72; 0; 0]; TBString [0x75; 0x6E; 0; 0]; TBinary service_id; TU32 0 ]
    ++ (if bool_decide (cookie ≠ []) then [TBinary cookie] else []) ++ [TEmpty; TEmpty] in
  let user_blob := TBlob 0 user_data in
  [user_blob; sign_ticket user_blob].

Definition generate_blob (data : list TicketData) : bytes :=
  let size := wrap_u32 (fold_right (λ x acc, wrap_u16 (ticket_data_len x + 4) + acc) 0 data) in
  to_be_bytes 4 0x21010000 ++ to_be_bytes 4 size ++ flat_map ticket_data_write data.
End ticket.

(** ** Lengths *)

(** The length of a field's contents before it is reduced to 16 bits. *)
Fixpoint full_len (d : TicketData) : Z :=
  match d with
  | TEmpty => 0
  | TU32 _ => 4
  | TU64 _ | TTime _ => 8
  | TBString data | TBinary data => Z.of_nat (length data)
  | TBlob _ sdata => fold_right (λ x acc, full_len x + 4 + acc) 0 sdata
  end.

Definition fields_len (ds : list TicketData) : Z := fold_right (λ x acc, full_len x + 4 + acc) 0 ds.

Section ind.
Context (P : TicketData → Prop).
Context (Hempty : P TEmpty) (Hu32 : ∀ v, P (TU32 v)) (Hu64 : ∀ v, P (TU64 v)) (Htime : ∀ v, P (TTime v)).
Context (Hbin : ∀ d, P (TBinary d)) (Hstr : ∀ d, P (TBString d)).
Context (Hblob : ∀ id ds, Forall P ds → P (TBlob id ds)).

Fixpoint ticket_data_nested_ind (d : TicketData) : P d :=
  match d with
  | TEmpty => Hempty
  | TU32 v => Hu32 v
  | TU64 v => Hu64 v
  | TTime v => Htime v
  | TBinary data => Hbin data
  | TBString data => Hstr data
  | TBlob id ds => Hblob id ds
      ((fix go ds : Forall P ds :=
          match ds with
          | [] => Forall_nil_2 P
          | d :: ds => Forall_cons_2 P d ds (ticket_data_nested_ind d) (go ds)
          end) ds)
  end.
End ind.

Lemma full_len_nonneg d : 0 ≤ full_len d.
Proof.
  induction d as [| | | | | |id ds IH] using ticket_data_nested_ind; simpl; try lia.
  induction IH; simpl; lia.
Qed.

Lemma fields_len_nonneg ds : 0 ≤ fields_len ds.
Proof. induction ds as [|d ds IH]; simpl; [lia|]. pose proof (full_len_nonneg d). lia. Qed.

Lemma length_to_be_bytes n v : length (to_be_bytes n v) = n.
Proof. unfold to_be_bytes. by rewrite length_rev, length_to_le_bytes. Qed.

(** What is written is the four bytes of the header and the contents. *)
Lemma length_write d : Z.of_nat (length (ticket_data_write d)) = 4 + full_len d.
Proof.
  induction d as [| | | | | |id ds IH] using ticket_data_nested_ind;
    cbn [ticket_data_write]; rewrite !length_app, !length_to_be_bytes; cbn [full_len]; try (simpl; lia).
  enough (Z.of_nat (length (flat_map ticket_data_write ds)) =
    fold_right (λ x acc, full_len x + 4 + acc) 0 ds) by lia.
  induction IH as [|d ds Hd _ IH]; [done|]. cbn [flat_map fold_right]. rewrite length_app. lia.
Qed.

Lemma length_flat_write ds : Z.of_nat (length (flat_map ticket_data_write ds)) = fields_len ds.
Proof.
  induction ds as [|d ds IH]; [done|]. cbn [flat_map]. rewrite length_app, Nat2Z.inj_add, IH, length_write.
  simpl. lia.
Qed.

(** The 16-bit length is the length modulo [2^16]. *)
Lemma ticket_data_len_wrap d : ticket_data_len d = wrap_u16 (full_len d).
Proof.
  unfold wrap_u16. induction d as [| | | | | |id ds IH] using ticket_data_nested_ind; try done.
  cbn [ticket_data_len full_len]. induction IH as [|d ds Hd _ IH]; [done|]. cbn [fold_right].
  rewrite IH, Hd. unfold wrap_u16. rewrite Z.add_mod_idemp_r, Z.add_mod_idemp_l by lia.
  rewrite <- !Z.add_assoc, Z.add_mod_idemp_l by lia. done.
Qed.

Lemma ticket_data_len_small d : full_len d < 2 ^ 16 → ticket_data_len d = full_len d.
Proof.
  intros H. rewrite ticket_data_len_wrap. apply Z.mod_small. pose proof (full_len_nonneg d). lia.
Qed.

Lemma sum_len_small ds :
  (∀ d, d ∈ ds → full_len d + 4 < 2 ^ 16) →
  fold_right (λ x acc, wrap_u16 (ticket_data_len x + 4) + acc) 0 ds = fields_len ds.
Proof.
  induction ds as [|d ds IH]; intros Hs; [done|]. cbn [fold_right].
  assert (full_len d + 4 < 2 ^ 16) as Hd by (apply Hs; set_solver).
  rewrite IH by (intros; apply Hs; set_solver). rewrite ticket_data_len_small by lia.
  unfold wrap_u16. rewrite Z.mod_small by (pose proof (full_len_nonneg d); lia). simpl. lia.
Qed.

Lemma length_resize_zero n bs : length (resize_zero n bs) = n.
Proof. unfold resize_zero. rewrite length_app, length_take, length_replicate. lia. Qed.

(** The user part of a ticket is 164 bytes of fixed fields and the cookie. *)
Lemma user_blob_len sign ticket_id now uid npid sid cookie :
  ∃ blob sig, Ticket_new sign ticket_id now uid npid sid cookie = [blob; sig] ∧
    full_len blob = 164 + (if bool_decide (cookie ≠ []) then 4 + Z.of_nat (length cookie) else 0) ∧
    full_len sig = match sign (ticket_data_write blob) with
                   | None => 68 | Some s => 12 + Z.of_nat (length s) end.
Proof.
  eexists _, _. split; [reflexivity|]. split.
  - case_bool_decide; cbn -[resize_zero]; rewrite !length_resize_zero; simpl; lia.
  - unfold sign_ticket. destruct (sign _); simpl; lia.
Qed.


