(* ===== verification/Matchmaking.v ===== *)
(** * Title-specific matchmaking (src/src/server/game_specific_matchmaking.rs)

    One title's ranked search has its rank range narrowed on the server. *)

From S2P Require Import Prelude Protocol Messages.

#[export] Instance int_attr_eta : Eta IntAttr := λ a, mkIntAttr (ia_id a) (ia_num a).
#[export] Instance int_filter_eta : Eta IntSearchFilter := λ f,
  mkIntSearchFilter (isf_search_operator f) (isf_attr f).
#[export] Instance search_req_eta : Eta SearchRoomRequest := λ r,
  mkSearchRoomRequest (sr_option r) (sr_world_id r) (sr_lobby_id r) (sr_range_filter_start_index r)
    (sr_range_filter_max r) (sr_flag_filter r) (sr_flag_attr r) (sr_int_filter r) (sr_bin_filter r)
    (sr_attr_id r).

Definition NPWR02973_00 : ComId := bytes_of_string "NPWR02973_00".
Definition RANK_LOWER_FILTER_INDEX : nat := 3.
Definition RANK_UPPER_FILTER_INDEX : nat := 4.
Definition FIRST_DAN_MAX_RANK : Z := 10.

(** [search_req.int_filter.get(i)?.attr.as_ref()?.num]. *)
Definition filter_num (filters : list IntSearchFilter) (i : nat) : option Z :=
  f ← filters !! i; ia_num <$> isf_attr f.

(** [int_filter.get_mut(i)?.attr.as_mut()?.num = num]. *)
Definition set_filter_num (i : nat) (num : Z) (filters : list IntSearchFilter) : option (list IntSearchFilter) :=
  f ← filters !! i;
  a ← isf_attr f;
  Some (<[i := f <| isf_attr := Some (a <| ia_num := num |>) |>]> filters).

Definition u32_saturating_add (a b : Z) : Z := Z.min (a + b) u32_max.
Definition u32_saturating_sub (a b : Z) : Z := Z.max (a - b) 0.

Definition build_npwr02973_adjusted_request (com_id : ComId) (search_req : SearchRoomRequest) :
  option SearchRoomRequest :=
  if bool_decide (com_id ≠ NPWR02973_00) then None
  else
    lower ← filter_num (sr_int_filter search_req) RANK_LOWER_FILTER_INDEX;
    upper ← filter_num (sr_int_filter search_req) RANK_UPPER_FILTER_INDEX;
    if bool_decide (upper < lower) then None
    else
      let rank := wrap_u32 (lower + (upper - lower) / 2) in
      if bool_decide (rank ≤ FIRST_DAN_MAX_RANK) then None
      else
        let adjusted_lower := Z.min (u32_saturating_add lower 2) rank in
        let adjusted_upper := Z.max (u32_saturating_sub upper 2) rank in
        if bool_decide ((adjusted_lower, adjusted_upper) = (lower, upper)) then None
        else
          l ← set_filter_num RANK_LOWER_FILTER_INDEX adjusted_lower (sr_int_filter search_req);
          l ← set_filter_num RANK_UPPER_FILTER_INDEX adjusted_upper l;
          Some (search_req <| sr_int_filter := l |>).

Lemma filter_num_Some filters i n :
  filter_num filters i = Some n →
  ∃ f a, filters !! i = Some f ∧ isf_attr f = Some a ∧ ia_num a = n.
Proof.
  unfold filter_num. intros (f & Hf & Ha)%bind_Some. apply fmap_Some in Ha as (a & Ha & ->). eauto.
Qed.

Lemma set_filter_num_Some filters i n n' :
  filter_num filters i = Some n →
  ∃ l, set_filter_num i n' filters = Some l ∧ filter_num l i = Some n' ∧ length l = length filters ∧
    (∀ j, j ≠ i → l !! j = filters !! j) ∧
    (∀ f, filters !! i = Some f → ∃ f', l !! i = Some f' ∧ isf_search_operator f' = isf_search_operator f ∧
       (ia_id <$> isf_attr f') = (ia_id <$> isf_attr f)).
Proof.
  intros (f & a & Hf & Ha & _)%filter_num_Some. unfold set_filter_num. rewrite Hf. simpl. rewrite Ha. simpl.
  eexists. split; [reflexivity|]. apply lookup_lt_Some in Hf as Hlt.
  assert (∀ x, <[i := x]> filters !! i = Some x) as Hl by (intros; by apply list_lookup_insert_eq).
  split; [unfold filter_num; by rewrite Hl|]. split; [apply length_insert|].
  split; [intros j Hj; by apply list_lookup_insert_ne|].
  intros f0 Hf0. rewrite Hl. eexists. split; [done|]. assert (f0 = f) as -> by congruence. simpl.
  rewrite Ha. done.
Qed.

(** The rank range of a request. *)
Definition rank_range (req : SearchRoomRequest) : option (Z * Z) :=
  lower ← filter_num (sr_int_filter req) RANK_LOWER_FILTER_INDEX;
  upper ← filter_num (sr_int_filter req) RANK_UPPER_FILTER_INDEX;
  Some (lower, upper).

(** The adjusted request exists only for the one title and only for a range
    whose midpoint is above first dan; it differs from the client's request in the two
    rank bounds alone; the bounds move toward the midpoint by two ranks, or by the
    distance to it where that is less; so the new range lies inside the old one,
    still contains the midpoint, and is strictly smaller. *)
Theorem adjusted_range_narrows c req req' lower upper :
  0 ≤ lower < 2 ^ 32 → 0 ≤ upper < 2 ^ 32 → rank_range req = Some (lower, upper) →
  build_npwr02973_adjusted_request c req = Some req' →
  let mid := lower + (upper - lower) / 2 in
  ∃ lower' upper', rank_range req' = Some (lower', upper') ∧
    c = NPWR02973_00 ∧ 10 < mid ∧
    lower' = Z.min (lower + 2) mid ∧ upper' = Z.max (upper - 2) mid ∧
    lower ≤ lower' ≤ mid ∧ mid ≤ upper' ≤ upper ∧ (lower', upper') ≠ (lower, upper) ∧
    req' <| sr_int_filter := sr_int_filter req |> = req ∧
    (∀ j, j ≠ 3%nat → j ≠ 4%nat → sr_int_filter req' !! j = sr_int_filter req !! j) ∧
    length (sr_int_filter req') = length (sr_int_filter req).
Proof.
  intros Hl Hu Hrr. unfold rank_range, build_npwr02973_adjusted_request in *.
  apply bind_Some in Hrr as (lo & Hlo & (up & Hup & [= -> ->])%bind_Some).
  rewrite Hlo, Hup. simpl. case_bool_decide as Hc; [done|].
  case_bool_decide as Hlu; [done|].
  assert (0 ≤ (upper - lower) / 2 ≤ upper - lower) as Hhalf.
  { split; [apply Z.div_pos; lia|]. apply Z.div_le_upper_bound; lia. }
  unfold wrap_u32. rewrite Z.mod_small by lia. set (mid := lower + (upper - lower) / 2).
  unfold FIRST_DAN_MAX_RANK. case_bool_decide as Hdan; [done|].
  unfold u32_saturating_add, u32_saturating_sub, u32_max.
  set (lo' := Z.min _ mid). set (up' := Z.max _ mid). case_bool_decide as Hsame; [done|].
  destruct (set_filter_num_Some _ _ _ lo' Hlo) as (l1 & -> & Hl1 & Hlen1 & Hother1 & _). simpl.
  assert (filter_num l1 RANK_UPPER_FILTER_INDEX = Some upper) as Hup1
    by (unfold filter_num in *; by rewrite Hother1).
  destruct (set_filter_num_Some _ _ _ up' Hup1) as (l2 & -> & Hl2 & Hlen2 & Hother2 & _). simpl.
  intros [= <-]. exists lo', up'. simpl.
  assert (filter_num l2 RANK_LOWER_FILTER_INDEX = Some lo') as -> by (unfold filter_num in *; by rewrite Hother2).
  simpl. rewrite Hl2. simpl. split; [done|]. split; [done|]. split; [lia|].
  split; [unfold lo'; lia|]. split; [unfold up'; lia|]. split; [unfold lo'; lia|]. split; [unfold up'; lia|].
  split; [done|]. split; [by destruct req|]. split; [|congruence].
  intros j H3 H4. rewrite Hother2 by done. by apply Hother1.
Qed.

Definition ex_rank_filter (n : Z) : IntSearchFilter :=
  mkIntSearchFilter (new_from_value 6) (Some (mkIntAttr (new_from_value 0x4C) n)).

Lemma adjusted_range_narrows_witness :
  let req := mkSearchRoomRequest 0 1 0 0 0 0 0 (ex_rank_filter <$> [0; 0; 0; 12; 20]) [] [] in
  ∃ req' lower' upper', build_npwr02973_adjusted_request NPWR02973_00 req = Some req' ∧
    rank_range req' = Some (lower', upper') ∧ lower' = 14 ∧ upper' = 18.
Proof.
  intros req.
  set (req' := default req (build_npwr02973_adjusted_request NPWR02973_00 req)).
  destruct (adjusted_range_narrows NPWR02973_00 req req' 12 20) as (l & u & H1 & _ & _ & Hl & Hu & _);
    [lia|lia|vm_compute; reflexivity|vm_compute; reflexivity|].
  exists req', l, u. split; [vm_compute; reflexivity|]. split; [exact H1|]. split; [exact Hl|exact Hu].
Defined.
