(* ===== verification/GameTracker.v ===== *)
(** * The game tracker (src/src/server/game_tracker.rs)

    Counters of connected users and of the users per title and per ticket service,
    kept in atomics; every update is one atomic step, so a sequence of updates is a
    sequence of these functions. *)

From S2P Require Import Prelude Protocol.

Record GameInfo := mkGameInfo {
  gi_num_users : Z;
  gi_name_hints : gset string;
}.
#[export] Instance game_info_eta : Eta GameInfo := λ g, mkGameInfo (gi_num_users g) (gi_name_hints g).

Record GameTracker := mkGameTracker {
  gt_num_users : Z;
  gt_psn_games : gmap ComId GameInfo;
  gt_ticket_games : gmap string Z;
}.
#[export] Instance game_tracker_eta : Eta GameTracker := λ g,
  mkGameTracker (gt_num_users g) (gt_psn_games g) (gt_ticket_games g).

Definition GameTracker_new : GameTracker := mkGameTracker 0 ∅ ∅.

Definition add_gamename_hint (com_id : ComId) (name_hint : string) (g : GameTracker) : GameTracker :=
  match gt_psn_games g !! com_id with
  | None => g
  | Some game_info =>
      if bool_decide (name_hint ∈ gi_name_hints game_info) then g
      else g <| gt_psn_games ::= <[com_id := game_info <| gi_name_hints ::= union {[name_hint]} |>]> |>
  end.

Definition increase_num_users (g : GameTracker) : GameTracker :=
  g <| gt_num_users := wrap_i64 (gt_num_users g + 1) |>.

Definition decrease_num_users (g : GameTracker) : GameTracker :=
  g <| gt_num_users := wrap_i64 (gt_num_users g - 1) |>.

Definition add_value_psn (com_id : ComId) (to_add : Z) (g : GameTracker) : GameTracker :=
  let info := default (mkGameInfo 0 ∅) (gt_psn_games g !! com_id) in
  g <| gt_psn_games ::= <[com_id := info <| gi_num_users := wrap_i64 (gi_num_users info + to_add) |>]> |>.

Definition increase_count_psn (com_id : ComId) : GameTracker → GameTracker := add_value_psn com_id 1.
Definition decrease_count_psn (com_id : ComId) : GameTracker → GameTracker := add_value_psn com_id (-1).

Definition add_value_ticket (service_id : string) (to_add : Z) (g : GameTracker) : GameTracker :=
  let n := default 0 (gt_ticket_games g !! service_id) in
  g <| gt_ticket_games ::= <[service_id := wrap_i64 (n + to_add)]> |>.

Definition increase_count_ticket (service_id : string) : GameTracker → GameTracker := add_value_ticket service_id 1.
Definition decrease_count_ticket (service_id : string) : GameTracker → GameTracker := add_value_ticket service_id (-1).

(** The users counted for a title. *)
Definition psn_count (g : GameTracker) (com_id : ComId) : Z :=
  from_option gi_num_users 0 (gt_psn_games g !! com_id).

Lemma psn_count_add g c n c' :
  psn_count (add_value_psn c n g) c' = if decide (c = c') then wrap_i64 (psn_count g c + n) else psn_count g c'.
Proof.
  unfold psn_count, add_value_psn. simpl. rewrite lookup_insert. case_decide; [|done]. subst.
  by destruct (gt_psn_games g !! c').
Qed.
