(* ===== verification/StatServer.v ===== *)
(** * The statistics server (src/src/server/stat_server.rs)

    A read-only HTTP view of the game tracker and of the score boards, with the answers
    about boards kept for a configured time.  Texts are bytes of UTF-8; the characters
    [sanitize_for_json] treats are ASCII, so it works byte by byte. *)

From S2P Require Import Prelude Protocol Messages RoomData ScoreCache Text Json Http Config GameTracker.

(** ** Cached answers *)

Record CachedResponse := mkCachedResponse {
  cr_timestamp : Z;
  cr_cached_response : Response;
}.
#[export] Instance cached_response_eta : Eta CachedResponse := λ c,
  mkCachedResponse (cr_timestamp c) (cr_cached_response c).

Definition CachedResponse_new : CachedResponse := mkCachedResponse 0 (Response_new []).

Record JsonScoreCache := mkJsonScoreCache {
  js_table_cache : gmap ComId (gmap Z CachedResponse);
  js_com_id_cache : gmap ComId CachedResponse;
}.
#[export] Instance json_score_cache_eta : Eta JsonScoreCache := λ c,
  mkJsonScoreCache (js_table_cache c) (js_com_id_cache c).

Record JsonCache := mkJsonCache {
  jc_usage_cache : CachedResponse;
  jc_score_cache : JsonScoreCache;
}.
#[export] Instance json_cache_eta : Eta JsonCache := λ c, mkJsonCache (jc_usage_cache c) (jc_score_cache c).

Definition JsonCache_new : JsonCache := mkJsonCache CachedResponse_new (mkJsonScoreCache ∅ ∅).

(** What a request works on, and the server's settings. *)
Record StatState := mkStatState {
  sx_score_cache : ScoresCache;
  sx_json_cache : JsonCache;
}.
#[export] Instance stat_state_eta : Eta StatState := λ s, mkStatState (sx_score_cache s) (sx_json_cache s).

Abbreviation SS := (M StatState ErrorType).

Record StatServer := mkStatServer {
  ss_path : bytes;
  ss_cache_life : Z;
}.

(** [start_stat_server]: nothing without an address in the configuration, an error when
    the address does not resolve or cannot be bound. *)
Definition start_stat_server (config : Config) (resolves binds : bool) : res unit (option StatServer) :=
  match cf_stat_server_host_and_port config with
  | None => Ok None
  | Some _ =>
      if negb resolves then Err tt
      else if negb binds then Err tt
      else Ok (Some (mkStatServer (text "/" ++ text (cf_stat_server_path config)) (cf_stat_server_cache_life config)))
  end.

Definition on_score_cache {A} (m : SC A) : SS A :=
  zoom (λ s, Some (sx_score_cache s)) (λ c s, s <| sx_score_cache := c |>) m.

Definition on_json (f : JsonCache → JsonCache) : SS unit := modify (λ s, s <| sx_json_cache ::= f |>).

(** ** Texts *)

Definition sanitize_char (c : Z) : bytes :=
  if bool_decide (c = 34) then [92; 34]
  else if bool_decide (c = 92) then [92; 92]
  else if bool_decide (c ∈ [8; 12; 10; 13; 9]) then []
  else [c].

Definition sanitize_for_json (s : bytes) : bytes := s ≫= sanitize_char.

(** [{:02x}]. *)
Definition hex_lower_digit (d : Z) : Z := if bool_decide (d < 10) then 48 + d else 87 + d.
Definition hex_lower (b : Z) : bytes := [hex_lower_digit ((b / 16) mod 16); hex_lower_digit (b mod 16)].

(** [    "name": value] *)
Definition field (indent : nat) (name : string) (value : bytes) : bytes :=
  spaces indent ++ quoted (text name) ++ text ": " ++ value.

Section stat_server.
Context `{!HashOrder}.

(** The titles and services with users, in the order of the maps. *)
Definition psn_games_shown (g : GameTracker) : list (bytes * Z * list bytes) :=
  omap (λ '(name, game_info),
    let num_users := gi_num_users game_info in
    if bool_decide (num_users ≠ 0) then
      Some (text (com_id_to_string name), num_users, bytes_of_string <$> hash_iter (gi_name_hints game_info))
    else None) (hash_map_iter (gt_psn_games g)).

Definition ticket_games_shown (g : GameTracker) : list (bytes * Z) :=
  omap (λ '(name, num_users), if bool_decide (num_users ≠ 0) then Some (text name, num_users) else None)
    (hash_map_iter (gt_ticket_games g)).

Definition game_with_hints (g : bytes * Z * list bytes) : bytes :=
  let '(name, num, name_hints) := g in
  spaces 8 ++ quoted name ++ text ": [" ++ show_int num
  ++ (name_hints ≫= λ hint, text ", " ++ quoted (sanitize_for_json hint)) ++ text "]".

Definition game_line (g : bytes * Z) : bytes := spaces 8 ++ quoted g.1 ++ text ": " ++ show_int g.2.

(** The section of a list of games, none when there are none. *)
Definition add_section {A} (section_name : string) (line : A → bytes) (v : list A) : bytes :=
  if bool_decide (length v = 0%nat) then []
  else [44; 10] ++ spaces 4 ++ quoted (text section_name) ++ text ": {" ++ [10] ++ comma_lines (line <$> v)
       ++ spaces 4 ++ text "}".

Definition game_tracker_to_json (g : GameTracker) : bytes :=
  text "{" ++ [10] ++ spaces 4 ++ quoted (text "num_users") ++ text " : " ++ show_int (gt_num_users g)
  ++ add_section "psn_games" game_with_hints (psn_games_shown g)
  ++ add_section "ticket_games" game_line (ticket_games_shown g)
  ++ [10] ++ text "}".

(** One score; [c[index]] and [g[index]] panic out of range. *)
Definition score_to_json (result : GetScoreResultCache) (index : nat) (score : ScoreRankDataCache) : R bytes :=
  let online_name := sanitize_for_json (text (rc_online_name score)) in
  let? comment := match gs_comments result with
                  | None => Ok []
                  | Some c => res_map (λ s, sanitize_for_json (text s)) (unwrap (c !! index))
                  end in
  let? game_info := match gs_infos result with
                    | None => Ok []
                    | Some g => res_map (λ bs, bs ≫= hex_lower) (unwrap (g !! index))
                    end in
  Ok (spaces 8 ++ text "{" ++ [10; 10]
      ++ comma_lines
           [field 12 "rank" (show_int (wrap_u32 (rc_rank score + 1)));
            field 12 "npid" (quoted (text (rc_npid score)));
            field 12 "online_name" (quoted online_name);
            field 12 "pcid" (show_int (rc_pcid score));
            field 12 "score" (show_int (rc_score score));
            field 12 "has_gamedata" (show_bool (rc_has_gamedata score));
            field 12 "comment" (quoted comment);
            field 12 "info" (quoted game_info);
            field 12 "timestamp" (show_int (rc_timestamp score))]
      ++ spaces 8 ++ text "}" ++ [10]).

Definition score_result_to_json (result : GetScoreResultCache) (board_id : Z) (table_infos : DbBoardInfo) : R bytes :=
  let? scores := res_map_list (λ '(index, score), score_to_json result index score) (imap pair (gs_scores result)) in
  Ok (text "{" ++ [10]
      ++ comma_lines
           [field 4 "board_id" (show_int board_id);
            field 4 "rank_limit" (show_int (bi_rank_limit table_infos));
            field 4 "update_mode" (show_int (bi_update_mode table_infos));
            field 4 "sort_mode" (show_int (bi_sort_mode table_infos));
            field 4 "upload_num_limit" (show_int (bi_upload_num_limit table_infos));
            field 4 "upload_size_limit" (show_int (bi_upload_size_limit table_infos));
            field 4 "total_records" (show_int (gs_total_records result));
            field 4 "scores" (text "[" ++ [10] ++ comma_lines scores ++ spaces 4 ++ text "]")]
      ++ text "}").

(** The text of one board, read from the cache. *)
Definition board_to_json (com_id : ComId) (board_id : Z) (table_infos : DbBoardInfo) : SC bytes :=
  do result <- get_score_range com_id board_id 1 (bi_rank_limit table_infos) true true;
  lift (score_result_to_json result board_id table_infos).

(** [ScoresCache::get_all_tables]: the boards of a title, in the order of the map. *)
Definition get_all_tables (com_id : ComId) (c : ScoresCache) : list (Z * ScoreTableCache) :=
  let com_id_str := com_id_to_string com_id in
  omap (λ '((com, board_id), table), if bool_decide (com = com_id_str) then Some (board_id, table) else None)
    (hash_map_iter (sc_tables c)).

Definition board_le (a b : Z * ScoreTableCache) : Prop := a.1 ≤ b.1.
#[global] Instance board_le_dec a b : Decision (board_le a b).
Proof. unfold board_le. apply _. Defined.

Definition com_id_score_to_json (com_id : ComId) : SC bytes :=
  do tables <- gets (get_all_tables com_id);
  if bool_decide (length tables = 0%nat) then ret (text "[]")
  else
    do jsons <- map_each (λ '(board_id, table), board_to_json com_id board_id (st_table_info table))
                  (merge_sort board_le tables);
    ret (text "[" ++ [10] ++ comma_lines jsons ++ text "]").

(** ** Requests *)

(** [new_timestamp > timestamp + cache_life] on 32 bits. *)
Definition is_stale (now cache_life : Z) (cached : CachedResponse) : bool :=
  bool_decide (wrap_u32 (cr_timestamp cached + cache_life) < now).

Definition handle_usage_req (now cache_life : Z) (game_tracker : GameTracker) : SS Response :=
  if bool_decide (cache_life = 0) then ret (json_response 200 (game_tracker_to_json game_tracker))
  else
    do cached <- gets (λ s, jc_usage_cache (sx_json_cache s));
    if is_stale now cache_life cached then
      let response := json_response 200 (game_tracker_to_json game_tracker) in
      do! on_json (λ j, j <| jc_usage_cache ::= (λ c, c <| cr_cached_response := response |>) |>);
      ret response
    else ret (cr_cached_response cached).

(** An entry of a cache of answers: made anew when it is missing, refreshed when it is
    stale. *)
Definition serve_cached (now cache_life : Z) (lookup : JsonScoreCache → option CachedResponse)
  (store : CachedResponse → JsonScoreCache → JsonScoreCache) (fresh : SC bytes) : SS Response :=
  do found <- gets (λ s, lookup (jc_score_cache (sx_json_cache s)));
  let cached := default CachedResponse_new found in
  do! on_json (λ j, j <| jc_score_cache ::= store cached |>);
  if is_stale now cache_life cached then
    do json <- on_score_cache fresh;
    let cached := mkCachedResponse now (json_response 200 json) in
    do! on_json (λ j, j <| jc_score_cache ::= store cached |>);
    ret (cr_cached_response cached)
  else ret (cr_cached_response cached).

Definition store_com_id (com_id : ComId) (cached : CachedResponse) (c : JsonScoreCache) : JsonScoreCache :=
  c <| js_com_id_cache ::= <[com_id := cached]> |>.

Definition store_table (com_id : ComId) (table_id : Z) (cached : CachedResponse) (c : JsonScoreCache) : JsonScoreCache :=
  c <| js_table_cache ::= (λ m, <[com_id := <[table_id := cached]> (default ∅ (m !! com_id))]> m) |>.

Definition cached_com_id (com_id : ComId) (c : JsonScoreCache) : option CachedResponse := js_com_id_cache c !! com_id.
Definition cached_table (com_id : ComId) (table_id : Z) (c : JsonScoreCache) : option CachedResponse :=
  m ← js_table_cache c !! com_id; m !! table_id.

Definition handle_com_id_score_req (now cache_life : Z) (com_id : ComId) : SS Response :=
  if bool_decide (cache_life = 0) then
    do json <- on_score_cache (com_id_score_to_json com_id);
    ret (json_response 200 json)
  else serve_cached now cache_life (cached_com_id com_id) (store_com_id com_id) (com_id_score_to_json com_id).

Definition handle_table_score_req (now cache_life : Z) (com_id : ComId) (table_id : Z) : SS Response :=
  do found <- gets (λ s, get_table (sx_score_cache s) com_id table_id);
  match found with
  | Some table =>
      let table_infos := st_table_info table in
      if bool_decide (cache_life = 0) then
        do json <- on_score_cache (board_to_json com_id table_id table_infos);
        ret (json_response 200 json)
      else
        serve_cached now cache_life (cached_table com_id table_id) (store_table com_id table_id)
          (board_to_json com_id table_id table_infos)
  | None => ret (Response_new [])
  end.

Definition handle_stat_server_req (now : Z) (server : StatServer) (game_tracker : GameTracker) (req : Request) :
  SS Response :=
  if bool_decide (rq_method req ≠ GET) then ret (Response_new [])
  else
    let req_path := rq_path req in
    let usage_path := ss_path server ++ text "/usage" in
    let score_prefix := ss_path server ++ text "/score/" in
    if bool_decide (req_path = usage_path) then handle_usage_req now (ss_cache_life server) game_tracker
    else
      match strip_prefix score_prefix req_path with
      | Some rest =>
          match splitn2 47 rest with
          | [com_id] =>
              if bool_decide (length com_id = COMMUNICATION_ID_SIZE) then handle_com_id_score_req now (ss_cache_life server) com_id
              else ret (Response_new [])
          | com_id :: table :: _ =>
              if bool_decide (length com_id = COMMUNICATION_ID_SIZE) then
                match parse_unsigned u32_max table with
                | Some table_id => handle_table_score_req now (ss_cache_life server) com_id table_id
                | None => ret (Response_new [])
                end
              else ret (Response_new [])
          | [] => ret (Response_new [])
          end
      | None => ret (Response_new [])
      end.
End stat_server.
