(* ===== verification/StatRules.v ===== *)
(** * What the statistics server answers

    The texts it writes are JSON that stands for the boards and counters they were
    written from; answers about boards are never older than the configured time; no
    request changes a board. *)

From S2P Require Import Prelude Protocol Messages RoomData RoomInv RoomReports ScoreCache ScoreInv ScoreBoard.
From S2P Require Import RoomMachine Text Json Http Config GameTracker StatServer.

(** ** Sanitised strings *)

(** The characters that are dropped, and the control characters that are kept. *)
Definition dropped (b : Z) : bool := bool_decide (b ∈ [8; 12; 10; 13; 9]).
Definition unescaped (b : Z) : bool := bool_decide (b < 32) && negb (dropped b).

(** What a reader sees of a sanitised text. *)
Definition shown (s : bytes) : bytes := filter (λ b, dropped b = false) s.

(** A text all of whose control characters are dropped ones. *)
Definition readable (s : bytes) : bool := negb (existsb unescaped s).

Lemma read_escaped c t : c = 34 ∨ c = 92 → read_string (92 :: c :: t) = '(x, r) ← read_string t; Some (c :: x, r).
Proof. by intros [->| ->]. Qed.

Lemma read_sanitized s r :
  read_string (sanitize_for_json s ++ [34] ++ r) = if readable s then Some (shown s, r) else None.
Proof.
  unfold readable, shown. induction s as [|b s IH]; [done|].
  change (sanitize_for_json (b :: s)) with (sanitize_char b ++ sanitize_for_json s). rewrite <- app_assoc.
  set (t := sanitize_for_json s ++ [34] ++ r) in *. clearbody t.
  cbn [existsb]. rewrite negb_orb. unfold sanitize_char, unescaped at 1.
  destruct (decide (b = 34)) as [->|].
  { rewrite filter_cons_True by done. simpl app. rewrite read_escaped, IH by auto. by destruct (existsb unescaped s). }
  destruct (decide (b = 92)) as [->|].
  { rewrite filter_cons_True by done. simpl app. rewrite read_escaped, IH by auto. by destruct (existsb unescaped s). }
  rewrite !(bool_decide_false (b = _)) by done. fold (dropped b). destruct (dropped b) eqn:Hd.
  - rewrite filter_cons_False by (by rewrite Hd). rewrite andb_false_r. exact IH.
  - rewrite filter_cons_True by done. rewrite andb_true_r. cbn [app read_string].
    rewrite !(bool_decide_false (b = _)) by done. destruct (bool_decide (b < 32)); [done|].
    cbn [negb andb]. rewrite IH. by destruct (existsb unescaped s).
Qed.

(** C33: a sanitised text, put between quotes, is read back by a JSON reader as the text
    without its back spaces, form feeds, line feeds, carriage returns and tabs, and ends
    exactly at the closing quote; when it has any other control character, which is
    neither escaped nor dropped, a reader refuses it. *)
Theorem sanitized_text_read s r :
  read_string (sanitize_for_json s ++ [34] ++ r) =
    if existsb (λ b, bool_decide (b < 32) && bool_decide (b ∉ [8; 12; 10; 13; 9])) s then None
    else Some (filter (λ b, b ∉ [8; 12; 10; 13; 9]) s, r).
Proof.
  rewrite read_sanitized. unfold readable, shown.
  assert (∀ b, bool_decide (b ∉ [8; 12; 10; 13; 9]) = negb (dropped b)) as Hd by (intros; apply bool_decide_not).
  assert (∀ l, existsb (λ b, bool_decide (b < 32) && bool_decide (b ∉ [8; 12; 10; 13; 9])) l = existsb unescaped l) as ->
    by (intros l; induction l as [|b l IH]; cbn [existsb]; [done|]; by rewrite Hd, IH).
  destruct (existsb unescaped s); [done|]. cbn [negb]. do 2 f_equal. apply list_filter_iff. intros b.
  unfold dropped. by rewrite bool_decide_eq_false.
Qed.

Lemma reads_sanitized s : readable s = true → reads (quoted (sanitize_for_json s)) (JStr (shown s)).
Proof. intros Hs. apply reads_str. intros r. by rewrite read_sanitized, Hs. Qed.

Lemma reads_plain s : plain s = true → reads (quoted s) (JStr s).
Proof. intros Hs. apply reads_str. intros r. by apply read_string_plain. Qed.

Lemma hex_lower_plain bs : plain (bs ≫= hex_lower) = true.
Proof.
  apply forallb_forall. intros b. rewrite <- list_elem_of_In, list_elem_of_bind. intros (x & Hb & _).
  assert (∀ d, 0 ≤ d < 16 → plain_char (hex_lower_digit d) = true) as Hd.
  { intros d Hd. apply bool_decide_eq_true. unfold hex_lower_digit. case_bool_decide; lia. }
  unfold hex_lower in Hb. rewrite elem_of_cons, list_elem_of_singleton in Hb.
  destruct Hb as [->| ->]; apply Hd, Z.mod_pos_bound; lia.
Qed.

(** ** Fields of objects *)

Lemma reads_field indent name t v :
  plain (text name) = true → reads t v → reads_member (field indent name t) (text name, v).
Proof.
  intros Hn Ht. exists (spaces indent), (text ": "), t. split; [done|]. split; [apply blank_spaces|]. split; [done|].
  split; [|done]. exists [], (spaces 1). split; [done|]. split; [constructor|apply blank_spaces].
Qed.

(** Objects whose fields are listed line by line. *)
Ltac read_fields := repeat (apply Forall2_cons; split; [apply reads_field; [reflexivity|]|]); [..|constructor].

(** ** Boards *)

(** The values a consumer is meant to read: a score with its rank and its player, and a
    board. *)
Definition user_of (users : gmap Z ScoreUserCache) (s : DbScoreInfo) : ScoreUserCache :=
  default (mkScoreUserCache "" "") (users !! si_user_id s).

Definition score_value (users : gmap Z ScoreUserCache) (i : nat) (s : DbScoreInfo) : json :=
  JObj [(text "rank", JNum (Z.of_nat i + 1));
        (text "npid", JStr (text (su_npid (user_of users s))));
        (text "online_name", JStr (shown (text (su_online_name (user_of users s)))));
        (text "pcid", JNum (si_character_id s));
        (text "score", JNum (si_score s));
        (text "has_gamedata", JBool (bool_decide (is_Some (si_data_id s))));
        (text "comment", JStr (shown (text (default ""%string (si_comment s)))));
        (text "info", JStr (default [] (si_game_info s) ≫= hex_lower));
        (text "timestamp", JNum (si_timestamp s))].

Definition board_value (users : gmap Z ScoreUserCache) (board_id : Z) (t : ScoreTableCache) : json :=
  let info := st_table_info t in
  JObj [(text "board_id", JNum board_id);
        (text "rank_limit", JNum (bi_rank_limit info));
        (text "update_mode", JNum (bi_update_mode info));
        (text "sort_mode", JNum (bi_sort_mode info));
        (text "upload_num_limit", JNum (bi_upload_num_limit info));
        (text "upload_size_limit", JNum (bi_upload_size_limit info));
        (text "total_records", JNum (Z.of_nat (length (st_sorted_scores t))));
        (text "scores", JArr (imap (score_value users) (st_sorted_scores t)))].

(** Names that are safe and texts without stray control characters. *)
Definition score_readable (users : gmap Z ScoreUserCache) (s : DbScoreInfo) : bool :=
  plain (text (su_npid (user_of users s))) && readable (text (su_online_name (user_of users s)))
  && readable (text (default ""%string (si_comment s))).

Definition board_readable (users : gmap Z ScoreUserCache) (t : ScoreTableCache) : bool :=
  forallb (score_readable users) (st_sorted_scores t).

(** The rows of a whole board. *)
Definition whole_board (users : gmap Z ScoreUserCache) (t : ScoreTableCache) : list (ScoreRankDataCache * string * bytes) :=
  imap (λ i s, score_row (user_of users s) i s) (st_sorted_scores t).

Lemma put_same_table com bid t c : get_table c com bid = Some t → put_table com bid t c = c.
Proof. intros Ht. unfold put_table. destruct c. unfold set_field. simpl. f_equal. by apply insert_id. Qed.

Lemma get_whole_board com bid t c :
  cache_inv c → get_table c com bid = Some t →
  get_score_range com bid 1 (bi_rank_limit (st_table_info t)) true true c =
    (Ok (score_result true true t (whole_board (sc_users c) t)), c).
Proof.
  intros Hc Ht. destruct (Hc _ _ Ht) as (Hi & Hl & Hu). pose proof (ti_limit _ Hi) as Hlen.
  unfold get_score_range, bind at 1. rewrite get_table_or_insert_eq. unfold the_table. rewrite Ht. cbn [default].
  rewrite put_same_table by done. unfold bind, gets, lift, ret. simpl.
  change (wrap_u32 (1 - 1)) with 0. rewrite Z.add_0_l, Z.min_r, Z.sub_0_r by lia.
  match goal with |- context [res_map_list ?f ?xs] => assert (res_map_list f xs = Ok (whole_board (sc_users c) t)) as -> end;
    [|done].
  apply res_map_list_Ok, Forall2_same_length_lookup_2.
  { unfold whole_board. rewrite length_seqZ, length_imap. lia. }
  intros i x y [-> Hlt]%lookup_seqZ Hy. unfold whole_board in Hy. rewrite list_lookup_imap in Hy.
  apply fmap_Some in Hy as (s & Hs & ->). rewrite Z.add_0_l, Nat2Z.id, Hs. cbn.
  destruct (Hu s) as [u Hus]; [by eapply list_elem_of_lookup_2|]. unfold user_of. by rewrite Hus.
Qed.

Lemma whole_board_lookup users t i :
  whole_board users t !! i = (λ s, score_row (user_of users s) i s) <$> st_sorted_scores t !! i.
Proof. apply list_lookup_imap. Qed.

Lemma score_to_json_reads users t i s :
  st_sorted_scores t !! i = Some s → Z.of_nat i + 1 < 2 ^ 32 → score_readable users s = true →
  ∃ txt, score_to_json (score_result true true t (whole_board users t)) i (score_row (user_of users s) i s).1.1 = Ok txt ∧
    reads_padded txt (score_value users i s).
Proof.
  intros Hs Hi Hr. unfold score_to_json. cbn [score_result gs_comments gs_infos].
  rewrite !list_lookup_fmap, whole_board_lookup, Hs. cbn [fmap option_fmap option_map unwrap res_map res_bind].
  eexists. split; [reflexivity|]. apply andb_true_iff in Hr as [[Hn Ho]%andb_true_iff Hc].
  rewrite !app_assoc. eexists _, [10]. split; [reflexivity|]. split; [|by apply Forall_singleton].
  rewrite <- !app_assoc. apply reads_blank; [apply blank_spaces|]. apply reads_obj.
  apply (members_blank [10; 10]); [by repeat constructor|]. apply members_lines; [|done|apply blank_spaces].
  cbn [score_row fst snd rc_rank rc_npid rc_online_name rc_pcid rc_score rc_has_gamedata rc_timestamp].
  replace (wrap_u32 (wrap_u32 (Z.of_nat i) + 1)) with (Z.of_nat i + 1)
    by (unfold wrap_u32; rewrite (Z.mod_small (Z.of_nat i)), Z.mod_small by lia; done).
  read_fields; auto using reads_num, reads_bool, reads_plain, reads_sanitized, hex_lower_plain.
Qed.

Lemma res_map_list_related {E A B C} (f : A → res E B) (P : B → C → Prop) xs vs :
  Forall2 (λ x v, ∃ y, f x = Ok y ∧ P y v) xs vs → ∃ ys, res_map_list f xs = Ok ys ∧ Forall2 P ys vs.
Proof.
  induction 1 as [|x v xs vs (y & Hy & Hp) _ (ys & Hys & Hf)]; [by exists []|].
  exists (y :: ys). simpl. rewrite Hy. simpl. rewrite Hys. split; [done|by constructor].
Qed.

(** A bracketed list of texts, one per line, possibly none. *)
Lemma reads_lines w texts vals :
  Forall2 reads_padded texts vals → blank w → reads (text "[" ++ [10] ++ comma_lines texts ++ w ++ text "]") (JArr vals).
Proof.
  intros Hf Hw. assert (blank ([10] ++ w)) as Hw' by by apply Forall_cons. destruct Hf as [|t v texts vals Ht Hf].
  - by apply (reads_arr_nil ([10] ++ w)).
  - apply reads_arr. apply (elements_blank [10]); [by apply Forall_singleton|].
    apply elements_lines; [by constructor|done..].
Qed.

Lemma score_result_reads users bid t :
  board_readable users t = true → Z.of_nat (length (st_sorted_scores t)) < 2 ^ 32 - 1 →
  ∃ txt, score_result_to_json (score_result true true t (whole_board users t)) bid (st_table_info t) = Ok txt ∧
    reads txt (board_value users bid t).
Proof.
  intros Hr Hlen. unfold score_result_to_json. set (result := score_result _ _ _ _).
  destruct (res_map_list_related (λ '(index, score), score_to_json result index score) reads_padded
    (imap pair (gs_scores result)) (imap (score_value users) (st_sorted_scores t))) as (txts & -> & Htxts).
  { apply Forall2_same_length_lookup_2.
    { unfold result, whole_board. simpl. by rewrite !length_imap, !length_fmap, length_imap. }
    intros i [i' row] v Hrow Hv. rewrite list_lookup_imap in Hrow. rewrite list_lookup_imap in Hv. unfold result in Hrow. simpl in Hrow.
    rewrite !list_lookup_fmap, whole_board_lookup in Hrow. apply fmap_Some in Hv as (s & Hs & ->).
    rewrite Hs in Hrow. simplify_eq/=. apply score_to_json_reads; [done| |].
    - apply lookup_lt_Some in Hs. lia.
    - eapply forallb_forall in Hr; [exact Hr|]. by eapply list_elem_of_In, list_elem_of_lookup_2. }
  eexists. split; [reflexivity|]. apply reads_obj, (members_blank [10]); [by apply Forall_singleton|].
  apply (members_lines _ _ []); [|done|constructor].
  replace (gs_total_records result) with (Z.of_nat (length (st_sorted_scores t)))
    by (unfold result; simpl; unfold wrap_u32; rewrite Z.mod_small by lia; done).
  read_fields; auto using reads_num, reads_lines, blank_spaces.
Qed.

Lemma board_to_json_reads com bid t c :
  cache_inv c → get_table c com bid = Some t → board_readable (sc_users c) t = true →
  ∃ txt, board_to_json com bid (st_table_info t) c = (Ok txt, c) ∧ reads txt (board_value (sc_users c) bid t).
Proof.
  intros Hc Ht Hr. destruct (Hc _ _ Ht) as (Hi & Hl & _). pose proof (ti_limit _ Hi) as Hlen.
  destruct (score_result_reads (sc_users c) bid t Hr) as (txt & Etxt & Hreads); [lia|].
  exists txt. split; [|done]. unfold board_to_json, bind. rewrite get_whole_board by done. unfold lift. by rewrite Etxt.
Qed.

(** ** The boards of a title *)

Lemma strictly_sorted l : StronglySorted Z.le l → NoDup l → StronglySorted Z.lt l.
Proof.
  induction 1 as [|x l Hl IH Hx]; inversion_clear 1 as [|?? Hn Hd]; constructor; [by apply IH|].
  apply Forall_forall. intros y Hy. rewrite Forall_forall in Hx. specialize (Hx y Hy).
  assert (x ≠ y) by (by intros ->). lia.
Qed.

Section titles.
Context `{!HashOrder}.

Lemma elem_of_all_tables com c bid t : (bid, t) ∈ get_all_tables com c ↔ get_table c com bid = Some t.
Proof.
  unfold get_all_tables, get_table, table_desc. rewrite list_elem_of_omap. split.
  - intros ([[com' bid'] t'] & Hin%elem_of_hash_map_iter & Heq). case_bool_decide; by simplify_eq.
  - intros Ht. exists (com_id_to_string com, bid, t). rewrite elem_of_hash_map_iter. by rewrite bool_decide_true.
Qed.

Lemma NoDup_all_tables com c : NoDup (get_all_tables com c).*1.
Proof.
  apply NoDup_fmap_fst.
  - intros bid t1 t2. rewrite !elem_of_all_tables. congruence.
  - apply NoDup_omap; [|apply NoDup_hash_map_iter].
    intros [[c1 b1] t1] [[c2 b2] t2] y. repeat case_bool_decide; naive_solver.
Qed.

(** The boards of the title by ascending id. *)
Definition title_boards (com : ComId) (c : ScoresCache) : list (Z * ScoreTableCache) :=
  merge_sort board_le (get_all_tables com c).

Lemma title_boards_sorted com c : StronglySorted Z.lt (title_boards com c).*1.
Proof.
  apply strictly_sorted.
  - eapply StronglySorted_fmap; [|apply Sorted_StronglySorted, Sorted_merge_sort].
    + intros x y Hxy. exact Hxy.
    + intros x y z. unfold board_le. lia.
    + intros x y. unfold board_le. lia.
  - unfold title_boards. rewrite merge_sort_Permutation. apply NoDup_all_tables.
Qed.

Lemma elem_of_title_boards com c bid t : (bid, t) ∈ title_boards com c ↔ get_table c com bid = Some t.
Proof. unfold title_boards. rewrite merge_sort_Permutation. apply elem_of_all_tables. Qed.

Definition title_readable (com : ComId) (c : ScoresCache) : Prop :=
  ∀ bid t, get_table c com bid = Some t → board_readable (sc_users c) t = true.

Definition title_value (com : ComId) (c : ScoresCache) : json :=
  JArr ((λ '(bid, t), board_value (sc_users c) bid t) <$> title_boards com c).

Lemma map_each_related {S E A B C} (f : A → M S E B) (P : B → C → Prop) (g : A → C) xs s :
  (∀ x, x ∈ xs → ∃ y, f x s = (Ok y, s) ∧ P y (g x)) →
  ∃ ys, map_each f xs s = (Ok ys, s) ∧ Forall2 P ys (g <$> xs).
Proof.
  induction xs as [|x xs IH]; intros Hf; [by exists []|].
  destruct (Hf x) as (y & Hy & Hp); [set_solver|]. destruct IH as (ys & Hys & Hf2); [intros; apply Hf; set_solver|].
  exists (y :: ys). simpl. unfold bind, ret. rewrite Hy, Hys. split; [done|by constructor].
Qed.

Lemma title_to_json_reads com c :
  cache_inv c → title_readable com c →
  ∃ txt, com_id_score_to_json com c = (Ok txt, c) ∧ reads txt (title_value com c).
Proof.
  intros Hc Hr. unfold com_id_score_to_json. unfold bind at 1, gets. cbn beta iota. fold (title_boards com c).
  case_bool_decide as Hnil.
  - apply nil_length_inv in Hnil. exists (text "[]"). split; [done|]. unfold title_value, title_boards. rewrite Hnil.
    by apply (reads_arr_nil []), Forall_nil.
  - destruct (map_each_related (λ '(bid, t), board_to_json com bid (st_table_info t)) reads_padded
      (λ '(bid, t), board_value (sc_users c) bid t) (title_boards com c) c) as (txts & Etxts & Hf).
    { intros [bid t] Ht%elem_of_title_boards. destruct (board_to_json_reads com bid t c Hc Ht) as (txt & E & Hreads);
        [by eapply Hr|]. exists txt. split; [done|by apply reads_padded_0]. }
    unfold bind, ret. rewrite Etxts. eexists. split; [reflexivity|]. by apply (reads_lines []), Forall_nil.
Qed.
End titles.

(** ** Usage *)

Section usage.
Context `{!HashOrder}.

(** The value of a section, none when there are no games. *)
Definition section_value {A} (name : string) (f : A → bytes * json) (v : list A) : list (bytes * json) :=
  if bool_decide (length v = 0%nat) then [] else [(text name, JObj (f <$> v))].

Definition game_value (g : bytes * Z * list bytes) : bytes * json :=
  (g.1.1, JArr (JNum g.1.2 :: ((λ hint, JStr (shown hint)) <$> g.2))).

Definition usage_value (g : GameTracker) : json :=
  JObj ([(text "num_users", JNum (gt_num_users g))]
        ++ section_value "psn_games" game_value (psn_games_shown g)
        ++ section_value "ticket_games" (λ t, (t.1, JNum t.2)) (ticket_games_shown g)).

(** Plain names, and hints without stray control characters. *)
Definition tracker_readable (g : GameTracker) : bool :=
  forallb (λ t, plain t.1.1 && forallb readable t.2) (psn_games_shown g)
  && forallb (λ t, plain t.1) (ticket_games_shown g).

Lemma reads_hints t v hints :
  reads t v → forallb readable hints = true →
  reads_elements (t ++ (hints ≫= λ hint, text ", " ++ quoted (sanitize_for_json hint)) ++ [93])
    (v :: ((λ hint, JStr (shown hint)) <$> hints)).
Proof.
  revert t v. induction hints as [|hint hints IH]; intros t v Ht Hh.
  - apply (elements_last t v []); [done|constructor].
  - simpl in Hh. apply andb_true_iff in Hh as [Hh1 Hh2].
    change ((hint :: hints) ≫= ?f) with (f hint ++ (hints ≫= f)). cbn beta.
    change (text ", ") with ([44] ++ spaces 1). rewrite <- !app_assoc.
    apply (elements_cons t v []); [done|constructor|]. apply elements_blank; [apply blank_spaces|].
    rewrite fmap_cons. apply IH; [by apply reads_sanitized|done].
Qed.

Lemma is_colon_plain : is_colon (text ": ").
Proof. exists [], (spaces 1). split; [done|]. split; [constructor|apply blank_spaces]. Qed.

Lemma reads_game g :
  plain g.1.1 = true → forallb readable g.2 = true → reads_member (game_with_hints g) (game_value g).
Proof.
  destruct g as [[name num] hints]. cbn [fst snd]. intros Hn Hh. exists (spaces 8), (text ": "),
    ([91] ++ show_int num ++ (hints ≫= λ hint, text ", " ++ quoted (sanitize_for_json hint)) ++ [93]).
  split_and!; [|apply blank_spaces|done|apply is_colon_plain|apply reads_arr, reads_hints; [apply reads_num|done]].
  unfold member, game_with_hints, quoted. change (text ": [") with (text ": " ++ [91]). change (text "]") with [93]. cbn [fst game_value]. by rewrite <- !app_assoc.
Qed.

Lemma reads_game_line t : plain t.1 = true → reads_member (game_line t) (t.1, JNum t.2).
Proof.
  intros Hn. exists (spaces 8), (text ": "), (show_int t.2).
  split_and!; [done|apply blank_spaces|done|apply is_colon_plain|apply reads_num].
Qed.

(** The members a section adds, as texts. *)
Definition section_texts {A} (name : string) (line : A → bytes) (v : list A) : list bytes :=
  if bool_decide (length v = 0%nat) then []
  else [field 4 name (text "{" ++ [10] ++ comma_lines (line <$> v) ++ spaces 4 ++ text "}")].

Lemma add_section_texts {A} name (line : A → bytes) v :
  add_section name line v = section_texts name line v ≫= λ t, [44; 10] ++ t.
Proof.
  unfold add_section, section_texts. case_bool_decide; [done|]. simpl. rewrite app_nil_r. unfold field.
  rewrite <- !app_assoc. done.
Qed.

Lemma reads_section {A} name (line : A → bytes) (f : A → bytes * json) v :
  plain (text name) = true → (∀ x, x ∈ v → reads_member (line x) (f x)) →
  Forall2 reads_member (section_texts name line v) (section_value name f v).
Proof.
  intros Hn Hv. unfold section_texts, section_value. case_bool_decide as Hl; [constructor|].
  apply Forall2_cons. split; [|constructor]. apply reads_field; [done|].
  apply reads_obj, (members_blank [10]); [by apply Forall_singleton|].
  apply members_lines; [|by destruct v|apply blank_spaces].
  apply Forall2_fmap_2, Forall_Forall2_diag, Forall_forall. exact Hv.
Qed.

Lemma usage_reads g : tracker_readable g = true → reads (game_tracker_to_json g) (usage_value g).
Proof.
  intros [Hp Ht]%andb_true_iff. unfold game_tracker_to_json, usage_value. rewrite !add_section_texts.
  set (t0 := spaces 4 ++ quoted (text "num_users") ++ text " : " ++ show_int (gt_num_users g)).
  set (ps := section_texts "psn_games" game_with_hints (psn_games_shown g)).
  set (ts := section_texts "ticket_games" game_line (ticket_games_shown g)).
  replace (text "{" ++ _) with ([123] ++ [10] ++ comma_lines (t0 :: (ps ++ ts)) ++ [] ++ [125]).
  2:{ rewrite comma_lines_cons, bind_app. unfold t0. by rewrite <- !app_assoc. }
  apply reads_obj, members_blank; [by apply Forall_singleton|]. apply members_lines; [|done|constructor].
  apply Forall2_cons. split.
  - exists (spaces 4), (text " : "), (show_int (gt_num_users g)). split; [done|]. split; [apply blank_spaces|].
    split; [done|]. split; [|apply reads_num]. exists (spaces 1), (spaces 1). split; [done|]. split; apply blank_spaces.
  - apply Forall2_app; apply reads_section; [done| |done|].
    + intros x Hx. eapply forallb_forall in Hp; [|by apply list_elem_of_In]. apply andb_true_iff in Hp as [? ?].
      by apply reads_game.
    + intros x Hx. eapply forallb_forall in Ht; [|by apply list_elem_of_In]. by apply reads_game_line.
Qed.
End usage.
