(* ===== verification/StatFresh.v ===== *)
(** * How old the answers of the statistics server are

    A run of the server is a sequence of requests with changes of the boards and of the
    clock in between; the history lists the moments at which requests were served.  Each
    cached answer was computed from the boards of such a moment, so an answer is never
    older than the configured life of the cache. *)

From S2P Require Import Prelude Protocol Messages RoomData RoomInv RoomReports ScoreCache ScoreInv ScoreBoard.
From S2P Require Import RoomMachine Text Json Http Config DataRules GameTracker StatServer StatRules.

(** ** Requests read the boards only *)

Section reading.
Context `{!HashOrder}.

Lemma get_score_range_reads com bid start num wc wg t c :
  get_table c com bid = Some t → (get_score_range com bid start num wc wg c).2 = c.
Proof.
  intros Ht. unfold get_score_range, bind at 1. rewrite get_table_or_insert_eq. unfold the_table. rewrite Ht. cbn [default].
  rewrite put_same_table by done. unfold bind, gets, lift, ret. by destruct (res_map_list _ _).
Qed.

Lemma board_to_json_keeps com bid info t c : get_table c com bid = Some t → (board_to_json com bid info c).2 = c.
Proof.
  intros Ht. unfold board_to_json, bind, lift.
  pose proof (get_score_range_reads com bid 1 (bi_rank_limit info) true true t c Ht) as Hs.
  by destruct (get_score_range com bid 1 (bi_rank_limit info) true true c) as [[] ?].
Qed.

Lemma map_each_keeps {S E A B} (f : A → M S E B) xs s :
  (∀ x, x ∈ xs → (f x s).2 = s) → (map_each f xs s).2 = s.
Proof.
  induction xs as [|x xs IH]; intros Hf; [done|]. simpl. unfold bind, ret.
  pose proof (Hf x ltac:(set_solver)) as Hx. destruct (f x s) as [[y|e|] s']; simpl in *; [|done..]. subst s'.
  assert ((map_each f xs s).2 = s) as Hxs by (apply IH; intros; apply Hf; set_solver).
  by destruct (map_each f xs s) as [[] ?].
Qed.

Lemma title_to_json_keeps com c : (com_id_score_to_json com c).2 = c.
Proof.
  unfold com_id_score_to_json. unfold bind at 1, gets. cbn beta iota. case_bool_decide; [done|]. unfold bind, ret.
  assert ((map_each (λ '(bid, t), board_to_json com bid (st_table_info t)) (title_boards com c) c).2 = c) as Hk.
  { apply map_each_keeps. intros [bid t] Ht%elem_of_title_boards. by eapply board_to_json_keeps. }
  unfold title_boards in Hk. by destruct (map_each _ _ _) as [[] ?].
Qed.

(** ** Answers computed on the spot *)

Definition answer (r : R bytes) : option Response :=
  match r with Ok json => Some (json_response 200 json) | _ => None end.

Definition fresh_title (com : ComId) (c : ScoresCache) : option Response := answer (com_id_score_to_json com c).1.

Definition fresh_board (com : ComId) (bid : Z) (c : ScoresCache) : option Response :=
  t ← get_table c com bid; answer (board_to_json com bid (st_table_info t) c).1.

(** ** Histories *)

Abbreviation history := (list (Z * ScoresCache)).

(** An entry just made, or one computed at a moment of the history. *)
Definition entry_ok (h : history) (now : Z) (fresh : ScoresCache → option Response) (e : CachedResponse) : Prop :=
  e = CachedResponse_new ∨
  (0 ≤ cr_timestamp e ≤ now ∧ ∃ c, (cr_timestamp e, c) ∈ h ∧ fresh c = Some (cr_cached_response e)).

Record cache_fresh (h : history) (now : Z) (j : JsonScoreCache) : Prop := {
  cf_titles : ∀ com e, cached_com_id com j = Some e → entry_ok h now (fresh_title com) e;
  cf_boards : ∀ com bid e, cached_table com bid j = Some e → entry_ok h now (fresh_board com bid) e;
}.

Lemma entry_ok_later h h' now now' fresh e :
  h ⊆ h' → now ≤ now' → entry_ok h now fresh e → entry_ok h' now' fresh e.
Proof. intros Hh Hn [->|(Ht & c & Hc & Hf)]; [by left|]. right. split; [lia|]. exists c. split; [by apply Hh|done]. Qed.

Lemma cache_fresh_later h h' now now' j :
  h ⊆ h' → now ≤ now' → cache_fresh h now j → cache_fresh h' now' j.
Proof. intros Hh Hn [H1 H2]. split; intros; eapply entry_ok_later; eauto. Qed.

Lemma cached_title_store com com' e j :
  cached_com_id com' (store_com_id com e j) = if decide (com = com') then Some e else cached_com_id com' j.
Proof. unfold cached_com_id, store_com_id. simpl. apply lookup_insert. Qed.

Lemma cached_table_store com bid com' bid' e j :
  cached_table com' bid' (store_table com bid e j) =
    if decide (com = com' ∧ bid = bid') then Some e else cached_table com' bid' j.
Proof.
  unfold cached_table, store_table. simpl. rewrite lookup_insert. destruct (decide (com = com')) as [->|]; simpl.
  - rewrite lookup_insert. case_decide; [by rewrite decide_True|]. rewrite decide_False by naive_solver.
    by destruct (js_table_cache j !! com').
  - by rewrite decide_False by naive_solver.
Qed.

Lemma store_title_fresh h now com e j :
  cache_fresh h now j → entry_ok h now (fresh_title com) e → cache_fresh h now (store_com_id com e j).
Proof.
  intros [H1 H2] He. split.
  - intros com' e'. rewrite cached_title_store. case_decide; [by intros [= <-]; subst|apply H1].
  - exact H2.
Qed.

Lemma store_table_fresh h now com bid e j :
  cache_fresh h now j → entry_ok h now (fresh_board com bid) e → cache_fresh h now (store_table com bid e j).
Proof.
  intros [H1 H2] He. split; [exact H1|].
  intros com' bid' e'. rewrite cached_table_store. case_decide as Hd; [|apply H2]. by destruct Hd; intros [= <-]; subst.
Qed.

(** An answer of a moment at most [life] ago. *)
Definition recent (h : history) (now life : Z) (fresh : ScoresCache → option Response) (r : Response) : Prop :=
  ∃ t c, (t, c) ∈ h ∧ now - life ≤ t ≤ now ∧ fresh c = Some r.

(** What [serve_cached] answers and leaves, for one slot of the cache. *)
Lemma serve_cached_spec now life lookup store (m : SC bytes) fresh h s :
  fresh (sx_score_cache s) = answer (m (sx_score_cache s)).1 → (m (sx_score_cache s)).2 = sx_score_cache s →
  (∀ e j, cache_fresh h now j → entry_ok h now fresh e → cache_fresh h now (store e j)) →
  (∀ e j, lookup j = Some e → cache_fresh h now j → entry_ok h now fresh e) →
  cache_fresh h now (jc_score_cache (sx_json_cache s)) → (now, sx_score_cache s) ∈ h →
  0 ≤ life < now → now + life < 2 ^ 32 →
  wp (serve_cached now life lookup store m) s (λ r s',
    sx_score_cache s' = sx_score_cache s ∧ cache_fresh h now (jc_score_cache (sx_json_cache s')) ∧
    ∀ resp, r = Ok resp → recent h now life fresh resp).
Proof.
  intros Hm Hk Hstore Hlook Hj Hnow Hlife Hw. unfold serve_cached. wp_step. wp_step.
  set (e := default CachedResponse_new _).
  assert (entry_ok h now fresh e) as He.
  { unfold e. destruct (lookup _) eqn:El; simpl; [by eapply Hlook|by left]. }
  wp_step. unfold on_json. wp_step. cbn beta iota. destruct (is_stale now life e) eqn:Hst.
  - wp_step. unfold on_score_cache. eapply wp_zoom; [reflexivity|]. unfold wp. simpl.
    destruct (m (sx_score_cache s)) as [[json|err|] c'] eqn:Em; simpl in *; subst c';
      [|split_and!; [done|by apply Hstore|done]..].
    split; [done|]. assert (entry_ok h now fresh (mkCachedResponse now (json_response 200 json))) as Hnew.
    { right. simpl. split; [lia|]. exists (sx_score_cache s). by rewrite Hm. }
    split; [by apply Hstore; [apply Hstore|]|]. intros resp [= <-]. exists now, (sx_score_cache s). rewrite Hm. split; [done|]. split; [lia|done].
  - wp_step. split; [done|]. split; [by apply Hstore|]. intros resp [= <-]. apply bool_decide_eq_false in Hst.
    destruct He as [He|(Ht & c & Hc & Hf)].
    + rewrite He in Hst. simpl in Hst. unfold wrap_u32 in Hst. rewrite Z.mod_small in Hst by lia. lia.
    + exists (cr_timestamp e), c. split; [done|]. split; [|done]. unfold wrap_u32 in Hst.
      rewrite Z.mod_small in Hst by lia. lia.
Qed.

Section requests.
Context (server : StatServer) (h : history) (now : Z).
Abbreviation life := (ss_cache_life server).
Hypothesis (Hlife : 0 ≤ life < now) (Hw : now + life < 2 ^ 32).

(** The boards stay as they are, the cached answers stay recorded ones, and an answer
    satisfies [P]. *)
Definition served (s : StatState) (P : Response → Prop) (r : R Response) (s' : StatState) : Prop :=
  sx_score_cache s' = sx_score_cache s ∧ cache_fresh h now (jc_score_cache (sx_json_cache s')) ∧
  ∀ resp, r = Ok resp → P resp.

Lemma served_same s (P : Response → Prop) resp :
  cache_fresh h now (jc_score_cache (sx_json_cache s)) → P resp → wp (ret resp) s (served s P).
Proof. intros Hj Hp. apply wp_ret. split; [done|]. split; [done|]. by intros ? [= <-]. Qed.

(** Without a cache the answer is computed on the spot. *)
Lemma uncached_spec (m : SC bytes) fresh s :
  (m (sx_score_cache s)).2 = sx_score_cache s → fresh (sx_score_cache s) = answer (m (sx_score_cache s)).1 →
  cache_fresh h now (jc_score_cache (sx_json_cache s)) → (now, sx_score_cache s) ∈ h →
  wp (do json <- on_score_cache m; ret (json_response 200 json)) s (served s (recent h now life fresh)).
Proof.
  intros Hk Hf Hj Hnow. apply wp_bind. unfold on_score_cache. eapply wp_zoom; [reflexivity|]. unfold wp.
  destruct (m (sx_score_cache s)) as [[json|err|] c'] eqn:Em; simpl in *; subst c'; [|done..].
  split; [done|]. split; [done|]. intros resp [= <-]. exists now, (sx_score_cache s). rewrite Hf. split; [done|]. split; [lia|done].
Qed.

Lemma title_request_spec com s :
  cache_fresh h now (jc_score_cache (sx_json_cache s)) → (now, sx_score_cache s) ∈ h →
  wp (handle_com_id_score_req now life com) s (served s (recent h now life (fresh_title com))).
Proof.
  intros Hj Hnow. unfold handle_com_id_score_req. case_bool_decide as H0.
  - apply uncached_spec; [apply title_to_json_keeps|done..].
  - apply serve_cached_spec; [done|apply title_to_json_keeps|intros; by apply store_title_fresh| |done..].
    intros e j He Hf. by eapply cf_titles.
Qed.

Lemma board_request_spec com bid s :
  cache_fresh h now (jc_score_cache (sx_json_cache s)) → (now, sx_score_cache s) ∈ h →
  wp (handle_table_score_req now life com bid) s (served s (λ resp,
    match get_table (sx_score_cache s) com bid with
    | Some _ => recent h now life (fresh_board com bid) resp
    | None => resp = Response_new []
    end)).
Proof.
  intros Hj Hnow. unfold handle_table_score_req. wp_step. wp_step.
  destruct (get_table (sx_score_cache s) com bid) as [t|] eqn:Ht; [|by apply served_same].
  case_bool_decide as H0.
  - apply uncached_spec; [by eapply board_to_json_keeps| |done..]. unfold fresh_board. by rewrite Ht.
  - apply serve_cached_spec; [|by eapply board_to_json_keeps|intros; by apply store_table_fresh| |done..].
    + unfold fresh_board. by rewrite Ht.
    + intros e j He Hf. by eapply cf_boards.
Qed.

Lemma usage_request_spec g s :
  cache_fresh h now (jc_score_cache (sx_json_cache s)) → wp (handle_usage_req now life g) s (served s (λ _, True)).
Proof.
  intros Hj. unfold handle_usage_req. case_bool_decide; [by apply served_same|]. wp_step. wp_step.
  case_match; [|by apply served_same]. unfold on_json. wp_step. wp_step. wp_step. done.
Qed.

Lemma stat_request_spec g req s :
  cache_fresh h now (jc_score_cache (sx_json_cache s)) → (now, sx_score_cache s) ∈ h →
  wp (handle_stat_server_req now server g req) s (served s (λ _, True)).
Proof.
  intros Hj Hnow.
  assert (∀ P m, wp m s (served s P) → wp m s (served s (λ _, True))) as Hweak.
  { intros P m Hm. eapply wp_mono; [|exact Hm]. by intros r s' (? & ? & _). }
  unfold handle_stat_server_req. repeat case_match; try (by apply served_same);
    eauto using usage_request_spec, title_request_spec, board_request_spec.
Qed.
End requests.

(** ** Runs *)

(** The boards and the clock change between requests; every request is recorded with
    its time and the boards it saw. *)
Inductive stat_run (server : StatServer) : history → StatState → Z → Prop :=
| stat_start c now : cache_inv c → ss_cache_life server < now → stat_run server [] (mkStatState c JsonCache_new) now
| stat_change h s now c' now' :
    stat_run server h s now → cache_inv c' → now ≤ now' → stat_run server h (s <| sx_score_cache := c' |>) now'
| stat_request h s now g req r s' :
    stat_run server h s now → now + ss_cache_life server < 2 ^ 32 →
    handle_stat_server_req now server g req s = (r, s') →
    stat_run server ((now, sx_score_cache s) :: h) s' now.

Lemma stat_run_inv server h s now :
  0 ≤ ss_cache_life server → stat_run server h s now →
  ss_cache_life server < now ∧ cache_inv (sx_score_cache s) ∧ cache_fresh h now (jc_score_cache (sx_json_cache s)) ∧
  ∀ t c, (t, c) ∈ h → cache_inv c.
Proof.
  intros Hl. induction 1 as [c now Hc Hn|h s now c' now' Hr (IH1 & IH2 & IH3 & IH4) Hc Hn
                            |h s now g req r s' Hr (IH1 & IH2 & IH3 & IH4) Hw Hs].
  - split_and!; [done|done| |set_solver]. split; unfold cached_com_id, cached_table; simpl; intros; by rewrite lookup_empty in *.
  - split_and!; [lia|done| |done]. simpl. eapply cache_fresh_later; [|exact Hn|exact IH3]. done.
  - assert (cache_fresh ((now, sx_score_cache s) :: h) now (jc_score_cache (sx_json_cache s))) as Hj
      by (eapply cache_fresh_later; [|done|exact IH3]; set_solver).
    pose proof (stat_request_spec server ((now, sx_score_cache s) :: h) now (conj Hl IH1) Hw g req s Hj) as Hspec.
    unfold wp in Hspec. rewrite Hs in Hspec. destruct Hspec as (Hsc & Hf & _); [set_solver|]. simpl in Hsc, Hf.
    rewrite Hsc. split_and!; [done..|]. intros t c [[= -> ->]|Hin]%elem_of_cons; [done|by eapply IH4].
Qed.

(** ** Answers about titles and boards *)

Definition title_request (server : StatServer) (com : ComId) : Request :=
  mkRequest GET (ss_path server ++ text "/score/" ++ com) None [].

Definition board_request (server : StatServer) (com : ComId) (bid : Z) : Request :=
  mkRequest GET (ss_path server ++ text "/score/" ++ com ++ [47] ++ show_int bid) None [].

Lemma strip_prefix_app p s : strip_prefix p (p ++ s) = Some s.
Proof. unfold strip_prefix, starts_with. rewrite take_app_length, bool_decide_true by done. by rewrite drop_app_length. Qed.

Lemma score_not_usage p x : p ++ text "/score/" ++ x ≠ p ++ text "/usage".
Proof. intros Heq%app_inv_head. discriminate. Qed.

Lemma split_once_none sep s : sep ∉ s → split_once sep s = None.
Proof.
  induction s as [|b s IH]; simpl; [done|]. intros [Hb Hs]%not_elem_of_cons. rewrite bool_decide_false by done.
  by rewrite IH.
Qed.

Lemma parse_show_int max n : 0 ≤ n ≤ max → parse_unsigned max (show_int n) = Some n.
Proof.
  intros Hn. unfold show_int. rewrite bool_decide_false by lia. rewrite Z.abs_eq by lia. change ([] ++ ?x) with x.
  pose proof (parse_dec_digits (S (Z.to_nat (Z.log2 n))) n ltac:(lia) (conj (proj1 Hn) (fuel_enough n (proj1 Hn)))) as Hp.
  pose proof (dec_digits_range (S (Z.to_nat (Z.log2 n))) n (proj1 Hn)) as Hr.
  destruct (dec_digits_cons (Z.to_nat (Z.log2 n)) n) as (b & d & E). rewrite E in *.
  apply Forall_cons in Hr as [Hb%is_digit_true _]. apply parse_unsigned_digits; [lia|done|lia].
Qed.

Lemma route_title now server g com :
  length com = COMMUNICATION_ID_SIZE → 47 ∉ com →
  handle_stat_server_req now server g (title_request server com) = handle_com_id_score_req now (ss_cache_life server) com.
Proof.
  intros Hl Hs. unfold handle_stat_server_req, title_request. cbn [rq_method rq_path].
  rewrite !bool_decide_false by (auto using score_not_usage). rewrite app_assoc, strip_prefix_app.
  unfold splitn2. rewrite split_once_none by done. by rewrite bool_decide_true.
Qed.

Lemma route_board now server g com bid :
  length com = COMMUNICATION_ID_SIZE → 47 ∉ com → 0 ≤ bid ≤ u32_max →
  handle_stat_server_req now server g (board_request server com bid) =
    handle_table_score_req now (ss_cache_life server) com bid.
Proof.
  intros Hl Hs Hb. unfold handle_stat_server_req, board_request. cbn [rq_method rq_path].
  rewrite !bool_decide_false by (auto using score_not_usage). rewrite app_assoc, strip_prefix_app.
  unfold splitn2. simpl app. rewrite split_once_app by done. by rewrite bool_decide_true, parse_show_int by done.
Qed.

Lemma on_score_cache_ok (m : SC bytes) s json :
  (m (sx_score_cache s)).1 = Ok json → ∃ s', on_score_cache m s = (Ok json, s').
Proof. unfold on_score_cache, zoom. destruct (m (sx_score_cache s)) as [r c]. simpl. intros ->. eauto. Qed.

Lemma uncached_ok (m : SC bytes) s json :
  (m (sx_score_cache s)).1 = Ok json →
  ∃ resp, (bind (on_score_cache m) (λ json, ret (json_response 200 json)) s).1 = Ok resp.
Proof. intros Hm. unfold bind. destruct (on_score_cache_ok m s json Hm) as (s' & ->). eauto. Qed.

Lemma serve_cached_ok now life lookup store (m : SC bytes) s json :
  (m (sx_score_cache s)).1 = Ok json → ∃ resp, (serve_cached now life lookup store m s).1 = Ok resp.
Proof.
  intros Hm. unfold serve_cached, bind, gets, on_json, modify. cbn beta iota. case_match; [|unfold ret; eauto].
  edestruct (on_score_cache_ok m) as (s' & ->); [exact Hm|]. unfold ret. eauto.
Qed.
End reading.


(** ** Usage requests *)

Definition usage_request (server : StatServer) : Request := mkRequest GET (ss_path server ++ text "/usage") None [].

Definition usage_stamp (s : StatState) : Z := cr_timestamp (jc_usage_cache (sx_json_cache s)).

Section stamps.
Context `{!HashOrder}.

Definition keeps_stamp {A} (m : SS A) : Prop := ∀ s, usage_stamp (m s).2 = usage_stamp s.

Lemma keeps_stamp_bind {A B} (m : SS A) (k : A → SS B) : keeps_stamp m → (∀ a, keeps_stamp (k a)) → keeps_stamp (bind m k).
Proof. intros Hm Hk s. unfold bind. specialize (Hm s). destruct (m s) as [[] s']; simpl in *; [by rewrite Hk|done..]. Qed.

Lemma keeps_stamp_ret {A} (a : A) : keeps_stamp (ret a).
Proof. by intros s. Qed.

Lemma keeps_stamp_gets {A} (f : StatState → A) : keeps_stamp (gets f).
Proof. by intros s. Qed.

Lemma keeps_stamp_scores {A} (m : SC A) : keeps_stamp (on_score_cache m).
Proof. intros s. unfold on_score_cache, zoom. by destruct (m (sx_score_cache s)). Qed.

Lemma keeps_stamp_json f : (∀ j, cr_timestamp (jc_usage_cache (f j)) = cr_timestamp (jc_usage_cache j)) → keeps_stamp (on_json f).
Proof. intros Hf s. apply Hf. Qed.

Lemma keeps_stamp_serve now life lookup store m : keeps_stamp (serve_cached now life lookup store m).
Proof.
  unfold serve_cached. apply keeps_stamp_bind; [apply keeps_stamp_gets|]. intros found.
  apply keeps_stamp_bind; [by apply keeps_stamp_json|]. intros _. case_match; [|apply keeps_stamp_ret].
  apply keeps_stamp_bind; [apply keeps_stamp_scores|]. intros json.
  apply keeps_stamp_bind; [by apply keeps_stamp_json|]. intros _. apply keeps_stamp_ret.
Qed.

Lemma keeps_stamp_request now server g req : keeps_stamp (handle_stat_server_req now server g req).
Proof.
  unfold handle_stat_server_req, handle_usage_req, handle_com_id_score_req, handle_table_score_req.
  repeat case_match; auto using keeps_stamp_ret, keeps_stamp_serve; apply keeps_stamp_bind;
    auto using keeps_stamp_ret, keeps_stamp_scores, keeps_stamp_gets; intros; repeat case_match;
    auto using keeps_stamp_ret, keeps_stamp_serve; apply keeps_stamp_bind;
    auto using keeps_stamp_ret, keeps_stamp_scores; intros; by apply keeps_stamp_json.
Qed.

Lemma stat_run_stamp server h s now : stat_run server h s now → usage_stamp s = 0.
Proof.
  induction 1 as [| |h s now g req r s' _ IH _ Hs]; [done|done|]. rewrite <- IH.
  rewrite <- (keeps_stamp_request now server g req s). by rewrite Hs.
Qed.
End stamps.

(** C40: a usage request is answered with a JSON text that stands for the tracker's
    counters at that very moment, whatever the life of the cache: the time of an answer
    is never recorded, so the cached one counts as stale every time and a configured
    cache is never used. *)
Theorem usage_always_current `{!HashOrder} server h s now g :
  stat_run server h s now → 0 ≤ ss_cache_life server < now → now < 2 ^ 32 → tracker_readable g = true →
  ∃ r s', handle_stat_server_req now server g (usage_request server) s = (Ok r, s') ∧
    parse_json (rs_body r) = Some (usage_value g) ∧ usage_stamp s' = 0.
Proof.
  intros Hrun Hl Hn Hg. apply stat_run_stamp in Hrun as Hst.
  assert ((handle_stat_server_req now server g (usage_request server) s).1 = Ok (json_response 200 (game_tracker_to_json g)))
    as Hr.
  { unfold handle_stat_server_req, usage_request. cbn [rq_method rq_path].
    rewrite bool_decide_false, bool_decide_true by naive_solver. unfold handle_usage_req. case_bool_decide; [done|].
    unfold bind, gets. unfold is_stale, usage_stamp in *. rewrite Hst, Z.add_0_l. unfold wrap_u32.
    rewrite Z.mod_small, bool_decide_true by lia. done. }
  pose proof (keeps_stamp_request now server g (usage_request server) s) as Hk.
  destruct (handle_stat_server_req _ _ _ _ s) as [r s']. simpl in *. subst r. eexists _, s'. split; [done|].
  split; [by apply parse_reads, usage_reads|congruence].
Qed.

(** ** An example run *)

(** A board with one score, asked for at second 100; five seconds later a second player
    has recorded a score, and the server still may give the answer of before. *)
Definition ex_stat : StatServer := mkStatServer (text "/rpcn") 10.
Definition ex_board_1 : ScoresCache :=
  (insert_score 9 DbBoardInfo_default ex_com 1 (ex_score 7 100 3) "alice" "Alice" ScoresCache_new).2.
Definition ex_board_2 : ScoresCache :=
  (insert_score 9 DbBoardInfo_default ex_com 1 (ex_score 8 200 4) "bob" "Bob" ex_board_1).2.

Definition ex_request_stat (now : Z) (s : StatState) : StatState :=
  (@handle_stat_server_req elements_order now ex_stat GameTracker_new (title_request ex_stat ex_com) s).2.

Definition ex_stat_0 : StatState := mkStatState ex_board_1 JsonCache_new.
Definition ex_stat_1 : StatState := (ex_request_stat 100 ex_stat_0) <| sx_score_cache := ex_board_2 |>.

Lemma ex_board_1_inv : cache_inv ex_board_1.
Proof.
  apply (wp_run _ _ _ _ _ (surjective_pairing _)
    (insert_score_keeps 9 DbBoardInfo_default ex_com 1 (ex_score 7 100 3) "alice" "Alice" ScoresCache_new
      cache_inv_new ltac:(unfold info_ok; simpl; lia) ltac:(intros x Hx; vm_compute in Hx; inversion Hx))).
Qed.

Lemma ex_board_2_inv : cache_inv ex_board_2.
Proof.
  apply (wp_run _ _ _ _ _ (surjective_pairing _)
    (insert_score_keeps 9 DbBoardInfo_default ex_com 1 (ex_score 8 200 4) "bob" "Bob" ex_board_1
      ex_board_1_inv ltac:(unfold info_ok; simpl; lia)
      ltac:(intros x Hx; vm_compute in Hx; apply list_elem_of_singleton in Hx as ->; vm_compute; naive_solver))).
Qed.

Lemma ex_stat_run : @stat_run elements_order ex_stat [(100, ex_board_1)] ex_stat_1 105.
Proof.
  apply (stat_change _ _ _ 100); [|apply ex_board_2_inv|lia].
  eapply (stat_request _ [] ex_stat_0); [apply stat_start; [apply ex_board_1_inv|vm_compute; done]|vm_compute; done|].
  apply surjective_pairing.
Qed.

Lemma ex_readable t c : (t, c) ∈ [(105, ex_board_2); (100, ex_board_1)] → title_readable ex_com c.
Proof.
  assert (∀ c, sc_tables c = {[table_desc ex_com 1 := default (ScoreTableCache_from_db DbBoardInfo_default) (get_table c ex_com 1)]} →
    board_readable (sc_users c) (default (ScoreTableCache_from_db DbBoardInfo_default) (get_table c ex_com 1)) = true →
    title_readable ex_com c) as Hone.
  { intros c' E Hr bid tb Ht. unfold get_table in Ht. rewrite E in Ht. apply lookup_singleton_Some in Ht as [_ <-]. done. }
  intros [Heq|[Heq|Hin]%elem_of_cons]%elem_of_cons; [| |by inversion Hin].
  all: apply (f_equal snd) in Heq; cbn [snd] in Heq; rewrite Heq; apply Hone; vm_compute; reflexivity.
Qed.


Lemma usage_always_current_witness :
  ∃ r s', @handle_stat_server_req elements_order 105 ex_stat (increase_num_users GameTracker_new) (usage_request ex_stat)
            ex_stat_1 = (Ok r, s') ∧
    parse_json (rs_body r) = Some (JObj [(text "num_users", JNum 1)]).
Proof.
  destruct (@usage_always_current elements_order ex_stat [(100, ex_board_1)] ex_stat_1 105 (increase_num_users GameTracker_new)
    ex_stat_run) as (r & s' & Hh & Hp & _).
  - vm_compute. split; [discriminate|reflexivity].
  - vm_compute. reflexivity.
  - vm_compute. reflexivity.
  - exists r, s'. split; [exact Hh|]. rewrite Hp. vm_compute. reflexivity.
Defined.
