(* ===== verification/ClientState.v ===== *)
(** * Clients and the state they share (src/src/server/client.rs)

    [SharedData] is the state behind the locks, [Client] what a connection keeps
    for itself; a request handler works on both, on the request ([StreamExtractor])
    and on the reply it builds, and may send notifications to other clients.  The
    wire format of messages is [prost]'s: a class of encoders and decoders, one
    instance per message type, stands for it. *)

From S2P Require Import Prelude Protocol StreamExtractor Messages RoomData Room RoomManager GuiRoom.
From S2P Require Import GuiRoomManager ScoreCache Database Accounts Friendships Config DataFiles GameTracker.

Class Message (T : Type) := {
  encode_to_vec : T → bytes;
  decode_message : bytes → option T;
}.

(** ** What is shared of a client *)

Record ClientSharedPresence := mkClientSharedPresence {
  cp_communication_id : ComId;
  cp_title : string;
  cp_status : string;
  cp_comment : string;
  cp_data : bytes;
}.
#[export] Instance presence_eta : Eta ClientSharedPresence := λ p,
  mkClientSharedPresence (cp_communication_id p) (cp_title p) (cp_status p) (cp_comment p) (cp_data p).

(** [ClientSharedPresence::dump] and [dump_empty]: what they append. *)
Definition presence_dump (p : ClientSharedPresence) : bytes :=
  cp_communication_id p ++ bytes_of_string (cp_title p) ++ [0] ++ bytes_of_string (cp_status p) ++ [0]
  ++ bytes_of_string (cp_comment p) ++ [0] ++ to_le_bytes 4 (wrap_u32 (Z.of_nat (length (cp_data p)))) ++ cp_data p.

Definition presence_dump_empty : bytes := [0; 0; 0; 0; 0; 0; 0; 0; 0; 95; 48; 48; 0; 0; 0; 0; 0; 0; 0].

Definition SCE_NP_MATCHING2_USER_BIN_ATTR_1_ID : Z := 0x5F.

(** What other clients may read of a client ([ClientSharedInfo]); the channel is the
    entry of [sv_sent] under the user's id, [cs_kicked] the permit of [kick_notify]. *)
Record ClientSharedInfo := mkClientSharedInfo {
  cs_signaling_info : ClientSharedSignalingInfo;
  cs_friends : gmap Z string;
  cs_presence : option ClientSharedPresence;
  cs_session : RoomBinAttr;
  cs_kicked : bool;
  cs_npid : string;
  cs_online_name : string;
  cs_ip : bytes;
}.
#[export] Instance shared_info_eta : Eta ClientSharedInfo := λ i,
  mkClientSharedInfo (cs_signaling_info i) (cs_friends i) (cs_presence i) (cs_session i) (cs_kicked i)
    (cs_npid i) (cs_online_name i) (cs_ip i).

(** [ClientSharedInfo::new]. *)
Definition ClientSharedInfo_new (friends : gmap Z string) (info : ClientInfo) (ip : bytes) : ClientSharedInfo :=
  mkClientSharedInfo signaling_info_new friends None (RoomBinAttr_with_id 128 SCE_NP_MATCHING2_USER_BIN_ATTR_1_ID)
    false (ci_npid info) (ci_online_name info) ip.

(** An e-mail the server sent: the address, the user and the code in it. *)
Record Mail := mkMail {
  ml_address : string;
  ml_username : string;
  ml_code : string;
}.

(** [Client::new]. *)
Definition no_client_info : ClientInfo := mkClientInfo 0 "" "" "" "" false false false.

(** The state behind the locks, with the configuration, the database, the two data
    directories ([score_data], [tus_data]), the id of the next ticket, the termination flag, and what left the
    server: messages to clients and e-mails. *)
Record SharedData := mkSharedData {
  sv_gui_room_manager : GuiRoomManager;
  sv_room_manager : RoomManager;
  sv_client_infos : gmap Z ClientSharedInfo;
  sv_score_cache : ScoresCache;
  sv_game_tracker : GameTracker;
  sv_cleanup_duty : gset Z;
  sv_config : Config;
  sv_db : Database;
  sv_score_dir : DataDir;
  sv_tus_dir : DataDir;
  sv_ticket_dispenser : Z;
  sv_terminate : bool;
  sv_sent : list (Z * bytes);
  sv_mails : list Mail;
}.
#[export] Instance shared_eta : Eta SharedData := λ s,
  mkSharedData (sv_gui_room_manager s) (sv_room_manager s) (sv_client_infos s) (sv_score_cache s)
    (sv_game_tracker s) (sv_cleanup_duty s) (sv_config s) (sv_db s) (sv_score_dir s) (sv_tus_dir s)
    (sv_ticket_dispenser s) (sv_terminate s) (sv_sent s) (sv_mails s).

(** [SharedData::new] runs once per connection and shares every table but
    [rematch_pairs], which it creates: that one belongs to the connection. *)
Record Client := mkClient {
  cl_authentified : bool;
  cl_client_info : ClientInfo;
  cl_post_reply_notifications : list bytes;
  cl_current_game : option ComId * option string;
  cl_rematch_pairs : gmap string (string * Z);
  cl_peer_ip : bytes;
}.
#[export] Instance client_eta : Eta Client := λ c,
  mkClient (cl_authentified c) (cl_client_info c) (cl_post_reply_notifications c) (cl_current_game c)
    (cl_rematch_pairs c) (cl_peer_ip c).

Definition Client_new (peer_ip : bytes) : Client := mkClient false no_client_info [] (None, None) ∅ peer_ip.

(** The state a handler runs on. *)
Record Ctx := mkCtx {
  cx_client : Client;
  cx_shared : SharedData;
  cx_data : StreamExtractor;
  cx_reply : bytes;
}.
#[export] Instance ctx_eta : Eta Ctx := λ c, mkCtx (cx_client c) (cx_shared c) (cx_data c) (cx_reply c).

(** The surroundings of one request: the clocks (PSN time, monotonic milliseconds,
    nanoseconds and seconds of the wall clock), the random draws, whether a database
    connection is available, e-mails can be sent and files written and read, and the
    contents of the files an administrator may have reloaded; [en_sign] is the signature
    over a ticket, [None] without a key or digest. *)
Record Env := mkEnv {
  en_psn_time : Z;
  en_instant : Z;
  en_nanos : Z;
  en_seconds : Z;
  en_rng : nat;
  en_draw : Draw;
  en_db_ok : bool;
  en_mail_ok : bool;
  en_file : FileOutcome;
  en_read_ok : bool;
  en_domains_file : option bytes;
  en_servers_file : option bytes;
  en_sign : bytes → option bytes;
}.

Abbreviation H := (M Ctx ErrorType).

(** The reply code of a handler: [Ok] keeps the connection, [Err] ends it. *)
Abbreviation Handler := (H ErrorType).

Definition user_id (cx : Ctx) : Z := ci_user_id (cl_client_info (cx_client cx)).

(** [return code] inside a loop or a nested match of a handler: the value travels as
    an error up to [with_exits]. *)
Abbreviation Exit := (res ErrorType ErrorType).

Definition with_exits {A} (m : M Ctx Exit A) (k : A → Handler) : Handler := λ cx,
  match m cx with
  | (Ok a, cx') => k a cx'
  | (Err code, cx') => (code, cx')
  | (Panic, cx') => (Panic, cx')
  end.

(** ** Reading requests *)

(** A read from the request: the extractor moves on. *)
Definition read_data {A} (f : StreamExtractor → A * StreamExtractor) : H A := λ cx,
  let '(a, se) := f (cx_data cx) in (Ok a, cx <| cx_data := se |>).

(** A method of the room manager under its lock, and of the others. *)
Definition on_rooms {A} (m : RM A) : M Ctx ErrorType (R A) := λ cx,
  let '(r, rm) := m (sv_room_manager (cx_shared cx)) in
  match r with
  | Panic => (Panic, cx <| cx_shared ::= (λ s, s <| sv_room_manager := rm |>) |>)
  | _ => (Ok r, cx <| cx_shared ::= (λ s, s <| sv_room_manager := rm |>) |>)
  end.

Definition on_gui {A} (m : GM A) : M Ctx ErrorType (R A) := λ cx,
  let '(r, g) := m (sv_gui_room_manager (cx_shared cx)) in
  match r with
  | Panic => (Panic, cx <| cx_shared ::= (λ s, s <| sv_gui_room_manager := g |>) |>)
  | _ => (Ok r, cx <| cx_shared ::= (λ s, s <| sv_gui_room_manager := g |>) |>)
  end.

(** A method of the database, and of the score cache. *)
Definition on_db {E A} (m : M Database E A) : M Ctx E A := λ cx,
  let '(r, db) := m (sv_db (cx_shared cx)) in (r, cx <| cx_shared ::= (λ s, s <| sv_db := db |>) |>).

Definition on_scores {A} (m : SC A) : H A := λ cx,
  let '(r, sc) := m (sv_score_cache (cx_shared cx)) in (r, cx <| cx_shared ::= (λ s, s <| sv_score_cache := sc |>) |>).

(** A data directory. *)
Definition on_score_dir {E A} (m : M DataDir E A) : M Ctx E A := λ cx,
  let '(r, d) := m (sv_score_dir (cx_shared cx)) in (r, cx <| cx_shared ::= (λ s, s <| sv_score_dir := d |>) |>).

Definition on_tus_dir {E A} (m : M DataDir E A) : M Ctx E A := λ cx,
  let '(r, d) := m (sv_tus_dir (cx_shared cx)) in (r, cx <| cx_shared ::= (λ s, s <| sv_tus_dir := d |>) |>).

Definition on_shared (f : SharedData → SharedData) : H unit := modify (λ cx, cx <| cx_shared ::= f |>).

Definition on_client (f : Client → Client) : H unit := modify (λ cx, cx <| cx_client ::= f |>).

Definition extend_reply (bs : bytes) : H unit := modify (λ cx, cx <| cx_reply ::= (λ r, r ++ bs) |>).

(** [Client::add_data_packet(reply, &data)]. *)
Definition reply_packet (data : bytes) : H unit := modify (λ cx, cx <| cx_reply ::= (λ r, add_data_packet r data) |>).

(** The title of the request, counted as the client's current game. *)
Definition get_com_id_with_redir : H ComId :=
  do com_id <- read_data get_com_id;
  do config <- gets (λ cx, sv_config (cx_shared cx));
  let final_com_id := get_server_redirection config com_id in
  do current <- gets (λ cx, (cl_current_game (cx_client cx)).1);
  let set_game := on_client (λ c, c <| cl_current_game ::= (λ g, (Some final_com_id, g.2)) |>) in
  let track f := on_shared (λ s, s <| sv_game_tracker ::= f |>) in
  do! match current with
      | Some cur_com_id =>
          if bool_decide (cur_com_id ≠ final_com_id) then
            do! track (decrease_count_psn cur_com_id);
            do! set_game;
            track (increase_count_psn final_com_id)
          else ret tt
      | None =>
          do! set_game;
          track (increase_count_psn final_com_id)
      end;
  ret final_com_id.

Definition read_pb {T} `{Message T} : H T := λ cx,
  let '(r, se) := get_pb decode_message (cx_data cx) in (r, cx <| cx_data := se |>).

Definition get_com_and_pb {T} `{Message T} : H (ComId * T) :=
  do com_id <- get_com_id_with_redir;
  do req <- read_pb;
  ret (com_id, req).

(** [data.error()] after the reads of a request that has no message. *)
Definition check_data : H unit :=
  do bad <- gets (λ cx, se_error (cx_data cx));
  if bad : bool then fail Malformed else ret tt.

Definition get_database_connection (env : Env) : H unit := if en_db_ok env then ret tt else fail DbFail.

(** ** Notifications *)

Section notifications.
Context `{!HashOrder}.

(** Nothing is sent to a user that is not connected. *)
Definition send_single_notification (notif : bytes) (uid : Z) (s : SharedData) : SharedData :=
  if bool_decide (is_Some (sv_client_infos s !! uid)) then s <| sv_sent ::= (λ l, l ++ [(uid, notif)]) |> else s.

Definition send_notification (notif : bytes) (user_list : gset Z) : H unit :=
  on_shared (λ s, foldl (λ s uid, send_single_notification notif uid s) s (hash_iter user_list)).

Definition self_notification (notif : bytes) : H unit :=
  on_client (λ c, c <| cl_post_reply_notifications ::= (λ l, l ++ [notif]) |>).
End notifications.

(** The signaling information the other clients are given. *)
Definition signaling_info_of (cx : Ctx) : ClientSharedSignalingInfo :=
  from_option cs_signaling_info signaling_info_new (sv_client_infos (cx_shared cx) !! user_id cx).
