(* ===== verification/ApiServer.v ===== *)
(** * The API server (src/src/server/api_server.rs and its modules)

    An HTTP service over the shared state: the rooms of a title for everybody, and for
    holders of the key the connected users, the check of a password, and the reading and
    banning of an account by an administrator.  Bodies are JSON values; their text and
    the derived decoders are those of the libraries. *)

From S2P Require Import Prelude Protocol Text Json Http Messages RoomData Room RoomManager ScoreCache Database Accounts.
From S2P Require Import Config GameTracker ClientState.

(** ** Requests (admin.rs, external.rs) *)

Record AdminRequest := mkAdminRequest {
  ar_admin_username : string;
  ar_admin_password : string;
  ar_username : string;
}.

Definition admin_is_complete (r : AdminRequest) : bool :=
  bool_decide (ar_admin_username r ≠ ""%string) && bool_decide (ar_admin_password r ≠ ""%string)
  && bool_decide (ar_username r ≠ ""%string).

Record VerifyRequest := mkVerifyRequest {
  vr_username : string;
  vr_password : string;
}.

Definition verify_is_complete (r : VerifyRequest) : bool :=
  bool_decide (vr_username r ≠ ""%string) && bool_decide (vr_password r ≠ ""%string).

(** What the libraries do: percent-decoding of a segment of the path, decoding of the
    two request bodies, the text of an address, and whether the key is asked for before a
    wrong method is noticed. *)
Class HttpLib := {
  url_decode : bytes → option bytes;
  decode_admin_request : bytes → option AdminRequest;
  decode_verify_request : bytes → option VerifyRequest;
  show_ip : bytes → bytes;
  key_checked_first : bool;
}.

(** ** Responses (error.rs) *)

Inductive ApiBody := NoBody | TextBody | JsonBody (v : json).

Record ApiResponse := mkApiResponse {
  ap_status : Z;
  ap_body : ApiBody;
}.

Inductive ApiError :=
| InvalidRequest
| InvalidCredentials
| ApiForbidden
| UserNotFound
| MethodNotAllowed
| Internal.

Definition status_and_code (e : ApiError) : Z * string :=
  match e with
  | InvalidRequest => (400, "invalid_request"%string)
  | InvalidCredentials => (401, "invalid_credentials"%string)
  | ApiForbidden => (403, "forbidden"%string)
  | UserNotFound => (404, "user_not_found"%string)
  | MethodNotAllowed => (405, "method_not_allowed"%string)
  | Internal => (500, "internal_error"%string)
  end.

Definition error_response (e : ApiError) : ApiResponse :=
  let '(status, code) := status_and_code e in mkApiResponse status (JsonBody (JObj [(text "error", JStr (text code))])).

Definition api_error_of_db (e : DbError) : ApiError :=
  match e with
  | DbEmpty | DbWrongPass => InvalidCredentials
  | _ => Internal
  end.

Abbreviation AP := (M SharedData ApiError).

(** [into_response] of a handler's result. *)
Definition into_response (m : AP json) : AP ApiResponse := λ s,
  match m s with
  | (Ok v, s') => (Ok (mkApiResponse 200 (JsonBody v)), s')
  | (Err e, s') => (Ok (error_response e), s')
  | (Panic, s') => (Panic, s')
  end.

(** A method of the database; [spawn_blocking] turns its panic into a [JoinError]. *)
Definition api_db {E A} (m : M Database E A) : M SharedData E A := λ s,
  let '(r, db) := m (sv_db s) in (r, s <| sv_db := db |>).

Definition spawn_blocking {A} (m : AP A) : AP A := λ s,
  match m s with
  | (Panic, s') => (Err Internal, s')
  | out => out
  end.

Definition api_db_connection (env : Env) : AP unit := if en_db_ok env then ret tt else fail Internal.

(** [JsonBody::from_request] (extract.rs), under [DefaultBodyLimit::max]. *)
Definition MAX_BODY_SIZE : Z := 4096.

Definition json_body {A} (decode : bytes → option A) (body : bytes) : AP A :=
  if bool_decide (MAX_BODY_SIZE < Z.of_nat (length body)) then fail InvalidRequest
  else lift (ok_or InvalidRequest (decode body)).

(** ** The key and the administrators (auth.rs) *)

(** [HeaderValue::to_str]: visible ASCII characters, spaces and tabs only. *)
Definition header_to_str (value : bytes) : option bytes :=
  if forallb (λ b, bool_decide (32 ≤ b < 127 ∨ b = 9)) value then Some value else None.

Definition has_api_key (header : option bytes) (api_key : bytes) : bool :=
  match header ≫= header_to_str with
  | Some value => bool_decide (length value = length api_key) && bool_decide (value = api_key)
  | None => false
  end.

Definition require_api_key (api_key : option bytes) (req : Request) (next : AP ApiResponse) : AP ApiResponse :=
  match api_key with
  | None => ret (mkApiResponse 404 NoBody)
  | Some api_key => if negb (has_api_key (rq_api_key req) api_key) then ret (error_response ApiForbidden) else next
  end.

Section api.
Context `{!HashOrder} `{!External} `{!HttpLib} (env : Env).

Definition authenticate_admin (username password : string) : AP unit :=
  do admin <- map_err api_error_of_db (api_db (check_user username password "" false));
  if negb (ac_admin (uq_account admin)) || ac_banned (uq_account admin) then fail ApiForbidden else ret tt.

(** ** Administration (admin.rs) *)

Inductive AdminAction := Info | Ban.

Definition run_admin_action (request : AdminRequest) (action : AdminAction) : AP UserAdminInfo :=
  if negb (admin_is_complete request) then fail InvalidRequest
  else spawn_blocking (
    do! api_db_connection env;
    do! authenticate_admin (ar_admin_username request) (ar_admin_password request);
    do user <- map_err (λ e, match e with DbEmpty => UserNotFound | _ => Internal end)
                 (api_db (get_user_admin_info (ar_username request)));
    do! match action with
        | Ban => map_err (λ _, Internal) (api_db (ban_user (ua_user_id user)))
        | Info => ret tt
        end;
    ret user).

Definition option_num (n : option Z) : json := from_option JNum JNull n.

Definition user_info (body : bytes) : AP json :=
  do request <- json_body decode_admin_request body;
  do user <- run_admin_action request Info;
  do online <- gets (λ s, bool_decide (is_Some (sv_client_infos s !! ua_user_id user)));
  ret (JObj [(text "user_id", JNum (ua_user_id user)); (text "username", JStr (text (ua_username user)));
             (text "online_name", JStr (text (ua_online_name user))); (text "avatar_url", JStr (text (ua_avatar_url user)));
             (text "admin", JBool (ua_admin user)); (text "banned", JBool (ua_banned user)); (text "online", JBool online);
             (text "creation", option_num (ua_creation user)); (text "last_login", option_num (ua_last_login user))]).

(** [ClientSharedInfo::kick]. *)
Definition kick (user_id : Z) (s : SharedData) : SharedData :=
  s <| sv_client_infos ::= alter (λ i, i <| cs_kicked := true |>) user_id |>.

Definition ban (body : bytes) : AP json :=
  do request <- json_body decode_admin_request body;
  do user <- run_admin_action request Ban;
  do kicked <- gets (λ s, bool_decide (is_Some (sv_client_infos s !! ua_user_id user)));
  do! modify (kick (ua_user_id user));
  ret (JObj [(text "user_id", JNum (ua_user_id user)); (text "username", JStr (text (ua_username user)));
             (text "banned", JBool true); (text "kicked", JBool kicked)]).

(** ** Verification (external.rs) *)

Definition verify (body : bytes) : AP json :=
  do request <- json_body decode_verify_request body;
  if negb (verify_is_complete request) then fail InvalidRequest
  else
    do user <- spawn_blocking (
      do! api_db_connection env;
      map_err api_error_of_db (api_db (check_user (vr_username request) (vr_password request) "" false)));
    let a := uq_account user in
    ret (JObj [(text "user_id", JNum (uq_user_id user)); (text "username", JStr (text (ac_username a)));
               (text "online_name", JStr (text (ac_online_name a))); (text "avatar_url", JStr (text (ac_avatar_url a)));
               (text "admin", JBool (ac_admin a)); (text "banned", JBool (ac_banned a))]).

(** ** Rooms (rooms.rs) *)

Definition member_json (user : RoomUser) : json :=
  JObj [(text "npid", JStr (text (u_npid user))); (text "online_name", JStr (text (u_online_name user)));
        (text "is_owner", JBool (bool_decide (Z.land (u_flag_attr user) 0x80000000 ≠ 0)))].

Definition room_json (room_id : Z) (room : Room) : json :=
  JObj [(text "room_id", JNum room_id); (text "world_id", JNum (r_world_id room)); (text "lobby_id", JNum (r_lobby_id room));
        (text "max_slot", JNum (r_max_slot room)); (text "cur_member_num", JNum (Z.of_nat (size (r_users room))));
        (text "flag_attr", JNum (r_flag_attr room));
        (text "has_password", JBool (bool_decide (is_Some (r_room_password room))));
        (text "members", JArr (member_json <$> btree_values (r_users room)))].

Definition rooms_list (com_id : bytes) : AP json :=
  if bool_decide (length com_id ≠ COMMUNICATION_ID_SIZE) then fail InvalidRequest
  else
    do rooms <- gets (λ s, rm_rooms (sv_room_manager s));
    ret (JArr (omap (λ '((c_id, room_id), room), if bool_decide (c_id = com_id) then Some (room_json room_id room) else None)
                 (hash_map_iter rooms))).

(** ** Sessions (sessions.rs) *)

Record Session := mkSession {
  sn_online_name : string;
  sn_npid : string;
  sn_ip : bytes;
}.

(** The order of [(&online_name, &npid)]: strings compare byte by byte. *)
Definition session_le (a b : Session) : Prop :=
  (sn_online_name a ≠ sn_online_name b ∧ String.le (sn_online_name a) (sn_online_name b)) ∨
  (sn_online_name a = sn_online_name b ∧ String.le (sn_npid a) (sn_npid b)).
#[global] Instance session_le_dec a b : Decision (session_le a b).
Proof. unfold session_le. apply _. Defined.

Definition session_json (n : Session) : json :=
  JObj [(text "online_name", JStr (text (sn_online_name n))); (text "npid", JStr (text (sn_npid n)));
        (text "ip", JStr (show_ip (sn_ip n)))].

Definition sessions_of (s : SharedData) : list Session :=
  merge_sort session_le
    ((λ info, mkSession (cs_online_name info) (cs_npid info) (cs_ip info)) <$> hash_map_values (sv_client_infos s)).

Definition sessions_list : AP json :=
  do sessions <- gets sessions_of;
  ret (JObj [(text "sessions", JArr (session_json <$> sessions))]).

(** ** Routing (api_server.rs) *)

Inductive Route :=
| RSessions
| RVerify
| RUserInfo
| RBan
| RRooms (segment : bytes).

#[global] Instance route_eq_dec : EqDecision Route.
Proof. solve_decision. Defined.

Definition find_route (path : bytes) : option Route :=
  if bool_decide (path = text "/admin/sessions") then Some RSessions
  else if bool_decide (path = text "/external/users/verify") then Some RVerify
  else if bool_decide (path = text "/admin/users/info") then Some RUserInfo
  else if bool_decide (path = text "/admin/users/ban") then Some RBan
  else match strip_prefix (text "/rooms/") path with
       | Some segment => if bool_decide (segment ≠ [] ∧ 47 ∉ segment) then Some (RRooms segment) else None
       | None => None
       end.

Definition keyed (r : Route) : bool := match r with RRooms _ => false | _ => true end.

(** [get] also answers [HEAD], without the body. *)
Definition allowed (r : Route) (m : Method) : bool :=
  match r with
  | RSessions | RRooms _ => bool_decide (m = GET) || bool_decide (m = HEAD)
  | RVerify | RUserInfo | RBan => bool_decide (m = POST)
  end.

Definition strip_body (m : Method) (r : ApiResponse) : ApiResponse :=
  if bool_decide (m = HEAD) then mkApiResponse (ap_status r) NoBody else r.

Definition run_route (r : Route) (body : bytes) : AP ApiResponse :=
  match r with
  | RSessions => into_response sessions_list
  | RVerify => into_response (verify body)
  | RUserInfo => into_response (user_info body)
  | RBan => into_response (ban body)
  | RRooms segment =>
      match url_decode segment with
      | Some com_id => into_response (rooms_list com_id)
      | None => ret (mkApiResponse 400 TextBody)
      end
  end.

(** The response of the router; the answer to [HEAD] has no body. *)
Definition route_request (api_key : option bytes) (req : Request) : AP ApiResponse :=
  match find_route (rq_path req) with
  | None => ret (mkApiResponse 404 NoBody)
  | Some r =>
      let guard m := if keyed r then require_api_key api_key req m else m in
      if allowed r (rq_method req) then guard (run_route r (rq_body req))
      else if key_checked_first then guard (ret (error_response MethodNotAllowed))
      else ret (error_response MethodNotAllowed)
  end.

Definition api_request (api_key : option bytes) (req : Request) : AP ApiResponse :=
  do response <- route_request api_key req;
  ret (strip_body (rq_method req) response).
End api.

(** [start_api_server]: the key counts when it is not empty. *)
Definition start_api_server (config : Config) (binds : bool) : res unit (option (option bytes)) :=
  let api_key := if bool_decide (cf_api_server_api_key config = ""%string) then None
                 else Some (text (cf_api_server_api_key config)) in
  match cf_api_server_host_and_port config with
  | None => Ok None
  | Some _ => if binds then Ok (Some api_key) else Err tt
  end.
