(* ===== verification/UdpServer.v ===== *)
(** * Signaling server and daily cleaner (src/src/server/udp_server.rs, daily_cleaner.rs) *)

From S2P Require Import ScoreCache Text Database Accounts Friendships DbScore DbTus Config DataFiles.
From S2P Require Import Prelude Protocol StreamExtractor Messages RoomData Room RoomManager GuiRoom.
From S2P Require Import GuiRoomManager GameTracker ClientState.

(** ** Signaling packets *)

Inductive IpAddr :=
| V4 (octets : bytes)
| V6 (octets : bytes).

(** [Ipv6Addr::to_ipv4]: compatible (::a.b.c.d) and mapped (::ffff:a.b.c.d) addresses. *)
Definition to_ipv4 (octets : bytes) : option bytes :=
  if bool_decide (take 10 octets = replicate 10 0) &&
     (bool_decide (slice octets 10 2 = [0; 0]) || bool_decide (slice octets 10 2 = [0xFF; 0xFF]))
  then Some (drop 12 octets) else None.

(** Where a client is reached: on IPv4 (perhaps through an IPv6 socket), or on IPv6. *)
Definition seen_as (ip_addr : IpAddr) : bytes + bytes :=
  match ip_addr with
  | V4 octets => inl octets
  | V6 octets => match to_ipv4 octets with Some v4 => inl v4 | None => inr octets end
  end.

Definition need_update (si : ClientSharedSignalingInfo) (ip_addr : IpAddr) (ip_port : Z) : bool :=
  match seen_as ip_addr with
  | inl octets => bool_decide ((sig_addr_p2p_ipv4 si).1 ≠ octets) || bool_decide ((sig_addr_p2p_ipv4 si).2 ≠ ip_port)
  | inr octets =>
      match sig_addr_p2p_ipv6 si with
      | Some (addr, port) => bool_decide (addr ≠ octets) || bool_decide (port ≠ ip_port)
      | None => true
      end
  end.

Definition update_signaling_information (uid : Z) (local_addr : bytes) (ip_addr : IpAddr) (ip_port : Z)
  (s : SharedData) : SharedData :=
  s <| sv_client_infos ::= alter (λ i,
    if need_update (cs_signaling_info i) ip_addr ip_port then
      i <| cs_signaling_info ::= (λ si,
        let si := si <| sig_local_addr_p2p := local_addr |> in
        match seen_as ip_addr with
        | inl octets => si <| sig_addr_p2p_ipv4 := (octets, ip_port) |>
        | inr octets => si <| sig_addr_p2p_ipv6 := Some (octets, ip_port) |>
        end) |>
    else i) uid |>.

(** The reply to a packet, if it is one of the protocol: the sender's address. *)
Definition signaling_reply (ip_addr : IpAddr) (ip_port : Z) : bytes :=
  [0; 0; 0] ++ match seen_as ip_addr with inl octets => octets | inr octets => octets end ++ to_be_bytes 2 ip_port.

Definition handle_socket_input (recv_buf : bytes) (ip_addr : IpAddr) (ip_port : Z) (s : SharedData) :
  option bytes * SharedData :=
  if bool_decide (length recv_buf ≠ 13%nat) || bool_decide (head recv_buf ≠ Some 1) then (None, s)
  else
    let uid := to_signed 64 (from_le_bytes (slice recv_buf 1 8)) in
    let local_addr := slice recv_buf 9 4 in
    (Some (signaling_reply ip_addr ip_port), update_signaling_information uid local_addr ip_addr ip_port s).

(** ** The daily cleaner *)

(** One round of [Cleaner::task_proc]; failures are only logged. *)
Definition clean_daily (env : Env) (s : SharedData) : SharedData :=
  if en_db_ok env then
    let db := (cleanup_expired_hashes (en_seconds env) (sv_db s)).2 in
    s <| sv_db := (cleanup_never_used_accounts (en_seconds env) db).2 |>
  else s.
