(* ===== verification/Startup.v ===== *)
(** * Start-up (src/src/server.rs, database.rs, score_cache.rs)

    The rows the migrations add to a new database, the loading of the score cache, and
    [Server::new] on a database whose migrations have all been applied.  Errors are
    strings there: only that start-up failed is kept. *)

From S2P Require Import Prelude Protocol StreamExtractor Messages RoomData Room RoomManager GuiRoom GuiRoomManager.
From S2P Require Import ScoreCache Text Database Accounts Friendships DbScore DbTus Config DataFiles GameTracker.
From S2P Require Import ClientState.

Section startup.
Context `{!HashOrder} `{!External}.

(** ** A new database *)

(** The board of Ridge Racer 7, and its scores, which move to another title. *)
Definition rr7_board : DbBoardInfo := mkDbBoardInfo 250 0 0 10 6000000.

Definition move_rr7_scores (table_id : Z) : SQL unit := sql (λ db,
  let moved := filter (λ '((c, b, _, _), r),
    c = "NPWR00001_00"%string ∧ b = table_id ∧ 60000000000000000 < sr_score r) (map_to_list (db_score db)) in
  let target := λ '((_, b, u, p), _), ("NPWR00001_01"%string, b, u, p) in
  if existsb (λ x : string * Z * Z * Z * ScoreRow, bool_decide (is_Some (db_score db !! target x))) moved then inl (ConstraintViolation "score.communication_id")
  else inr (tt, db <| db_score ::= λ m,
    list_to_map ((λ x : string * Z * Z * Z * ScoreRow, (target x, x.2)) <$> moved) ∪ foldr delete m moved.*1 |>)).

Definition ridge_racer_7_fixup : SQL unit :=
  for_each (λ table_id,
    do! replace_score_table ("NPWR00001_01"%string, table_id) rr7_board;
    move_rr7_scores table_id) [0; 1].

Definition change_score_rank_limit_default : SQL unit := execute (λ db,
  db <| db_score_table ::= fmap (λ i,
    mkDbBoardInfo 250 (bi_update_mode i) (bi_sort_mode i) (bi_upload_num_limit i) (bi_upload_size_limit i)) |>).

(** No password has the hash of this account: it is banned in any case. *)
Definition deleted_user_account : Account :=
  mkAccount DELETED_USER_USERNAME (replicate 32 0) (replicate 64 0) "Deleted User"
    "https://rpcs3.net/cdn/netplay/DefaultAvatar.png" "deleted@user" "deleted@user" "0000000000000000" None
    false false true.

Definition create_deleted_user_account (timestamp : Z) : SQL unit :=
  do! insert_account deleted_user_account;
  do user_id <- query_row (λ db, fst <$> find_account db DELETED_USER_USERNAME);
  insert_account_timestamp user_id (mkAccountTimestamp timestamp (Some timestamp) None None).

(** [INSERT INTO unique_blob]: each name once. *)
Definition insert_email_salt (salt : bytes) : SQL unit := sql (λ db,
  if bool_decide (is_Some (db_email_salt db)) then inl (ConstraintViolation "unique_blob.name")
  else inr (tt, db <| db_email_salt := Some salt |>)).

Definition insert_username_salt (salt : bytes) : SQL unit := sql (λ db,
  if bool_decide (is_Some (db_username_salt db)) then inl (ConstraintViolation "unique_blob.name")
  else inr (tt, db <| db_username_salt := Some salt |>)).

Definition insert_salts (email_salt username_salt : bytes) : SQL unit :=
  do! insert_email_salt email_salt;
  insert_username_salt username_salt.

Definition deletion_rows (timestamp : Z) (email_salt username_salt : bytes) : SQL unit :=
  do! create_deleted_user_account timestamp;
  insert_salts email_salt username_salt.

(** The migrations on a new file: the others create tables or change rows, of which
    there are none. *)
Definition new_database (timestamp : Z) (email_salt username_salt : bytes) : res SqlError unit * Database :=
  (do! change_score_rank_limit_default;
   do! ridge_racer_7_fixup;
   deletion_rows timestamp email_salt username_salt) empty_db.

(** ** Every start *)

(** [UPDATE account SET admin = TRUE WHERE username IN (...)]. *)
Definition set_admins (admin_list : list string) : SQL unit := execute (λ db,
  db <| db_account ::= fmap (λ a, if bool_decide (ac_username a ∈ admin_list) then a <| ac_admin := true |> else a) |>).

(** Neither failure stops the start. *)
Definition initialize_database (admin_list : list string) (servers_file : option bytes) : M Database unit unit :=
  do! (if bool_decide (admin_list = []) then ret tt else do _ <- attempt (set_admins admin_list); ret tt);
  do _ <- attempt (update_servers_cfg servers_file);
  ret tt.

(** The index of a board that was read from the database. *)
Definition index_scores (sorted_scores : list DbScoreInfo) : NpidLookup :=
  foldl (λ m '(index, score), npid_insert (si_user_id score) (si_character_id score) index m) ∅
    (imap pair sorted_scores).

Definition load_table (now : Z) (cache : ScoresCache) (table : string * Z * DbBoardInfo) : M Database unit ScoresCache :=
  let '(com_id, board_id, table_info) := table in
  do sorted_scores <- map_err (λ _, tt) (get_scores_from_table com_id board_id table_info);
  ret (cache <| sc_tables ::=
    <[(com_id, board_id) := mkScoreTableCache sorted_scores (index_scores sorted_scores) table_info now]> |>).

Fixpoint load_tables (now : Z) (cache : ScoresCache) (tables : list (string * Z * DbBoardInfo)) :
  M Database unit ScoresCache :=
  match tables with
  | [] => ret cache
  | table :: tables => do cache <- load_table now cache table; load_tables now cache tables
  end.

(** The users with a score on some board. *)
Definition scored_users (cache : ScoresCache) : gset Z :=
  list_to_set ((map_to_list (sc_tables cache)).*2 ≫= λ t, si_user_id <$> st_sorted_scores t).

Definition load_users (cache : ScoresCache) : M Database unit ScoresCache :=
  do vec_userinfo <- map_err (λ _, tt) (get_username_and_online_name_from_user_ids (scored_users cache));
  ret (cache <| sc_users := foldl (λ m '(u, npid, online_name), <[u := mkScoreUserCache npid online_name]> m) ∅ vec_userinfo |>).

(** What is on disk. *)
Record Stored := mkStored {
  sto_db : Database;
  sto_score_dir : DataDir;
  sto_tus_dir : DataDir;
}.
#[export] Instance stored_eta : Eta Stored := λ s, mkStored (sto_db s) (sto_score_dir s) (sto_tus_dir s).

Definition on_sto_db {A} (m : M Database unit A) : M Stored unit A := λ s,
  let '(r, db) := m (sto_db s) in (r, s <| sto_db := db |>).

Definition initialize_score (now : Z) (scoreboards_file : option bytes) : M Stored unit ScoresCache :=
  do! on_sto_db (map_err (λ _, tt) (setup_config_scoreboards scoreboards_file));
  do! modify (λ s, s <| sto_score_dir ::= initialize_score_data_handler |>);
  do tables <- on_sto_db (map_err (λ _, tt) get_score_tables);
  do cache <- on_sto_db (load_tables now ScoresCache_new (hash_map_iter tables));
  on_sto_db (load_users cache).

Definition clean_stored_scores : M Stored unit unit := λ s,
  let '(r, (db, d)) := clean_score_data (sto_db s, sto_score_dir s) in (r, s <| sto_db := db |> <| sto_score_dir := d |>).

Definition clean_stored_tus : M Stored unit unit := λ s,
  let '(r, (db, d)) := clean_tus_data (sto_db s, sto_tus_dir s) in (r, s <| sto_db := db |> <| sto_tus_dir := d |>).

(** [Server::new], up to the shared state it builds.  A connection is available. *)
Definition Server_new (env : Env) (config : Config) (scoreboards_file : option bytes) : M Stored unit SharedData :=
  do! on_sto_db (initialize_database (cf_admins_list config) (en_servers_file env));
  do score_cache <- initialize_score (en_psn_time env) scoreboards_file;
  do! modify (λ s, s <| sto_tus_dir ::= initialize_data_handler TUS_FILE_EXTENSION |>);
  do _ <- on_sto_db (cleanup_never_used_accounts (en_seconds env));
  do! clean_stored_scores;
  do! clean_stored_tus;
  do s <- gets id;
  ret (mkSharedData GuiRoomManager_new RoomManager_new ∅ score_cache GameTracker_new ∅ config
         (sto_db s) (sto_score_dir s) (sto_tus_dir s) 1 false [] []).
End startup.
