(* ===== verification/Migrations.v ===== *)
(** * Migrations (src/src/server/database.rs)

    What [Server::initialize_database] does to the file of the database before anything
    else: the schema as a catalog of tables and indexes, the statements of the eleven
    migrations on the catalog and the rows, and the loop that applies those that were not
    recorded.  A statement fails without an effect or takes effect as a whole; nothing
    makes a migration one transaction. *)

From S2P Require Import Prelude Protocol ScoreCache Database Accounts Friendships DbScore DbTus Config Startup.

(** ** The file *)

(** The columns of a table, its primary key, its other unique columns, and its foreign
    keys: the columns, the table they refer to, and whether rows go with the rows they
    refer to. *)
Record TableDef := mkTableDef {
  tb_columns : list string;
  tb_key : list string;
  tb_unique : list string;
  tb_references : list (list string * string * bool);
}.

(** An index is on one column of a table.  [df_score_tables] are the tables that once
    held one board each; the rows of the other tables are in [df_rows], and while
    [alter_table] has the rows of a table under another name they are those.
    [df_foreign_keys] is the pragma of the connection. *)
Record DbFile := mkDbFile {
  df_tables : gmap string TableDef;
  df_indexes : gmap string (string * string);
  df_migrations : gmap Z string;
  df_score_tables : gmap (string * Z) (gmap (Z * Z) ScoreRow);
  df_foreign_keys : bool;
  df_rows : Database;
}.
#[export] Instance db_file_eta : Eta DbFile := λ d,
  mkDbFile (df_tables d) (df_indexes d) (df_migrations d) (df_score_tables d) (df_foreign_keys d) (df_rows d).

Definition empty_file : DbFile := mkDbFile ∅ ∅ ∅ ∅ true empty_db.

Abbreviation DDL := (M DbFile SqlError).

(** One statement on the file, and one on the rows alone. *)
Definition ddl {A} (f : DbFile → SqlError + A * DbFile) : DDL A := λ d,
  match db_faults (df_rows d) with
  | true :: faults => (Err SqliteFailure, d <| df_rows ::= (λ r, r <| db_faults := faults |>) |>)
  | faults =>
      let d := d <| df_rows ::= (λ r, r <| db_faults := tail faults |>) |> in
      match f d with
      | inl e => (Err e, d)
      | inr (a, d') => (Ok a, d')
      end
  end.

Definition on_rows {A} (m : SQL A) : DDL A := λ d, let '(r, db) := m (df_rows d) in (r, d <| df_rows := db |>).

(** ** Statements on the catalog *)

(** [CREATE TABLE IF NOT EXISTS]. *)
Definition create_table (name : string) (def : TableDef) : DDL unit := ddl (λ d,
  inr (tt, if bool_decide (is_Some (df_tables d !! name)) then d else d <| df_tables ::= <[name := def]> |>)).

(** [ALTER TABLE old RENAME TO new]: indexes and foreign keys follow. *)
Definition rename_references (old new : string) (def : TableDef) : TableDef :=
  mkTableDef (tb_columns def) (tb_key def) (tb_unique def)
    ((λ '(columns, table, cascades), (columns, if bool_decide (table = old) then new else table, cascades)) <$> tb_references def).

Definition rename_table (old new : string) : DDL unit := ddl (λ d,
  match df_tables d !! old with
  | Some def =>
      if bool_decide (is_Some (df_tables d !! new)) || bool_decide (is_Some (df_indexes d !! new)) then inl SqliteFailure
      else inr (tt, d <| df_tables ::= (λ t, rename_references old new <$> <[new := def]> (delete old t)) |>
                      <| df_indexes ::= fmap (λ '(table, column), (if bool_decide (table = old) then new else table, column)) |>)
  | None => inl SqliteFailure
  end).

(** [DROP TABLE]: the indexes of the table go with it. *)
Definition drop_table (name : string) : DDL unit := ddl (λ d,
  match df_tables d !! name with
  | Some _ => inr (tt, d <| df_tables ::= delete name |> <| df_indexes ::= filter (λ '(_, (table, _)), table ≠ name) |>)
  | None => inl SqliteFailure
  end).

(** [CREATE INDEX IF NOT EXISTS name ON table(column)] and [DROP INDEX IF EXISTS]. *)
Definition create_index (name table column : string) : DDL unit := ddl (λ d,
  match df_tables d !! table with
  | Some def =>
      if bool_decide (is_Some (df_indexes d !! name)) then inr (tt, d)
      else if bool_decide (column ∈ tb_columns def) then inr (tt, d <| df_indexes ::= <[name := (table, column)]> |>)
      else inl SqliteFailure
  | None => inl SqliteFailure
  end).

Definition drop_index (name : string) : DDL unit := ddl (λ d, inr (tt, d <| df_indexes ::= delete name |>)).

Definition set_foreign_keys (on : bool) : DDL unit := ddl (λ d, inr (tt, d <| df_foreign_keys := on |>)).

(** ** Copying a table *)

(** The users a column of a table names. *)
Definition named_users (table column : string) (db : Database) : list Z :=
  if bool_decide (table = "friendship"%string) then
    (if bool_decide (column = "user_id_1"%string) then fst else snd) <$> (map_to_list (db_friendship db)).*1
  else if bool_decide (table = "account_timestamp"%string) then (map_to_list (db_account_timestamp db)).*1
  else if bool_decide (table = "score"%string) then (λ k : string * Z * Z * Z, k.1.2) <$> (map_to_list (db_score db)).*1
  else if bool_decide (table = "tus_var"%string) then
    (λ '((owner, _, _), r), if bool_decide (column = "owner_id"%string) then owner else tv_author r) <$> map_to_list (db_tus_var db)
  else if bool_decide (table = "tus_data"%string) then
    (λ '((owner, _, _), r), if bool_decide (column = "owner_id"%string) then owner else td_author r) <$> map_to_list (db_tus_data db)
  else if bool_decide (table = "tus_var_vuser"%string) then tv_author <$> (map_to_list (db_tus_var_vuser db)).*2
  else if bool_decide (table = "tus_data_vuser"%string) then td_author <$> (map_to_list (db_tus_data_vuser db)).*2
  else [].

(** Every user the rows of the table refer to has an account. *)
Definition references_hold (name : string) (def : TableDef) (db : Database) : bool :=
  forallb (λ '(columns, _, _), forallb (λ column, forallb (has_account db) (named_users name column db)) columns)
    (filter (λ '(_, table, _), table = "account"%string) (tb_references def)).

(** [INSERT INTO name SELECT * from _old_name]: the columns are the same, and so are the
    keys, so that only the foreign keys can fail. *)
Definition copy_rows (name : string) : DDL unit := ddl (λ d,
  match df_tables d !! name, df_tables d !! ("_old_" +:+ name) with
  | Some def, Some old =>
      if bool_decide (tb_columns def = tb_columns old) then
        if df_foreign_keys d && negb (references_hold name def (df_rows d)) then inl (ConstraintViolation "") else inr (tt, d)
      else inl SqliteFailure
  | _, _ => inl SqliteFailure
  end).

Definition alter_table (table_name : string) (def : TableDef) : DDL unit :=
  do! rename_table table_name ("_old_" +:+ table_name);
  do! create_table table_name def;
  do! copy_rows table_name;
  drop_table ("_old_" +:+ table_name).

(** ** The tables *)

Open Scope string_scope.

Definition key_of (table : string) (columns : list string) (cascades : bool) : list string * string * bool :=
  (columns, table, cascades).

Definition account_table : TableDef :=
  mkTableDef ["user_id"; "username"; "hash"; "salt"; "online_name"; "avatar_url"; "email"; "email_check"; "token";
              "reset_token"; "admin"; "stat_agent"; "banned"] ["user_id"] ["email_check"; "username"] [].
Definition friendship_table (cascades : bool) : TableDef :=
  mkTableDef ["user_id_1"; "user_id_2"; "status_user_1"; "status_user_2"] ["user_id_1"; "user_id_2"] []
    [key_of "account" ["user_id_1"] cascades; key_of "account" ["user_id_2"] cascades].
Definition account_timestamp_table (cascades : bool) : TableDef :=
  mkTableDef ["user_id"; "creation"; "last_login"; "token_last_sent"; "reset_emit"] ["user_id"] []
    [key_of "account" ["user_id"] cascades].
Definition server_table : TableDef :=
  mkTableDef ["communication_id"; "server_id"] ["communication_id"; "server_id"] [] [].
Definition world_table : TableDef :=
  mkTableDef ["communication_id"; "server_id"; "world_id"] ["communication_id"; "world_id"] []
    [key_of "server" ["communication_id"; "server_id"] false].
Definition lobby_table : TableDef :=
  mkTableDef ["communication_id"; "world_id"; "lobby_id"] ["communication_id"; "lobby_id"] []
    [key_of "world" ["communication_id"; "world_id"] false].
Definition score_table_table : TableDef :=
  mkTableDef ["communication_id"; "board_id"; "rank_limit"; "update_mode"; "sort_mode"; "upload_num_limit"; "upload_size_limit"]
    ["communication_id"; "board_id"] [] [].

Definition tus_table (owner : string) (values : list string) (references : list (list string * string * bool)) : TableDef :=
  mkTableDef ([owner; "communication_id"; "slot_id"] ++ values ++ ["timestamp"; "author_id"])
    [owner; "communication_id"; "slot_id"] [] references.
Definition tus_var_table := tus_table "owner_id" ["var_value"].
Definition tus_data_table := tus_table "owner_id" ["data_id"; "data_info"].
Definition tus_var_vuser_table := tus_table "vuser" ["var_value"].
Definition tus_data_vuser_table := tus_table "vuser" ["data_id"; "data_info"].
Definition of_owner (cascades : bool) : list (list string * string * bool) :=
  [key_of "account" ["owner_id"] cascades; key_of "account" ["author_id"] false].
Definition of_author : list (list string * string * bool) := [key_of "account" ["author_id"] false].

Definition score_rows_table (cascades : bool) : TableDef :=
  mkTableDef ["communication_id"; "board_id"; "user_id"; "character_id"; "score"; "comment"; "game_info"; "data_id"; "timestamp"]
    ["communication_id"; "board_id"; "user_id"; "character_id"] ["data_id"] [key_of "account" ["user_id"] cascades].

Definition hash_table : TableDef := mkTableDef ["hash_value"; "hash_date"] ["hash_value"] [] [].
Definition unique_blob_table : TableDef := mkTableDef ["name"; "blob_value"] ["name"] [] [].
Definition migration_table : TableDef := mkTableDef ["migration_id"; "description"] ["migration_id"] [] [].

(** ** The migrations *)

Definition initial_setup : DDL unit :=
  do! create_table "account" account_table;
  do! create_table "friendship" (friendship_table false);
  do! create_table "account_timestamp" (account_timestamp_table false);
  do! create_table "server" server_table;
  do! create_table "world" world_table;
  do! create_table "lobby" lobby_table;
  create_table "score_table" score_table_table.

Definition add_tus_tables : DDL unit :=
  do! create_table "tus_var" (tus_var_table []);
  do! create_table "tus_data" (tus_data_table []);
  do! create_table "tus_var_vuser" (tus_var_vuser_table []);
  create_table "tus_data_vuser" (tus_data_vuser_table []).

(** [INSERT INTO score ... SELECT ... FROM table]: the keys and the data ids are unique,
    and the players exist. *)
Definition transfer_scores (com_id : string) (board_id : Z) : DDL unit := ddl (λ d,
  match df_score_tables d !! (com_id, board_id) with
  | None => inl SqliteFailure
  | Some rows =>
      let moved := (λ '((user_id, character_id), r), ((com_id, board_id, user_id, character_id), r)) <$> map_to_list rows in
      let data_ids := omap sr_data_id moved.*2 in
      if existsb (λ k : string * Z * Z * Z, bool_decide (is_Some (db_score (df_rows d) !! k))) moved.*1
      then inl (ConstraintViolation "score.communication_id")
      else if negb (bool_decide (NoDup (data_ids ++ omap sr_data_id (map_to_list (db_score (df_rows d))).*2)))
      then inl (ConstraintViolation "score.data_id")
      else if df_foreign_keys d && negb (forallb (λ k : string * Z * Z * Z, has_account (df_rows d) k.1.2) moved.*1)
      then inl (ConstraintViolation "")
      else inr (tt, d <| df_rows ::= (λ db, db <| db_score ::= union (list_to_map moved) |>) |>)
  end).

Definition drop_score_table (com_id : string) (board_id : Z) : DDL unit := ddl (λ d,
  if bool_decide (is_Some (df_score_tables d !! (com_id, board_id)))
  then inr (tt, d <| df_score_tables ::= delete (com_id, board_id) |>) else inl SqliteFailure).

Definition unify_score_tables : DDL unit :=
  do! create_table "score" (score_rows_table false);
  do score_tables <- on_rows (select (λ db, (map_to_list (db_score_table db)).*1));
  for_each (λ '(com_id, board_id), do! transfer_scores com_id board_id; drop_score_table com_id board_id) score_tables.

Definition add_foreign_key_to_tus_tables : DDL unit :=
  do! alter_table "tus_var" (tus_var_table (of_owner false));
  do! alter_table "tus_data" (tus_data_table (of_owner false));
  do! alter_table "tus_var_vuser" (tus_var_vuser_table of_author);
  alter_table "tus_data_vuser" (tus_data_vuser_table of_author).

Definition add_indexes : DDL unit :=
  do! create_index "friendship_user1" "friendship" "user_id_1";
  do! create_index "friendship_user2" "friendship" "user_id_2";
  do! create_index "score_user_id" "score" "user_id";
  do! create_index "tus_var_owner_id" "tus_var" "owner_id";
  do! create_index "tus_var_author_id" "tus_var" "author_id";
  do! create_index "tus_data_owner_id" "tus_data" "owner_id";
  do! create_index "tus_data_author_id" "tus_data" "author_id";
  do! create_index "tus_var_vuser_author_id" "tus_var_vuser" "author_id";
  create_index "tus_data_vuser_author_id" "tus_data_vuser" "author_id".

(** [UPDATE table SET communication_id = communication_id || '_00'], row by row: a key
    that is taken at that time fails the statement.  [rekey] is the new key. *)
Definition rekey_rows {K V} `{Countable K} (rekey : K → K) (m : gmap K V) : SqlError + gmap K V :=
  foldl (λ acc '(k, v),
    match acc with
    | inr m' => if bool_decide (is_Some (m' !! rekey k)) then inl (ConstraintViolation "communication_id")
                else inr (<[rekey k := v]> (delete k m'))
    | inl e => inl e
    end) (inr m) (map_to_list m).

Definition rekey_table {K V} `{Countable K} (rekey : K → K) (get : Database → gmap K V) (put : gmap K V → Database → Database) : SQL unit :=
  sql (λ db, match rekey_rows rekey (get db) with inr m => inr (tt, put m db) | inl e => inl e end).

Definition with_subid (com_id : string) : string := com_id +:+ "_00".
Definition with_subid_bytes (com_id : ComId) : ComId := (com_id ++ [95; 48; 48])%list.

(** The servers are a set: rows that are all key. *)
Definition rekey_servers : SQL unit :=
  sql (λ db, match rekey_rows (prod_map with_subid id) (set_to_map (λ k, (k, tt)) (db_servers db)) with
             | inr m => inr (tt, db <| db_servers := dom m |>)
             | inl e => inl e
             end).

Definition rekeyed_tus {K} : K * ComId * Z → K * ComId * Z := λ '(owner, com_id, slot), (owner, with_subid_bytes com_id, slot).
Definition rekeyed_score : string * Z * Z * Z → string * Z * Z * Z :=
  λ '(com_id, board, user, character), (with_subid com_id, board, user, character).

Definition update_communication_ids : DDL unit :=
  do! set_foreign_keys false;
  do! on_rows (
    do! rekey_servers;
    do! rekey_table (prod_map with_subid id) db_worlds (λ m db, db <| db_worlds := m |>);
    do! rekey_table (prod_map with_subid id) db_lobbies (λ m db, db <| db_lobbies := m |>);
    do! rekey_table (prod_map with_subid id) db_score_table (λ m db, db <| db_score_table := m |>);
    do! rekey_table rekeyed_tus db_tus_var (λ m db, db <| db_tus_var := m |>);
    do! rekey_table rekeyed_tus db_tus_data (λ m db, db <| db_tus_data := m |>);
    do! rekey_table rekeyed_tus db_tus_var_vuser (λ m db, db <| db_tus_var_vuser := m |>);
    do! rekey_table rekeyed_tus db_tus_data_vuser (λ m db, db <| db_tus_data_vuser := m |>);
    rekey_table rekeyed_score db_score (λ m db, db <| db_score := m |>));
  set_foreign_keys true.

(** [UPDATE OR REPLACE world SET world_id = world_id + 65536 WHERE world_id < 65537]: the
    new row replaces one with its key; the lobbies refer to worlds by their ids. *)
Definition WORLD_ID_SHIFT : Z := 65536.

Definition lobbies_hold (db : Database) : bool :=
  forallb (λ '((com_id, _), world_id), bool_decide (is_Some (db_worlds db !! (com_id, world_id)))) (map_to_list (db_lobbies db)).

Definition worlds_hold (db : Database) : bool :=
  forallb (λ '((com_id, _), server_id), bool_decide ((com_id, server_id) ∈ db_servers db)) (map_to_list (db_worlds db)).

Definition shift_worlds (worlds : gmap (string * Z) Z) : gmap (string * Z) Z :=
  foldl (λ m '((com_id, world_id), server_id), <[(com_id, world_id + WORLD_ID_SHIFT) := server_id]> (delete (com_id, world_id) m)) worlds
    (filter (λ '((_, world_id), _), world_id < 65537) (map_to_list worlds)).

(** A statement on the rows that is undone when it leaves a dangling reference; there was
    none before. *)
Definition checked (hold : Database → bool) (f : Database → Database) : DDL unit := ddl (λ d,
  let db := f (df_rows d) in
  if df_foreign_keys d && negb (hold db) then inl (ConstraintViolation "") else inr (tt, d <| df_rows := db |>)).

Definition world_ids_fixup : DDL unit := checked lobbies_hold (λ db, db <| db_worlds ::= shift_worlds |>).

Definition cleanup_server_ids : DDL unit :=
  do! checked lobbies_hold (λ db, db <| db_worlds ::= filter (λ '(_, server_id), server_id = 1) |>);
  checked worlds_hold (λ db, db <| db_servers ::= filter (λ '(_, server_id), server_id = 1) |>).

Definition improve_tables_for_deletion : DDL unit :=
  do! alter_table "friendship" (friendship_table true);
  do! alter_table "account_timestamp" (account_timestamp_table true);
  do! alter_table "tus_var" (tus_var_table (of_owner true));
  do! alter_table "tus_data" (tus_data_table (of_owner true));
  do! alter_table "score" (score_rows_table true);
  do! drop_index "tus_data_vuser_author_id";
  add_indexes.

Section migrations.
Context `{!External} (timestamp : Z) (email_salt username_salt : bytes).

Definition create_gdpr_hash_tables : DDL unit :=
  do! create_table "email_hash" hash_table;
  do! create_table "username_hash" hash_table;
  do! create_table "unique_blob" unique_blob_table;
  on_rows (insert_salts email_salt username_salt).

Definition prepare_for_deletion : DDL unit :=
  do! on_rows (create_deleted_user_account timestamp);
  do! create_gdpr_hash_tables;
  improve_tables_for_deletion.

(** ** The loop *)

Record MigrationData := mkMigrationData {
  mig_version : Z;
  mig_text : string;
  mig_function : DDL unit;
}.

Definition DATABASE_MIGRATIONS : list MigrationData := [
  mkMigrationData 1 "Initial setup" initial_setup;
  mkMigrationData 2 "Adding tables for TUS" add_tus_tables;
  mkMigrationData 3 "Unifying score tables" unify_score_tables;
  mkMigrationData 4 "Adding FOREIGN_KEY constraints to tus tables" add_foreign_key_to_tus_tables;
  mkMigrationData 5 "Adding indexes to tables" add_indexes;
  mkMigrationData 6 "Updating communication_id entries to show subid" update_communication_ids;
  mkMigrationData 7 "Change score rank limit's default" (on_rows change_score_rank_limit_default);
  mkMigrationData 8 "Fixup for RR7 tables" (on_rows ridge_racer_7_fixup);
  mkMigrationData 9 "Fixes WorldIDs" world_ids_fixup;
  mkMigrationData 10 "Cleanup server IDs" cleanup_server_ids;
  mkMigrationData 11 "Prepare tables for user deletion" prepare_for_deletion
].

(** [INSERT INTO migration]. *)
Definition record_migration (mig : MigrationData) : DDL unit := ddl (λ d,
  if bool_decide (is_Some (df_migrations d !! mig_version mig)) then inl (ConstraintViolation "migration.migration_id")
  else inr (tt, d <| df_migrations ::= <[mig_version mig := mig_text mig]> |>)).

(** The backup of the file may fail; nothing restores it. *)
Definition apply_migration (backup_ok : Z → bool) (mig : MigrationData) : DDL unit :=
  do! (if backup_ok (mig_version mig) then ret tt else fail SqliteFailure);
  do! mig_function mig;
  record_migration mig.

Definition apply_migrations (backup_ok : Z → bool) : DDL unit :=
  do! create_table "migration" migration_table;
  do applied_migrations <- ddl (λ d, inr (df_migrations d, d));
  for_each (λ mig, if bool_decide (is_Some (applied_migrations !! mig_version mig)) then ret tt else apply_migration backup_ok mig)
    DATABASE_MIGRATIONS.
End migrations.
