(* ===== verification/RoomCommands.v ===== *)
(** * Room requests (src/src/server/client/cmd_room.rs)

    One handler per request on rooms.  A handler reads the title and the message,
    calls the room manager under its lock, appends to the reply and notifies the
    other members.  Handlers return [Ok code] to answer and [Err code] to answer
    and disconnect.  The manager's methods of the model return messages; they are
    encoded here, where the source encodes them inside the manager. *)

From S2P Require Import ScoreCache Text Database Accounts Friendships DbScore DbTus Config DataFiles.
From S2P Require Import Prelude Protocol StreamExtractor Messages RoomData Room RoomManager GuiRoom.
From S2P Require Import GuiRoomManager GameTracker Matchmaking ClientState.

(** The codecs of the messages these handlers read and write. *)
Class RoomCodec := {
  pb_CreateJoinRoomRequest :: Message CreateJoinRoomRequest;
  pb_CreateRoomResponse :: Message CreateRoomResponse;
  pb_JoinRoomRequest :: Message JoinRoomRequest;
  pb_JoinRoomResponse :: Message JoinRoomResponse;
  pb_NotificationUserJoinedRoom :: Message NotificationUserJoinedRoom;
  pb_LeaveRoomRequest :: Message LeaveRoomRequest;
  pb_RoomMemberUpdateInfo :: Message RoomMemberUpdateInfo;
  pb_RoomUpdateInfo :: Message RoomUpdateInfo;
  pb_SearchRoomRequest :: Message SearchRoomRequest;
  pb_SearchRoomResponse :: Message SearchRoomResponse;
  pb_SearchRoomAllResponse :: Message SearchRoomAllResponse;
  pb_GetRoomDataExternalListRequest :: Message GetRoomDataExternalListRequest;
  pb_GetRoomDataExternalListResponse :: Message GetRoomDataExternalListResponse;
  pb_GetRoomMemberDataExternalListResponse :: Message GetRoomMemberDataExternalListResponse;
  pb_SetRoomDataExternalRequest :: Message SetRoomDataExternalRequest;
  pb_GetRoomDataInternalRequest :: Message GetRoomDataInternalRequest;
  pb_RoomDataInternal :: Message RoomDataInternal;
  pb_SetRoomDataInternalRequest :: Message SetRoomDataInternalRequest;
  pb_RoomDataInternalUpdateInfo :: Message RoomDataInternalUpdateInfo;
  pb_GetRoomMemberDataInternalRequest :: Message GetRoomMemberDataInternalRequest;
  pb_RoomMemberDataInternal :: Message RoomMemberDataInternal;
  pb_SetRoomMemberDataInternalRequest :: Message SetRoomMemberDataInternalRequest;
  pb_RoomMemberDataInternalUpdateInfo :: Message RoomMemberDataInternalUpdateInfo;
  pb_GetPingInfoResponse :: Message GetPingInfoResponse;
  pb_SendRoomMessageRequest :: Message SendRoomMessageRequest;
  pb_RoomMessageInfo :: Message RoomMessageInfo;
}.

(** A query of the room manager under its read lock. *)
Definition read_rooms {A} (f : RoomManager → R A) : H (R A) := on_rooms (asks f).

(** The end of a handler that only reads: the encoded answer, or the error as the
    reply code. *)
Definition reply_or_code {T} `{Message T} (r : R T) : Handler :=
  match r with
  | Ok resp => do! reply_packet (encode_to_vec resp); ret NoError
  | Err e => ret e
  | Panic => panic
  end.

(** The same where the handler propagates the error with [?]. *)
Definition reply_or_fail {T} `{Message T} (r : R T) : Handler :=
  match r with
  | Ok resp => do! reply_packet (encode_to_vec resp); ret NoError
  | Err e => fail e
  | Panic => panic
  end.

(** A room notification: the room id, what follows it, and a data packet. *)
Definition room_notification (n_type : Notif.NotificationType) (room_id : Z) (prefix data : bytes) : bytes :=
  create_notification n_type (add_data_packet (to_le_bytes 8 room_id ++ prefix) data).

Section handlers.
Context `{!HashOrder} `{!RoomCodec} (env : Env).

Definition req_create_room : Handler :=
  do (com_id, create_req) <- get_com_and_pb (T := CreateJoinRoomRequest);
  do! get_database_connection env;
  do server_id <- map_err (λ _, InvalidInput)
    (on_db (get_corresponding_server com_id (cjr_world_id create_req) (cjr_lobby_id create_req)));
  do signaling_info <- gets signaling_info_of;
  do client_info <- gets (λ cx, cl_client_info (cx_client cx));
  do resp <- on_rooms (create_room (en_psn_time env) com_id create_req client_info server_id signaling_info);
  match resp with
  | Err Malformed => fail Malformed
  | Err e => ret e
  | Ok resp => do! reply_packet (encode_to_vec resp); ret NoError
  | Panic => panic
  end.

(** One of the four notifications of a join, to its recipients. *)
Definition send_join_notification (n : Notif4) : H unit :=
  match n with
  | None => ret tt
  | Some (notification_data, user_ids) =>
      send_notification
        (create_notification Notif.UserJoinedRoom (add_data_packet [] (encode_to_vec notification_data)))
        user_ids
  end.

Definition req_join_room : Handler :=
  do (com_id, join_req) <- get_com_and_pb (T := JoinRoomRequest);
  let room_id := jr_room_id join_req in
  do rm <- gets (λ cx, sv_room_manager (cx_shared cx));
  if negb (room_exists rm com_id room_id) then ret RoomMissing
  else
    do room <- lift (get_room rm com_id room_id);
    let users := get_room_users room in
    do uid <- gets user_id;
    if existsb (λ x : Z * Z, bool_decide (x.2 = uid)) (map_to_list users) then ret RoomAlreadyJoined
    else
      do signaling_info <- gets signaling_info_of;
      do client_info <- gets (λ cx, cl_client_info (cx_client cx));
      do resp <- on_rooms (join_room (en_psn_time env) com_id join_req client_info signaling_info);
      match resp with
      | Err Malformed => fail Malformed
      | Err e => ret e
      | Panic => panic
      | Ok (response, noti) =>
          do! reply_packet (encode_to_vec response);
          do! for_each send_join_notification
                [jn_no_signaling noti; jn_local_signaling noti; jn_public_ipv4 noti; jn_public_ipv6 noti];
          ret NoError
      end.

(** The opponent of a two-player room, or of the pair already registered when the
    user is the last to leave. *)
Definition leave_opponent (cx : Ctx) (com_id : ComId) (room_id : Z) : option string :=
  match rm_rooms (sv_room_manager (cx_shared cx)) !! (com_id, room_id) with
  | None => None
  | Some room =>
      if bool_decide (size (r_users room) = 2%nat) then
        (λ x, u_npid x.2) <$> list_find (λ u : RoomUser, u_user_id u ≠ user_id cx) (btree_values (r_users room))
      else if bool_decide (size (r_users room) = 1%nat) then
        fst <$> cl_rematch_pairs (cx_client cx) !! ci_npid (cl_client_info (cx_client cx))
      else None
  end.

Definition register_rematch (my_npid opp_npid : string) : H unit :=
  on_client (λ c, c <| cl_rematch_pairs ::= <[my_npid := (opp_npid, en_instant env)]> |>
                    <| cl_rematch_pairs ::= <[opp_npid := (my_npid, en_instant env)]> |>).

(** [Client::leave_room]: the room manager's departure, the rematch pair and the
    notification of the members that remain; always returns a code. *)
Definition client_leave_room (com_id : ComId) (room_id : Z) (opt_data : option PresenceOptionData)
  (event_cause : Event.EventCause) : Handler :=
  do opponent_npid <- gets (λ cx, leave_opponent cx com_id room_id);
  do rm <- gets (λ cx, sv_room_manager (cx_shared cx));
  do uid <- gets user_id;
  if negb (room_exists rm com_id room_id) then ret RoomMissing
  else
    do room <- lift (get_room rm com_id room_id);
    match get_member_id room uid with
    | Err e => ret e
    | Panic => panic
    | Ok member_id =>
        do wip_user_data <- lift (get_room_member_update_info room member_id event_cause opt_data);
        let user_data := encode_to_vec wip_user_data in
        do res <- on_rooms (leave_room (en_rng env) com_id room_id uid);
        match res with
        | Err e => ret e
        | Panic => panic
        | Ok (destroyed, users) =>
            do my_npid <- gets (λ cx, ci_npid (cl_client_info (cx_client cx)));
            do! match opponent_npid with
                | Some opp_npid => register_rematch my_npid opp_npid
                | None => ret tt
                end;
            do! (if destroyed : bool then
                   let room_update := mkRoomUpdateInfo (new_from_value (Event.event_discr event_cause)) 0 opt_data in
                   send_notification
                     (room_notification Notif.RoomDestroyed room_id [] (encode_to_vec room_update)) users
                 else
                   send_notification (room_notification Notif.UserLeftRoom room_id [] user_data) users);
            ret NoError
        end
    end.

Definition req_leave_room : Handler :=
  do (com_id, leave_req) <- get_com_and_pb (T := LeaveRoomRequest);
  do res <- client_leave_room com_id (lr_room_id leave_req) (lr_opt_data leave_req) Event.CauseLeaveAction;
  do! extend_reply (to_le_bytes 8 (lr_room_id leave_req));
  ret res.

(** [pairs.retain(|_, (_, t)| t.elapsed().as_secs() < 15)]. *)
Definition pair_fresh (kv : string * (string * Z)) : Prop :=
  Z.max 0 (en_instant env - kv.2.2) / 1000 < 15.

Definition retain_fresh (pairs : gmap string (string * Z)) : gmap string (string * Z) :=
  filter pair_fresh pairs.

(** A room, of any title, in which the opponent is alone. *)
Definition opponent_room (rm : RoomManager) (opp_npid : string) : option Room :=
  snd <$> list_find (λ room : Room,
    size (r_users room) = 1%nat ∧ existsb (λ u, bool_decide (u_npid u = opp_npid)) (btree_values (r_users room)))
    (hash_map_values (rm_rooms rm)).

Definition req_search_room : Handler :=
  do (com_id, search_req) <- get_com_and_pb (T := SearchRoomRequest);
  do my_npid <- gets (λ cx, ci_npid (cl_client_info (cx_client cx)));
  do! on_client (λ c, c <| cl_rematch_pairs ::= retain_fresh |>);
  do opponent_npid <- gets (λ cx, fst <$> cl_rematch_pairs (cx_client cx) !! my_npid);
  let plain_search :=
    let search_req := default search_req (build_npwr02973_adjusted_request com_id search_req) in
    do resp <- read_rooms (λ rm, search_room rm com_id search_req);
    reply_or_fail resp in
  match opponent_npid with
  | None => plain_search
  | Some opp_npid =>
      do rm <- gets (λ cx, sv_room_manager (cx_shared cx));
      match opponent_room rm opp_npid with
      | Some room =>
          do inc_attrs <- lift (res_map_list get_verified (sr_attr_id search_req));
          do room_data <- lift (to_RoomDataExternal room (sr_option search_req) inc_attrs);
          do! on_client (λ c, c <| cl_rematch_pairs ::= delete my_npid |>
                                <| cl_rematch_pairs ::= delete opp_npid |>);
          do! reply_packet (encode_to_vec (mkSearchRoomResponse 1 1 [room_data]));
          ret NoError
      | None =>
          if String.ltb opp_npid my_npid then
            do! reply_packet (encode_to_vec (mkSearchRoomResponse 1 0 []));
            ret NoError
          else plain_search
      end
  end.

Definition req_search_room_all : Handler :=
  do (com_id, search_req) <- get_com_and_pb (T := SearchRoomRequest);
  do resp <- read_rooms (λ rm, search_room_all rm com_id search_req);
  reply_or_fail resp.

Definition req_get_roomdata_external_list : Handler :=
  do (com_id, getdata_req) <- get_com_and_pb (T := GetRoomDataExternalListRequest);
  do resp <- read_rooms (λ rm, get_roomdata_external_list rm com_id getdata_req);
  reply_or_fail resp.

Definition req_get_room_member_data_external_list : Handler :=
  do com_id <- get_com_id_with_redir;
  do room_id <- read_data (get_uint 8);
  do! check_data;
  do resp <- read_rooms (λ rm, get_room_member_data_external_list rm com_id room_id);
  reply_or_code resp.

Definition req_set_roomdata_external : Handler :=
  do (com_id, setdata_req) <- get_com_and_pb (T := SetRoomDataExternalRequest);
  do uid <- gets user_id;
  do res <- on_rooms (set_roomdata_external com_id setdata_req uid);
  match res with Err e => ret e | _ => ret NoError end.

Definition req_get_roomdata_internal : Handler :=
  do (com_id, getdata_req) <- get_com_and_pb (T := GetRoomDataInternalRequest);
  do resp <- read_rooms (λ rm, get_roomdata_internal rm com_id getdata_req);
  reply_or_code resp.

(** The other members are told at once, the caller after its reply. *)
Definition notify_update {T} `{Message T} (n_type : Notif.NotificationType) (room_id : Z)
  (res : R (option (gset Z * T))) : Handler :=
  match res with
  | Ok (Some (users, notif_data)) =>
      let notif := room_notification n_type room_id [] (encode_to_vec notif_data) in
      do! send_notification notif users;
      do! self_notification notif;
      ret NoError
  | Ok None => ret NoError
  | Err e => ret e
  | Panic => panic
  end.

Definition req_set_roomdata_internal : Handler :=
  do (com_id, setdata_req) <- get_com_and_pb (T := SetRoomDataInternalRequest);
  do uid <- gets user_id;
  do res <- on_rooms (set_roomdata_internal (en_psn_time env) com_id setdata_req uid);
  notify_update Notif.UpdatedRoomDataInternal (sdi_room_id setdata_req) res.

Definition req_get_roommemberdata_internal : Handler :=
  do (com_id, getdata_req) <- get_com_and_pb (T := GetRoomMemberDataInternalRequest);
  do resp <- read_rooms (λ rm, get_roommemberdata_internal rm com_id getdata_req);
  reply_or_code resp.

Definition req_set_roommemberdata_internal : Handler :=
  do (com_id, setdata_req) <- get_com_and_pb (T := SetRoomMemberDataInternalRequest);
  do uid <- gets user_id;
  do res <- on_rooms (set_roommemberdata_internal (en_psn_time env) com_id setdata_req uid);
  notify_update Notif.UpdatedRoomMemberDataInternal (smdi_room_id setdata_req) res.

Definition req_ping_room_owner : Handler :=
  do com_id <- get_com_id_with_redir;
  do room_id <- read_data (get_uint 8);
  do! check_data;
  do infos <- read_rooms (λ rm, get_room_infos rm com_id room_id);
  reply_or_code
    (res_map (λ '(server_id, world_id, _), mkGetPingInfoResponse (new_from_value server_id) world_id room_id 20000) infos).

(** The sender's fields the option bits select. *)
Definition message_sender (client_info : ClientInfo) (option : Z) : UserInfo :=
  mkUserInfo (if bool_decide (Z.land option 0x01 ≠ 0) then ci_npid client_info else "")
    (if bool_decide (Z.land option 0x02 ≠ 0) then ci_online_name client_info else "")
    (if bool_decide (Z.land option 0x04 ≠ 0) then ci_avatar_url client_info else "").

(** The users other than the sender that a cast reaches, and whether the sender is
    among the destinations; [None]: every member, [Some dst]: the members listed. *)
Definition cast_targets (users : gmap Z Z) (uid : Z) (dst : option (list Z)) : gset Z * bool :=
  let chosen := match dst with
                | None => map_to_list users
                | Some d => filter (λ x : Z * Z, x.1 ∈ d) (map_to_list users)
                end in
  (list_to_set (filter (λ u, u ≠ uid) (snd <$> chosen)), bool_decide (uid ∈ snd <$> chosen)).

Definition req_send_room_message : Handler :=
  do (com_id, msg_req) <- get_com_and_pb (T := SendRoomMessageRequest);
  let room_id := srm_room_id msg_req in
  do dst_vec <- lift (res_map_list get_verified (srm_dst msg_req));
  do rm <- gets (λ cx, sv_room_manager (cx_shared cx));
  do uid <- gets user_id;
  if negb (room_exists rm com_id room_id) then ret RoomMissing
  else
    do room <- lift (get_room rm com_id room_id);
    match get_member_id room uid with
    | Err _ => ret Unauthorized
    | Panic => panic
    | Ok member_id =>
        let users := get_room_users room in
        do cast_type <- lift (get_verified (srm_cast_type msg_req));
        do option <- lift (get_verified (srm_option msg_req));
        do client_info <- gets (λ cx, cl_client_info (cx_client cx));
        let resp := mkRoomMessageInfo false (new_from_value cast_type) (srm_dst msg_req)
                      (Some (message_sender client_info option)) (srm_msg msg_req) in
        let notif := room_notification Notif.RoomMessageReceived room_id (to_le_bytes 2 member_id)
                       (encode_to_vec resp) in
        if bool_decide (cast_type = 1) then
          do! send_notification notif (cast_targets users uid None).1;
          do! self_notification notif;
          ret NoError
        else if bool_decide (cast_type = 2) || bool_decide (cast_type = 3) then
          let '(user_ids, found_self) := cast_targets users uid (Some dst_vec) in
          do! send_notification notif user_ids;
          do! (if found_self : bool then self_notification notif else ret tt);
          ret NoError
        else if bool_decide (cast_type = 4) then ret Unsupported
        else fail InvalidInput
    end.
End handlers.
