(* ===== verification/GuiCommands.v ===== *)
(** * Lobby room requests (src/src/server/client/cmd_room_gui.rs)

    The handlers of the older lobby interface, over [GuiRoomManager]. *)

From S2P Require Import ScoreCache Text Database Accounts Friendships DbScore DbTus Config DataFiles.
From S2P Require Import Prelude Protocol StreamExtractor Messages RoomData Room RoomManager GuiRoom.
From S2P Require Import GuiRoomManager GameTracker ClientState RoomCommands.

Class GuiCodec := {
  pb_CreateRoomGuiRequest :: Message CreateRoomGuiRequest;
  pb_MatchingRoomStatus :: Message MatchingRoomStatus;
  pb_MatchingGuiRoomId :: Message MatchingGuiRoomId;
  pb_GetRoomListGuiRequest :: Message GetRoomListGuiRequest;
  pb_MatchingRoomList :: Message MatchingRoomList;
  pb_SetRoomSearchFlagGui :: Message SetRoomSearchFlagGui;
  pb_MatchingRoom :: Message MatchingRoom;
  pb_QuickMatchGuiRequest :: Message QuickMatchGuiRequest;
  pb_SearchJoinRoomGuiRequest :: Message SearchJoinRoomGuiRequest;
  pb_MatchingSearchJoinRoomInfo :: Message MatchingSearchJoinRoomInfo;
}.

Definition read_gui {A} (f : GuiRoomManager → R A) : H (R A) := on_gui (asks f).

(** The status of a lobby room as a notification. *)
Definition gui_notification `{GuiCodec} (n_type : Notif.NotificationType) (status : MatchingRoomStatus) : bytes :=
  create_notification n_type (add_data_packet [] (encode_to_vec status)).

(** [Ok(()) => Ok(NoError), Err(e) => Ok(e)]. *)
Definition code_of (r : R unit) : Handler :=
  match r with Ok _ => ret NoError | Err e => ret e | Panic => panic end.

Section handlers.
Context `{!HashOrder} `{!GuiCodec} (env : Env).

Definition caller : H ClientInfo := gets (λ cx, cl_client_info (cx_client cx)).

Definition req_create_room_gui : Handler :=
  do (com_id, create_req) <- get_com_and_pb (T := CreateRoomGuiRequest);
  do client_info <- caller;
  do res <- on_gui (create_room_gui com_id create_req client_info);
  do resp <- lift res;
  do! reply_packet (encode_to_vec resp);
  ret NoError.

(** The members that were in the room are told, then the joiner is answered. *)
Definition reply_joined {T} `{Message T} (res : R (T * gset Z * MatchingRoomStatus)) : Handler :=
  match res with
  | Ok (resp, notif_users, notif_data) =>
      do! send_notification (gui_notification Notif.MemberJoinedRoomGUI notif_data) notif_users;
      do! reply_packet (encode_to_vec resp);
      ret NoError
  | Err e => ret e
  | Panic => panic
  end.

Definition req_join_room_gui : Handler :=
  do join_req <- read_pb (T := MatchingGuiRoomId);
  do room_id <- lift (pb_vec_to_room_id (mgri_id join_req));
  do client_info <- caller;
  do res <- on_gui (join_room_gui room_id client_info);
  reply_joined res.

(** [Client::leave_room_gui]. *)
Definition client_leave_room_gui (room_id : GuiRoomId) : H (R bytes) :=
  do client_info <- caller;
  do res <- on_gui (leave_room_gui (en_rng env) room_id client_info);
  match res with
  | Err e => ret (Err e)
  | Panic => panic
  | Ok (resp, notif_ids, notifs) =>
      do! for_each (λ '(notif_type, notif_data),
            send_notification (gui_notification notif_type notif_data) notif_ids) notifs;
      ret (Ok (encode_to_vec resp))
  end.

Definition req_leave_room_gui : Handler :=
  do leave_req <- read_pb (T := MatchingGuiRoomId);
  do room_id <- lift (pb_vec_to_room_id (mgri_id leave_req));
  do res <- client_leave_room_gui room_id;
  match res with
  | Ok data => do! reply_packet data; ret NoError
  | Err e => ret e
  | Panic => panic
  end.

Definition req_get_room_list_gui : Handler :=
  do (com_id, search_req) <- get_com_and_pb (T := GetRoomListGuiRequest);
  do res <- read_gui (λ m, get_room_list_gui m com_id search_req);
  do resp <- lift res;
  do! reply_packet (encode_to_vec resp);
  ret NoError.

Definition req_set_room_search_flag_gui : Handler :=
  do set_req <- read_pb (T := SetRoomSearchFlagGui);
  do room_id <- lift (pb_vec_to_room_id (srsf_roomid set_req));
  do uid <- gets user_id;
  do res <- on_gui (set_search_flag room_id (srsf_stealth set_req) uid);
  code_of res.

Definition req_get_room_search_flag_gui : Handler :=
  do get_req <- read_pb (T := MatchingGuiRoomId);
  do room_id <- lift (pb_vec_to_room_id (mgri_id get_req));
  do res <- read_gui (λ m, get_search_flag m room_id);
  reply_or_code res.

Definition req_set_room_info_gui : Handler :=
  do set_req <- read_pb (T := MatchingRoom);
  do room_id <- lift (pb_vec_to_room_id (mr_id set_req));
  do uid <- gets user_id;
  do res <- on_gui (set_room_info_gui room_id (mr_attr set_req) uid);
  code_of res.

Definition req_get_room_info_gui : Handler :=
  do get_req <- read_pb (T := MatchingRoom);
  do room_id <- lift (pb_vec_to_room_id (mr_id get_req));
  do res <- read_gui (λ m, get_room_info_gui m room_id (mr_attr get_req));
  reply_or_code res.

Definition req_quickmatch_gui : Handler :=
  do (com_id, qm_req) <- get_com_and_pb (T := QuickMatchGuiRequest);
  do client_info <- caller;
  do res <- on_gui (quickmatch_gui com_id qm_req client_info);
  do (resp, notif) <- lift res;
  do! match notif with
      | Some (client_ids, notification) =>
          let notif_vec := gui_notification Notif.QuickMatchCompleteGUI notification in
          do! send_notification notif_vec client_ids;
          self_notification notif_vec
      | None => ret tt
      end;
  do! reply_packet (encode_to_vec resp);
  ret NoError.

Definition req_searchjoin_gui : Handler :=
  do (com_id, sj_req) <- get_com_and_pb (T := SearchJoinRoomGuiRequest);
  do client_info <- caller;
  do res <- on_gui (search_join_gui com_id sj_req client_info);
  reply_joined res.
End handlers.
