(* ===== verification/TusCommands.v ===== *)
(** * Requests on title user storage (src/src/server/client/cmd_tus.rs) *)

From S2P Require Import Prelude Protocol StreamExtractor Messages StorageMessages ScoreCache Database Accounts.
From S2P Require Import Friendships DbTus Config DataFiles ClientState.

(** The codecs of the messages these handlers read and write. *)
Class TusCodec := {
  pb_TusSetMultiSlotVariableRequest :: Message TusSetMultiSlotVariableRequest;
  pb_TusGetMultiSlotVariableRequest :: Message TusGetMultiSlotVariableRequest;
  pb_TusGetMultiUserVariableRequest :: Message TusGetMultiUserVariableRequest;
  pb_TusGetFriendsVariableRequest :: Message TusGetFriendsVariableRequest;
  pb_TusAddAndGetVariableRequest :: Message TusAddAndGetVariableRequest;
  pb_TusTryAndSetVariableRequest :: Message TusTryAndSetVariableRequest;
  pb_TusDeleteMultiSlotVariableRequest :: Message TusDeleteMultiSlotVariableRequest;
  pb_TusSetDataRequest :: Message TusSetDataRequest;
  pb_TusGetDataRequest :: Message TusGetDataRequest;
  pb_TusGetMultiSlotDataStatusRequest :: Message TusGetMultiSlotDataStatusRequest;
  pb_TusGetMultiUserDataStatusRequest :: Message TusGetMultiUserDataStatusRequest;
  pb_TusGetFriendsDataStatusRequest :: Message TusGetFriendsDataStatusRequest;
  pb_TusDeleteMultiSlotDataRequest :: Message TusDeleteMultiSlotDataRequest;
  pb_TusVariable :: Message TusVariable;
  pb_TusVarResponse :: Message TusVarResponse;
  pb_TusData :: Message TusData;
  pb_TusDataStatusResponse :: Message TusDataStatusResponse;
}.

Definition SCE_NP_TUS_DATA_INFO_MAX_SIZE : nat := 387.
Definition UNDOCUMENTED_TUS_DATA_MAX_SIZE : nat := Z.to_nat (1024 * 1024).

(** ** Shared steps *)

(** The user of the request, with a name. *)
Definition required_user (user : option TusUser) : H TusUser :=
  do user <- lift (ok_or Malformed user);
  if bool_decide (tu_npid user = ""%string) then fail Malformed else ret user.

(** [match db.get_user_id(npid)] with the two early returns. *)
Definition lookup_user (npid : string) : M Ctx Exit Z :=
  do found <- attempt (on_db (get_user_id npid));
  match found with
  | Ok id => ret id
  | Err DbEmpty => fail (Ok NotFound)
  | _ => fail (Err DbFail)
  end.

(** The id of the named user, who has to be the caller. *)
Definition own_user (npid : string) : M Ctx Exit Z :=
  do uid <- lookup_user npid;
  do self <- gets user_id;
  if bool_decide (uid ≠ self) then fail (Ok Unauthorized) else ret uid.

(** A repeated field used as an option: empty or one value. *)
Definition at_most_one (values : list Z) : H (option Z) :=
  match values with
  | [] => ret None
  | [v] => ret (Some v)
  | _ => fail Malformed
  end.

Definition author_name (author_id : Z) : H string := map_err (λ _, DbFail) (on_db (get_username author_id)).

(** [get_username_with_helper]. *)
Definition get_username_with_helper (user_id : Z) (helper_list : gmap Z string) : H string :=
  match helper_list !! user_id with
  | Some npid => ret npid
  | None => author_name user_id
  end.

(** The variable as it is sent, and the one of an empty slot. *)
Definition tus_variable (owner author : string) (var : DbTusVarInfo) : TusVariable :=
  mkTusVariable owner true (vi_timestamp var) author (vi_variable var) (vi_variable var).

Definition no_variable (owner : string) : TusVariable := mkTusVariable owner false 0 "" 0 0.

Definition final_variable (slot : string * option DbTusVarInfo) : H TusVariable :=
  let '(npid, var) := slot in
  match var with
  | Some var => do author <- author_name (vi_author_id var); ret (tus_variable npid author var)
  | None => ret (no_variable npid)
  end.

Definition tus_status (owner author : string) (status : DbTusDataStatus) (info : bytes) : TusDataStatus :=
  mkTusDataStatus owner true (ds_timestamp status) author info.

Definition no_status (owner : string) : TusDataStatus := mkTusDataStatus owner false 0 "" [].

Definition final_status (slot : string * option (DbTusDataStatus * bytes)) : H TusDataStatus :=
  let '(npid, status) := slot in
  match status with
  | Some (status, info) => do author <- author_name (ds_author_id status); ret (tus_status npid author status info)
  | None => ret (no_status npid)
  end.

(** A variable that was read: an empty slot is not an error. *)
Definition read_variable {E} (db_fail : E) (m : DB DbTusVarInfo) : M Ctx E (option DbTusVarInfo) :=
  do found <- attempt (on_db m);
  match found with
  | Ok var => ret (Some var)
  | Err DbEmpty => ret None
  | _ => fail db_fail
  end.

(** [.ok()]: any error is an empty slot. *)
Definition read_status {E} (m : DB (DbTusDataStatus * bytes)) : M Ctx E (option (DbTusDataStatus * bytes)) :=
  do found <- attempt (on_db m);
  ret (match found with Ok status => Some status | _ => None end).

(** The caller's friends, and the caller on request. *)
Definition friend_list (include_self : bool) : H (gmap Z string) :=
  do cx <- gets (λ cx, cx);
  do friends <- lift (unwrap (cs_friends <$> sv_client_infos (cx_shared cx) !! user_id cx));
  ret (if include_self then <[user_id cx := ci_npid (cl_client_info (cx_client cx))]> friends else friends).

Section handlers.
Context `{!HashOrder} `{!External} `{!TusCodec} (env : Env).

(** ** Variables *)

Definition tus_set_multislot_variable : Handler :=
  do (com_id, tus_req) <- get_com_and_pb (T := TusSetMultiSlotVariableRequest);
  do user <- required_user (tsm_user tus_req);
  let npid := tu_npid user in
  if bool_decide (length (tsm_slot_id_array tus_req) ≠ length (tsm_variable_array tus_req)) then fail Malformed
  else
    do! get_database_connection env;
    do self <- gets user_id;
    let slots := combine (tsm_slot_id_array tus_req) (tsm_variable_array tus_req) in
    if tu_vuser user then
      do! for_each (λ '(slot, value),
        do _ <- attempt (on_db (tus_set_vuser_variable com_id npid slot value self (en_psn_time env))); ret tt) slots;
      ret NoError
    else
      with_exits (own_user npid) (λ user_id,
        do! for_each (λ '(slot, value),
          do _ <- attempt (on_db (tus_set_user_variable com_id user_id slot value self (en_psn_time env))); ret tt) slots;
        ret NoError).

Definition tus_get_multislot_variable : Handler :=
  do (com_id, tus_req) <- get_com_and_pb (T := TusGetMultiSlotVariableRequest);
  do user <- required_user (tgm_user tus_req);
  let npid := tu_npid user in
  do! get_database_connection env;
  let finish vec_vars :=
    do final_vars <- map_each final_variable ((λ var, (npid, var)) <$> vec_vars);
    do! reply_packet (encode_to_vec (mkTusVarResponse final_vars));
    ret NoError in
  if tu_vuser user then
    do vec_vars <- map_each (λ slot, read_variable DbFail (tus_get_vuser_variable com_id npid slot))
      (tgm_slot_id_array tus_req);
    finish vec_vars
  else
    with_exits (lookup_user npid) (λ user_id,
      do vec_vars <- map_each (λ slot, read_variable DbFail (tus_get_user_variable com_id user_id slot))
        (tgm_slot_id_array tus_req);
      finish vec_vars).

Definition tus_get_multiuser_variable : Handler :=
  do (com_id, tus_req) <- get_com_and_pb (T := TusGetMultiUserVariableRequest);
  if existsb (λ user, bool_decide (tu_npid user = ""%string)) (tgu_users tus_req) then fail Malformed
  else
    let slot := tgu_slot_id tus_req in
    do! get_database_connection env;
    with_exits (map_each (λ user,
      let npid := tu_npid user in
      do var <- (if tu_vuser user then read_variable (Err DbFail) (tus_get_vuser_variable com_id npid slot)
                 else do user_id <- lookup_user npid;
                      read_variable (Err DbFail) (tus_get_user_variable com_id user_id slot));
      ret (npid, var)) (tgu_users tus_req))
    (λ vec_vars,
      do final_vars <- map_each final_variable vec_vars;
      do! reply_packet (encode_to_vec (mkTusVarResponse final_vars));
      ret NoError).

Definition tus_get_friends_variable : Handler :=
  do (com_id, tus_req) <- get_com_and_pb (T := TusGetFriendsVariableRequest);
  do sorting <- lift (ok_or Malformed (TusSorting_from_i32 (tgf_sort_type tus_req)));
  do user_list <- friend_list (tgf_include_self tus_req);
  do final_vars <- (if bool_decide (user_list = ∅) then ret []
    else
      do! get_database_connection env;
      do vec_vars <- map_err (λ _, DbFail) (on_db (tus_get_user_variable_from_user_list com_id
        (hash_iter (dom user_list)) (tgf_slot_id tus_req) sorting (tgf_array_num tus_req)));
      map_each (λ '(user_id, var),
        do author <- get_username_with_helper (vi_author_id var) user_list;
        do owner <- lift (unwrap (user_list !! user_id));
        ret (tus_variable owner author var)) vec_vars);
  do! reply_packet (encode_to_vec (mkTusVarResponse final_vars));
  ret NoError.

(** The user a condition on the last author names: an unknown name is no condition. *)
Definition compare_author_id (author_str : string) : H (option Z) :=
  if bool_decide (author_str = ""%string) then ret None
  else
    do found <- attempt (on_db (get_user_id author_str));
    match found with
    | Ok id => ret (Some id)
    | Err DbEmpty => ret None
    | _ => fail DbFail
    end.

(** The reply to a request that changes one variable. *)
Definition reply_variable (npid : string) (var : DbTusVarInfo) : Handler :=
  do author <- author_name (vi_author_id var);
  do! reply_packet (encode_to_vec (tus_variable npid author var));
  ret NoError.

Definition tus_add_and_get_variable : Handler :=
  do (com_id, tus_req) <- get_com_and_pb (T := TusAddAndGetVariableRequest);
  do user <- required_user (tag_user tus_req);
  let npid := tu_npid user in
  let slot := tag_slot_id tus_req in
  let to_add := tag_in_variable tus_req in
  do author_id <- gets user_id;
  do compare_timestamp <- at_most_one (tag_is_last_changed_date tus_req);
  do! get_database_connection env;
  do compare_author <- compare_author_id (tag_is_last_changed_author_id tus_req);
  if tu_vuser user then
    do var <- map_err (λ _, DbFail) (on_db (tus_add_and_get_vuser_variable com_id npid slot to_add author_id
      (en_psn_time env) compare_timestamp compare_author));
    reply_variable npid var
  else
    with_exits (own_user npid) (λ user_id,
      do var <- map_err (λ _, DbFail) (on_db (tus_add_and_get_user_variable com_id user_id slot to_add author_id
        (en_psn_time env) compare_timestamp compare_author));
      reply_variable npid var).

Definition tus_try_and_set_variable : Handler :=
  do (com_id, tus_req) <- get_com_and_pb (T := TusTryAndSetVariableRequest);
  do user <- required_user (tts_user tus_req);
  let npid := tu_npid user in
  let slot := tts_slot_id tus_req in
  do op_type <- lift (ok_or Malformed (TusOpeType_from_i32 (tts_ope_type tus_req)));
  let to_set := tts_variable tus_req in
  do compare_value <- at_most_one (tts_compare_value tus_req);
  let compare_value := default to_set compare_value in
  do compare_timestamp <- at_most_one (tts_is_last_changed_date tus_req);
  do author_id <- gets user_id;
  do! get_database_connection env;
  do compare_author <- compare_author_id (tts_is_last_changed_author_id tus_req);
  if tu_vuser user then
    do var <- map_err (λ _, DbFail) (on_db (tus_try_and_set_vuser_variable com_id npid slot to_set author_id
      (en_psn_time env) compare_value op_type compare_timestamp compare_author));
    reply_variable npid var
  else
    with_exits (own_user npid) (λ user_id,
      do var <- map_err (λ _, DbFail) (on_db (tus_try_and_set_user_variable com_id user_id slot to_set author_id
        (en_psn_time env) compare_value op_type compare_timestamp compare_author));
      reply_variable npid var).

Definition tus_delete_multislot_variable : Handler :=
  do (com_id, tus_req) <- get_com_and_pb (T := TusDeleteMultiSlotVariableRequest);
  do user <- lift (ok_or Malformed (tdm_user tus_req));
  let npid := tu_npid user in
  if bool_decide (tdm_slot_id_array tus_req = []) then fail Malformed
  else if bool_decide (npid = ""%string) then fail Malformed
  else
    do! get_database_connection env;
    if tu_vuser user then
      do! map_err (λ _, DbFail) (on_db (tus_delete_vuser_variable_with_slotlist com_id npid (tdm_slot_id_array tus_req)));
      ret NoError
    else
      with_exits (own_user npid) (λ user_id,
        do! map_err (λ _, DbFail)
          (on_db (tus_delete_user_variable_with_slotlist com_id user_id (tdm_slot_id_array tus_req)));
        ret NoError).

(** ** Data *)

(** The code of a request whose conditions already fail. *)
Definition preliminary_set_tus_data_check (f : DB (option (Z * Z))) (compare_timestamp compare_author_id : option Z) :
  H (option Exit) :=
  if bool_decide (is_Some compare_timestamp) || bool_decide (is_Some compare_author_id) then
    do found <- attempt (on_db f);
    match found with
    | Err DbInternal => ret (Some (Err DbFail))
    | Err _ => panic
    | Ok (Some (db_timestamp, db_author_id)) =>
        if from_option (λ c, bool_decide (c < db_timestamp)) false compare_timestamp then ret (Some (Ok CondFail))
        else if from_option (λ c, bool_decide (c ≠ db_author_id)) false compare_author_id then ret (Some (Ok CondFail))
        else ret None
    | _ => ret None
    end
  else ret None.

(** The check, the file and the row; a file that did not make it into the table is
    deleted again. *)
Definition store_data (check : DB (option (Z * Z))) (compare_timestamp compare_author_id : option Z) (data : bytes)
  (set_row : Z → DB unit) : Handler :=
  do ret_value <- preliminary_set_tus_data_check check compare_timestamp compare_author_id;
  match ret_value with
  | Some ret_value => lift ret_value
  | None =>
      do data_id <- on_tus_dir (create_data_file TUS_FILE_EXTENSION (en_file env) data);
      do res <- attempt (on_db (set_row data_id));
      match res with
      | Ok _ => ret NoError
      | Err DbEmpty =>
          do! on_tus_dir (modify (delete_data_file TUS_FILE_EXTENSION data_id));
          ret CondFail
      | _ => fail DbFail
      end
  end.

Definition tus_set_data : Handler :=
  do (com_id, tus_req) <- get_com_and_pb (T := TusSetDataRequest);
  do user <- required_user (tsd_user tus_req);
  let npid := tu_npid user in
  if bool_decide (tsd_data tus_req = []) then fail Malformed
  else if bool_decide (SCE_NP_TUS_DATA_INFO_MAX_SIZE < length (tsd_info tus_req))%nat then fail Malformed
  else if bool_decide (UNDOCUMENTED_TUS_DATA_MAX_SIZE < length (tsd_data tus_req))%nat then fail Malformed
  else
    do compare_timestamp <- at_most_one (tsd_is_last_changed_date tus_req);
    let author_str := tsd_is_last_changed_author_id tus_req in
    let slot := tsd_slot_id tus_req in
    let info := if bool_decide (tsd_info tus_req = []) then None else Some (tsd_info tus_req) in
    do! get_database_connection env;
    do self <- gets user_id;
    with_exits
      (if bool_decide (author_str = ""%string) then ret None
       else
         do found <- attempt (on_db (get_user_id author_str));
         match found with
         | Ok id => ret (Some id)
         | Err DbEmpty => fail (Ok CondFail)
         | _ => fail (Err DbFail)
         end)
      (λ compare_author_id,
        if tu_vuser user then
          store_data (tus_get_vuser_data_timestamp_and_author com_id npid slot) compare_timestamp compare_author_id
            (tsd_data tus_req) (λ data_id,
              tus_set_vuser_data com_id npid slot data_id info self (en_psn_time env) compare_timestamp compare_author_id)
        else
          with_exits (own_user npid) (λ user_id,
            store_data (tus_get_user_data_timestamp_and_author com_id user_id slot) compare_timestamp compare_author_id
              (tsd_data tus_req) (λ data_id,
                tus_set_user_data com_id user_id slot data_id info user_id (en_psn_time env)
                  compare_timestamp compare_author_id))).

(** The data of a slot and its status. *)
Definition reply_data (npid : string) (res : res DbError (DbTusDataStatus * bytes)) : Handler :=
  let reply status data :=
    do! reply_packet (encode_to_vec (mkTusData (Some status) data));
    ret NoError in
  match res with
  | Ok (status, info) =>
      do data <- map_err (λ _, DbFail) (asks (λ cx,
        get_data_file TUS_FILE_EXTENSION (en_read_ok env) (ds_data_id status) (sv_tus_dir (cx_shared cx))));
      do author <- author_name (ds_author_id status);
      reply (tus_status npid author status info) data
  | Err DbEmpty => reply (no_status npid) []
  | _ => fail DbFail
  end.

Definition tus_get_data : Handler :=
  do (com_id, tus_req) <- get_com_and_pb (T := TusGetDataRequest);
  do user <- required_user (tgd_user tus_req);
  let npid := tu_npid user in
  let slot := tgd_slot_id tus_req in
  do! get_database_connection env;
  if tu_vuser user then
    do res <- attempt (on_db (tus_get_vuser_data com_id npid slot));
    reply_data npid res
  else
    with_exits (lookup_user npid) (λ user_id,
      do res <- attempt (on_db (tus_get_user_data com_id user_id slot));
      reply_data npid res).

Definition tus_get_multislot_data_status : Handler :=
  do (com_id, tus_req) <- get_com_and_pb (T := TusGetMultiSlotDataStatusRequest);
  do user <- required_user (tgms_user tus_req);
  let npid := tu_npid user in
  do! get_database_connection env;
  let finish vec_status :=
    do vec_list_status <- map_each final_status ((λ status, (npid, status)) <$> vec_status);
    do! reply_packet (encode_to_vec (mkTusDataStatusResponse vec_list_status));
    ret NoError in
  if tu_vuser user then
    do vec_status <- map_each (λ slot, read_status (tus_get_vuser_data com_id npid slot)) (tgms_slot_id_array tus_req);
    finish vec_status
  else
    with_exits (lookup_user npid) (λ user_id,
      do vec_status <- map_each (λ slot, read_status (tus_get_user_data com_id user_id slot)) (tgms_slot_id_array tus_req);
      finish vec_status).

Definition tus_get_multiuser_data_status : Handler :=
  do (com_id, tus_req) <- get_com_and_pb (T := TusGetMultiUserDataStatusRequest);
  let slot := tgus_slot_id tus_req in
  if bool_decide (tgus_users tus_req = []) then fail Malformed
  else if existsb (λ user, bool_decide (tu_npid user = ""%string)) (tgus_users tus_req) then fail Malformed
  else
    do! get_database_connection env;
    with_exits (map_each (λ user,
      let npid := tu_npid user in
      do status <- (if tu_vuser user then read_status (tus_get_vuser_data com_id npid slot)
                    else do user_id <- lookup_user npid; read_status (tus_get_user_data com_id user_id slot));
      ret (npid, status)) (tgus_users tus_req))
    (λ vec_status,
      do vec_list_status <- map_each final_status vec_status;
      do! reply_packet (encode_to_vec (mkTusDataStatusResponse vec_list_status));
      ret NoError).

Definition tus_get_friends_data_status : Handler :=
  do (com_id, tus_req) <- get_com_and_pb (T := TusGetFriendsDataStatusRequest);
  do sorting <- lift (ok_or Malformed (TusStatusSorting_from_i32 (tgfs_sort_type tus_req)));
  do user_list <- friend_list (tgfs_include_self tus_req);
  do final_infos <- (if bool_decide (user_list = ∅) then ret []
    else
      do! get_database_connection env;
      do vec_vars <- map_err (λ _, DbFail) (on_db (tus_get_user_data_from_user_list com_id
        (hash_iter (dom user_list)) (tgfs_slot_id tus_req) sorting (tgfs_array_num tus_req)));
      map_each (λ '(user_id, status, info),
        do author <- get_username_with_helper (ds_author_id status) user_list;
        do owner <- lift (unwrap (user_list !! user_id));
        ret (tus_status owner author status info)) vec_vars);
  do! reply_packet (encode_to_vec (mkTusDataStatusResponse final_infos));
  ret NoError.

Definition tus_delete_multislot_data : Handler :=
  do (com_id, tus_req) <- get_com_and_pb (T := TusDeleteMultiSlotDataRequest);
  do user <- required_user (tdmd_user tus_req);
  let npid := tu_npid user in
  if bool_decide (tdmd_slot_id_array tus_req = []) then fail Malformed
  else
    do! get_database_connection env;
    if tu_vuser user then
      do! map_err (λ _, DbFail) (on_db (tus_delete_vuser_data_with_slotlist com_id npid (tdmd_slot_id_array tus_req)));
      ret NoError
    else
      with_exits (own_user npid) (λ user_id,
        do! map_err (λ _, DbFail) (on_db (tus_delete_user_data_with_slotlist com_id user_id (tdmd_slot_id_array tus_req)));
        ret NoError).
End handlers.
