(* ===== verification/ScoreCommands.v ===== *)
(** * Requests on scores (src/src/server/client/cmd_score.rs) *)

From S2P Require Import Prelude Protocol StreamExtractor Messages StorageMessages ScoreCache Database Accounts.
From S2P Require Import DbScore Config DataFiles ClientState.

(** The codecs of the messages these handlers read and write. *)
Class ScoreCodec := {
  pb_BoardInfo :: Message BoardInfo;
  pb_RecordScoreRequest :: Message RecordScoreRequest;
  pb_RecordScoreGameDataRequest :: Message RecordScoreGameDataRequest;
  pb_GetScoreGameDataRequest :: Message GetScoreGameDataRequest;
  pb_GetScoreRangeRequest :: Message GetScoreRangeRequest;
  pb_GetScoreFriendsRequest :: Message GetScoreFriendsRequest;
  pb_GetScoreNpIdRequest :: Message GetScoreNpIdRequest;
  pb_GetScoreResponse :: Message GetScoreResponse;
}.

Section handlers.
Context `{!HashOrder} `{!External} `{!ScoreCodec} (env : Env).

Definition create_missing : H bool := gets (λ cx, is_create_missing (sv_config (cx_shared cx))).

Definition client_get_board_infos : Handler :=
  do com_id <- get_com_id_with_redir;
  do board_id <- read_data (get_uint 4);
  do! check_data;
  do! get_database_connection env;
  do create <- create_missing;
  do res <- attempt (on_db (db_get_board_infos com_id board_id create));
  match res with
  | Err DbEmpty => ret NotFound
  | Ok res =>
      do! reply_packet (encode_to_vec (mkBoardInfo (bi_rank_limit res) (bi_update_mode res) (bi_sort_mode res)
            (bi_upload_num_limit res) (bi_upload_size_limit res)));
      ret NoError
  | _ => fail DbFail
  end.

(** The score of a request, by the caller. *)
Definition score_of_request (self : Z) (req : RecordScoreRequest) : DbScoreInfo :=
  mkDbScoreInfo self (rsr_pc_id req) (rsr_score req)
    (if bool_decide (rsr_comment req = ""%string) then None else Some (rsr_comment req))
    (if bool_decide (rsr_data req = []) then None else Some (rsr_data req)) None (en_psn_time env).

Definition client_record_score : Handler :=
  do (com_id, score_req) <- get_com_and_pb (T := RecordScoreRequest);
  do info <- gets (λ cx, cl_client_info (cx_client cx));
  let score_infos := score_of_request (ci_user_id info) score_req in
  do! get_database_connection env;
  do create <- create_missing;
  do res <- attempt (on_db (db_record_score com_id (rsr_board_id score_req) score_infos create));
  match res with
  | Ok board_infos =>
      do pos <- on_scores (insert_score (en_psn_time env) board_infos com_id (rsr_board_id score_req) score_infos
        (ci_npid info) (ci_online_name info));
      do! extend_reply (to_le_bytes 4 pos);
      ret NoError
  | Err DbScoreNotBest => ret ScoreNotBest
  | Err DbInternal => ret DbFail
  | _ => panic
  end.

Definition client_record_score_data : Handler :=
  do com_id <- get_com_id_with_redir;
  do score_req <- read_data (get_protobuf (T := RecordScoreGameDataRequest) decode_message);
  do score_data <- read_data get_rawdata;
  do! check_data;
  do score_req <- lift (ok_or Malformed score_req);
  do self <- gets user_id;
  do found <- attempt (on_scores (contains_score_with_no_data com_id self (rsg_pc_id score_req) (rsg_board_id score_req)
    (rsg_score score_req)));
  match found with
  | Err e => ret e
  | _ =>
      do score_data_id <- on_score_dir (create_score_data_file (en_file env) score_data);
      do cached <- attempt (on_scores (set_game_data com_id self (rsg_pc_id score_req) (rsg_board_id score_req) score_data_id));
      match cached with
      | Err e => do! on_score_dir (modify (delete_score_data score_data_id)); ret e
      | _ =>
          do! get_database_connection env;
          do _ <- attempt (on_db (set_score_data com_id self (rsg_pc_id score_req) (rsg_board_id score_req)
            (rsg_score score_req) score_data_id));
          ret NoError
      end
  end.

Definition client_get_score_data : Handler :=
  do (com_id, score_req) <- get_com_and_pb (T := GetScoreGameDataRequest);
  if bool_decide (gsg_np_id score_req = ""%string) then fail Malformed
  else
    do! get_database_connection env;
    do found <- attempt (on_db (get_user_id (gsg_np_id score_req)));
    match found with
    | Ok uid =>
        do data_id <- attempt (on_scores (get_game_data_id com_id uid (gsg_pc_id score_req) (gsg_board_id score_req)));
        match data_id with
        | Ok data_id =>
            do dir <- gets (λ cx, sv_score_dir (cx_shared cx));
            match get_score_data_file (en_read_ok env) data_id dir with
            | Ok data => do! reply_packet data; ret NoError
            | Err e => ret e
            | Panic => panic
            end
        | Err e => ret e
        | Panic => panic
        end
    | _ => ret NotFound
    end.

Definition reply_scores (r : GetScoreResultCache) : Handler :=
  do! reply_packet (encode_to_vec (serialize r));
  ret NoError.

Definition client_get_score_range : Handler :=
  do (com_id, score_req) <- get_com_and_pb (T := GetScoreRangeRequest);
  do getscore_result <- on_scores (get_score_range com_id (gsra_board_id score_req) (gsra_start_rank score_req)
    (gsra_num_ranks score_req) (gsra_with_comment score_req) (gsra_with_game_info score_req));
  reply_scores getscore_result.

(** The caller first, then the friends in the order of their map, cut to the size that
    was asked for. *)
Definition client_get_score_friends : Handler :=
  do (com_id, score_req) <- get_com_and_pb (T := GetScoreFriendsRequest);
  do cx <- gets (λ cx, cx);
  do friends <- lift (unwrap (cs_friends <$> sv_client_infos (cx_shared cx) !! user_id cx));
  let id_vec := (if gsf_include_self score_req then [(user_id cx, 0)] else [])
                ++ ((λ uid, (uid, 0)) <$> hash_iter (dom friends)) in
  do getscore_result <- on_scores (get_score_ids com_id (gsf_board_id score_req)
    (take (Z.to_nat (gsf_max score_req)) id_vec) (gsf_with_comment score_req) (gsf_with_game_info score_req));
  reply_scores getscore_result.

(** An unknown name is looked up as user 0. *)
Definition client_get_score_npid : Handler :=
  do (com_id, score_req) <- get_com_and_pb (T := GetScoreNpIdRequest);
  do! get_database_connection env;
  do id_vec <- map_each (λ n,
    do found <- attempt (on_db (get_user_id (snp_npid n)));
    ret (match found with Ok uid => uid | _ => 0 end, snp_pc_id n)) (gsn_npids score_req);
  do getscore_result <- on_scores (get_score_ids com_id (gsn_board_id score_req) id_vec
    (gsn_with_comment score_req) (gsn_with_game_info score_req));
  reply_scores getscore_result.
End handlers.
