(* ===== verification/AccountCommands.v ===== *)
(** * Requests on accounts (src/src/server/client/cmd_account.rs) *)

From S2P Require Import Prelude Protocol StreamExtractor Messages ScoreCache Text Database Accounts Friendships.
From S2P Require Import Config GameTracker DataFiles ClientState.

Abbreviation config_of cx := (sv_config (cx_shared cx)).

(** The address without the part after a plus sign, in lower case; an address without
    an at sign panics. *)
Definition strip_email {E} (email : string) : res E string :=
  let check_email := bytes_of_string (to_ascii_lowercase email) in
  let tokens := split 64 check_email in
  let? local := index tokens 0 in
  let? alias := index (split 43 local) 0 in
  let? domain := index tokens 1 in
  Ok (string_of_bytes (alias ++ [64] ++ domain)).

Section handlers.
Context `{!HashOrder} `{!External} (env : Env).

(** [send_token_mail] and [send_reset_token_mail]: the address has to parse and the
    mail server to accept the message. *)
Definition send_mail (email_addr npid code : string) : H bool :=
  if valid_address email_addr && en_mail_ok env then
    do! on_shared (λ s, s <| sv_mails ::= (λ l, l ++ [mkMail email_addr npid code]) |>);
    ret true
  else ret false.

(** ** Login *)

Definition dump_usernames (v_usernames : list (Z * string)) : bytes :=
  to_le_bytes 4 (wrap_u32 (Z.of_nat (length v_usernames)))
  ++ (v_usernames ≫= λ '(_, username), bytes_of_string username ++ [0]).

Definition dump_usernames_and_status (client_infos : gmap Z ClientSharedInfo) (v_usernames : list (Z * string)) : bytes :=
  to_le_bytes 4 (wrap_u32 (Z.of_nat (length v_usernames)))
  ++ (v_usernames ≫= λ '(user_id, username), bytes_of_string username ++ [0] ++
        match client_infos !! user_id with
        | Some client_info => 1 :: from_option presence_dump presence_dump_empty (cs_presence client_info)
        | None => 0 :: presence_dump_empty
        end).

(** The caller as the account says. *)
Definition info_of_account (login : string) (user_data : UserQueryResult) : ClientInfo :=
  let a := uq_account user_data in
  mkClientInfo (uq_user_id user_data) login (ac_online_name a) (ac_avatar_url a) (ac_token a)
    (ac_admin a) (ac_stat_agent a) (ac_banned a).

(** The reply to a login: the account, then the four lists of relations. *)
Definition login_reply (info : ClientInfo) (rels : UserRelationships) (client_infos : gmap Z ClientSharedInfo) : bytes :=
  bytes_of_string (ci_online_name info) ++ [0] ++ bytes_of_string (ci_avatar_url info) ++ [0]
  ++ to_le_bytes 8 (wrap_u64 (ci_user_id info))
  ++ dump_usernames_and_status client_infos (ur_friends rels) ++ dump_usernames (ur_friend_requests rels)
  ++ dump_usernames (ur_friend_requests_received rels) ++ dump_usernames (ur_blocked rels).

(** From the check of the password on; the lock on [client_infos] is held. *)
Definition login_checked (login : string) (user_data : UserQueryResult) : Handler :=
  let uid := uq_user_id user_data in
  if ac_banned (uq_account user_data) then fail LoginError
  else
    do shared <- gets cx_shared;
    if bool_decide (is_Some (sv_client_infos shared !! uid)) then fail LoginAlreadyLoggedIn
    else if bool_decide (uid ∈ sv_cleanup_duty shared) then fail LoginAlreadyLoggedIn
    else
      do! map_err (λ _, LoginInvalidUsername) (on_db (do _ <- get_user_id login; ret tt));
      do rels <- map_err (λ _, DbFail) (on_db (get_relationships uid));
      do! map_err (λ _, DbFail) (on_db (update_login_time (en_seconds env) uid));
      let info := info_of_account login user_data in
      let friend_userids : gmap Z string := list_to_map (ur_friends rels) in
      do! on_client (λ c, c <| cl_authentified := true |> <| cl_client_info := info |>);
      do! extend_reply (login_reply info rels (sv_client_infos shared));
      do ip <- gets (λ cx, cl_peer_ip (cx_client cx));
      do! on_shared (λ s, s <| sv_client_infos ::= <[uid := ClientSharedInfo_new friend_userids info ip]> |>
                            <| sv_game_tracker ::= increase_num_users |>);
      do! send_notification (create_friend_status_notification login (en_nanos env) true) (dom friend_userids);
      ret NoError.

Definition login : Handler :=
  do login <- read_data (get_string false);
  do password <- read_data (get_string false);
  do token <- read_data (get_string true);
  do! check_data;
  do! get_database_connection env;
  do config <- gets (λ cx, config_of cx);
  do checked <- attempt (on_db (check_user login password token (is_email_validated config)));
  match checked with
  | Ok user_data => login_checked login user_data
  | Err DbEmpty => fail LoginInvalidUsername
  | Err DbWrongPass => fail LoginInvalidPassword
  | Err DbWrongToken => fail LoginInvalidToken
  | _ => fail LoginError
  end.

(** ** Creation and deletion *)

(** The domain of a stripped address: [tokens[1]]. *)
Definition email_domain {E} (check_email : string) : res E string :=
  let? domain := index (split 64 (bytes_of_string check_email)) 1 in Ok (string_of_bytes domain).

Definition create_account : Handler :=
  do npid <- read_data (get_string false);
  do password <- read_data (get_string false);
  do online_name <- read_data (get_string false);
  do avatar_url <- read_data (get_string false);
  do email <- read_data (get_string false);
  do! check_data;
  if negb (is_valid_client_username npid) then fail InvalidInput
  else if negb (is_valid_client_username online_name) then fail InvalidInput
  else
    let email := string_of_bytes (str_trim (bytes_of_string email)) in
    if negb (valid_address email) || bool_decide (32 ∈ bytes_of_string email) then fail InvalidInput
    else
      do check_email <- lift (strip_email email);
      do config <- gets (λ cx, config_of cx);
      do refused <- (if is_email_validated config
                     then do domain <- lift (email_domain check_email); ret (negb (is_banned_domain config domain))
                     else ret false);
      if refused : bool then fail CreationBannedEmailProvider
      else
        let is_admin := bool_decide (npid ∈ cf_admins_list config) in
        do! get_database_connection env;
        do added <- attempt (on_db (db_add_user (en_seconds env) (en_draw env) npid password online_name avatar_url
                                     email check_email is_admin));
        match added with
        | Ok token =>
            do _ <- (if is_email_validated config then send_mail email npid token else ret false);
            fail NoError
        | Err DbExistingUsername => fail CreationExistingUsername
        | Err DbExistingEmail => fail CreationExistingEmail
        | _ => fail CreationError
        end.

Definition delete_account : Handler :=
  do login <- read_data (get_string false);
  do password <- read_data (get_string false);
  do! check_data;
  do! get_database_connection env;
  do checked <- attempt (on_db (check_user login password "" false));
  match checked with
  | Ok user_data =>
      do client_infos <- gets (λ cx, sv_client_infos (cx_shared cx));
      if bool_decide (is_Some (client_infos !! uq_user_id user_data)) then fail LoginAlreadyLoggedIn
      else
        do! map_err (λ _, DbFail) (on_db (delete_user (en_seconds env) (uq_user_id user_data) login
                                            (ac_email_check (uq_account user_data))));
        fail NoError
  | _ => fail LoginError
  end.

(** ** Tokens *)

(** Less than a day since the last e-mail, on 32-bit seconds. *)
Definition too_soon (now : Z) (last : option Z) : bool :=
  match last with
  | Some last => bool_decide (wrap_u32 (now - last) < 24 * 60 * 60)
  | None => false
  end.

Definition resend_token : Handler :=
  do config <- gets (λ cx, config_of cx);
  if negb (is_email_validated config) then fail Invalid
  else
    do login <- read_data (get_string false);
    do password <- read_data (get_string false);
    do! check_data;
    do! get_database_connection env;
    do checked <- attempt (on_db (check_user login password "" false));
    match checked with
    | Ok user_data =>
        do last <- map_err (λ _, DbFail) (on_db (get_token_sent_time (uq_user_id user_data)));
        if too_soon (en_seconds env) last then fail TooSoon
        else
          do sent <- send_mail (ac_email (uq_account user_data)) login (ac_token (uq_account user_data));
          if sent : bool then
            do _ <- attempt (on_db (set_token_sent_time (en_seconds env) (uq_user_id user_data)));
            fail NoError
          else fail EmailFail
    | _ => fail LoginError
    end.

Definition send_reset_token : Handler :=
  do config <- gets (λ cx, config_of cx);
  if negb (is_email_validated config) then fail Invalid
  else
    do username <- read_data (get_string false);
    do email <- read_data (get_string false);
    do! check_data;
    do! get_database_connection env;
    do email_check <- lift (strip_email email);
    do checked <- attempt (on_db (check_email username email_check));
    match checked with
    | Ok (uid, email_to_use) =>
        do last <- map_err (λ _, DbFail) (on_db (get_reset_password_token_sent_time uid));
        if too_soon (en_seconds env) last then fail TooSoon
        else
          do token <- map_err (λ _, DbFail) (on_db (update_password_token (en_draw env) uid));
          do sent <- send_mail email_to_use username token;
          if sent : bool then
            do! map_err (λ _, DbFail) (on_db (set_reset_password_token_sent_time (en_seconds env) uid));
            fail NoError
          else fail EmailFail
    | _ => fail LoginError
    end.

Definition reset_password : Handler :=
  do config <- gets (λ cx, config_of cx);
  if negb (is_email_validated config) then fail Invalid
  else
    do username <- read_data (get_string false);
    do token <- read_data (get_string false);
    do new_password <- read_data (get_string false);
    do! check_data;
    do! get_database_connection env;
    do checked <- attempt (on_db (check_reset_token username token));
    match checked with
    | Ok uid =>
        do updated <- attempt (on_db (update_user_password (en_draw env) uid token new_password));
        match updated with
        | Ok _ => fail NoError
        | _ => fail DbFail
        end
    | _ => fail LoginError
    end.
End handlers.
