(* ===== verification/FriendCommands.v ===== *)
(** * Friends, messages, presence and the other requests

    The handlers of src/src/server/client/cmd_friend.rs, cmd_misc.rs, cmd_server.rs,
    cmd_session.rs and cmd_admin.rs. *)

From S2P Require Import Prelude Protocol StreamExtractor Messages StorageMessages RoomData Room ScoreCache Text.
From S2P Require Import Database Accounts Friendships Ticket Config GameTracker DataFiles ClientState.

(** The codecs of the messages these handlers read and write. *)
Class MiscCodec := {
  pb_SendMessageRequest :: Message SendMessageRequest;
  pb_MessageDetails :: Message MessageDetails;
  pb_SetPresenceRequest :: Message SetPresenceRequest;
  pb_SetUserInfo :: Message SetUserInfo;
  pb_MatchingSignalingInfo :: Message MatchingSignalingInfo;
  pb_SignalingAddr :: Message SignalingAddr;
}.

Section handlers.
Context `{!HashOrder} `{!External} `{!MiscCodec} (env : Env).

Definition own_info : H ClientInfo := gets (λ cx, cl_client_info (cx_client cx)).

(** Changes what is shared of a connected user. *)
Definition update_shared_info (uid : Z) (f : ClientSharedInfo → ClientSharedInfo) : H unit :=
  on_shared (λ s, s <| sv_client_infos ::= alter f uid |>).

Definition is_online (uid : Z) : H bool :=
  gets (λ cx, bool_decide (is_Some (sv_client_infos (cx_shared cx) !! uid))).

(** ** Friends (cmd_friend.rs) *)

Definition has_flag (status flag : Z) : bool := negb (bool_decide (Z.land status flag = 0)).

(** The new status of the pair in the database; the status of the friend. *)
Definition request_friend (self friend_user_id : Z) : M Ctx Exit Z :=
  do rel_status <- attempt (on_db (get_rel_status self friend_user_id));
  match rel_status with
  | Ok (status_user, status_friend) =>
      if has_flag status_user FriendStatus_Blocked || has_flag status_friend FriendStatus_Blocked
      then fail (Ok Blocked)
      else if has_flag status_user FriendStatus_Friend then fail (Ok AlreadyFriend)
      else
        do! map_err (λ _, Err DbFail)
          (on_db (set_rel_status self friend_user_id (Z.lor status_user FriendStatus_Friend) status_friend));
        ret status_friend
  | Err DbEmpty =>
      do! map_err (λ _, Err DbFail) (on_db (set_rel_status self friend_user_id FriendStatus_Friend 0));
      ret 0
  | _ => fail (Err DbFail)
  end.

(** A friend by name, who is not the caller. *)
Definition other_user (self : Z) (friend_npid : string) : M Ctx Exit Z :=
  do found <- attempt (on_db (get_user_id friend_npid));
  match found with
  | Ok friend_user_id => if bool_decide (friend_user_id = self) then fail (Ok InvalidInput) else ret friend_user_id
  | _ => fail (Ok NotFound)
  end.

Definition add_friend : Handler :=
  do friend_npid <- read_data (get_string false);
  do! check_data;
  do info <- own_info;
  let self := ci_user_id info in
  do! get_database_connection env;
  with_exits (other_user self friend_npid) (λ friend_user_id,
    with_exits (request_friend self friend_user_id) (λ status_friend,
      if has_flag status_friend FriendStatus_Friend then
        do! update_shared_info self (λ i, i <| cs_friends ::= <[friend_user_id := friend_npid]> |>);
        do friend_online <- is_online friend_user_id;
        do! update_shared_info friend_user_id (λ i, i <| cs_friends ::= <[self := ci_npid info]> |>);
        do! self_notification (create_new_friend_notification friend_npid friend_online);
        do! (if friend_online : bool then
               on_shared (send_single_notification (create_new_friend_notification (ci_npid info) true) friend_user_id)
             else ret tt);
        ret NoError
      else
        do! on_shared (send_single_notification
              (create_notification Notif.FriendQuery (bytes_of_string (ci_npid info) ++ [0])) friend_user_id);
        ret NoError)).

(** The friendship taken back on both sides. *)
Definition end_friendship (self friend_user_id : Z) : M Ctx Exit unit :=
  do rel_status <- attempt (on_db (get_rel_status self friend_user_id));
  match rel_status with
  | Ok (status_user, status_friend) =>
      if bool_decide (Z.lor (Z.land status_user FriendStatus_Friend) (Z.land status_friend FriendStatus_Friend) = 0)
      then fail (Ok NotFound)
      else map_err (λ _, Err DbFail) (on_db (set_rel_status self friend_user_id
             (Z.land status_user (not_u 8 FriendStatus_Friend)) (Z.land status_friend (not_u 8 FriendStatus_Friend))))
  | Err DbEmpty => fail (Ok NotFound)
  | _ => fail (Err DbFail)
  end.

Definition remove_friend : Handler :=
  do friend_npid <- read_data (get_string false);
  do! check_data;
  do info <- own_info;
  let self := ci_user_id info in
  do! get_database_connection env;
  with_exits (other_user self friend_npid) (λ friend_user_id,
    with_exits (end_friendship self friend_user_id) (λ _,
      do! self_notification (create_notification Notif.FriendLost (bytes_of_string friend_npid ++ [0]));
      do! on_shared (send_single_notification
            (create_notification Notif.FriendLost (bytes_of_string (ci_npid info) ++ [0])) friend_user_id);
      do! update_shared_info self (λ i, i <| cs_friends ::= delete friend_user_id |>);
      do! update_shared_info friend_user_id (λ i, i <| cs_friends ::= delete self |>);
      ret NoError)).

Definition add_block : Handler := ret NoError.
Definition remove_block : Handler := ret NoError.

(** ** Messages and signaling (cmd_misc.rs) *)

(** [Client::make_signaling_addr] and [Client::build_signaling_addr]. *)
Definition make_signaling_addr (addr : bytes) (port : Z) : SignalingAddr := mkSignalingAddr addr (new_from_value port).
Definition build_signaling_addr (addr : bytes) (port : Z) : bytes := encode_to_vec (make_signaling_addr addr port).

(** The address another client is told: by IPv6 when both sides have one. *)
Definition reachable_addr (viewer target : ClientSharedSignalingInfo) : bytes * Z :=
  match sig_addr_p2p_ipv6 viewer, sig_addr_p2p_ipv6 target with
  | Some _, Some addr => addr
  | _, _ => sig_addr_p2p_ipv4 target
  end.

Definition req_signaling_infos : Handler :=
  do npid <- read_data (get_string false);
  do bad <- gets (λ cx, se_error (cx_data cx));
  if bad || bool_decide (16 < length (bytes_of_string npid))%nat then fail Malformed
  else
    do! get_database_connection env;
    do found <- attempt (on_db (get_user_id npid));
    match found with
    | Ok uid =>
        do info <- own_info;
        do infos <- gets (λ cx, sv_client_infos (cx_shared cx));
        do caller <- lift (unwrap (cs_signaling_info <$> infos !! ci_user_id info));
        match cs_signaling_info <$> infos !! uid with
        | None => ret NotFound
        | Some op =>
            if bool_decide ((sig_addr_p2p_ipv4 caller).1 = (sig_addr_p2p_ipv4 op).1) then
              do! reply_packet (build_signaling_addr (sig_local_addr_p2p op) 3658);
              ret NoError
            else
              let op_addr := reachable_addr caller op in
              do! reply_packet (build_signaling_addr op_addr.1 op_addr.2);
              let caller_addr := reachable_addr op caller in
              let matching_info := mkMatchingSignalingInfo (ci_npid info)
                (Some (make_signaling_addr caller_addr.1 caller_addr.2)) in
              do! on_shared (send_single_notification
                (create_notification Notif.SignalingHelper (add_data_packet [] (encode_to_vec matching_info))) uid);
              ret NoError
        end
    | _ => ret NotFound
    end.

Definition req_ticket : Handler :=
  do service_id <- read_data (get_string false);
  do cookie <- read_data get_rawdata;
  do! check_data;
  do current <- gets (λ cx, (cl_current_game (cx_client cx)).2);
  let set_game := on_client (λ c, c <| cl_current_game ::= (λ g, (g.1, Some service_id)) |>) in
  let track f := on_shared (λ s, s <| sv_game_tracker ::= f |>) in
  do! match current with
      | Some cur_service_id =>
          if bool_decide (cur_service_id ≠ service_id) then
            do! track (decrease_count_ticket cur_service_id);
            do! set_game;
            track (increase_count_ticket service_id)
          else ret tt
      | None =>
          do! set_game;
          track (increase_count_ticket service_id)
      end;
  do info <- own_info;
  do ticket_id <- gets (λ cx, sv_ticket_dispenser (cx_shared cx));
  do! on_shared (λ s, s <| sv_ticket_dispenser := wrap_u64 (ticket_id + 1) |>);
  do! reply_packet (generate_blob (Ticket_new (en_sign env) ticket_id (en_nanos env / 1000000)
        (wrap_u64 (ci_user_id info)) (ci_npid info) service_id cookie));
  ret NoError.

Definition MESSAGE_MAIN_TYPE_INVITE : Z := 3.

Definition send_message : Handler :=
  do sendmessage_req <- read_data (get_protobuf (T := SendMessageRequest) decode_message);
  do! check_data;
  do sendmessage_req <- lift (ok_or Malformed sendmessage_req);
  let message := smr_message sendmessage_req in
  do! get_database_connection env;
  with_exits (map_each (λ npid,
    do found <- attempt (on_db (get_user_id npid));
    match found with
    | Ok id => ret id
    | _ => fail (Ok InvalidInput)
    end) (smr_npids sendmessage_req))
  (λ id_list,
    let ids : gset Z := list_to_set id_list in
    do info <- own_info;
    if bool_decide (ids = ∅) || bool_decide (ci_user_id info ∈ ids) then ret InvalidInput
    else
      do msg <- lift (ok_or Malformed (decode_message (T := MessageDetails) message));
      let send :=
        do! send_notification (create_notification Notif.MessageReceived
              (bytes_of_string (ci_npid info) ++ [0] ++ to_le_bytes 4 (wrap_u32 (Z.of_nat (length message))) ++ message)) ids;
        ret NoError in
      if bool_decide (from_option uint16_value 0 (md_main_type msg) = MESSAGE_MAIN_TYPE_INVITE) then
        do infos <- gets (λ cx, sv_client_infos (cx_shared cx));
        do friends <- lift (unwrap (cs_friends <$> infos !! ci_user_id info));
        if bool_decide (ids ⊆ dom friends) then send else ret InvalidInput
      else send).

Definition get_network_time : Handler :=
  do! extend_reply (to_le_bytes 8 (en_psn_time env));
  ret NoError.

(** ** Presence (cmd_misc.rs) *)

(** The byte after is not in the middle of a character. *)
Definition is_char_boundary (bs : bytes) (n : nat) : bool :=
  match bs !! n with
  | Some b => negb (bool_decide (0x80 ≤ b < 0xC0))
  | None => bool_decide (n = length bs)
  end.

(** [String::truncate]: inside a character it panics. *)
Definition string_truncate {E} (n : nat) (s : string) : res E string :=
  let bs := bytes_of_string s in
  if bool_decide (length bs ≤ n)%nat then Ok s
  else if is_char_boundary bs n then Ok (string_of_bytes (take n bs))
  else Panic.

Definition presence_differs (p : ClientSharedPresence) (com_id : ComId) (pr_req : SetPresenceRequest) : bool :=
  bool_decide (cp_communication_id p ≠ com_id) || bool_decide (cp_title p ≠ spr_title pr_req)
  || bool_decide (spr_status pr_req ≠ cp_status p) || bool_decide (spr_comment pr_req ≠ cp_comment p)
  || bool_decide (spr_data pr_req ≠ cp_data p).

(** A field of the caller's presence is replaced, then cut: a cut that panics leaves
    the replaced field behind. *)
Definition write_presence (self : Z) (f : ClientSharedPresence → ClientSharedPresence) : H unit :=
  update_shared_info self (λ i, i <| cs_presence ::= fmap f |>).

Definition write_cut (self : Z) (set : string → ClientSharedPresence → ClientSharedPresence) (n : nat) (s : string) : H unit :=
  do! write_presence self (set s);
  do cut <- lift (string_truncate n s);
  write_presence self (set cut).

Definition change_presence (self : Z) (com_id : ComId) (pr_req : SetPresenceRequest) : H unit :=
  do! write_presence self (λ p, p <| cp_communication_id := com_id |>);
  do! on_shared (λ s, s <| sv_game_tracker ::= add_gamename_hint com_id (spr_title pr_req) |>);
  do! write_cut self (λ s p, p <| cp_title := s |>) 127 (spr_title pr_req);
  do! write_cut self (λ s p, p <| cp_status := s |>) 191 (spr_status pr_req);
  do! write_cut self (λ s p, p <| cp_comment := s |>) 63 (spr_comment pr_req);
  write_presence self (λ p, p <| cp_data := take 128 (spr_data pr_req) |>).

(** Tells the friends the presence that is now shared. *)
Definition notify_presence (info : ClientInfo) : Handler :=
  do infos <- gets (λ cx, sv_client_infos (cx_shared cx));
  do shared <- lift (unwrap (infos !! ci_user_id info));
  do presence <- lift (unwrap (cs_presence shared));
  do! send_notification (create_notification Notif.FriendPresenceChanged
        (bytes_of_string (ci_npid info) ++ [0] ++ presence_dump presence)) (dom (cs_friends shared));
  ret NoError.

Definition set_presence : Handler :=
  do (com_id, pr_req) <- get_com_and_pb (T := SetPresenceRequest);
  do info <- own_info;
  let self := ci_user_id info in
  do infos <- gets (λ cx, sv_client_infos (cx_shared cx));
  do shared <- lift (unwrap (infos !! self));
  match cs_presence shared with
  | Some presence_info =>
      if presence_differs presence_info com_id pr_req then
        do! change_presence self com_id pr_req;
        notify_presence info
      else ret NoError
  | None =>
      do! update_shared_info self (λ i, i <| cs_presence := Some (mkClientSharedPresence com_id (spr_title pr_req)
            (spr_status pr_req) (spr_comment pr_req) (spr_data pr_req)) |>);
      notify_presence info
  end.

(** ** Servers and worlds (cmd_server.rs) *)

Definition req_get_server_list : Handler :=
  do com_id <- get_com_id_with_redir;
  do! check_data;
  do! get_database_connection env;
  do config <- gets (λ cx, sv_config (cx_shared cx));
  do servs <- map_err (λ _, DbFail) (on_db (get_server_list com_id (is_create_missing config)));
  do! extend_reply (to_le_bytes 2 (wrap_u16 (Z.of_nat (length servs))) ++ (servs ≫= to_le_bytes 2));
  ret NoError.

Definition req_get_world_list : Handler :=
  do com_id <- get_com_id_with_redir;
  do server_id <- read_data (get_uint 2);
  do! check_data;
  do! get_database_connection env;
  do config <- gets (λ cx, sv_config (cx_shared cx));
  do worlds <- map_err (λ _, DbFail) (on_db (get_world_list com_id server_id (is_create_missing config)));
  do! extend_reply (to_le_bytes 4 (wrap_u32 (Z.of_nat (length worlds))) ++ (worlds ≫= to_le_bytes 4));
  ret NoError.

(** ** Session (cmd_session.rs) *)

Definition req_set_userinfo : Handler :=
  do (_, setuser_req) <- get_com_and_pb (T := SetUserInfo);
  let binattrs := sui_user_bin_attr setuser_req in
  if bool_decide (binattrs = []) then ret NoError
  else if bool_decide (1 < length binattrs)%nat then fail Malformed
  else
    do binattr <- lift (ok_or Malformed (find (λ attr,
      bool_decide (from_option uint16_value 0 (ba_id attr) = SCE_NP_MATCHING2_USER_BIN_ATTR_1_ID)) binattrs));
    do self <- gets user_id;
    do online <- is_online self;
    if online : bool then
      do bin_attr <- lift (RoomBinAttr_from_protobuf 128 binattr);
      do! update_shared_info self (λ i, i <| cs_session := bin_attr |>);
      ret NoError
    else panic.

(** ** Administration (cmd_admin.rs) *)

Definition check_admin : H unit :=
  do admin <- gets (λ cx, ci_admin (cl_client_info (cx_client cx)));
  if admin : bool then ret tt else fail Invalid.

Definition req_admin_update_domain_bans : Handler :=
  do! check_admin;
  do! on_shared (λ s, s <| sv_config ::= load_domains_banlist (en_domains_file env) |>);
  ret NoError.

Definition req_admin_terminate_server : Handler :=
  do! check_admin;
  do! on_shared (λ s, s <| sv_terminate := true |>);
  ret NoError.

Definition req_admin_update_servers_cfg : Handler :=
  do! check_admin;
  do! get_database_connection env;
  do updated <- attempt (on_db (update_servers_cfg (en_servers_file env)));
  match updated with
  | Ok _ => ret NoError
  | _ => ret DbFail
  end.

Definition req_admin_ban_user : Handler :=
  do! check_admin;
  do username <- read_data (get_string false);
  do! check_data;
  do! get_database_connection env;
  do found <- attempt (on_db (get_user_id username));
  match found with
  | Ok uid =>
      do banned <- attempt (on_db (ban_user uid));
      match banned with
      | Ok _ => do! update_shared_info uid (λ i, i <| cs_kicked := true |>); ret NoError
      | _ => ret DbFail
      end
  | _ => ret NotFound
  end.

Definition req_admin_del_user : Handler :=
  do! check_admin;
  do username <- read_data (get_string false);
  do! check_data;
  do! get_database_connection env;
  do found <- attempt (on_db (get_user_id username));
  match found with
  | Ok uid =>
      do email_check <- attempt (on_db (get_email_check uid));
      match email_check with
      | Ok email_check =>
          do online <- is_online uid;
          if online : bool then ret CondFail
          else
            do deleted <- attempt (on_db (delete_user (en_seconds env) uid username email_check));
            match deleted with
            | Ok _ => ret NoError
            | _ => ret DbFail
            end
      | _ => ret DbFail
      end
  | _ => ret NotFound
  end.
End handlers.
