(* ===== verification/Dispatch.v ===== *)
(** * From packets to handlers (src/src/server/client.rs)

    The cleanup of a leaving user, the dispatch of a command to its handler and the
    reply that is built around it. *)

From S2P Require Import ScoreCache Text Database Accounts Friendships DbScore DbTus Config DataFiles.
From S2P Require Import Prelude Protocol StreamExtractor Messages RoomData Room RoomManager GuiRoom.
From S2P Require Import GuiRoomManager GameTracker ClientState RoomCommands GuiCommands TusCommands.
From S2P Require Import ScoreCommands AccountCommands FriendCommands.

(** The codecs of all messages. *)
Class ServerCodec := {
  codec_room :: RoomCodec;
  codec_gui :: GuiCodec;
  codec_tus :: TusCodec;
  codec_score :: ScoreCodec;
  codec_misc :: MiscCodec;
}.

(** A handler whose code is discarded ([let _ = ...]): an error does not stop the
    caller, a panic does. *)
Definition ignore_code {A} (h : H A) : H unit := λ cx,
  match h cx with
  | (Panic, cx') => (Panic, cx')
  | (_, cx') => (Ok tt, cx')
  end.

Section rooms.
Context `{!HashOrder} `{!RoomCodec} `{!GuiCodec} (env : Env).

(** [Client::clean_user_state]: out of every room, and out of the game counts. *)
Definition clean_user_state : H unit :=
  do rooms <- gets (λ cx, get_rooms_by_user (sv_room_manager (cx_shared cx)) (user_id cx));
  do! match rooms with
      | Some rooms =>
          for_each (λ '(com_id, room_id),
            ignore_code (client_leave_room env com_id room_id None Event.CauseMemberDisappeared)) (hash_iter rooms)
      | None => ret tt
      end;
  do rooms <- gets (λ cx, gui_get_rooms_by_user (sv_gui_room_manager (cx_shared cx)) (user_id cx));
  do! match rooms with
      | Some rooms => for_each (λ room, ignore_code (client_leave_room_gui env room)) (hash_iter rooms)
      | None => ret tt
      end;
  do game <- gets (λ cx, cl_current_game (cx_client cx));
  do! match game.1 with
      | Some cur_com_id =>
          do! on_shared (λ s, s <| sv_game_tracker ::= decrease_count_psn cur_com_id |>);
          on_client (λ c, c <| cl_current_game ::= (λ g, (None, g.2)) |>)
      | None => ret tt
      end;
  match game.2 with
  | Some cur_service_id =>
      do! on_shared (λ s, s <| sv_game_tracker ::= decrease_count_ticket cur_service_id |>);
      on_client (λ c, c <| cl_current_game ::= (λ g, (g.1, None)) |>)
  | None => ret tt
  end.

(** [Drop for Client]: the cleanup task of an authenticated client.  [timestamp] is
    the wall clock in nanoseconds. *)
Definition drop_client (timestamp : Z) : H unit :=
  do authentified <- gets (λ cx, cl_authentified (cx_client cx));
  if negb authentified then ret tt
  else
    do uid <- gets user_id;
    do! on_shared (λ s, s <| sv_cleanup_duty ::= union {[uid]} |>);
    do! on_client (λ c, c <| cl_authentified := false |>);
    do! clean_user_state;
    do! on_shared (λ s, s <| sv_game_tracker ::= decrease_num_users |>);
    do to_notif <- gets (λ cx, from_option (λ i, dom (cs_friends i)) ∅ (sv_client_infos (cx_shared cx) !! uid));
    do! on_shared (λ s, s <| sv_client_infos ::= delete uid |>);
    do npid <- gets (λ cx, ci_npid (cl_client_info (cx_client cx)));
    do! send_notification (create_friend_status_notification npid timestamp false) to_notif;
    on_shared (λ s, s <| sv_cleanup_duty ::= (λ d, d ∖ {[uid]}) |>).

(** [Client::reset_state]. *)
Definition reset_state : Handler := do! clean_user_state; ret NoError.

(** The handlers of the requests on rooms. *)
Definition room_handler (command : Command.CommandType) : option Handler :=
  match command with
  | Command.ResetState => Some reset_state
  | Command.CreateRoom => Some (req_create_room env)
  | Command.JoinRoom => Some (req_join_room env)
  | Command.LeaveRoom => Some (req_leave_room env)
  | Command.SearchRoom => Some (req_search_room env)
  | Command.SearchRoomAll => Some req_search_room_all
  | Command.GetRoomDataExternalList => Some req_get_roomdata_external_list
  | Command.GetRoomMemberDataExternalList => Some req_get_room_member_data_external_list
  | Command.SetRoomDataExternal => Some req_set_roomdata_external
  | Command.GetRoomDataInternal => Some req_get_roomdata_internal
  | Command.SetRoomDataInternal => Some (req_set_roomdata_internal env)
  | Command.GetRoomMemberDataInternal => Some req_get_roommemberdata_internal
  | Command.SetRoomMemberDataInternal => Some (req_set_roommemberdata_internal env)
  | Command.PingRoomOwner => Some req_ping_room_owner
  | Command.SendRoomMessage => Some req_send_room_message
  | Command.CreateRoomGUI => Some req_create_room_gui
  | Command.JoinRoomGUI => Some req_join_room_gui
  | Command.LeaveRoomGUI => Some (req_leave_room_gui env)
  | Command.GetRoomListGUI => Some req_get_room_list_gui
  | Command.SetRoomSearchFlagGUI => Some req_set_room_search_flag_gui
  | Command.GetRoomSearchFlagGUI => Some req_get_room_search_flag_gui
  | Command.SetRoomInfoGUI => Some req_set_room_info_gui
  | Command.GetRoomInfoGUI => Some req_get_room_info_gui
  | Command.QuickMatchGUI => Some req_quickmatch_gui
  | Command.SearchJoinRoomGUI => Some req_searchjoin_gui
  | _ => None
  end.

End rooms.

Section server.
Context `{!HashOrder} `{!External} `{!ServerCodec} (env : Env).

(** The commands a client may issue before it has logged in. *)
Definition login_handler (command : Command.CommandType) : option Handler :=
  match command with
  | Command.Login => Some (login env)
  | Command.Create => Some (create_account env)
  | Command.Delete => Some (delete_account env)
  | Command.SendToken => Some (resend_token env)
  | Command.SendResetToken => Some (send_reset_token env)
  | Command.ResetPassword => Some (reset_password env)
  | _ => None
  end.

(** The handlers of the requests that do not concern rooms. *)
Definition service_handler (command : Command.CommandType) : option Handler :=
  match command with
  | Command.AddFriend => Some (add_friend env)
  | Command.RemoveFriend => Some (remove_friend env)
  | Command.AddBlock => Some add_block
  | Command.RemoveBlock => Some remove_block
  | Command.GetServerList => Some (req_get_server_list env)
  | Command.GetWorldList => Some (req_get_world_list env)
  | Command.SetUserInfo => Some req_set_userinfo
  | Command.RequestSignalingInfos => Some (req_signaling_infos env)
  | Command.RequestTicket => Some (req_ticket env)
  | Command.SendMessage => Some (send_message env)
  | Command.GetBoardInfos => Some (client_get_board_infos env)
  | Command.RecordScore => Some (client_record_score env)
  | Command.RecordScoreData => Some (client_record_score_data env)
  | Command.GetScoreData => Some (client_get_score_data env)
  | Command.GetScoreRange => Some client_get_score_range
  | Command.GetScoreFriends => Some client_get_score_friends
  | Command.GetScoreNpid => Some (client_get_score_npid env)
  | Command.GetNetworkTime => Some (get_network_time env)
  | Command.TusSetMultiSlotVariable => Some (tus_set_multislot_variable env)
  | Command.TusGetMultiSlotVariable => Some (tus_get_multislot_variable env)
  | Command.TusGetMultiUserVariable => Some (tus_get_multiuser_variable env)
  | Command.TusGetFriendsVariable => Some (tus_get_friends_variable env)
  | Command.TusAddAndGetVariable => Some (tus_add_and_get_variable env)
  | Command.TusTryAndSetVariable => Some (tus_try_and_set_variable env)
  | Command.TusDeleteMultiSlotVariable => Some (tus_delete_multislot_variable env)
  | Command.TusSetData => Some (tus_set_data env)
  | Command.TusGetData => Some (tus_get_data env)
  | Command.TusGetMultiSlotDataStatus => Some (tus_get_multislot_data_status env)
  | Command.TusGetMultiUserDataStatus => Some (tus_get_multiuser_data_status env)
  | Command.TusGetFriendsDataStatus => Some (tus_get_friends_data_status env)
  | Command.TusDeleteMultiSlotData => Some (tus_delete_multislot_data env)
  | Command.SetPresence => Some set_presence
  | Command.UpdateDomainBans => Some (req_admin_update_domain_bans env)
  | Command.TerminateServer => Some req_admin_terminate_server
  | Command.UpdateServersCfg => Some (req_admin_update_servers_cfg env)
  | Command.BanUser => Some (req_admin_ban_user env)
  | Command.DelUser => Some (req_admin_del_user env)
  | _ => None
  end.

(** The rest of the commands are [Terminate] and those of the login. *)
Definition session_handler (command : Command.CommandType) : option Handler :=
  match room_handler env command with
  | Some h => Some h
  | None => service_handler command
  end.

Definition process_command (command : Command.CommandType) : Handler :=
  match command with
  | Command.Terminate => fail NoError
  | _ =>
      do authentified <- gets (λ cx, cl_authentified (cx_client cx));
      default (fail Invalid) (if authentified : bool then session_handler command else login_handler command)
  end.

(** The reply a handler works on: the fixed header and the code byte. *)
Definition reply_start (command packet_id : Z) : bytes :=
  [Packet.packet_discr Packet.Reply] ++ to_le_bytes 2 command ++ to_le_bytes 4 HEADER_SIZE
    ++ to_le_bytes 8 packet_id ++ [error_discr NoError].

Definition update_at (i : nat) (new reply : bytes) : bytes :=
  take i reply ++ new ++ drop (i + length new) reply.

(** [Client::interpret_command] on the payload it read: what is queued for the
    client (the reply, then its own notifications), whether the connection goes on,
    and the state after; [None] when the handler panicked. *)
Definition interpret_command (command packet_id : Z) (data : bytes) (c : Client) (s : SharedData) :
  option (list bytes * bool) * Client * SharedData :=
  let cx := mkCtx c s (extractor_new data) (reply_start command packet_id) in
  let '(res, cx) :=
    match Command.command_from_u16 command with
    | None => fail Malformed cx
    | Some parsed => process_command parsed cx
    end in
  let reply := cx_reply cx in
  let reply := update_at 3 (to_le_bytes 4 (wrap_u32 (Z.of_nat (length reply)))) reply in
  let finish code goes_on :=
    let reply := update_at (Z.to_nat HEADER_SIZE) [error_discr code] reply in
    (Some (reply :: cl_post_reply_notifications (cx_client cx), goes_on),
     (cx_client cx) <| cl_post_reply_notifications := [] |>, cx_shared cx) in
  match res with
  | Ok code => finish code true
  | Err code => finish code false
  | Panic => (None, cx_client cx, cx_shared cx)
  end.
End server.
