(* ===== verification/CommandFrames.v ===== *)
(** * What request handlers do to the rooms

    Every handler is followed on the two room managers: the parts that read the
    request, build the reply and notify users leave them alone ([quiet]), the rest
    are operations of the managers' state machines ([moves]). *)

From S2P Require Import ScoreCache Text Database Accounts Friendships DbScore DbTus Config DataFiles.
From S2P Require Import Prelude Protocol StreamExtractor Messages RoomData Room RoomManager RoomInv.
From S2P Require Import RoomReports RoomManagerInv RoomCreate RoomJoin RoomMachine GuiRoom GuiRoomManager.
From S2P Require Import GuiInv GuiMachine GuiRules GameTracker Matchmaking ClientState RoomCommands.
From S2P Require Import GuiCommands Dispatch.

Abbreviation rooms_of cx := (sv_room_manager (cx_shared cx)).
Abbreviation gui_of cx := (sv_gui_room_manager (cx_shared cx)).
Abbreviation info_of cx := (cl_client_info (cx_client cx)).

(** Whether the caller has logged in, who is connected, and how many the tracker counts. *)
Definition presence_of (cx : Ctx) : bool * gset Z * Z :=
  (cl_authentified (cx_client cx), dom (sv_client_infos (cx_shared cx)), gt_num_users (sv_game_tracker (cx_shared cx))).

(** The same rooms, the same caller and the same users connected. *)
Definition same_rooms (cx cx' : Ctx) : Prop :=
  rooms_of cx' = rooms_of cx ∧ gui_of cx' = gui_of cx ∧ info_of cx' = info_of cx ∧ presence_of cx' = presence_of cx.

Definition quiet {E A} (h : M Ctx E A) : Prop := ∀ cx, same_rooms cx (h cx).2.

#[export] Instance same_rooms_preorder : PreOrder same_rooms.
Proof. split; [done|]. intros ??? (?&?&?&?) (?&?&?&?). unfold same_rooms. split_and!; congruence. Qed.

Create HintDb quiet.

Section quiet.
Lemma quiet_bind {E A B} (m : M Ctx E A) (k : A → M Ctx E B) : quiet m → (∀ a, quiet (k a)) → quiet (bind m k).
Proof.
  intros Hm Hk cx. specialize (Hm cx). unfold bind. destruct (m cx) as [[a|e|] cx1]; simpl in *; try done.
  etransitivity; [exact Hm|]. apply Hk.
Qed.

Lemma quiet_pure {E A} (h : M Ctx E A) : (∀ cx, (h cx).2 = cx) → quiet h.
Proof. intros Hh cx. by rewrite Hh. Qed.

Lemma quiet_modify (f : Ctx → Ctx) : (∀ cx, same_rooms cx (f cx)) → quiet (@modify _ ErrorType f).
Proof. intros Hf cx. apply Hf. Qed.

Lemma quiet_for_each {E B} (f : B → M Ctx E unit) xs : (∀ x, quiet (f x)) → quiet (for_each f xs).
Proof. intros Hf. induction xs; simpl; [by apply quiet_pure|]. by apply quiet_bind. Qed.

Lemma quiet_map_err {E E' A} (f : E → E') (h : M Ctx E A) : quiet h → quiet (map_err f h).
Proof. intros Hh cx. specialize (Hh cx). unfold map_err. by destruct (h cx) as [[] ?]. Qed.

Lemma quiet_attempt {E E' A} (h : M Ctx E A) : quiet h → quiet (attempt (E' := E') h).
Proof. intros Hh cx. specialize (Hh cx). unfold attempt. by destruct (h cx) as [[] ?]. Qed.

Lemma quiet_unwrap_result {E E' A} (h : M Ctx E A) : quiet h → quiet (unwrap_result (E' := E') h).
Proof. intros Hh cx. specialize (Hh cx). unfold unwrap_result. by destruct (h cx) as [[] ?]. Qed.

Lemma quiet_on_db {E A} (m : M Database E A) : quiet (on_db m).
Proof. intros cx. unfold on_db. by destruct (m _). Qed.

Lemma quiet_on_scores {A} (m : SC A) : quiet (on_scores m).
Proof. intros cx. unfold on_scores. by destruct (m _). Qed.

Lemma quiet_on_score_dir {E A} (m : M DataDir E A) : quiet (on_score_dir m).
Proof. intros cx. unfold on_score_dir. by destruct (m _). Qed.

Lemma quiet_on_tus_dir {E A} (m : M DataDir E A) : quiet (on_tus_dir m).
Proof. intros cx. unfold on_tus_dir. by destruct (m _). Qed.

Lemma quiet_with_exits {A} (m : M Ctx Exit A) (k : A → Handler) :
  quiet m → (∀ a, quiet (k a)) → quiet (with_exits m k).
Proof.
  intros Hm Hk cx. specialize (Hm cx). unfold with_exits. destruct (m cx) as [[a|e|] cx1]; simpl in *; try done.
  etransitivity; [exact Hm|]. apply Hk.
Qed.

Lemma quiet_map_each {E B C} (f : B → M Ctx E C) xs : (∀ x, quiet (f x)) → quiet (map_each f xs).
Proof.
  intros Hf. induction xs; simpl; [by apply quiet_pure|].
  apply quiet_bind; [done|]. intros ?. apply quiet_bind; [done|]. intros ?. by apply quiet_pure.
Qed.

Lemma quiet_read_data {A} (f : StreamExtractor → A * StreamExtractor) : quiet (read_data f).
Proof. intros cx. unfold read_data. by destruct (f _). Qed.

Lemma quiet_read_pb {T} `{Message T} : quiet (read_pb (T := T)).
Proof. intros cx. unfold read_pb. by destruct (get_pb _ _). Qed.

(** What a change of the shared state leaves alone. *)
Definition same_shared (s s' : SharedData) : Prop :=
  sv_room_manager s' = sv_room_manager s ∧ sv_gui_room_manager s' = sv_gui_room_manager s ∧
  dom (sv_client_infos s') = dom (sv_client_infos s) ∧
  gt_num_users (sv_game_tracker s') = gt_num_users (sv_game_tracker s).

Lemma quiet_on_shared f : (∀ s, same_shared s (f s)) → quiet (on_shared f).
Proof.
  intros Hf. apply quiet_modify. intros cx. destruct (Hf (cx_shared cx)) as (E1 & E2 & E3 & E4).
  unfold same_rooms, presence_of. simpl. by rewrite E1, E2, E3, E4.
Qed.

Lemma quiet_on_client f :
  (∀ c, cl_client_info (f c) = cl_client_info c ∧ cl_authentified (f c) = cl_authentified c) → quiet (on_client f).
Proof.
  intros Hf. apply quiet_modify. intros cx. destruct (Hf (cx_client cx)) as [E1 E2].
  unfold same_rooms, presence_of. simpl. by rewrite E1, E2.
Qed.

(** An entry of the connected users changes, not who is connected. *)
Lemma quiet_alter_info f uid : quiet (on_shared (λ s, s <| sv_client_infos ::= alter f uid |>)).
Proof. apply quiet_on_shared. intros s. unfold same_shared. simpl. by rewrite dom_alter_L. Qed.

Lemma quiet_track f : (∀ g, gt_num_users (f g) = gt_num_users g) → quiet (on_shared (λ s, s <| sv_game_tracker ::= f |>)).
Proof. intros Hf. apply quiet_on_shared. intros s. unfold same_shared. simpl. by rewrite Hf. Qed.

Lemma quiet_send_notification `{!HashOrder} notif ids : quiet (send_notification notif ids).
Proof.
  apply quiet_on_shared. intros s. generalize (hash_iter ids) as l. intros l. revert s.
  induction l as [|u l IH]; intros s; simpl; [done|]. unfold same_shared in *.
  destruct (IH (send_single_notification notif u s)) as (-> & -> & -> & ->).
  unfold send_single_notification. by case_bool_decide.
Qed.

Lemma quiet_send_single notif uid : quiet (on_shared (send_single_notification notif uid)).
Proof. apply quiet_on_shared. intros s. unfold same_shared, send_single_notification. by case_bool_decide. Qed.

Lemma quiet_read_rooms {A} (f : RoomManager → R A) : quiet (read_rooms f).
Proof. intros cx. unfold read_rooms, on_rooms, asks. by destruct (f _). Qed.

Lemma quiet_read_gui {A} (f : GuiRoomManager → R A) : quiet (read_gui f).
Proof. intros cx. unfold read_gui, on_gui, asks. by destruct (f _). Qed.
End quiet.

(** Decomposes a handler into its statements. *)
Ltac quiet_step :=
  first
    [ assumption
    | solve [eauto with quiet nocore]
    | apply quiet_bind; [|intros ?]
    | apply quiet_with_exits; [|intros ?]
    | apply quiet_on_db | apply quiet_on_scores | apply quiet_on_score_dir | apply quiet_on_tus_dir
    | apply quiet_send_single | apply quiet_map_each; intros ?
    | apply quiet_map_err | apply quiet_attempt | apply quiet_unwrap_result
    | apply quiet_read_data | apply quiet_read_pb | apply quiet_send_notification
    | apply quiet_read_rooms | apply quiet_read_gui
    | apply quiet_for_each; intros ?
    | apply quiet_alter_info
    | apply quiet_track; intros ?; solve [reflexivity | cbv [add_gamename_hint]; repeat case_match; reflexivity]
    | apply quiet_on_shared; done
    | apply quiet_on_client; done
    | apply quiet_modify; done
    | apply quiet_pure; done
    | case_match ].
Ltac quiet := repeat quiet_step.

Lemma quiet_get_com_id_with_redir : quiet (get_com_id_with_redir).
Proof. unfold get_com_id_with_redir. quiet. Qed.
#[export] Hint Resolve quiet_get_com_id_with_redir : quiet.

Lemma quiet_get_com_and_pb {T} `{Message T} : quiet (get_com_and_pb (T := T)).
Proof. unfold get_com_and_pb. quiet. Qed.

Lemma quiet_check_data : quiet check_data.
Proof. unfold check_data. quiet. Qed.

Lemma quiet_get_database_connection env : quiet (get_database_connection env).
Proof. unfold get_database_connection. quiet. Qed.

Lemma quiet_reply_packet bs : quiet (reply_packet bs).
Proof. unfold reply_packet. quiet. Qed.

Lemma quiet_self_notification notif : quiet (self_notification notif).
Proof. unfold self_notification. quiet. Qed.
#[export] Hint Resolve quiet_get_com_and_pb quiet_check_data quiet_get_database_connection quiet_reply_packet
  quiet_self_notification : quiet.

Lemma quiet_reply_or_code {T} `{Message T} r : quiet (reply_or_code (T := T) r).
Proof. unfold reply_or_code. quiet. Qed.

Lemma quiet_reply_or_fail {T} `{Message T} r : quiet (reply_or_fail (T := T) r).
Proof. unfold reply_or_fail. quiet. Qed.

Lemma quiet_notify_update `{!HashOrder} {T} `{Message T} n id r : quiet (notify_update (T := T) n id r).
Proof. unfold notify_update. quiet. Qed.

Lemma quiet_reply_joined `{!HashOrder} `{!GuiCodec} {T} `{Message T} r : quiet (reply_joined (T := T) r).
Proof. unfold reply_joined. quiet. Qed.

Lemma quiet_send_join_notification `{!HashOrder} `{!RoomCodec} n : quiet (send_join_notification n).
Proof. unfold send_join_notification. quiet. Qed.

Lemma quiet_code_of r : quiet (code_of r).
Proof. unfold code_of. quiet. Qed.
#[export] Hint Resolve quiet_reply_or_code quiet_reply_or_fail quiet_notify_update quiet_reply_joined
  quiet_send_join_notification quiet_code_of : quiet.

(** The requests that only read. *)
Section reading.
Context `{!HashOrder} `{!RoomCodec} `{!GuiCodec} (env : Env).

Lemma quiet_search_room : quiet (req_search_room env).
Proof. unfold req_search_room. quiet. Qed.

Lemma quiet_search_room_all : quiet req_search_room_all.
Proof. unfold req_search_room_all. quiet. Qed.

Lemma quiet_get_roomdata_external_list : quiet req_get_roomdata_external_list.
Proof. unfold req_get_roomdata_external_list. quiet. Qed.

Lemma quiet_get_room_member_data_external_list : quiet req_get_room_member_data_external_list.
Proof. unfold req_get_room_member_data_external_list. quiet. Qed.

Lemma quiet_get_roomdata_internal : quiet req_get_roomdata_internal.
Proof. unfold req_get_roomdata_internal. quiet. Qed.

Lemma quiet_get_roommemberdata_internal : quiet req_get_roommemberdata_internal.
Proof. unfold req_get_roommemberdata_internal. quiet. Qed.

Lemma quiet_ping_room_owner : quiet req_ping_room_owner.
Proof. unfold req_ping_room_owner. quiet. Qed.

Lemma quiet_send_room_message : quiet req_send_room_message.
Proof. unfold req_send_room_message. quiet. Qed.

Lemma quiet_get_room_list_gui : quiet req_get_room_list_gui.
Proof. unfold req_get_room_list_gui. quiet. Qed.

Lemma quiet_get_room_search_flag_gui : quiet req_get_room_search_flag_gui.
Proof. unfold req_get_room_search_flag_gui. quiet. Qed.

Lemma quiet_get_room_info_gui : quiet req_get_room_info_gui.
Proof. unfold req_get_room_info_gui. quiet. Qed.
End reading.
