(* ===== verification/ServiceFrames.v ===== *)
(** * The requests that do not concern rooms leave them alone *)

From S2P Require Import ScoreCache Text Database Accounts Friendships DbScore DbTus Config DataFiles.
From S2P Require Import Prelude Protocol StreamExtractor Messages StorageMessages RoomData Room RoomManager GuiRoom.
From S2P Require Import GuiRoomManager GameTracker ClientState RoomCommands GuiCommands TusCommands ScoreCommands.
From S2P Require Import AccountCommands FriendCommands Dispatch CommandFrames.

Section storage.
Context `{!HashOrder} `{!External} `{!TusCodec} `{!ScoreCodec} `{!MiscCodec} (env : Env).

Lemma quiet_author_name id : quiet (author_name id).
Proof. unfold author_name. quiet. Qed.

Lemma quiet_lookup_user npid : quiet (lookup_user npid).
Proof. unfold lookup_user. quiet. Qed.
#[local] Hint Resolve quiet_author_name quiet_lookup_user : quiet.

Lemma quiet_own_user npid : quiet (own_user npid).
Proof. unfold own_user. quiet. Qed.

Lemma quiet_final_variable v : quiet (final_variable v).
Proof. unfold final_variable. quiet. Qed.

Lemma quiet_final_status v : quiet (final_status v).
Proof. unfold final_status. quiet. Qed.

Lemma quiet_read_variable {E} (e : E) m : quiet (read_variable e m).
Proof. unfold read_variable. quiet. Qed.

Lemma quiet_read_status {E} m : quiet (read_status (E := E) m).
Proof. unfold read_status. quiet. Qed.

Lemma quiet_required_user u : quiet (required_user u).
Proof. unfold required_user. quiet. Qed.

Lemma quiet_friend_list b : quiet (friend_list b).
Proof. unfold friend_list. quiet. Qed.

Lemma quiet_compare_author_id s : quiet (compare_author_id s).
Proof. unfold compare_author_id. quiet. Qed.

Lemma quiet_at_most_one l : quiet (at_most_one l).
Proof. unfold at_most_one. quiet. Qed.

Lemma quiet_reply_variable npid v : quiet (reply_variable npid v).
Proof. unfold reply_variable. quiet. Qed.

Lemma quiet_reply_data npid r : quiet (reply_data env npid r).
Proof. unfold reply_data. quiet. Qed.

Lemma quiet_store_data check ts author data set_row : quiet (store_data env check ts author data set_row).
Proof. unfold store_data, preliminary_set_tus_data_check. quiet. Qed.

Lemma quiet_extend_reply bs : quiet (extend_reply bs).
Proof. unfold extend_reply. quiet. Qed.

Lemma quiet_check_admin : quiet check_admin.
Proof. unfold check_admin. quiet. Qed.
End storage.
#[export] Hint Resolve quiet_author_name quiet_lookup_user quiet_own_user quiet_final_variable quiet_final_status
  quiet_read_variable quiet_read_status quiet_required_user quiet_friend_list quiet_compare_author_id
  quiet_at_most_one quiet_reply_variable quiet_reply_data quiet_store_data quiet_extend_reply quiet_check_admin : quiet.

Section services.
Context `{!HashOrder} `{!External} `{!ServerCodec} (env : Env).

Lemma quiet_presence self com_id req : quiet (change_presence self com_id req).
Proof. unfold change_presence, write_cut, write_presence, update_shared_info. quiet. Qed.

Lemma quiet_notify_presence info : quiet (notify_presence info).
Proof. unfold notify_presence. quiet. Qed.
#[local] Hint Resolve quiet_presence quiet_notify_presence : quiet.

(** Every handler of a request that does not concern rooms. *)
Lemma quiet_service_handler command h : service_handler env command = Some h → quiet h.
Proof.
  destruct command; simpl; intros Heq; try discriminate; injection Heq as <-.
  - unfold add_friend, other_user, request_friend, own_info, update_shared_info, is_online. quiet.
  - unfold remove_friend, other_user, end_friendship, own_info, update_shared_info. quiet.
  - unfold add_block. quiet.
  - unfold remove_block. quiet.
  - unfold req_get_server_list. quiet.
  - unfold req_get_world_list. quiet.
  - unfold req_set_userinfo, is_online, update_shared_info. quiet.
  - unfold req_signaling_infos, own_info. quiet.
  - unfold req_ticket, own_info. quiet.
  - unfold send_message, own_info. quiet.
  - unfold client_get_board_infos, create_missing. quiet.
  - unfold client_record_score, create_missing. quiet.
  - unfold client_record_score_data. quiet.
  - unfold client_get_score_data. quiet.
  - unfold client_get_score_range, reply_scores. quiet.
  - unfold client_get_score_friends, reply_scores. quiet.
  - unfold client_get_score_npid, reply_scores. quiet.
  - unfold get_network_time. quiet.
  - unfold tus_set_multislot_variable. quiet.
  - unfold tus_get_multislot_variable. quiet.
  - unfold tus_get_multiuser_variable. quiet.
  - unfold tus_get_friends_variable, get_username_with_helper. quiet.
  - unfold tus_add_and_get_variable. quiet.
  - unfold tus_try_and_set_variable. quiet.
  - unfold tus_delete_multislot_variable. quiet.
  - unfold tus_set_data. quiet.
  - unfold tus_get_data. quiet.
  - unfold tus_get_multislot_data_status. quiet.
  - unfold tus_get_multiuser_data_status. quiet.
  - unfold tus_get_friends_data_status, get_username_with_helper. quiet.
  - unfold tus_delete_multislot_data. quiet.
  - unfold set_presence, own_info, update_shared_info. quiet.
  - unfold req_admin_update_domain_bans. quiet.
  - unfold req_admin_terminate_server. quiet.
  - unfold req_admin_update_servers_cfg. quiet.
  - unfold req_admin_ban_user, update_shared_info. quiet.
  - unfold req_admin_del_user, is_online. quiet.
Qed.
End services.

(** ** Before the login

    The login changes who the caller is, and still leaves the rooms alone. *)

Definition keeps_rooms {E A} (h : M Ctx E A) : Prop :=
  ∀ cx, rooms_of (h cx).2 = rooms_of cx ∧ gui_of (h cx).2 = gui_of cx.

Section keeps_rooms.
Context `{!HashOrder} `{!External} `{!ServerCodec} (env : Env).

Lemma quiet_keeps_rooms {E A} (h : M Ctx E A) : quiet h → keeps_rooms h.
Proof. intros Hq cx. by destruct (Hq cx) as (? & ? & _). Qed.

Lemma keeps_rooms_bind {E A B} (m : M Ctx E A) (k : A → M Ctx E B) :
  keeps_rooms m → (∀ a, keeps_rooms (k a)) → keeps_rooms (bind m k).
Proof.
  intros Hm Hk cx. specialize (Hm cx). unfold bind. destruct (m cx) as [[a|e|] cx1]; simpl in *; try done.
  destruct Hm as [<- <-]. apply Hk.
Qed.

Lemma keeps_rooms_login_checked name user_data : keeps_rooms (login_checked env name user_data).
Proof.
  unfold login_checked. case_match; [by apply quiet_keeps_rooms, quiet_pure|].
  repeat first
    [ apply quiet_keeps_rooms; solve [quiet]
    | apply keeps_rooms_bind; [|intros ?]
    | by intros ?
    | case_match ].
Qed.

Lemma keeps_rooms_login_handler command h : login_handler env command = Some h → keeps_rooms h.
Proof.
  destruct command; simpl; intros Heq; try discriminate; injection Heq as <-.
  - unfold login. repeat first
      [ apply keeps_rooms_login_checked | apply quiet_keeps_rooms; solve [quiet]
      | apply keeps_rooms_bind; [|intros ?] | case_match ].
  - apply quiet_keeps_rooms. unfold create_account, send_mail. quiet.
  - apply quiet_keeps_rooms. unfold delete_account. quiet.
  - apply quiet_keeps_rooms. unfold resend_token, send_mail. quiet.
  - apply quiet_keeps_rooms. unfold send_reset_token, send_mail. quiet.
  - apply quiet_keeps_rooms. unfold reset_password. quiet.
Qed.
End keeps_rooms.
