(* ===== verification/CommandMoves.v ===== *)
(** * Requests as steps of the room machines

    Each handler takes the room managers through steps of their state machines, so
    the invariants proved for those machines hold in the server whatever the
    clients send. *)

From S2P Require Import ScoreCache Text Database Accounts Friendships DbScore DbTus Config DataFiles.
From S2P Require Import Prelude Protocol StreamExtractor Messages RoomData Room RoomManager RoomInv.
From S2P Require Import RoomReports RoomManagerInv RoomCreate RoomJoin RoomMachine GuiRoom GuiRoomManager.
From S2P Require Import GuiInv GuiMachine GuiRules GameTracker Matchmaking ClientState RoomCommands.
From S2P Require Import GuiCommands Dispatch CommandFrames.

Section evolves.
Context `{!HashOrder}.

(** The managers moved by steps of their machines; the caller is the same. *)
Definition evolves (cx cx' : Ctx) : Prop :=
  rtc rm_step (rooms_of cx) (rooms_of cx') ∧ rtc (gui_step false) (gui_of cx) (gui_of cx') ∧
  info_of cx' = info_of cx.

Definition moves {A} (h : H A) : Prop := ∀ cx, evolves cx (h cx).2.

#[export] Instance evolves_preorder : PreOrder evolves.
Proof.
  split; [by intros ?; repeat split|]. intros ??? (?&?&?) (?&?&?). split; [by etransitivity|].
  split; [by etransitivity|congruence].
Qed.

Lemma same_evolves cx cx' : same_rooms cx cx' → evolves cx cx'.
Proof. intros (E1 & E2 & E3 & _). unfold evolves. rewrite E1, E2. done. Qed.

Lemma quiet_moves {A} (h : H A) : quiet h → moves h.
Proof. intros Hq cx. apply same_evolves, Hq. Qed.

Lemma moves_on_shared f :
  (∀ s, sv_room_manager (f s) = sv_room_manager s ∧ sv_gui_room_manager (f s) = sv_gui_room_manager s) → moves (on_shared f).
Proof. intros Hf cx. destruct (Hf (cx_shared cx)) as [E1 E2]. unfold evolves. simpl. by rewrite E1, E2. Qed.

Lemma moves_on_client f : (∀ c, cl_client_info (f c) = cl_client_info c) → moves (on_client f).
Proof. intros Hf cx. split; [done|]. split; [done|]. apply Hf. Qed.

Lemma moves_bind {A B} (m : H A) (k : A → H B) : moves m → (∀ a, moves (k a)) → moves (bind m k).
Proof.
  intros Hm Hk cx. specialize (Hm cx). unfold bind. destruct (m cx) as [[a|e|] cx1]; simpl in *; try done.
  etransitivity; [exact Hm|]. apply Hk.
Qed.

Lemma moves_for_each {B} (f : B → H unit) xs : (∀ x, moves (f x)) → moves (for_each f xs).
Proof. intros Hf. induction xs; simpl; [by apply quiet_moves, quiet_pure|]. by apply moves_bind. Qed.

Lemma moves_ignore_code {A} (h : H A) : moves h → moves (ignore_code h).
Proof. intros Hh cx. specialize (Hh cx). unfold ignore_code. by destruct (h cx) as [[] ?]. Qed.

Lemma on_rooms_snd {A} (m : RM A) cx :
  (on_rooms m cx).2 = cx <| cx_shared ::= (λ s, s <| sv_room_manager := (m (rooms_of cx)).2 |>) |>.
Proof. unfold on_rooms. by destruct (m _) as [[] ?]. Qed.

Lemma on_gui_snd {A} (m : GM A) cx :
  (on_gui m cx).2 = cx <| cx_shared ::= (λ s, s <| sv_gui_room_manager := (m (gui_of cx)).2 |>) |>.
Proof. unfold on_gui. by destruct (m _) as [[] ?]. Qed.

Lemma evolves_on_rooms {A} (m : RM A) cx :
  rtc rm_step (rooms_of cx) (m (rooms_of cx)).2 → evolves cx (on_rooms m cx).2.
Proof. intros Hs. rewrite on_rooms_snd. by repeat split. Qed.

Lemma evolves_on_gui {A} (m : GM A) cx :
  rtc (gui_step false) (gui_of cx) (m (gui_of cx)).2 → evolves cx (on_gui m cx).2.
Proof. intros Hs. rewrite on_gui_snd. by repeat split. Qed.

(** An operation of the room machine that the manager takes from any state. *)
Lemma moves_on_rooms {A} (m : RM A) (op : rm_op) :
  (∀ rm, rm_run op rm = Some (m rm).2) → moves (on_rooms m).
Proof. intros Hop cx. apply evolves_on_rooms, rtc_once. by econstructor. Qed.

Lemma moves_on_gui {A} (m : GM A) (op : gui_op) :
  (∀ g, gui_run op g = Some (outcome (m g))) → moves (on_gui m).
Proof. intros Hop cx. apply evolves_on_gui, rtc_once. by econstructor; [rewrite Hop; unfold outcome|]. Qed.

(** ** Reasoning on a handler's run *)

Lemma wp_quiet {A} (h : H A) cx (Q : res ErrorType A → Ctx → Prop) :
  quiet h → (∀ r cx', same_rooms cx cx' → Q r cx') → wp h cx Q.
Proof. intros Hq HQ. unfold wp. apply HQ, Hq. Qed.

Lemma wp_moves {A} (h : H A) cx0 cx : moves h → evolves cx0 cx → wp h cx (λ _ cx', evolves cx0 cx').
Proof. intros Hm He. unfold wp. etransitivity; [exact He|]. apply Hm. Qed.

(** A step followed by code that moves on by steps. *)
Lemma wp_bind_moves {A B} (m : H A) (k : A → H B) cx0 cx :
  wp m cx (λ _ cx', evolves cx0 cx') → (∀ a, moves (k a)) → wp (bind m k) cx (λ _ cx', evolves cx0 cx').
Proof.
  intros Hm Hk. apply wp_bind. eapply wp_mono; [|exact Hm]. intros [a|e|] cx' He; simpl; try done.
  by apply wp_moves.
Qed.
End evolves.

Create HintDb moves.

Ltac moves_step :=
  first
    [ assumption
    | solve [eauto with moves nocore]
    | apply quiet_moves; solve [quiet]
    | apply moves_bind; [|intros ?]
    | apply moves_on_shared; done | apply moves_on_client; done
    | apply moves_for_each; intros ?
    | apply moves_ignore_code
    | case_match ].
Ltac moves := repeat moves_step.

(** ** Titles *)

Lemma com_id_valid_ascii c : length c = COMMUNICATION_ID_SIZE → com_id_valid c = true → com_ascii c.
Proof.
  intros Hl. unfold com_id_valid, slice. rewrite !andb_true_iff, !forallb_forall, bool_decide_eq_true.
  intros [[H1 H2] H3]. split; [done|]. unfold COMMUNICATION_ID_SIZE in Hl.
  destruct (lookup_lt_is_Some_2 c 9) as [x Hx]; [lia|]. rewrite <- (take_drop_middle _ _ _ Hx).
  rewrite H2 in Hx. injection Hx as <-. simpl in H1, H3. rewrite take_ge in H3 by (rewrite length_drop; lia).
  apply Forall_app. split; [|constructor; [lia|]]; apply Forall_forall; intros b Hb%list_elem_of_In.
  - specialize (H1 b Hb). unfold is_ascii_uppercase, is_ascii_digit in H1. apply orb_true_iff in H1 as [|]; bool_hyps; lia.
  - specialize (H3 b Hb). unfold is_ascii_digit in H3. bool_hyps. lia.
Qed.

Lemma get_com_id_ascii s : se_error (get_com_id s).2 = false → com_ascii (get_com_id s).1.
Proof.
  unfold get_com_id. pose proof (get_bytes_length COMMUNICATION_ID_SIZE s) as Hl.
  destruct (get_bytes COMMUNICATION_ID_SIZE s) as [c s1]. case_bool_decide; simpl in *; [done|].
  intros [_ Hv]%orb_false_iff. apply com_id_valid_ascii; [done|]. by destruct (com_id_valid c).
Qed.

(** The configured redirections lead to printable titles. *)
Definition redirs_ok (config : Config) : Prop := ∀ c c', cf_server_redirs config !! c = Some c' → com_ascii c'.

Section titles.
Context (env : Env).

(** The title a request is about, once the request has been accepted. *)
Lemma get_com_and_pb_wp {T} `{Message T} cx (Q : res ErrorType (ComId * T) → Ctx → Prop) :
  redirs_ok (sv_config (cx_shared cx)) →
  (∀ cx', same_rooms cx cx' →
     (∀ e, Q (Err e) cx') ∧
     (∀ c req bs, com_ascii c → decode_message bs = Some req → Q (Ok (c, req)) cx')) →
  wp get_com_and_pb cx Q.
Proof.
  intros Hre HQ. unfold get_com_and_pb. apply wp_bind.
  set (se := (get_com_id (cx_data cx)).2). set (c := (get_com_id (cx_data cx)).1).
  assert (wp (get_com_id_with_redir) cx (λ r cx', same_rooms cx cx' ∧ cx_data cx' = se ∧
            r = Ok (get_server_redirection (sv_config (cx_shared cx)) c))) as Hc.
  { pose proof (quiet_get_com_id_with_redir cx) as Hq. unfold wp, get_com_id_with_redir, read_data, bind in *.
    subst se c. destruct (get_com_id (cx_data cx)) as [c se]. simpl in *.
    destruct (cl_current_game (cx_client cx)).1; simpl in *; [case_bool_decide|]; done. }
  eapply wp_mono; [|exact Hc]. intros r cx1 (Hs & Hd & ->). apply wp_bind. unfold read_pb, wp, get_pb. simpl.
  rewrite Hd. pose proof (get_protobuf_later decode_message se) as (_ & _ & Hl).
  destruct (get_protobuf decode_message se) as [pb se'] eqn:Hpb. simpl in *.
  destruct (HQ (cx1 <| cx_data := se' |>)) as [HE HO]; [by etransitivity|].
  destruct (se_error se') eqn:He; [apply HE|]. destruct pb as [req|]; simpl; [|apply HE].
  assert (∃ bs, decode_message bs = Some req) as [bs Hbs].
  { unfold get_protobuf in Hpb. destruct (get_uint 4 se). case_bool_decide; simplify_eq. eauto. }
  apply (HO _ _ bs); [|done]. unfold get_server_redirection.
  destruct (cf_server_redirs (sv_config (cx_shared cx)) !! c) as [c'|] eqn:Hc'; simpl; [by eapply Hre|].
  apply get_com_id_ascii. fold se. destruct (se_error se); [by specialize (Hl I)|done].
Qed.
End titles.

(** ** Handlers *)

(** What [prost] guarantees of decoded messages: unsigned fields. *)
Class CodecOk `{!RoomCodec} `{!GuiCodec} : Prop := {
  ok_create : ∀ bs (req : CreateJoinRoomRequest), decode_message bs = Some req → 0 ≤ cjr_max_slot req;
  ok_quickmatch : ∀ bs (req : QuickMatchGuiRequest), decode_message bs = Some req → conds_wf (qm_conds req);
  ok_searchjoin : ∀ bs (req : SearchJoinRoomGuiRequest), decode_message bs = Some req →
    conds_wf (sj_conds req) ∧ Forall (λ a, 0 ≤ ma_attr_id a) (sj_attrs req);
}.

(** No 64-bit room counter is about to wrap. *)
Definition counters_ok (s : SharedData) : Prop :=
  (∀ c, counter (sv_room_manager s) c + 1 < 2 ^ 64) ∧ gg_cur_room_id (sv_gui_room_manager s) + 1 < 2 ^ 64.

Section handlers.
Context `{!HashOrder} `{!RoomCodec} `{!GuiCodec} (env : Env).

Lemma moves_client_leave_room c id opt cause : moves (client_leave_room env c id opt cause).
Proof.
  unfold client_leave_room. moves. apply (moves_on_rooms _ (OpLeave (en_rng env) c id a1)). done.
Qed.

Lemma moves_client_leave_room_gui id : moves (client_leave_room_gui env id).
Proof.
  unfold client_leave_room_gui. moves. apply (moves_on_gui _ (GuiLeave (en_rng env) id a)). done.
Qed.
#[local] Hint Resolve moves_client_leave_room moves_client_leave_room_gui : moves.

Lemma moves_clean_user_state : moves (clean_user_state env).
Proof. unfold clean_user_state. moves. Qed.

Lemma moves_leave_room : moves (req_leave_room env).
Proof. unfold req_leave_room, extend_reply. moves. Qed.

Lemma moves_leave_room_gui : moves (req_leave_room_gui env).
Proof. unfold req_leave_room_gui. moves. Qed.

Lemma moves_set_roomdata_external : moves req_set_roomdata_external.
Proof.
  unfold req_set_roomdata_external. moves. by eapply (moves_on_rooms _ (OpSetExternal _ _ _)).
Qed.

Lemma moves_set_roomdata_internal : moves (req_set_roomdata_internal env).
Proof.
  unfold req_set_roomdata_internal. moves. by eapply (moves_on_rooms _ (OpSetInternal _ _ _ _)).
Qed.

Lemma moves_set_roommemberdata_internal : moves (req_set_roommemberdata_internal env).
Proof.
  unfold req_set_roommemberdata_internal. moves. by eapply (moves_on_rooms _ (OpSetMember _ _ _ _)).
Qed.

Lemma moves_join_room_gui : moves req_join_room_gui.
Proof. unfold req_join_room_gui. moves. by eapply (moves_on_gui _ (GuiJoin _ _)). Qed.

Lemma moves_set_room_search_flag_gui : moves req_set_room_search_flag_gui.
Proof. unfold req_set_room_search_flag_gui. moves. by eapply (moves_on_gui _ (GuiSetFlag _ _ _)). Qed.

Lemma moves_set_room_info_gui : moves req_set_room_info_gui.
Proof. unfold req_set_room_info_gui. moves. by eapply (moves_on_gui _ (GuiSetInfo _ _ _)). Qed.
End handlers.
