(* ===== verification/DbFrames.v ===== *)
(** * What requests may do to the database

    A relation between databases that every writing statement respects is respected
    by every method, every request handler and the daily cleaner: [DbRelation] lists
    the statements, the rest follows from it.  Since the statements are atomic, it
    holds at every point of any interleaving of requests. *)

From S2P Require Import ScoreCache Text Database Accounts Friendships DbScore DbTus Config DataFiles.
From S2P Require Import Prelude Protocol StreamExtractor Messages StorageMessages RoomData Room RoomManager GuiRoom.
From S2P Require Import GuiRoomManager GameTracker ClientState UdpServer RoomCommands GuiCommands TusCommands.
From S2P Require Import ScoreCommands AccountCommands FriendCommands Dispatch CommandFrames CommandMoves.

Abbreviation db_of cx := (sv_db (cx_shared cx)).

(** Statements that only read at most use up a fault. *)
Class FaultRelation (R : Database → Database → Prop) := {
  rel_preorder :: PreOrder R;
  rel_faults : ∀ db faults, R db (db <| db_faults := faults |>);
}.

Class DbRelation `{!External} (R : Database → Database → Prop) := {
  rel_base :: FaultRelation R;
  rel_insert_account : ∀ a db, R db (insert_account a db).2;
  rel_insert_account_timestamp : ∀ u t db, R db (insert_account_timestamp u t db).2;
  rel_update_account_timestamp : ∀ u f db, R db (update_account_timestamp u f db).2;
  rel_delete_accounts : ∀ ids db, R db (delete_accounts ids db).2;
  rel_delete_account_timestamps : ∀ ids db, R db (delete_account_timestamps ids db).2;
  rel_delete_friendships : ∀ ids db, R db (delete_friendships ids db).2;
  rel_reauthor_tus_var : ∀ u v db, R db (reauthor_tus_var u v db).2;
  rel_reauthor_tus_data : ∀ u v db, R db (reauthor_tus_data u v db).2;
  rel_reauthor_tus_var_vuser : ∀ u v db, R db (reauthor_tus_var_vuser u v db).2;
  rel_reauthor_tus_data_vuser : ∀ u v db, R db (reauthor_tus_data_vuser u v db).2;
  rel_insert_username_hash : ∀ h d db, R db (insert_username_hash h d db).2;
  rel_insert_email_hash : ∀ h d db, R db (insert_email_hash h d db).2;
  rel_drop_username_hashes : ∀ d db, R db (drop_username_hashes d db).2;
  rel_drop_email_hashes : ∀ d db, R db (drop_email_hashes d db).2;
  rel_set_password : ∀ h salt t u old db, R db (set_password h salt t u old db).2;
  rel_set_reset_token : ∀ t u db, R db (set_reset_token t u db).2;
  rel_set_banned : ∀ u db, R db (set_banned u db).2;
  rel_replace_friendship : ∀ u v a b db, R db (replace_friendship u v a b db).2;
  rel_insert_server : ∀ c i db, R db (insert_server c i db).2;
  rel_insert_world : ∀ c i w db, R db (insert_world c i w db).2;
  rel_insert_lobby : ∀ c w l db, R db (insert_lobby c w l db).2;
  rel_insert_score_table : ∀ k i db, R db (insert_score_table k i db).2;
  rel_replace_score_table : ∀ k i db, R db (replace_score_table k i db).2;
  rel_upsert_score : ∀ i k s db, R db (upsert_score i k (new_score_row s) db).2;
  rel_update_score_data : ∀ k s d db, R db (update_score_data k s d db).2;
  rel_upsert_tus_var : ∀ k r g m db, R db (upsert tus_var k r g m db).2;
  rel_upsert_tus_var_vuser : ∀ k r g m db, R db (upsert tus_var_vuser k r g m db).2;
  rel_upsert_tus_data : ∀ k r g m db, R db (upsert tus_data k r g m db).2;
  rel_upsert_tus_data_vuser : ∀ k r g m db, R db (upsert tus_data_vuser k r g m db).2;
  rel_delete_tus_var : ∀ o c l db, R db (delete_slots tus_var o c l db).2;
  rel_delete_tus_var_vuser : ∀ o c l db, R db (delete_slots tus_var_vuser o c l db).2;
  rel_delete_tus_data : ∀ o c l db, R db (delete_slots tus_data o c l db).2;
  rel_delete_tus_data_vuser : ∀ o c l db, R db (delete_slots tus_data_vuser o c l db).2;
}.

(** ** Programs on the database *)

Section programs.
Context (R : Database → Database → Prop) `{!FaultRelation R}.

Definition respects {E A} (m : M Database E A) : Prop := ∀ db, R db (m db).2.

Lemma respects_pure {E A} (m : M Database E A) : (∀ db, (m db).2 = db) → respects m.
Proof. intros Hm db. rewrite Hm. reflexivity. Qed.

Lemma respects_bind {E A B} (m : M Database E A) (k : A → M Database E B) :
  respects m → (∀ a, respects (k a)) → respects (bind m k).
Proof.
  intros Hm Hk db. specialize (Hm db). unfold bind. destruct (m db) as [[a|e|] db1]; simpl in *; try done.
  etransitivity; [exact Hm|]. apply Hk.
Qed.

Lemma respects_map_err {E E' A} (f : E → E') (m : M Database E A) : respects m → respects (map_err f m).
Proof. intros Hm db. specialize (Hm db). unfold map_err. by destruct (m db) as [[] ?]. Qed.

Lemma respects_attempt {E E' A} (m : M Database E A) : respects m → respects (attempt (E' := E') m).
Proof. intros Hm db. specialize (Hm db). unfold attempt. by destruct (m db) as [[] ?]. Qed.

Lemma respects_unwrap_result {E E' A} (m : M Database E A) : respects m → respects (unwrap_result (E' := E') m).
Proof. intros Hm db. specialize (Hm db). unfold unwrap_result. by destruct (m db) as [[] ?]. Qed.

Lemma respects_for_each {E B} (f : B → M Database E unit) xs : (∀ x, respects (f x)) → respects (for_each f xs).
Proof. intros Hf. induction xs; simpl; [by apply respects_pure|]. by apply respects_bind. Qed.

(** A statement that does not write at most uses up a fault. *)
Lemma respects_sql {A} (f : Database → SqlError + A * Database) :
  (∀ db a db', f db = inr (a, db') → db' = db) → respects (sql f).
Proof.
  intros Hf db. unfold sql. destruct (db_faults db) as [|[] faults]; simpl; try apply rel_faults;
    destruct (f _) as [e|[a db']] eqn:E; simpl; try apply rel_faults; apply Hf in E as ->; apply rel_faults.
Qed.

Lemma respects_select {A} (f : Database → A) : respects (select f).
Proof. apply respects_sql. congruence. Qed.

Lemma respects_query_row {A} (f : Database → option A) : respects (query_row f).
Proof. apply respects_sql. intros db a db'. destruct (f db); congruence. Qed.
End programs.
#[export] Hint Unfold internal or_empty : respects.

Create HintDb respects.
#[export] Hint Resolve respects_select respects_query_row : respects.

Ltac respects_step :=
  first
    [ assumption
    | solve [eauto with respects nocore]
    | apply respects_bind; [typeclasses eauto| |intros ?]
    | apply respects_map_err | apply respects_attempt | apply respects_unwrap_result
    | apply respects_for_each; [typeclasses eauto|intros ?]
    | apply respects_select; typeclasses eauto | apply respects_query_row; typeclasses eauto
    | intros ?;
      first [ apply rel_insert_account | apply rel_insert_account_timestamp | apply rel_update_account_timestamp
            | apply rel_delete_accounts | apply rel_delete_account_timestamps | apply rel_delete_friendships
            | apply rel_reauthor_tus_var | apply rel_reauthor_tus_data | apply rel_reauthor_tus_var_vuser
            | apply rel_reauthor_tus_data_vuser | apply rel_insert_username_hash | apply rel_insert_email_hash
            | apply rel_drop_username_hashes | apply rel_drop_email_hashes | apply rel_set_password
            | apply rel_set_reset_token | apply rel_set_banned | apply rel_replace_friendship
            | apply rel_insert_server | apply rel_insert_world | apply rel_insert_lobby
            | apply rel_insert_score_table | apply rel_replace_score_table | apply rel_upsert_score
            | apply rel_update_score_data | apply rel_upsert_tus_var | apply rel_upsert_tus_var_vuser
            | apply rel_upsert_tus_data | apply rel_upsert_tus_data_vuser | apply rel_delete_tus_var
            | apply rel_delete_tus_var_vuser | apply rel_delete_tus_data | apply rel_delete_tus_data_vuser ]
    | apply respects_pure; [typeclasses eauto|done]
    | case_match ].
Ltac respects := unfold internal, or_empty; repeat respects_step.

Section lookups.
Context (R : Database → Database → Prop) `{!FaultRelation R}.

Lemma respects_get_user_id name : respects R (get_user_id name).
Proof. unfold get_user_id. respects. Qed.

Lemma respects_get_username id : respects R (get_username id).
Proof. unfold get_username. respects. Qed.
End lookups.
#[export] Hint Resolve respects_get_user_id respects_get_username : respects.

Section methods.
Context `{!External} (R : Database → Database → Prop) `{!DbRelation R} `{!HashOrder}.

Lemma respects_hash_username name : respects R (hash_username name).
Proof. unfold hash_username, get_username_salt. respects. Qed.

Lemma respects_hash_email name : respects R (hash_email name).
Proof. unfold hash_email, get_email_salt. respects. Qed.
#[local] Hint Resolve respects_hash_username respects_hash_email : respects.

Lemma respects_check_user name pw token b : respects R (check_user name pw token b).
Proof. unfold check_user. respects. Qed.

Lemma respects_db_add_user now rng name pw online avatar email check admin :
  respects R (db_add_user now rng name pw online avatar email check admin).
Proof. unfold db_add_user, check_username_vs_deleted, check_email_vs_deleted. respects. Qed.

Lemma respects_delete_user now uid name email : respects R (delete_user now uid name email).
Proof. unfold delete_user, disown, get_deleted_user_id. respects. Qed.

Lemma respects_userid_to_username ids : respects R (userid_to_username ids).
Proof. induction ids; simpl; respects. Qed.
#[local] Hint Resolve respects_userid_to_username : respects.

Lemma respects_get_relationships uid : respects R (get_relationships uid).
Proof. unfold get_relationships. respects. Qed.

Lemma respects_update_servers_cfg file : respects R (update_servers_cfg file).
Proof. unfold update_servers_cfg, insert_config_server, insert_config_lobby. respects. Qed.

Lemma respects_db_record_score com bid s b : respects R (db_record_score com bid s b).
Proof. unfold db_record_score, db_get_board_infos, create_score_board. respects. Qed.

Lemma respects_cleanup_expired_hashes now : respects R (cleanup_expired_hashes now).
Proof. unfold cleanup_expired_hashes. respects. Qed.

Lemma respects_cleanup_never_used_accounts now : respects R (cleanup_never_used_accounts now).
Proof. unfold cleanup_never_used_accounts. respects. Qed.

(** One round of the daily cleaner. *)
Lemma clean_daily_respects env s : R (sv_db s) (sv_db (clean_daily env s)).
Proof.
  unfold clean_daily. destruct (en_db_ok env); [|reflexivity]. simpl.
  etransitivity; [apply (respects_cleanup_expired_hashes (en_seconds env))|]. apply respects_cleanup_never_used_accounts.
Qed.
End methods.
#[export] Hint Resolve respects_check_user respects_db_add_user
  respects_delete_user respects_get_relationships respects_update_servers_cfg respects_db_record_score : respects.
