(* ===== verification/ApiFrames.v ===== *)
(** * What API requests may change

    An API request reads the shared state; it changes at most the database, by the
    statements of its methods, and the permits that end connections. *)

From S2P Require Import ScoreCache Text Database Accounts Friendships DbScore DbTus Config DataFiles Json Http.
From S2P Require Import Prelude Protocol StreamExtractor Messages RoomData Room RoomManager GuiRoom GuiRoomManager.
From S2P Require Import GameTracker ClientState ApiServer DbFrames.

(** An entry up to its permit, and tables of clients that differ in permits only. *)
Definition unkicked (i : ClientSharedInfo) : ClientSharedInfo := i <| cs_kicked := false |>.

Definition kicks_only (m m' : gmap Z ClientSharedInfo) : Prop := ∀ u, unkicked <$> m' !! u = unkicked <$> m !! u.

Record api_frame (R : Database → Database → Prop) (s s' : SharedData) : Prop := {
  af_db : R (sv_db s) (sv_db s');
  af_clients : kicks_only (sv_client_infos s) (sv_client_infos s');
  af_rest : s' = s <| sv_db := sv_db s' |> <| sv_client_infos := sv_client_infos s' |>;
}.

Section frames.
Context `{!HashOrder} `{!External} `{!HttpLib} (R : Database → Database → Prop) `{!DbRelation R}.

#[export] Instance api_frame_preorder : PreOrder (api_frame R).
Proof.
  split.
  - intros s. split; [reflexivity|by intros u|by destruct s].
  - intros s1 s2 s3 [Hd Hk Hr] [Hd' Hk' Hr']. split.
    + by etransitivity.
    + intros u. by rewrite Hk', Hk.
    + rewrite Hr', Hr. by destruct s1.
Qed.

Definition framed {E A} (m : M SharedData E A) : Prop := ∀ s, api_frame R s (m s).2.

Lemma framed_pure {E A} (m : M SharedData E A) : (∀ s, (m s).2 = s) → framed m.
Proof. intros Hm s. rewrite Hm. reflexivity. Qed.

Lemma framed_bind {E A B} (m : M SharedData E A) (k : A → M SharedData E B) :
  framed m → (∀ a, framed (k a)) → framed (bind m k).
Proof.
  intros Hm Hk s. specialize (Hm s). unfold bind. destruct (m s) as [[a|e|] s1]; simpl in *; try done.
  etransitivity; [exact Hm|apply Hk].
Qed.

Lemma framed_map_err {E E' A} (f : E → E') (m : M SharedData E A) : framed m → framed (map_err f m).
Proof. intros Hm s. specialize (Hm s). unfold map_err. by destruct (m s) as [[] ?]. Qed.

Lemma framed_api_db {E A} (m : M Database E A) : respects R m → framed (api_db m).
Proof.
  intros Hm s. specialize (Hm (sv_db s)). unfold api_db. destruct (m (sv_db s)) as [r db]. simpl in *.
  split; [done|by intros u|by destruct s].
Qed.

Lemma framed_spawn_blocking {A} (m : AP A) : framed m → framed (spawn_blocking m).
Proof. intros Hm s. specialize (Hm s). unfold spawn_blocking. by destruct (m s) as [[] ?]. Qed.

Lemma framed_into_response (m : AP json) : framed m → framed (into_response m).
Proof. intros Hm s. specialize (Hm s). unfold into_response. by destruct (m s) as [[] ?]. Qed.

Lemma framed_kick u : framed (E := ApiError) (modify (kick u)).
Proof.
  intros s. split; [reflexivity| |by destruct s]. intros v. simpl. rewrite lookup_alter.
  destruct (decide (u = v)) as [->|]; [|done]. by destruct (sv_client_infos s !! v).
Qed.

Lemma framed_json_body {A} (decode : bytes → option A) body : framed (json_body decode body).
Proof. unfold json_body. case_bool_decide; by apply framed_pure. Qed.
End frames.

Ltac framed :=
  repeat first
    [ assumption
    | apply framed_bind; [typeclasses eauto| |intros ?]
    | apply framed_map_err | apply framed_spawn_blocking | apply framed_into_response
    | apply framed_kick; typeclasses eauto | apply framed_json_body; typeclasses eauto
    | apply framed_api_db
    | apply framed_pure; [typeclasses eauto|by intros]
    | case_match ].

Section requests.
Context `{!HashOrder} `{!External} `{!HttpLib} (R : Database → Database → Prop) `{!DbRelation R} (env : Env).

Lemma respects_get_user_admin_info name : respects R (get_user_admin_info name).
Proof. unfold get_user_admin_info, or_empty. apply respects_map_err, respects_query_row. typeclasses eauto. Qed.

Lemma respects_ban_user u : respects R (ban_user u).
Proof. unfold ban_user, internal. apply respects_map_err. intros db. apply rel_set_banned. Qed.

Lemma framed_run_admin_action request action : framed R (run_admin_action env request action).
Proof.
  unfold run_admin_action, authenticate_admin, api_db_connection. framed;
    first [apply respects_check_user; typeclasses eauto|apply respects_get_user_admin_info|apply respects_ban_user].
Qed.

Lemma framed_api_request api_key req : framed R (api_request env api_key req).
Proof.
  pose proof framed_run_admin_action as Ha.
  unfold api_request, route_request, require_api_key, run_route, sessions_list, rooms_list, verify, user_info, ban, api_db_connection.
  framed; first [apply Ha|apply respects_check_user; typeclasses eauto].
Qed.
End requests.

(** The rest of the shared state, whatever happens to the tables. *)
#[export] Instance any_relation `{!External} : DbRelation (λ _ _ : Database, True).
Proof. repeat split; done. Qed.

Lemma api_request_rest `{!HashOrder} `{!External} `{!HttpLib} env api_key req s :
  let s' := (api_request env api_key req s).2 in
  kicks_only (sv_client_infos s) (sv_client_infos s') ∧
  s' = s <| sv_db := sv_db s' |> <| sv_client_infos := sv_client_infos s' |>.
Proof. by destruct (framed_api_request (λ _ _, True) env api_key req s). Qed.
