(* ===== verification/DbInv.v ===== *)
(** * The constraints of the tables

    [db_inv] collects what the schema promises: names and addresses are unique, ids
    are never above the sequence, and every reference leads to a row.  [identity]
    is what the tables promise over time: an id once given stays with its user name
    and is never given again, and a ban is not lifted.  Every statement respects
    both, so every request and every round of the daily cleaner does. *)

From S2P Require Import ScoreCache Text Database Accounts Friendships DbScore DbTus Config DataFiles.
From S2P Require Import Prelude Protocol DbFrames.

(** ** The invariant of the tables *)

Definition same_name (a b : Account) : Prop :=
  to_ascii_lowercase (ac_username a) = to_ascii_lowercase (ac_username b).

(** No two rows are equal in the sense of [same]. *)
Definition unique_by {K V} `{Countable K} (same : V → V → Prop) (m : gmap K V) : Prop :=
  ∀ i j a b, m !! i = Some a → m !! j = Some b → same a b → i = j.

Definition same_data (a b : ScoreRow) : Prop := is_Some (sr_data_id a) ∧ sr_data_id a = sr_data_id b.

Abbreviation account_of db u := (is_Some (db_account db !! u)).

Record db_inv (db : Database) : Prop := {
  inv_sequence : map_Forall (λ u _, 0 < u ≤ db_sequence db) (db_account db) ∧ 0 ≤ db_sequence db;
  inv_usernames : unique_by same_name (db_account db);
  inv_emails : unique_by (λ a b, ac_email_check a = ac_email_check b) (db_account db);
  inv_timestamps : map_Forall (λ u _, account_of db u) (db_account_timestamp db);
  inv_friendship : map_Forall (λ p _, p.1 < p.2 ∧ account_of db p.1 ∧ account_of db p.2) (db_friendship db);
  inv_score : map_Forall (λ k _, account_of db k.1.2) (db_score db);
  inv_score_data : unique_by same_data (db_score db);
  inv_tus_var : map_Forall (λ k r, account_of db k.1.1 ∧ account_of db (tv_author r)) (db_tus_var db);
  inv_tus_data : map_Forall (λ k r, account_of db k.1.1 ∧ account_of db (td_author r)) (db_tus_data db);
  inv_tus_var_vuser : map_Forall (λ _ r, account_of db (tv_author r)) (db_tus_var_vuser db);
  inv_tus_data_vuser : map_Forall (λ _ r, account_of db (td_author r)) (db_tus_data_vuser db);
  inv_worlds : map_Forall (λ k s, (k.1, s) ∈ db_servers db) (db_worlds db);
  inv_lobbies : map_Forall (λ k w, is_Some (db_worlds db !! (k.1, w))) (db_lobbies db);
}.

(** ** The history of ids *)

(** The account of an id: whoever had it before still has it, with the same name and
    no ban lifted, or nobody has. *)
Record identity (db db' : Database) : Prop := {
  id_sequence : db_sequence db ≤ db_sequence db';
  id_account : ∀ u a', u ≤ db_sequence db → db_account db' !! u = Some a' →
    ∃ a, db_account db !! u = Some a ∧ ac_username a' = ac_username a ∧
         (ac_banned a = true → ac_banned a' = true);
}.

#[export] Instance identity_preorder : PreOrder identity.
Proof.
  split.
  - intros db. split; [done|]. eauto.
  - intros db1 db2 db3 [Hs1 Ha1] [Hs2 Ha2]. split; [lia|]. intros u a3 Hu H3.
    destruct (Ha2 u a3) as (a2 & H2 & En2 & Hb2); [lia|done|]. destruct (Ha1 u a2) as (a1 & H1 & En1 & Hb1); [done..|].
    exists a1. split; [done|]. split; [congruence|auto].
Qed.

(** ** Statements *)

(** What a statement does is one of three: nothing, use up a fault, or its effect. *)
Lemma sql_effect {A} (f : Database → SqlError + A * Database) (R : Database → Database → Prop) `{!PreOrder R} db :
  (∀ db faults, R db (db <| db_faults := faults |>)) →
  (∀ db a db', f db = inr (a, db') → R db db') → R db (sql f db).2.
Proof.
  intros Hfaults Hf. unfold sql. destruct (db_faults db) as [|[] faults]; simpl; try apply Hfaults;
    destruct (f _) as [e|[a db']] eqn:E; simpl; try apply Hfaults;
    apply Hf in E; (etransitivity; [apply Hfaults|exact E]).
Qed.

Definition preserves (P : Database → Prop) (db db' : Database) : Prop := P db → P db'.

#[export] Instance preserves_preorder P : PreOrder (preserves P).
Proof. split; [by intros ? ?|intros ? ? ? H1 H2 ?; by apply H2, H1]. Qed.

Lemma unique_by_insert {K V} `{Countable K} (same : V → V → Prop) (m : gmap K V) k v :
  Symmetric same → unique_by same m → (∀ j b, j ≠ k → m !! j = Some b → ¬ same v b) → unique_by same (<[k := v]> m).
Proof.
  intros Hs Hm Hv i j a b. rewrite !lookup_insert_Some. intros [[<- <-]|[? Hi]] [[<- <-]|[? Hj]] Hab; eauto;
    exfalso; by eapply Hv; eauto.
Qed.

Lemma unique_by_filter {K V} `{Countable K} (same : V → V → Prop) (m : gmap K V) (P : K * V → Prop)
  `{!∀ x, Decision (P x)} : unique_by same m → unique_by same (filter P m).
Proof. intros Hm i j a b Hi Hj. apply map_lookup_filter_Some_1_1 in Hi, Hj. by apply Hm. Qed.

Lemma unique_by_alter {K V} `{Countable K} (same : V → V → Prop) (m : gmap K V) f k :
  (∀ a b, same (f a) b → same a b) → (∀ a b, same a (f b) → same a b) → unique_by same m → unique_by same (alter f k m).
Proof.
  intros Hl Hr Hm i j a b Hi Hj Hab. apply lookup_alter_Some in Hi as [(-> & x & Hx & ->)|[? Hi]];
    apply lookup_alter_Some in Hj as [(<- & y & Hy & ->)|[? Hj]]; eauto.
Qed.

Lemma map_Forall_filter_of {K V} `{Countable K} (P Q : K → V → Prop) (m : gmap K V) (F : K * V → Prop)
  `{!∀ x, Decision (F x)} : map_Forall P m → (∀ k v, P k v → F (k, v) → Q k v) → map_Forall Q (filter F m).
Proof. intros Hm HQ k v Hk. apply map_lookup_filter_Some in Hk as [Hk HF]. apply HQ; [by apply Hm|done]. Qed.

Lemma map_Forall_alter_of {K V} `{Countable K} (P : K → V → Prop) (m : gmap K V) f k :
  map_Forall P m → (∀ v, P k v → P k (f v)) → map_Forall P (alter f k m).
Proof.
  intros Hm Hf i v Hi. apply lookup_alter_Some in Hi as [(-> & x & Hx & ->)|[? Hi]]; [by apply Hf, Hm|by apply Hm].
Qed.

Lemma has_account_true db u : has_account db u = true ↔ account_of db u.
Proof. unfold has_account. by rewrite bool_decide_eq_true. Qed.

Lemma username_free db name u a :
  username_taken db name = false → db_account db !! u = Some a →
  to_ascii_lowercase (ac_username a) ≠ to_ascii_lowercase name.
Proof.
  intros Hfree Ha Heq. apply not_true_iff_false in Hfree. apply Hfree, existsb_exists. exists (u, a).
  split; [by apply list_elem_of_In, elem_of_map_to_list|by apply bool_decide_eq_true].
Qed.

Lemma email_free db email u a :
  email_taken db email = false → db_account db !! u = Some a → ac_email_check a ≠ email.
Proof.
  intros Hfree Ha Heq. apply not_true_iff_false in Hfree. apply Hfree, existsb_exists. exists (u, a).
  split; [by apply list_elem_of_In, elem_of_map_to_list|by apply bool_decide_eq_true].
Qed.

Lemma no_conflict `{!External} db a :
  account_conflict db a = None →
  username_taken db (ac_username a) = false ∧ email_taken db (ac_email_check a) = false.
Proof. unfold account_conflict. repeat case_match; naive_solver. Qed.

(** Rows of other tables are as good as the accounts they refer to. *)
Lemma db_inv_mono db accounts sequence :
  db_inv db → (∀ u, account_of db u → is_Some (accounts !! u)) →
  map_Forall (λ u _, 0 < u ≤ sequence) accounts → 0 ≤ sequence →
  unique_by same_name accounts → unique_by (λ a b, ac_email_check a = ac_email_check b) accounts →
  db_inv (db <| db_account := accounts |> <| db_sequence := sequence |>).
Proof.
  intros [] Hsub; split; simpl; try done; (eapply map_Forall_impl; [eassumption|]); naive_solver.
Qed.

Lemma db_inv_faults db faults : preserves db_inv db (db <| db_faults := faults |>).
Proof. intros []. by split. Qed.

Lemma identity_same db db' :
  db_sequence db' = db_sequence db → db_account db' = db_account db → identity db db'.
Proof. intros Es Ea. split; [lia|]. rewrite Ea. eauto. Qed.

(** A statement preserves the invariant, or keeps identities, when its effect does. *)
Ltac statement :=
  intros; unfold insert_account, insert_account_timestamp, update_account_timestamp, delete_accounts,
    delete_account_timestamps, delete_friendships, reauthor_tus_var, reauthor_tus_data, reauthor_tus_var_vuser,
    reauthor_tus_data_vuser, insert_username_hash, insert_email_hash, drop_username_hashes, drop_email_hashes,
    set_password, set_reset_token, set_banned, replace_friendship, insert_server, insert_world, insert_lobby,
    insert_score_table, replace_score_table, upsert_score, update_score_data, upsert, delete_slots, reauthor, execute;
  apply sql_effect; [typeclasses eauto|first [apply db_inv_faults|intros; by apply identity_same]|];
  let db := fresh "db" in let a := fresh "a" in let db' := fresh "db'" in let E := fresh "E" in
  intros db a db' E; cbv beta zeta in E; repeat case_match; simplify_eq.

(** Rewriting one table keeps the promises of the others. *)
Ltac one_table := intros []; split; simpl; try done.

Lemma db_inv_tus_var db m :
  db_inv db → map_Forall (λ k r, account_of db k.1.1 ∧ account_of db (tv_author r)) m →
  db_inv (db <| db_tus_var := m |>).
Proof. intros Hi Hm. revert Hi. one_table. Qed.

Lemma db_inv_tus_data db m :
  db_inv db → map_Forall (λ k r, account_of db k.1.1 ∧ account_of db (td_author r)) m →
  db_inv (db <| db_tus_data := m |>).
Proof. intros Hi Hm. revert Hi. one_table. Qed.

Lemma db_inv_tus_var_vuser db m :
  db_inv db → map_Forall (λ _ r, account_of db (tv_author r)) m → db_inv (db <| db_tus_var_vuser := m |>).
Proof. intros Hi Hm. revert Hi. one_table. Qed.

Lemma db_inv_tus_data_vuser db m :
  db_inv db → map_Forall (λ _ r, account_of db (td_author r)) m → db_inv (db <| db_tus_data_vuser := m |>).
Proof. intros Hi Hm. revert Hi. one_table. Qed.

Lemma db_inv_score db m :
  db_inv db → map_Forall (λ k _, account_of db k.1.2) m → unique_by same_data m → db_inv (db <| db_score := m |>).
Proof. intros Hi Hm Hu. revert Hi. one_table. Qed.

Section tables.
Context `{!External}.

Lemma db_inv_insert_account a d : preserves db_inv d (insert_account a d).2.
Proof.
  statement. intros Hi.
  select (account_conflict _ _ = None) (fun H => apply no_conflict in H as [Hname Hemail]).
  destruct (inv_sequence _ Hi) as [Hseq Hpos]. apply (db_inv_mono db); [done|..].
  - intros u Hu. apply lookup_insert_is_Some. destruct (decide (db_sequence db + 1 = u)); tauto.
  - apply map_Forall_insert_2; [lia|]. eapply map_Forall_impl; [done|]. simpl. lia.
  - lia.
  - apply unique_by_insert; [by intros ? ?|apply Hi|]. intros j b _ Hj Hsame. by eapply username_free.
  - apply unique_by_insert; [by intros ? ?|apply Hi|]. intros j b _ Hj Hsame. by eapply email_free.
Qed.

(** Changing accounts in place. *)
Lemma db_inv_alter f u d :
  (∀ a, ac_username (f a) = ac_username a ∧ ac_email_check (f a) = ac_email_check a) →
  preserves db_inv d (d <| db_account ::= alter f u |>).
Proof.
  intros Hf Hi. destruct (inv_sequence _ Hi) as [Hseq Hpos].
  change (db_inv (d <| db_account := alter f u (db_account d) |> <| db_sequence := db_sequence d |>)).
  apply db_inv_mono; [done|..|done| |].
  - intros v. by rewrite lookup_alter_is_Some.
  - by apply map_Forall_alter_of.
  - apply unique_by_alter; [..|apply Hi]; intros a b; unfold same_name.
    + by destruct (Hf a) as [-> _].
    + by destruct (Hf b) as [-> _].
  - apply unique_by_alter; [..|apply Hi]; intros a b.
    + by destruct (Hf a) as [_ ->].
    + by destruct (Hf b) as [_ ->].
Qed.

Lemma authors_clear_spec ids db :
  authors_clear ids db = true →
  map_Forall (λ _ r, tv_author r ∉ ids) (db_tus_var db) ∧ map_Forall (λ _ r, tv_author r ∉ ids) (db_tus_var_vuser db) ∧
  map_Forall (λ _ r, td_author r ∉ ids) (db_tus_data db) ∧ map_Forall (λ _ r, td_author r ∉ ids) (db_tus_data_vuser db).
Proof.
  assert (∀ K V `{Countable K} (m : gmap K V) (g : V → Z),
    forallb (λ r, bool_decide (g r ∉ ids)) (map_to_list m).*2 = true → map_Forall (λ _ r, g r ∉ ids) m) as Hall.
  { intros K V ? ? m g Hb k r Hk. rewrite forallb_forall in Hb.
    apply (bool_decide_eq_true (g r ∉ ids)), Hb, list_elem_of_In, list_elem_of_fmap. exists (k, r).
    split; [done|by apply elem_of_map_to_list]. }
  unfold authors_clear. rewrite !andb_true_iff. intros [[[? ?] ?] ?]. split_and!; by apply Hall.
Qed.

Lemma db_inv_delete_accounts ids d : preserves db_inv d (delete_accounts ids d).2.
Proof.
  statement. intros Hi. select (authors_clear _ _ = true) (fun H => apply authors_clear_spec in H as (H1 & H2 & H3 & H4)).
  set (gone := ids ∩ dom (db_account db)) in *.
  assert (∀ u, account_of db u → u ∉ gone → account_of (cascade gone db) u) as Hkeep.
  { intros u [a Ha] Hu. exists a. by apply map_lookup_filter_Some. }
  destruct Hi; split; simpl in *; try done.
  - destruct inv_sequence0. split; [|done]. by eapply map_Forall_filter_of.
  - by apply unique_by_filter.
  - by apply unique_by_filter.
  - eapply map_Forall_filter_of; [done|]. eauto.
  - eapply map_Forall_filter_of; [done|]. intros [u v] ? (? & ? & ?) [? ?]. split_and!; eauto.
  - eapply map_Forall_filter_of; [done|]. intros [[[c b] u] p] ? ? ?. eauto.
  - by apply unique_by_filter.
  - assert (map_Forall (λ _ r, account_of db (tv_author r)) (db_tus_var db)) as Hv
      by (intros k r Hk; by destruct (inv_tus_var0 k r Hk)).
    intros k r Hk. pose proof (H1 k r Hk). apply map_lookup_filter_Some in Hk as [Hk HF].
    destruct k as [[u c] n]. destruct (inv_tus_var0 _ _ Hk). split; by apply Hkeep.
  - intros k r Hk. pose proof (H3 k r Hk). apply map_lookup_filter_Some in Hk as [Hk HF].
    destruct k as [[u c] n]. destruct (inv_tus_data0 _ _ Hk). split; by apply Hkeep.
  - intros k r Hk. pose proof (H2 k r Hk). apply Hkeep; [by eapply inv_tus_var_vuser0|done].
  - intros k r Hk. pose proof (H4 k r Hk). apply Hkeep; [by eapply inv_tus_data_vuser0|done].
Qed.

(** Changing the author of the rows one user wrote. *)
Lemma touched_spec {K V} `{Countable K} (m : gmap K V) (author : V → Z) (P : K → V → Prop) f old (b : bool) :
  existsb (λ r, bool_decide (author r = old)) (map_to_list m).*2 && negb b = false →
  map_Forall P m → (∀ k r, P k r → author r = old → b = true → P k (f r)) →
  map_Forall P ((λ r, if bool_decide (author r = old) then f r else r) <$> m).
Proof.
  intros Ht Hm Hf k r Hk. apply lookup_fmap_Some in Hk as (r0 & <- & Hk). case_bool_decide as Heq; [|by apply Hm].
  apply Hf; [by apply Hm|done|]. destruct b; [done|]. rewrite andb_true_r in Ht. apply not_true_iff_false in Ht.
  destruct Ht. apply existsb_exists. exists r0. rewrite bool_decide_true by done. split; [|done].
  apply list_elem_of_In, list_elem_of_fmap. exists (k, r0). split; [done|by apply elem_of_map_to_list].
Qed.

Lemma db_inv_reauthor_tus_var u v d : preserves db_inv d (reauthor_tus_var u v d).2.
Proof.
  statement. intros Hi. apply db_inv_tus_var; [done|]. eapply touched_spec; [eassumption|apply Hi|].
  simpl. intros k r [? ?] _ ?. split; [done|by apply has_account_true].
Qed.

Lemma db_inv_reauthor_tus_data u v d : preserves db_inv d (reauthor_tus_data u v d).2.
Proof.
  statement. intros Hi. apply db_inv_tus_data; [done|]. eapply touched_spec; [eassumption|apply Hi|].
  simpl. intros k r [? ?] _ ?. split; [done|by apply has_account_true].
Qed.

Lemma db_inv_reauthor_tus_var_vuser u v d : preserves db_inv d (reauthor_tus_var_vuser u v d).2.
Proof.
  statement. intros Hi. apply db_inv_tus_var_vuser; [done|]. eapply touched_spec; [eassumption|apply Hi|].
  simpl. intros k r ? _ ?. by apply has_account_true.
Qed.

Lemma db_inv_reauthor_tus_data_vuser u v d : preserves db_inv d (reauthor_tus_data_vuser u v d).2.
Proof.
  statement. intros Hi. apply db_inv_tus_data_vuser; [done|]. eapply touched_spec; [eassumption|apply Hi|].
  simpl. intros k r ? _ ?. by apply has_account_true.
Qed.

Lemma db_inv_upsert_score i k s d : preserves db_inv d (upsert_score i k (new_score_row s) d).2.
Proof.
  statement; try done; intros Hi;
    (apply db_inv_score; [done| |apply unique_by_insert; [by intros ? ? [? ?]; split; congruence|apply Hi|]];
     [apply map_Forall_insert_2; [|apply Hi]|by intros j b _ _ [[? [=]] _]]).
  - by eapply (inv_score _ Hi).
  - by apply has_account_true.
Qed.

Lemma db_inv_update_score_data k s data d : preserves db_inv d (update_score_data k s data d).2.
Proof.
  statement; try done; intros Hi. apply db_inv_score; [done|..].
  - apply map_Forall_insert_2; [by eapply (inv_score _ Hi)|apply Hi].
  - apply unique_by_insert; [by intros ? ? [? ?]; split; congruence|apply Hi|]. intros j b Hne Hj [_ Hsame].
    select (existsb _ _ = false) (fun H => apply not_true_iff_false in H; apply H). apply existsb_exists.
    exists (j, b). rewrite !bool_decide_true by done. split; [by apply list_elem_of_In, elem_of_map_to_list|done].
Qed.

(** ** Title user storage *)

Lemma db_inv_upsert_tus_var k r g m d : preserves db_inv d (upsert tus_var k r g m d).2.
Proof.
  statement; try done; intros Hi; apply db_inv_tus_var; try done; (apply map_Forall_insert_2; [|apply Hi]);
    select (_ && _ = true) (fun H => apply andb_true_iff in H as [? ?]); split; by apply has_account_true.
Qed.

Lemma db_inv_upsert_tus_data k r g m d : preserves db_inv d (upsert tus_data k r g m d).2.
Proof.
  statement; try done; intros Hi; apply db_inv_tus_data; try done; (apply map_Forall_insert_2; [|apply Hi]);
    select (_ && _ = true) (fun H => apply andb_true_iff in H as [? ?]); split; by apply has_account_true.
Qed.

Lemma db_inv_upsert_tus_var_vuser k r g m d : preserves db_inv d (upsert tus_var_vuser k r g m d).2.
Proof.
  statement; try done; intros Hi; apply db_inv_tus_var_vuser; try done; (apply map_Forall_insert_2; [|apply Hi]);
    select (_ && _ = true) (fun H => apply andb_true_iff in H as [? ?]); by apply has_account_true.
Qed.

Lemma db_inv_upsert_tus_data_vuser k r g m d : preserves db_inv d (upsert tus_data_vuser k r g m d).2.
Proof.
  statement; try done; intros Hi; apply db_inv_tus_data_vuser; try done; (apply map_Forall_insert_2; [|apply Hi]);
    select (_ && _ = true) (fun H => apply andb_true_iff in H as [? ?]); by apply has_account_true.
Qed.

#[export] Instance db_inv_base : FaultRelation (preserves db_inv).
Proof. split; [apply _|apply db_inv_faults]. Qed.

#[export] Instance identity_base : FaultRelation identity.
Proof. split; [apply _|]. intros. by apply identity_same. Qed.

#[export] Instance db_inv_relation : DbRelation (preserves db_inv).
Proof.
  split; try apply _.
  - apply db_inv_insert_account.
  - statement. intros Hi. revert Hi. one_table. apply map_Forall_insert_2; [by apply has_account_true|done].
  - statement. one_table. by apply map_Forall_alter_of.
  - apply db_inv_delete_accounts.
  - statement. one_table. by eapply map_Forall_filter_of.
  - statement. one_table. by eapply map_Forall_filter_of.
  - apply db_inv_reauthor_tus_var.
  - apply db_inv_reauthor_tus_data.
  - apply db_inv_reauthor_tus_var_vuser.
  - apply db_inv_reauthor_tus_data_vuser.
  - statement. one_table.
  - statement. one_table.
  - statement. one_table.
  - statement. one_table.
  - statement. apply db_inv_alter. intros a. by case_bool_decide.
  - statement. by apply db_inv_alter.
  - statement. by apply db_inv_alter.
  - statement. one_table. apply map_Forall_insert_2; [|done].
    select (_ && _ = true) (fun H => apply andb_true_iff in H as [[?%bool_decide_eq_true ?]%andb_true_iff ?]).
    split_and!; [done|by apply has_account_true..].
  - statement. one_table. eapply map_Forall_impl; [done|]. set_solver.
  - statement. one_table.
    + apply map_Forall_insert_2; [by eapply bool_decide_eq_true|done].
    + eapply map_Forall_impl; [done|]. simpl. intros. apply lookup_insert_is_Some. destruct (decide ((c, w) = (i0.1, x))); tauto.
  - statement. one_table. apply map_Forall_insert_2; [by eapply bool_decide_eq_true|done].
  - statement. one_table.
  - statement. one_table.
  - apply db_inv_upsert_score.
  - apply db_inv_update_score_data.
  - apply db_inv_upsert_tus_var.
  - apply db_inv_upsert_tus_var_vuser.
  - apply db_inv_upsert_tus_data.
  - apply db_inv_upsert_tus_data_vuser.
  - statement. intros Hi. apply db_inv_tus_var; [done|]. eapply map_Forall_filter_of; [apply Hi|done].
  - statement. intros Hi. apply db_inv_tus_var_vuser; [done|]. eapply map_Forall_filter_of; [apply Hi|done].
  - statement. intros Hi. apply db_inv_tus_data; [done|]. eapply map_Forall_filter_of; [apply Hi|done].
  - statement. intros Hi. apply db_inv_tus_data_vuser; [done|]. eapply map_Forall_filter_of; [apply Hi|done].
Qed.

Lemma identity_alter f u d :
  (∀ a, ac_username (f a) = ac_username a ∧ (ac_banned a = true → ac_banned (f a) = true)) →
  identity d (d <| db_account ::= alter f u |>).
Proof.
  intros Hf. split; [done|]. intros v a' _ Ha.
  change (alter f u (db_account d) !! v = Some a') in Ha. apply lookup_alter_Some in Ha as [(-> & a & Ha & ->)|[_ Ha]]; [|by eauto].
  exists a. by destruct (Hf a).
Qed.

#[export] Instance identity_relation : DbRelation identity.
Proof.
  split; try apply _; try (statement; by apply identity_same).
  - statement. split; [simpl; lia|]. intros u a' Hu Ha.
    change (<[db_sequence db0 + 1 := a]> (db_account db0) !! u = Some a') in Ha. apply lookup_insert_Some in Ha as [[<- _]|[_ Ha]]; [lia|by eauto].
  - statement. split; [done|]. intros u a' _ Ha.
    change (filter (λ '(u, _), u ∉ ids ∩ dom (db_account db0)) (db_account db0) !! u = Some a') in Ha.
    apply map_lookup_filter_Some in Ha as [Ha _]. by eauto.
  - statement. apply identity_alter. intros a. by case_bool_decide.
  - statement. by apply identity_alter.
  - statement. by apply identity_alter.
Qed.
End tables.
