(* ===== verification/DbExec.v ===== *)
(** * Running statements that do not fail unexpectedly

    On a database without pending faults a statement takes effect or reports what its
    tables say; the lemmas compute the methods built from such statements. *)

From S2P Require Import ScoreCache Text Database Accounts Friendships DbScore DbTus.
From S2P Require Import Prelude Protocol DbFrames DbInv.

(** No statement to come fails unexpectedly. *)
Definition calm (db : Database) : Prop := db_faults db = [].

Create HintDb calm.

Section run.
Context {S E : Type}.

Lemma bind_run {A B} (m : M S E A) (k : A → M S E B) s a s' : m s = (Ok a, s') → bind m k s = k a s'.
Proof. unfold bind. by intros ->. Qed.

Lemma bind_run_err {A B} (m : M S E A) (k : A → M S E B) s e s' : m s = (Err e, s') → bind m k s = (Err e, s').
Proof. unfold bind. by intros ->. Qed.

Lemma map_err_run {E' A} (f : E' → E) (m : M S E' A) s a s' : m s = (Ok a, s') → map_err f m s = (Ok a, s').
Proof. unfold map_err. by intros ->. Qed.

Lemma map_err_run_err {E' A} (f : E' → E) (m : M S E' A) s e s' : m s = (Err e, s') → map_err f m s = (Err (f e), s').
Proof. unfold map_err. by intros ->. Qed.

Lemma attempt_run {E' A} (m : M S E' A) s r s' :
  m s = (r, s') → r ≠ Panic → attempt (E' := E) m s = (Ok r, s').
Proof. unfold attempt. intros ->. by destruct r. Qed.

Lemma unwrap_run {E' A} (m : M S E' A) s a s' : m s = (Ok a, s') → unwrap_result (E' := E) m s = (Ok a, s').
Proof. unfold unwrap_result. by intros ->. Qed.
End run.

Lemma bind_ok_inv {S E A B} (m : M S E A) (k : A → M S E B) s b s' :
  bind m k s = (Ok b, s') → ∃ a s1, m s = (Ok a, s1) ∧ k a s1 = (Ok b, s').
Proof. unfold bind. destruct (m s) as [[a|e|] s1]; [by eauto|done..]. Qed.

Lemma map_err_ok_inv {S E E' A} (f : E → E') (m : M S E A) s a s' : map_err f m s = (Ok a, s') → m s = (Ok a, s').
Proof. unfold map_err. destruct (m s) as [[] ?]; congruence. Qed.

(** A statement that succeeded did so on the tables it found. *)
Lemma sql_ok_inv {A} (f : Database → SqlError + A * Database) db a db' :
  sql f db = (Ok a, db') → ∃ faults, f (db <| db_faults := faults |>) = inr (a, db').
Proof.
  unfold sql. destruct (db_faults db) as [|[] faults]; [|done|];
    (destruct (f _) as [e|[b db1]] eqn:E; [done|]; intros [= -> ->]; by eexists).
Qed.

Lemma select_ok_inv {A} (f : Database → A) db a db' :
  select f db = (Ok a, db') → ∃ faults, db' = db <| db_faults := faults |> ∧ a = f db'.
Proof. intros H. apply sql_ok_inv in H as [faults [= <- <-]]. by eexists. Qed.

Lemma calm_faults db : calm db → db <| db_faults := tail (db_faults db) |> = db.
Proof. unfold calm. intros Hc. destruct db. simpl in *. by subst. Qed.

Lemma sql_calm {A} (f : Database → SqlError + A * Database) db :
  calm db → sql f db = match f db with inl e => (Err e, db) | inr (a, db') => (Ok a, db') end.
Proof. intros Hc. pose proof (calm_faults db Hc) as Hf. unfold sql. unfold calm in Hc. rewrite Hc in *. by rewrite Hf. Qed.

Lemma select_calm {A} (f : Database → A) db : calm db → select f db = (Ok (f db), db).
Proof. intros Hc. unfold select. by rewrite sql_calm. Qed.

Lemma execute_calm f db : calm db → execute f db = (Ok tt, f db).
Proof. intros Hc. unfold execute. by rewrite sql_calm. Qed.

Lemma query_row_calm {A} (f : Database → option A) db :
  calm db → query_row f db = (match f db with Some a => Ok a | None => Err QueryReturnedNoRows end, db).
Proof. intros Hc. unfold query_row. rewrite sql_calm by done. by destruct (f db). Qed.

(** Computes one step of a method; the database stays calm as long as its faults are
    not written. *)
Ltac run_step :=
  first
    [ rewrite select_calm by assumption | rewrite execute_calm by assumption
    | rewrite query_row_calm by assumption | rewrite sql_calm by assumption ].
Ltac run := unfold bind, internal, or_empty, map_err, attempt, unwrap_result, ret, fail, lift, gets; repeat (run_step; cbn beta iota).

(** ** Accounts by name *)

Lemma find_account_sound db name u a :
  find_account db name = Some (u, a) → db_account db !! u = Some a ∧ ac_username a = name.
Proof.
  unfold find_account. intros Hf. apply head_Some_elem_of in Hf. apply list_elem_of_filter in Hf as [Hn Hin].
  by apply elem_of_map_to_list in Hin.
Qed.

Lemma find_account_complete db u a :
  unique_by same_name (db_account db) → db_account db !! u = Some a → find_account db (ac_username a) = Some (u, a).
Proof.
  intros Hu Ha. unfold find_account.
  destruct (filter _ _) as [|[v b] l] eqn:Hf.
  - assert ((u, a) ∈ ([] : list (Z * Account))) as Hin; [|by apply not_elem_of_nil in Hin].
    rewrite <- Hf. apply list_elem_of_filter. split; [done|]. by apply elem_of_map_to_list.
  - assert ((v, b) ∈ (v, b) :: l) as Hin by apply list_elem_of_here. rewrite <- Hf in Hin.
    apply list_elem_of_filter in Hin as [Hn Hin]. apply elem_of_map_to_list in Hin. simpl.
    assert (v = u) as -> by (eapply Hu; [done..|]; unfold same_name; by rewrite Hn). congruence.
Qed.

Lemma find_account_none db name :
  find_account db name = None ↔ (∀ u a, db_account db !! u = Some a → ac_username a ≠ name).
Proof.
  split.
  - intros Hf u a Ha Hn. unfold find_account in Hf. destruct (filter _ _) as [|] eqn:E; [|done].
    assert ((u, a) ∈ ([] : list (Z * Account))) as Hin; [|by apply not_elem_of_nil in Hin].
    rewrite <- E. apply list_elem_of_filter. split; [done|]. by apply elem_of_map_to_list.
  - intros Hno. destruct (find_account db name) as [[u a]|] eqn:Hf; [|done].
    apply find_account_sound in Hf as [Ha Hn]. by destruct (Hno u a).
Qed.

(** ** Methods *)

Section methods.
Context `{!External}.

Lemma hash_username_calm db name salt h :
  calm db → db_username_salt db = Some salt → hash_raw (bytes_of_string name) salt = Some h →
  hash_username name db = (Ok h, db).
Proof. intros Hc Hs Hh. unfold hash_username, get_username_salt. run. rewrite Hs. cbn. by rewrite Hh. Qed.

Lemma hash_email_calm db email salt h :
  calm db → db_email_salt db = Some salt → hash_raw (bytes_of_string email) salt = Some h →
  hash_email email db = (Ok h, db).
Proof. intros Hc Hs Hh. unfold hash_email, get_email_salt. run. rewrite Hs. cbn. by rewrite Hh. Qed.

Lemma get_user_id_calm db name :
  calm db → get_user_id name db = (match find_account db name with Some (u, _) => Ok u | None => Err DbEmpty end, db).
Proof. intros Hc. unfold get_user_id. run. by destruct (find_account db name) as [[]|]. Qed.

(** What [check_user] decides. *)
Definition credentials (db : Database) (username password token : string) (check_token : bool) (r : res DbError UserQueryResult) : Prop :=
  match find_account db username with
  | None => r = Err DbEmpty
  | Some (u, a) =>
      if check_token && bool_decide (ac_token a ≠ token) then r = Err DbWrongToken
      else match hash_raw (bytes_of_string password) (ac_salt a) with
           | None => r = Panic
           | Some h => r = if bool_decide (h = ac_hash a) then Ok (mkUserQueryResult u a) else Err DbWrongPass
           end
  end.

Lemma check_user_calm db username password token check_token :
  calm db → ∃ r, check_user username password token check_token db = (r, db) ∧
                 credentials db username password token check_token r.
Proof.
  intros Hc. unfold check_user, credentials. run. destruct (find_account db username) as [[u a]|]; [|by eexists].
  destruct (check_token && _); [by eexists|]. cbn. destruct (hash_raw _ _) as [h|]; [|by eexists]. cbn.
  destruct (decide (h = ac_hash a)); [rewrite bool_decide_false, bool_decide_true by tauto|
    rewrite bool_decide_true, bool_decide_false by done]; by eexists.
Qed.
End methods.
