(* ===== verification/DbHandlers.v ===== *)
(** * Requests on the database

    Every handler changes the database by statements only, so it respects any
    [DbRelation]. *)

From S2P Require Import ScoreCache Text Database Accounts Friendships DbScore DbTus Config DataFiles.
From S2P Require Import Prelude Protocol StreamExtractor Messages StorageMessages RoomData Room RoomManager GuiRoom.
From S2P Require Import GuiRoomManager GameTracker ClientState UdpServer RoomCommands GuiCommands TusCommands.
From S2P Require Import ScoreCommands AccountCommands FriendCommands Dispatch CommandFrames CommandMoves DbFrames.

Section combinators.
Context (R : Database → Database → Prop) `{!FaultRelation R}.

Definition db_respects {E A} (h : M Ctx E A) : Prop := ∀ cx, R (db_of cx) (db_of (h cx).2).

Lemma db_respects_same {E A} (h : M Ctx E A) : (∀ cx, db_of (h cx).2 = db_of cx) → db_respects h.
Proof. intros Hh cx. rewrite Hh. reflexivity. Qed.

Lemma db_respects_bind {E A B} (m : M Ctx E A) (k : A → M Ctx E B) :
  db_respects m → (∀ a, db_respects (k a)) → db_respects (bind m k).
Proof.
  intros Hm Hk cx. specialize (Hm cx). unfold bind. destruct (m cx) as [[a|e|] cx1]; simpl in *; try done.
  etransitivity; [exact Hm|]. apply Hk.
Qed.

Lemma db_respects_with_exits {A} (m : M Ctx Exit A) (k : A → Handler) :
  db_respects m → (∀ a, db_respects (k a)) → db_respects (with_exits m k).
Proof.
  intros Hm Hk cx. specialize (Hm cx). unfold with_exits. destruct (m cx) as [[a|e|] cx1]; simpl in *; try done.
  etransitivity; [exact Hm|]. apply Hk.
Qed.

Lemma db_respects_map_err {E E' A} (f : E → E') (h : M Ctx E A) : db_respects h → db_respects (map_err f h).
Proof. intros Hh cx. specialize (Hh cx). unfold map_err. by destruct (h cx) as [[] ?]. Qed.

Lemma db_respects_attempt {E E' A} (h : M Ctx E A) : db_respects h → db_respects (attempt (E' := E') h).
Proof. intros Hh cx. specialize (Hh cx). unfold attempt. by destruct (h cx) as [[] ?]. Qed.

Lemma db_respects_ignore_code {A} (h : H A) : db_respects h → db_respects (ignore_code h).
Proof. intros Hh cx. specialize (Hh cx). unfold ignore_code. by destruct (h cx) as [[] ?]. Qed.

Lemma db_respects_for_each {E B} (f : B → M Ctx E unit) xs : (∀ x, db_respects (f x)) → db_respects (for_each f xs).
Proof. intros Hf. induction xs; simpl; [by apply db_respects_same|]. by apply db_respects_bind. Qed.

Lemma db_respects_map_each {E B C} (f : B → M Ctx E C) xs : (∀ x, db_respects (f x)) → db_respects (map_each f xs).
Proof.
  intros Hf. induction xs; simpl; [by apply db_respects_same|].
  apply db_respects_bind; [done|]. intros ?. apply db_respects_bind; [done|]. intros ?. by apply db_respects_same.
Qed.

Lemma db_respects_on_db {E A} (m : M Database E A) : respects R m → db_respects (on_db m).
Proof. intros Hm cx. specialize (Hm (db_of cx)). unfold on_db. by destruct (m (db_of cx)). Qed.

Lemma db_respects_on_scores {A} (m : SC A) : db_respects (on_scores m).
Proof. apply db_respects_same. intros cx. unfold on_scores. by destruct (m _). Qed.

Lemma db_respects_on_score_dir {E A} (m : M DataDir E A) : db_respects (on_score_dir m).
Proof. apply db_respects_same. intros cx. unfold on_score_dir. by destruct (m _). Qed.

Lemma db_respects_on_tus_dir {E A} (m : M DataDir E A) : db_respects (on_tus_dir m).
Proof. apply db_respects_same. intros cx. unfold on_tus_dir. by destruct (m _). Qed.

Lemma db_respects_on_rooms {A} (m : RM A) : db_respects (on_rooms m).
Proof. apply db_respects_same. intros cx. by rewrite on_rooms_snd. Qed.

Lemma db_respects_on_gui {A} (m : GM A) : db_respects (on_gui m).
Proof. apply db_respects_same. intros cx. by rewrite on_gui_snd. Qed.

Lemma db_respects_read_data {A} (f : StreamExtractor → A * StreamExtractor) : db_respects (read_data f).
Proof. apply db_respects_same. intros cx. unfold read_data. by destruct (f _). Qed.

Lemma db_respects_read_pb {T} `{Message T} : db_respects (read_pb (T := T)).
Proof. apply db_respects_same. intros cx. unfold read_pb. by destruct (get_pb _ _). Qed.

Lemma sent_same_db notif l s :
  sv_db (foldl (λ s uid, send_single_notification notif uid s) s l) = sv_db s.
Proof.
  revert s. induction l as [|u l IH]; intros s; simpl; [done|]. rewrite IH.
  unfold send_single_notification. by case_bool_decide.
Qed.

Lemma db_respects_send_notification `{!HashOrder} notif ids : db_respects (send_notification notif ids).
Proof. apply db_respects_same. intros cx. apply sent_same_db. Qed.

Lemma db_respects_send_single notif uid : db_respects (on_shared (send_single_notification notif uid)).
Proof. apply db_respects_same. intros cx. apply (sent_same_db notif [uid]). Qed.
End combinators.

Create HintDb db_respects.

Ltac db_respects_step :=
  first
    [ assumption
    | solve [eauto with db_respects typeclass_instances nocore]
    | apply db_respects_bind; [typeclasses eauto| |intros ?]
    | apply db_respects_with_exits; [typeclasses eauto| |intros ?]
    | apply db_respects_on_db; respects
    | apply db_respects_map_err | apply db_respects_attempt | apply db_respects_ignore_code
    | apply db_respects_for_each; [typeclasses eauto|intros ?]
    | apply db_respects_map_each; [typeclasses eauto|intros ?]
    | apply db_respects_read_data; typeclasses eauto | apply db_respects_read_pb; typeclasses eauto
    | apply db_respects_on_scores; typeclasses eauto | apply db_respects_on_rooms; typeclasses eauto
    | apply db_respects_on_gui; typeclasses eauto | apply db_respects_send_notification; typeclasses eauto
    | apply db_respects_send_single; typeclasses eauto
    | apply db_respects_on_score_dir; typeclasses eauto | apply db_respects_on_tus_dir; typeclasses eauto
    | apply db_respects_same; [typeclasses eauto|done]
    | case_match ].
Ltac db_respects := repeat db_respects_step.

(** Handlers' reading steps respect more relations. *)
Section reading.
Context (R : Database → Database → Prop) `{!FaultRelation R} `{!TusCodec} (env : Env).

Lemma db_respects_get_com_id_with_redir : db_respects R get_com_id_with_redir.
Proof. unfold get_com_id_with_redir. db_respects. Qed.
#[local] Hint Resolve db_respects_get_com_id_with_redir : db_respects.

Lemma db_respects_get_com_and_pb {T} `{Message T} : db_respects R (get_com_and_pb (T := T)).
Proof. unfold get_com_and_pb. db_respects. Qed.

Lemma db_respects_check_data : db_respects R check_data.
Proof. unfold check_data. db_respects. Qed.

Lemma db_respects_get_database_connection : db_respects R (get_database_connection env).
Proof. unfold get_database_connection. db_respects. Qed.
#[local] Hint Resolve db_respects_get_com_and_pb db_respects_check_data db_respects_get_database_connection : db_respects.

Lemma db_respects_author_name id : db_respects R (author_name id).
Proof. unfold author_name. db_respects. Qed.

Lemma db_respects_lookup_user npid : db_respects R (lookup_user npid).
Proof. unfold lookup_user. db_respects. Qed.
#[local] Hint Resolve db_respects_author_name db_respects_lookup_user : db_respects.

Lemma db_respects_own_user npid : db_respects R (own_user npid).
Proof. unfold own_user. db_respects. Qed.

Lemma db_respects_final_variable v : db_respects R (final_variable v).
Proof. unfold final_variable. db_respects. Qed.

Lemma db_respects_final_status v : db_respects R (final_status v).
Proof. unfold final_status. db_respects. Qed.

Lemma db_respects_reply_variable npid v : db_respects R (reply_variable npid v).
Proof. unfold reply_variable. db_respects. Qed.

Lemma db_respects_reply_data npid r : db_respects R (reply_data env npid r).
Proof. unfold reply_data. db_respects. Qed.

Lemma db_respects_compare_author_id s : db_respects R (compare_author_id s).
Proof. unfold compare_author_id. db_respects. Qed.
#[local] Hint Resolve db_respects_own_user db_respects_final_variable db_respects_final_status
  db_respects_reply_variable db_respects_reply_data db_respects_compare_author_id : db_respects.

End reading.
#[export] Hint Resolve db_respects_get_com_id_with_redir db_respects_get_com_and_pb db_respects_check_data
  db_respects_get_database_connection db_respects_author_name db_respects_lookup_user db_respects_own_user
  db_respects_final_variable db_respects_final_status db_respects_reply_variable db_respects_reply_data
  db_respects_compare_author_id : db_respects.

Section handlers.
Context `{!External} (R : Database → Database → Prop) `{!DbRelation R} `{!HashOrder} `{!ServerCodec} (env : Env).

Lemma db_respects_client_leave_room c id opt cause : db_respects R (client_leave_room env c id opt cause).
Proof. unfold client_leave_room. db_respects. Qed.

Lemma db_respects_client_leave_room_gui id : db_respects R (client_leave_room_gui env id).
Proof. unfold client_leave_room_gui, caller. db_respects. Qed.
#[local] Hint Resolve db_respects_client_leave_room db_respects_client_leave_room_gui : db_respects.

Lemma db_respects_clean_user_state : db_respects R (clean_user_state env).
Proof. unfold clean_user_state. db_respects. Qed.
#[local] Hint Resolve db_respects_clean_user_state : db_respects.

Lemma db_respects_drop_client timestamp : db_respects R (drop_client env timestamp).
Proof. unfold drop_client. db_respects. Qed.

Lemma db_respects_room_handler command h : room_handler env command = Some h → db_respects R h.
Proof.
  destruct command; simpl; intros Heq; try discriminate; injection Heq as <-.
  - unfold reset_state. db_respects.
  - unfold req_create_room, get_corresponding_server. db_respects.
  - unfold req_join_room, send_join_notification. db_respects.
  - unfold req_leave_room. db_respects.
  - unfold req_search_room, reply_or_fail, read_rooms. db_respects.
  - unfold req_get_roomdata_external_list, reply_or_fail, read_rooms. db_respects.
  - unfold req_set_roomdata_external. db_respects.
  - unfold req_get_roomdata_internal, reply_or_code, read_rooms. db_respects.
  - unfold req_set_roomdata_internal, notify_update. db_respects.
  - unfold req_get_roommemberdata_internal, reply_or_code, read_rooms. db_respects.
  - unfold req_set_roommemberdata_internal, notify_update. db_respects.
  - unfold req_ping_room_owner, reply_or_code, read_rooms. db_respects.
  - unfold req_send_room_message. db_respects.
  - unfold req_create_room_gui, caller. db_respects.
  - unfold req_join_room_gui, caller, reply_joined. db_respects.
  - unfold req_leave_room_gui. db_respects.
  - unfold req_get_room_list_gui, read_gui. db_respects.
  - unfold req_set_room_search_flag_gui, code_of. db_respects.
  - unfold req_get_room_search_flag_gui, read_gui, reply_or_code. db_respects.
  - unfold req_set_room_info_gui, code_of. db_respects.
  - unfold req_get_room_info_gui, read_gui, reply_or_code. db_respects.
  - unfold req_quickmatch_gui, caller. db_respects.
  - unfold req_searchjoin_gui, caller, reply_joined. db_respects.
  - unfold req_get_room_member_data_external_list, read_rooms, reply_or_code. db_respects.
  - unfold req_search_room_all, reply_or_fail, read_rooms. db_respects.
Qed.

Ltac storage := unfold tus_get_user_variable, tus_get_vuser_variable, tus_set_user_variable, tus_set_vuser_variable,
  tus_add_and_get_user_variable, tus_add_and_get_vuser_variable, tus_try_and_set_user_variable,
  tus_try_and_set_vuser_variable, tus_delete_user_variable_with_slotlist, tus_delete_vuser_variable_with_slotlist,
  tus_get_user_data, tus_get_vuser_data, tus_delete_user_data_with_slotlist, tus_delete_vuser_data_with_slotlist,
  tus_get_user_variable_from_user_list, tus_get_user_data_from_user_list, get_variable, set_variable,
  add_and_get_variable, try_and_set_variable, get_data, upsert_or_get, get_slot, read_variable, read_status,
  required_user, at_most_one, friend_list, get_username_with_helper; db_respects.

Lemma db_respects_tus_set_data : db_respects R (tus_set_data env).
Proof.
  unfold tus_set_data, store_data, preliminary_set_tus_data_check, tus_get_vuser_data_timestamp_and_author,
    tus_get_user_data_timestamp_and_author, tus_set_vuser_data, tus_set_user_data, set_data,
    data_timestamp_and_author, get_slot, required_user, at_most_one.
  db_respects.
Qed.

Lemma db_respects_service_handler command h : service_handler env command = Some h → db_respects R h.
Proof.
  destruct command; simpl; intros Heq; try discriminate; injection Heq as <-.
  - unfold add_friend, other_user, request_friend, get_rel_status, set_rel_status, own_info, update_shared_info, is_online.
    db_respects.
  - unfold remove_friend, other_user, end_friendship, get_rel_status, set_rel_status, own_info, update_shared_info.
    db_respects.
  - unfold add_block. db_respects.
  - unfold remove_block. db_respects.
  - unfold req_get_server_list, get_server_list, create_server. db_respects.
  - unfold req_get_world_list, get_world_list, query_worlds. db_respects.
  - unfold req_set_userinfo, is_online, update_shared_info. db_respects.
  - unfold req_signaling_infos, own_info. db_respects.
  - unfold req_ticket, own_info. db_respects.
  - unfold send_message, own_info. db_respects.
  - unfold client_get_board_infos, create_missing, db_get_board_infos, create_score_board. db_respects.
  - unfold client_record_score, create_missing. db_respects.
  - unfold client_record_score_data, set_score_data. db_respects.
  - unfold client_get_score_data. db_respects.
  - unfold client_get_score_range, reply_scores. db_respects.
  - unfold client_get_score_friends, reply_scores. db_respects.
  - unfold client_get_score_npid, reply_scores. db_respects.
  - unfold get_network_time. db_respects.
  - unfold tus_set_multislot_variable. storage.
  - unfold tus_get_multislot_variable. storage.
  - unfold tus_get_multiuser_variable. storage.
  - unfold tus_get_friends_variable. storage.
  - unfold tus_add_and_get_variable. storage.
  - unfold tus_try_and_set_variable. storage.
  - unfold tus_delete_multislot_variable. storage.
  - apply db_respects_tus_set_data.
  - unfold tus_get_data. storage.
  - unfold tus_get_multislot_data_status. storage.
  - unfold tus_get_multiuser_data_status. storage.
  - unfold tus_get_friends_data_status. storage.
  - unfold tus_delete_multislot_data. storage.
  - unfold set_presence, own_info, notify_presence, change_presence, write_cut, write_presence, update_shared_info. db_respects.
  - unfold req_admin_update_domain_bans, check_admin. db_respects.
  - unfold req_admin_terminate_server, check_admin. db_respects.
  - unfold req_admin_update_servers_cfg, check_admin. db_respects.
  - unfold req_admin_ban_user, check_admin, ban_user, update_shared_info. db_respects.
  - unfold req_admin_del_user, check_admin, get_email_check, is_online. db_respects.
Qed.

Lemma db_respects_login_handler command h : login_handler env command = Some h → db_respects R h.
Proof.
  destruct command; simpl; intros Heq; try discriminate; injection Heq as <-.
  - unfold login, login_checked, update_login_time. db_respects.
  - unfold create_account, send_mail. db_respects.
  - unfold delete_account. db_respects.
  - unfold resend_token, send_mail, get_token_sent_time, set_token_sent_time. db_respects.
  - unfold send_reset_token, send_mail, check_email, get_reset_password_token_sent_time, update_password_token,
      set_reset_password_token_sent_time. db_respects.
  - unfold reset_password, check_reset_token, update_user_password. db_respects.
Qed.

Lemma db_respects_process_command command : db_respects R (process_command env command).
Proof.
  unfold process_command, session_handler. pose proof (db_respects_room_handler command) as Hr.
  pose proof (db_respects_service_handler command) as Hs. pose proof (db_respects_login_handler command) as Hl.
  assert (∀ o : option Handler, (∀ h, o = Some h → db_respects R h) → db_respects R (default (fail Invalid) o)) as Ho.
  { intros [h|] Hh; simpl; [by apply Hh|apply db_respects_same; [typeclasses eauto|done]]. }
  destruct command; try (apply db_respects_same; [typeclasses eauto|done]);
    (apply db_respects_bind; [typeclasses eauto|apply db_respects_same; [typeclasses eauto|done]|intros []]); apply Ho; try done;
    intros h; destruct (room_handler env _) as [h'|]; (intros [= <-] || idtac); eauto.
Qed.
End handlers.
