(* ===== verification/ServerRules.v ===== *)
(** * The server's rooms under arbitrary requests

    The dispatch of a packet takes the room managers through steps of their
    machines, whoever sends it and whatever it contains; the cleanup of a leaving
    user empties its memberships; unauthenticated clients are kept out. *)

From S2P Require Import ScoreCache Text Database Accounts Friendships DbScore DbTus Config DataFiles.
From S2P Require Import Prelude Protocol StreamExtractor Messages RoomData Room RoomManager RoomInv.
From S2P Require Import RoomReports RoomManagerInv RoomCreate RoomJoin RoomMachine GuiRoom GuiRoomManager.
From S2P Require Import GuiInv GuiMachine GuiRules GameTracker Matchmaking ClientState UdpServer RoomCommands.
From S2P Require Import GuiCommands TusCommands ScoreCommands AccountCommands FriendCommands Dispatch.
From S2P Require Import CommandFrames ServiceFrames CommandMoves Http ApiServer ApiFrames.

Section guarded.
Context `{!HashOrder} `{!RoomCodec} `{!GuiCodec} (env : Env) (cx0 : Ctx).

Lemma wp_quiet_step {A B} (m : H A) (k : A → H B) cx :
  quiet m → same_rooms cx0 cx →
  (∀ a cx', same_rooms cx0 cx' → wp (k a) cx' (λ _ cx', evolves cx0 cx')) →
  wp (bind m k) cx (λ _ cx', evolves cx0 cx').
Proof.
  intros Hq Hs Hk. apply wp_bind, wp_quiet; [done|]. intros r cx' Hs'.
  assert (same_rooms cx0 cx') by by etransitivity.
  destruct r; [by apply Hk|by apply same_evolves..].
Qed.

Lemma wp_rooms_step {A B} (m : RM A) (k : R A → H B) cx :
  same_rooms cx0 cx → rtc rm_step (rooms_of cx) (m (rooms_of cx)).2 → (∀ a, moves (k a)) →
  wp (bind (on_rooms m) k) cx (λ _ cx', evolves cx0 cx').
Proof.
  intros Hs Hm Hk. apply wp_bind_moves; [|done]. unfold wp. etransitivity; [by apply same_evolves|].
  by apply evolves_on_rooms.
Qed.

Lemma wp_gui_step {A B} (m : GM A) (k : R A → H B) cx :
  same_rooms cx0 cx → rtc (gui_step false) (gui_of cx) (m (gui_of cx)).2 → (∀ a, moves (k a)) →
  wp (bind (on_gui m) k) cx (λ _ cx', evolves cx0 cx').
Proof.
  intros Hs Hm Hk. apply wp_bind_moves; [|done]. unfold wp. etransitivity; [by apply same_evolves|].
  by apply evolves_on_gui.
Qed.

Lemma rm_step_once op rm rm' : rm_run op rm = Some rm' → rtc rm_step rm rm'.
Proof. intros. apply rtc_once. by econstructor. Qed.

Lemma gui_step_once op g out : gui_run op g = Some out → rtc (gui_step false) g out.2.
Proof. intros. apply rtc_once. destruct out. by econstructor. Qed.

Hypothesis (Hcodec : CodecOk) (Hre : redirs_ok (sv_config (cx_shared cx0))) (Hcnt : counters_ok (cx_shared cx0)).

Lemma create_room_moves : wp (req_create_room env) cx0 (λ _ cx', evolves cx0 cx').
Proof.
  unfold req_create_room. apply wp_bind, get_com_and_pb_wp; [done|]. intros cx1 Hs1.
  split; [intros; by apply same_evolves|]. intros c req bs _ Hbs. cbn beta iota.
  do 4 (apply wp_quiet_step; [quiet|done|]; clear dependent cx1; intros ? cx1 Hs1).
  apply wp_rooms_step; [done| |intros; moves]. eapply (rm_step_once (OpCreate _ _ _ _ _ _)). simpl.
  destruct Hs1 as (-> & _ & _). destruct Hcnt as [Hc _].
  by rewrite !bool_decide_true by (done || by eapply ok_create).
Qed.

Lemma join_room_moves : wp (req_join_room env) cx0 (λ _ cx', evolves cx0 cx').
Proof.
  unfold req_join_room. apply wp_bind, get_com_and_pb_wp; [done|]. intros cx1 Hs1.
  split; [intros; by apply same_evolves|]. intros c req bs _ _. cbn beta iota.
  apply wp_bind, wp_gets. unfold room_exists.
  case_bool_decide as Hex; cbn [negb]; [|by apply wp_ret, same_evolves].
  destruct Hex as [room Hroom]. unfold get_room. rewrite Hroom. apply wp_bind, wp_lift. cbn [unwrap].
  apply wp_bind, wp_gets. destruct (existsb _ _) eqn:Hnew; [by apply wp_ret, same_evolves|].
  apply wp_bind, wp_gets, wp_bind, wp_gets. apply wp_rooms_step; [done| |intros; moves].
  eapply (rm_step_once (OpJoin _ _ _ _ _)). simpl. unfold may_join. rewrite Hroom, bool_decide_false; [done|].
  rewrite in_room_user_ids, in_room_member. intros (mid & u & Hu & Heq). apply not_true_iff_false in Hnew.
  apply Hnew, existsb_exists. exists (mid, u_user_id u). split; [|by rewrite bool_decide_true].
  apply list_elem_of_In, elem_of_map_to_list. unfold get_room_users. by rewrite lookup_fmap, Hu.
Qed.

Lemma create_room_gui_moves : wp req_create_room_gui cx0 (λ _ cx', evolves cx0 cx').
Proof.
  unfold req_create_room_gui. apply wp_bind, get_com_and_pb_wp; [done|]. intros cx1 Hs1.
  split; [intros; by apply same_evolves|]. intros c req bs Hc _. cbn beta iota.
  apply wp_quiet_step; [quiet|done|]. clear dependent cx1. intros ? cx1 Hs1.
  apply wp_gui_step; [done| |intros; moves]. eapply (gui_step_once (GuiCreate _ _ _) _ (outcome _)). simpl.
  destruct Hs1 as (_ & -> & _). destruct Hcnt as [_ Hn]. unfold has_room_id. by rewrite !bool_decide_true.
Qed.

Lemma quickmatch_gui_moves : wp req_quickmatch_gui cx0 (λ _ cx', evolves cx0 cx').
Proof.
  unfold req_quickmatch_gui. apply wp_bind, get_com_and_pb_wp; [done|]. intros cx1 Hs1.
  split; [intros; by apply same_evolves|]. intros c req bs Hc Hbs. cbn beta iota.
  apply wp_quiet_step; [quiet|done|]. clear dependent cx1. intros ? cx1 Hs1.
  apply wp_gui_step; [done| |intros; moves]. eapply (gui_step_once (GuiQuickMatch _ _ _) _ (outcome _)). simpl.
  destruct Hs1 as (_ & -> & _). destruct Hcnt as [_ Hn]. unfold has_room_id.
  by rewrite !bool_decide_true by (done || by eapply ok_quickmatch).
Qed.

Lemma searchjoin_gui_moves : wp req_searchjoin_gui cx0 (λ _ cx', evolves cx0 cx').
Proof.
  unfold req_searchjoin_gui. apply wp_bind, get_com_and_pb_wp; [done|]. intros cx1 Hs1.
  split; [intros; by apply same_evolves|]. intros c req bs Hc Hbs. cbn beta iota.
  apply wp_quiet_step; [quiet|done|]. clear dependent cx1. intros ? cx1 Hs1.
  apply wp_gui_step; [done| |intros; moves]. eapply (gui_step_once (GuiSearchJoin _ _ _) _ (outcome _)). simpl.
  destruct (ok_searchjoin _ _ Hbs). by rewrite !bool_decide_true.
Qed.

(** Every handler of a room command moves the managers by steps. *)
Lemma room_handler_moves command h :
  room_handler env command = Some h → wp h cx0 (λ _ cx', evolves cx0 cx').
Proof.
  assert (∀ h : Handler, moves h → wp h cx0 (λ _ cx', evolves cx0 cx')) as Hm by (intros ? ?; by apply wp_moves).
  assert (∀ h : Handler, quiet h → wp h cx0 (λ _ cx', evolves cx0 cx')) as Hq
    by (intros; by apply Hm, quiet_moves).
  destruct command; simpl; intros Heq; try discriminate; injection Heq as <-.
  - apply Hm. unfold reset_state. apply moves_bind; [apply moves_clean_user_state|intros; moves].
  - apply create_room_moves.
  - apply join_room_moves.
  - apply Hm, moves_leave_room.
  - apply Hq, quiet_search_room.
  - apply Hq, quiet_get_roomdata_external_list.
  - apply Hm, moves_set_roomdata_external.
  - apply Hq, quiet_get_roomdata_internal.
  - apply Hm, moves_set_roomdata_internal.
  - apply Hq, quiet_get_roommemberdata_internal.
  - apply Hm, moves_set_roommemberdata_internal.
  - apply Hq, quiet_ping_room_owner.
  - apply Hq, quiet_send_room_message.
  - apply create_room_gui_moves.
  - apply Hm, moves_join_room_gui.
  - apply Hm, moves_leave_room_gui.
  - apply Hq, quiet_get_room_list_gui.
  - apply Hm, moves_set_room_search_flag_gui.
  - apply Hq, quiet_get_room_search_flag_gui.
  - apply Hm, moves_set_room_info_gui.
  - apply Hq, quiet_get_room_info_gui.
  - apply quickmatch_gui_moves.
  - apply searchjoin_gui_moves.
  - apply Hq, quiet_get_room_member_data_external_list.
  - apply Hq, quiet_search_room_all.
Qed.
End guarded.

(** ** Packets *)

Section packets.
Context `{!HashOrder} `{!External} `{!ServerCodec} (env : Env).

(** The room managers after a packet come from steps of their machines. *)
Definition rooms_evolve (s s' : SharedData) : Prop :=
  rtc rm_step (sv_room_manager s) (sv_room_manager s') ∧
  rtc (gui_step false) (sv_gui_room_manager s) (sv_gui_room_manager s').

Lemma rooms_evolve_same cx cx' :
  rooms_of cx' = rooms_of cx → gui_of cx' = gui_of cx → rooms_evolve (cx_shared cx) (cx_shared cx').
Proof. intros E1 E2. unfold rooms_evolve. by rewrite E1, E2. Qed.

Lemma session_handler_moves command h cx :
  CodecOk → redirs_ok (sv_config (cx_shared cx)) → counters_ok (cx_shared cx) →
  session_handler env command = Some h → rooms_evolve (cx_shared cx) (cx_shared (h cx).2).
Proof.
  intros Hcodec Hre Hcnt. unfold session_handler. destruct (room_handler env command) as [h'|] eqn:Hh; intros Heq.
  - injection Heq as ->. pose proof (room_handler_moves env cx Hcodec Hre Hcnt command h Hh) as (? & ? & _). by split.
  - apply (quiet_service_handler env) in Heq. apply quiet_keeps_rooms in Heq as Hk. destruct (Hk cx).
    by apply rooms_evolve_same.
Qed.

Lemma process_command_moves command cx :
  CodecOk → redirs_ok (sv_config (cx_shared cx)) → counters_ok (cx_shared cx) →
  rooms_evolve (cx_shared cx) (cx_shared (process_command env command cx).2).
Proof.
  intros Hcodec Hre Hcnt.
  assert (rooms_evolve (cx_shared cx) (cx_shared (default (fail Invalid)
    (if cl_authentified (cx_client cx) then session_handler env command else login_handler env command) cx).2)) as Hh.
  { destruct (cl_authentified (cx_client cx)).
    - destruct (session_handler env command) as [h|] eqn:Hh; [by eapply session_handler_moves|by apply rooms_evolve_same].
    - destruct (login_handler env command) as [h|] eqn:Hh; [|by apply rooms_evolve_same].
      apply (keeps_rooms_login_handler env) in Hh. destruct (Hh cx). by apply rooms_evolve_same. }
  unfold process_command. destruct command; try exact Hh. by apply rooms_evolve_same.
Qed.

Lemma rooms_evolve_inv s s' :
  rooms_evolve s s' → mgr_inv (sv_room_manager s) → gui_inv false (sv_gui_room_manager s) →
  mgr_inv (sv_room_manager s') ∧ gui_inv false (sv_gui_room_manager s').
Proof.
  intros [Hr Hg] Hi Hj. split.
  - clear Hg. induction Hr as [|a b c [op ? ? Hop] _ IH]; [done|]. apply IH. by eapply rm_run_inv.
  - clear Hr. induction Hg as [|a b c [op ? ok ? Hop _] _ IH]; [done|]. apply IH.
    by apply (gui_run_inv false) in Hop.
Qed.

(** The packet's effect on the rooms is the handler's. *)
Lemma interpret_command_shared command packet_id data c s :
  let cx := mkCtx c s (extractor_new data) (reply_start command packet_id) in
  (interpret_command env command packet_id data c s).2 =
    cx_shared match Command.command_from_u16 command with
              | None => cx
              | Some parsed => (process_command env parsed cx).2
              end.
Proof.
  unfold interpret_command. destruct (Command.command_from_u16 command) as [parsed|]; [|done].
  by destruct (process_command env parsed _) as [[] ?].
Qed.
End packets.

(** ** The server as a machine over its connections *)

Record Server := mkServer {
  srv_shared : SharedData;
  srv_clients : gmap nat Client;
}.

Definition no_rooms : SharedData :=
  mkSharedData GuiRoomManager_new RoomManager_new ∅ ScoresCache_new GameTracker_new ∅ Config_new empty_db
    (mkDataDir 1 ∅) (mkDataDir 1 ∅) 1 false [] [].

Section server_machine.
Context `{!HashOrder} `{!External} `{!ServerCodec}.

(** The server starts without rooms and connections, with any tables. *)
Inductive server_start : Server → Prop :=
| start_server s :
    sv_room_manager s = RoomManager_new → sv_gui_room_manager s = GuiRoomManager_new →
    server_start (mkServer s ∅).

(** A new connection, a packet of a connection (with any payload, clock and random
    draw), the end of a connection, a signaling packet, a round of the daily cleaner, a
    request to the API server (with any key and any behaviour of the HTTP library). *)
Inductive server_step : Server → Server → Prop :=
| step_connect n s cs ip :
    cs !! n = None → server_step (mkServer s cs) (mkServer s (<[n := Client_new ip]> cs))
| step_packet env n c s cs command packet_id data out c' s' :
    cs !! n = Some c → redirs_ok (sv_config s) → counters_ok s →
    interpret_command env command packet_id data c s = (out, c', s') →
    server_step (mkServer s cs) (mkServer s' (<[n := c']> cs))
| step_disconnect env n c s cs timestamp r cx' :
    cs !! n = Some c →
    drop_client env timestamp (mkCtx c s (extractor_new []) []) = (r, cx') →
    server_step (mkServer s cs) (mkServer (cx_shared cx') (delete n cs))
| step_signaling s cs recv_buf ip_addr ip_port :
    server_step (mkServer s cs) (mkServer (handle_socket_input recv_buf ip_addr ip_port s).2 cs)
| step_clean_daily env s cs : server_step (mkServer s cs) (mkServer (clean_daily env s) cs)
| step_api (lib : HttpLib) env api_key req s cs :
    server_step (mkServer s cs) (mkServer (api_request env api_key req s).2 cs).

Lemma moves_drop_client env timestamp : moves (drop_client env timestamp).
Proof.
  pose proof (moves_clean_user_state env) as Hc. unfold drop_client. moves.
Qed.

Lemma server_step_evolves srv srv' :
  CodecOk → server_step srv srv' → rooms_evolve (srv_shared srv) (srv_shared srv').
Proof.
  intros Hcodec [n s cs ip|env n c s cs command pid data out c' s' Hc Hre Hcnt Hi|env n c s cs ts r cx' Hc Hd
                |s cs buf ip port|env s cs|lib env key req s cs]; simpl.
  - done.
  - pose proof (interpret_command_shared env command pid data c s) as Hs. rewrite Hi in Hs. simpl in Hs.
    subst s'. destruct (Command.command_from_u16 command) as [parsed|]; [|done].
    apply (process_command_moves env parsed (mkCtx _ _ _ _)); done.
  - pose proof (moves_drop_client env ts (mkCtx c s (extractor_new []) [])) as (? & ? & _).
    rewrite Hd in *. by split.
  - unfold handle_socket_input. by case_match.
  - unfold clean_daily. by case_match.
  - destruct (api_request_rest env key req s) as [_ ->]. done.
Qed.

Lemma server_reachable_evolves srv0 srv :
  CodecOk → rtc server_step srv0 srv → rooms_evolve (srv_shared srv0) (srv_shared srv).
Proof.
  intros Hcodec. induction 1 as [|a b c Hs _ [IHr IHg]]; [done|].
  destruct (server_step_evolves _ _ Hcodec Hs) as [Hr Hg]. split; by etransitivity.
Qed.
End server_machine.

(** Codecs that decode every payload to one message, to run the server on. *)
Definition fixed_message {T} (t : T) : Message T := {| encode_to_vec _ := []; decode_message _ := Some t |}.
Definition no_message {T} : Message T := {| encode_to_vec _ := []; decode_message _ := None |}.

Definition ex_room_codec : RoomCodec :=
  {| pb_CreateJoinRoomRequest := fixed_message (ex_create 4 (Some ex_mesh));
     pb_CreateRoomResponse := no_message;
     pb_JoinRoomRequest := fixed_message (ex_join 1 (new_from_value 0));
     pb_JoinRoomResponse := no_message;
     pb_NotificationUserJoinedRoom := no_message;
     pb_LeaveRoomRequest := fixed_message (mkLeaveRoomRequest 1 None);
     pb_RoomMemberUpdateInfo := no_message;
     pb_RoomUpdateInfo := no_message;
     pb_SearchRoomRequest := fixed_message (mkSearchRoomRequest 0 1 0 1 20 0 0 [] [] []);
     pb_SearchRoomResponse := no_message;
     pb_SearchRoomAllResponse := no_message;
     pb_GetRoomDataExternalListRequest := no_message;
     pb_GetRoomDataExternalListResponse := no_message;
     pb_GetRoomMemberDataExternalListResponse := no_message;
     pb_SetRoomDataExternalRequest := no_message;
     pb_GetRoomDataInternalRequest := no_message;
     pb_RoomDataInternal := no_message;
     pb_SetRoomDataInternalRequest := no_message;
     pb_RoomDataInternalUpdateInfo := no_message;
     pb_GetRoomMemberDataInternalRequest := no_message;
     pb_RoomMemberDataInternal := no_message;
     pb_SetRoomMemberDataInternalRequest := no_message;
     pb_RoomMemberDataInternalUpdateInfo := no_message;
     pb_GetPingInfoResponse := no_message;
     pb_SendRoomMessageRequest :=
       fixed_message (mkSendRoomMessageRequest 1 (new_from_value 1) [] [1; 2; 3] (new_from_value 0));
     pb_RoomMessageInfo := no_message |}.

Definition ex_gui_codec : GuiCodec :=
  {| pb_CreateRoomGuiRequest := no_message;
     pb_MatchingRoomStatus := no_message;
     pb_MatchingGuiRoomId := no_message;
     pb_GetRoomListGuiRequest := no_message;
     pb_MatchingRoomList := no_message;
     pb_SetRoomSearchFlagGui := no_message;
     pb_MatchingRoom := no_message;
     pb_QuickMatchGuiRequest := no_message;
     pb_SearchJoinRoomGuiRequest := no_message;
     pb_MatchingSearchJoinRoomInfo := no_message |}.

Lemma ex_codec_ok : @CodecOk ex_room_codec ex_gui_codec.
Proof. split; [|done..]. intros bs req [= <-]. vm_compute. discriminate. Qed.

Definition ex_codec : ServerCodec :=
  {| codec_room := ex_room_codec; codec_gui := ex_gui_codec;
     codec_tus := ltac:(constructor; exact no_message); codec_score := ltac:(constructor; exact no_message);
     codec_misc := ltac:(constructor; exact no_message) |}.

(** A hash that keeps everything, a parser that wants an at sign, doubles of 53 bits. *)
Definition ex_external : External :=
  {| hash_raw password salt := Some (password ++ [0] ++ salt);
     valid_address s := bool_decide (64 ∈ bytes_of_string s);
     round_double z := if bool_decide (Z.abs z < 2 ^ 53) then z else 2 ^ 11 * (z / 2 ^ 11);
     username_checked_first := true |}.

Definition ex_env : Env :=
  mkEnv 0 0 0 100000000 0 (mkDraw [] []) true true FileOk true None None (λ _, None).

(** The account of a user whose password is "pw". *)
Definition ex_account (name : string) : Account :=
  mkAccount name (bytes_of_string "pw" ++ [0; 1]) [1] name "" "" name "" None false false false.

(** A server that knows a world of [ex_com] and the account of [alice]. *)
Definition ex_db : Database :=
  empty_db <| db_servers := {[("NPWR00001_00", 1)]} |> <| db_worlds := {[("NPWR00001_00", 1) := 1]} |> <| db_account := {[7 := ex_account "alice"]} |>
           <| db_sequence := 7 |> <| db_account_timestamp := {[7 := mkAccountTimestamp 0 None None None]} |>.

Definition ex_server : Server := mkServer (no_rooms <| sv_db := ex_db |>) ∅.

(** A request about [ex_com] whose message is empty on the wire, and a login. *)
Definition ex_payload : bytes := ex_com ++ to_le_bytes 4 0.
Definition ex_login : bytes := bytes_of_string "alice" ++ [0] ++ bytes_of_string "pw" ++ [0; 0].

Definition ex_packet (n : nat) (command : Z) (data : bytes) (srv : Server) : Server :=
  match srv_clients srv !! n with
  | None => srv
  | Some c =>
      let out := @interpret_command elements_order ex_external ex_codec ex_env command 0 data c (srv_shared srv) in
      mkServer out.2 (<[n := out.1.2]> (srv_clients srv))
  end.

Definition ex_steps := rtc (@server_step elements_order ex_external ex_codec).

Lemma ex_packet_step n command data srv :
  is_Some (srv_clients srv !! n) → cf_server_redirs (sv_config (srv_shared srv)) = ∅ → counters_ok (srv_shared srv) →
  @server_step elements_order ex_external ex_codec srv (ex_packet n command data srv).
Proof.
  intros [c Hc] Hre Hcnt. unfold ex_packet. rewrite Hc. destruct srv as [s cs]. simpl in *.
  eapply (step_packet ex_env); [exact Hc|intros ? ?; by rewrite Hre, lookup_empty|done|].
  etransitivity; [apply surjective_pairing|]. f_equal. apply surjective_pairing.
Qed.

Lemma counters_ok_empty s :
  rm_room_cnt (sv_room_manager s) = ∅ → gg_cur_room_id (sv_gui_room_manager s) = 1 → counters_ok s.
Proof. intros Ec Eg. unfold counters_ok, counter. rewrite Ec, Eg. split; [|done]. intros c. by rewrite lookup_empty. Qed.

(** [alice] connects, logs in and opens a room. *)
Definition ex_alice : Server :=
  ex_packet 0 14 ex_payload (ex_packet 0 0 ex_login (mkServer (srv_shared ex_server) {[0%nat := Client_new []]})).

Lemma ex_alice_reachable : ex_steps ex_server ex_alice.
Proof.
  unfold ex_alice, ex_steps. eapply rtc_l; [by apply (step_connect 0%nat)|].
  eapply rtc_l; [apply (ex_packet_step 0 0 ex_login); [vm_compute; by eexists|done|by apply counters_ok_empty]|].
  apply rtc_once, (ex_packet_step 0 14 ex_payload);
    [vm_compute; by eexists|vm_compute; reflexivity|apply counters_ok_empty; vm_compute; reflexivity].
Qed.

(** C1: whatever connections open, whatever packets they send and in whatever order
    the server takes them, however they end (a panicking handler included), and whatever
    the signaling port, the daily cleaner and the API server do in between, both room
    managers go through steps of their state machines only, and the invariants of
    both hold in every state the server reaches. *)
Theorem server_rooms_consistent `{!HashOrder} `{!External} `{!ServerCodec} srv0 srv :
  CodecOk → server_start srv0 → rtc server_step srv0 srv →
  rm_reachable (sv_room_manager (srv_shared srv)) ∧
  rtc (gui_step false) GuiRoomManager_new (sv_gui_room_manager (srv_shared srv)) ∧
  mgr_inv (sv_room_manager (srv_shared srv)) ∧
  gui_inv false (sv_gui_room_manager (srv_shared srv)).
Proof.
  intros Hcodec [s Er Eg] Hr. apply server_reachable_evolves in Hr as [Hr1 Hg2]; [|done..]. simpl in *.
  rewrite Er in Hr1. rewrite Eg in Hg2. split; [exact Hr1|]. split; [exact Hg2|].
  apply (rooms_evolve_inv no_rooms); [by split|apply mgr_inv_new|apply (gui_inv_weaken true), gui_inv_new].
Qed.

Lemma server_rooms_consistent_witness :
  is_Some (rm_rooms (sv_room_manager (srv_shared ex_alice)) !! (ex_com, 1)) ∧
  mgr_inv (sv_room_manager (srv_shared ex_alice)).
Proof.
  split; [vm_compute; by eexists|].
  apply (@server_rooms_consistent elements_order ex_external ex_codec ex_server ex_alice
           ex_codec_ok (start_server (srv_shared ex_server) eq_refl eq_refl) ex_alice_reachable).
Defined.
