(* ===== verification/UsageRules.v ===== *)
(** * What a client can do to the usage text

    The comment in [game_tracker_to_json] says that game ids are alphanumeric and checked
    before they reach the tracker.  Title ids are; the service id of a ticket request is
    any string of the client. *)

From S2P Require Import Prelude Protocol Text Json Http StreamExtractor Messages RoomData RoomManager GuiRoomManager.
From S2P Require Import ScoreCache Config GameTracker StatServer StatRules StatFresh Database ClientState Dispatch CommandMoves.
From S2P Require Import RoomMachine ServerRules.

(** [alice] connects and logs in, and asks for a ticket for this service. *)
Definition ex_logged_in : Server :=
  ex_packet 0 0 ex_login (mkServer (srv_shared ex_server) {[0%nat := Client_new []]}).

Definition ex_ticket (service_id : bytes) : Server := ex_packet 0 28 (service_id ++ [0; 0; 0; 0; 0]) ex_logged_in.

Lemma ex_logged_in_reachable : ex_steps ex_server ex_logged_in.
Proof.
  unfold ex_steps, ex_logged_in. eapply rtc_l; [by apply (step_connect 0%nat)|].
  apply rtc_once, (ex_packet_step 0 0 ex_login); [vm_compute; by eexists|done|by apply counters_ok_empty].
Qed.

Lemma ex_ticket_reachable service_id : ex_steps ex_server (ex_ticket service_id).
Proof.
  unfold ex_steps. eapply rtc_r; [exact ex_logged_in_reachable|].
  apply (ex_packet_step 0 28 (service_id ++ [0; 0; 0; 0; 0]) ex_logged_in);
    [vm_compute; by eexists|vm_compute; reflexivity|apply counters_ok_empty; vm_compute; reflexivity].
Qed.

(** A service id with a quote in it, and one that closes the entry and opens another. *)
Definition ex_quote : bytes := [34].
Definition ex_injection : bytes := text "x" ++ [34] ++ text ": 0, " ++ [34] ++ text "y".

Definition ex_usage (srv : Server) : option json :=
  parse_json (@game_tracker_to_json elements_order (sv_game_tracker (srv_shared srv))).

(** Any user who is logged in can break the usage page or write into it: after one
    ticket request whose service id is a quote, the text of the page is no JSON; after one
    with a suitable id, it is JSON that shows a user for a service nobody asked for. *)
Theorem ticket_service_unescaped :
  (∃ srv, ex_steps ex_server srv ∧ ex_usage srv = None) ∧
  (∃ srv, ex_steps ex_server srv ∧ gt_ticket_games (sv_game_tracker (srv_shared srv)) !! "y"%string = None ∧
     ex_usage srv = Some (JObj
       [(text "num_users", JNum 1); (text "ticket_games", JObj [(text "x", JNum 0); (text "y", JNum 1)])])).
Proof.
  split; [exists (ex_ticket ex_quote)|exists (ex_ticket ex_injection)]; (split; [apply ex_ticket_reachable|]).
  - vm_compute. reflexivity.
  - split; vm_compute; reflexivity.
Qed.
