(* ===== verification/TusRules.v ===== *)
(** * Title user storage: slots belong to their owners, and hold what was stored *)

From S2P Require Import ScoreCache Text Database Accounts Friendships DbScore DbTus Config DataFiles.
From S2P Require Import Prelude Protocol StreamExtractor Messages StorageMessages RoomData Room RoomManager GuiRoom.
From S2P Require Import GuiRoomManager GameTracker ClientState UdpServer RoomCommands GuiCommands TusCommands.
From S2P Require Import ScoreCommands AccountCommands FriendCommands Dispatch CommandFrames ServiceFrames.
From S2P Require Import RoomMachine DataRules DbFrames DbInv DbExec DbHandlers ServerRules.

(** ** Owners *)

(** The slots of users other than [u] are untouched. *)
Definition own (u : Z) (db db' : Database) : Prop :=
  (∀ k, k.1.1 ≠ u → db_tus_var db' !! k = db_tus_var db !! k) ∧
  (∀ k, k.1.1 ≠ u → db_tus_data db' !! k = db_tus_data db !! k).

#[export] Instance own_base u : FaultRelation (own u).
Proof.
  split; [split|done].
  - by intros db.
  - intros db1 db2 db3 [Hv1 Hd1] [Hv2 Hd2]. split; intros k Hk; [rewrite Hv2, Hv1|rewrite Hd2, Hd1]; done.
Qed.

Lemma own_filter {V} (m : gmap (Z * ComId * Z) V) u (c : ComId) (l : list Z) k :
  k.1.1 ≠ u → filter (λ '((o, c', s), _), ¬ (o = u ∧ c' = c ∧ s ∈ l)) m !! k = m !! k.
Proof.
  intros Hk. destruct k as [[o c'] s]. simpl in Hk. destruct (m !! (o, c', s)) as [r|] eqn:Hm.
  - apply map_lookup_filter_Some. split; [done|]. naive_solver.
  - apply map_lookup_filter_None. by left.
Qed.

(** A statement of one owner's slots. *)
Ltac own_statement :=
  intros d; unfold upsert, delete_slots, execute;
  (apply sql_effect; [typeclasses eauto|intros; apply rel_faults|]);
  let db := fresh "db" in let a := fresh "a" in let db' := fresh "db'" in let E := fresh "E" in
  intros db a db' E; cbv beta zeta in E; repeat case_match; simplify_eq; split; intros key Hkey; try done.

Lemma own_upsert_var u c s r g m : respects (own u) (upsert tus_var (u, c, s) r g m).
Proof. own_statement; apply lookup_insert_ne; intros <-; done. Qed.

Lemma own_upsert_data u c s r g m : respects (own u) (upsert tus_data (u, c, s) r g m).
Proof. own_statement; apply lookup_insert_ne; intros <-; done. Qed.

Lemma own_upsert_var_vuser u k r g m : respects (own u) (upsert tus_var_vuser k r g m).
Proof. own_statement. Qed.

Lemma own_upsert_data_vuser u k r g m : respects (own u) (upsert tus_data_vuser k r g m).
Proof. own_statement. Qed.

Lemma own_delete_var u c l : respects (own u) (delete_slots tus_var u c l).
Proof. own_statement. exact (own_filter (db_tus_var db) u c l key Hkey). Qed.

Lemma own_delete_data u c l : respects (own u) (delete_slots tus_data u c l).
Proof. own_statement. exact (own_filter (db_tus_data db) u c l key Hkey). Qed.

Lemma own_delete_var_vuser u o c l : respects (own u) (delete_slots tus_var_vuser o c l).
Proof. own_statement. Qed.

Lemma own_delete_data_vuser u o c l : respects (own u) (delete_slots tus_data_vuser o c l).
Proof. own_statement. Qed.
#[export] Hint Resolve own_upsert_var own_upsert_data own_upsert_var_vuser own_upsert_data_vuser own_delete_var
  own_delete_data own_delete_var_vuser own_delete_data_vuser : respects.

(** A handler run by [u]. *)
Definition keeps_slots (u : Z) {E A} (h : M Ctx E A) : Prop :=
  ∀ cx, user_id cx = u → own u (db_of cx) (db_of (h cx).2).

Lemma keeps_slots_bind {E A B} u (m : M Ctx E A) (k : A → M Ctx E B) :
  quiet m → keeps_slots u m → (∀ a, keeps_slots u (k a)) → keeps_slots u (bind m k).
Proof.
  intros Hq Hm Hk cx Hu. specialize (Hm cx Hu). destruct (Hq cx) as (_ & _ & Hi & _). unfold bind.
  destruct (m cx) as [[a|e|] cx1]; simpl in *; try done. etransitivity; [exact Hm|]. apply Hk.
  rewrite <- Hu. unfold user_id. by rewrite Hi.
Qed.

Lemma keeps_slots_self {B} u (k : Z → H B) : keeps_slots u (k u) → keeps_slots u (bind (gets user_id) k).
Proof. intros Hk cx Hu. unfold bind, gets. rewrite Hu. by apply Hk. Qed.

Lemma keeps_slots_own_user u npid (k : Z → Handler) :
  keeps_slots u (k u) → keeps_slots u (with_exits (own_user npid) k).
Proof.
  intros Hk cx Hu. pose proof (db_respects_own_user (own u) npid cx) as Hr. unfold with_exits.
  assert (quiet (own_user npid)) as Hq by (unfold own_user, lookup_user; quiet).
  destruct (Hq cx) as (_ & _ & Hi & _). destruct (own_user npid cx) as [r cx1] eqn:Hrun. simpl in *.
  assert (user_id cx1 = u) as Hu1 by (rewrite <- Hu; unfold user_id; by rewrite Hi).
  assert (∀ a, r = Ok a → a = u) as Hown.
  { intros a ->. unfold own_user in Hrun. apply bind_ok_inv in Hrun as (uid & cx2 & _ & Hrun).
    unfold bind, gets in Hrun. case_bool_decide as Hne; [done|]. injection Hrun as <- <-.
    destruct (decide (uid = user_id cx2)); [congruence|done]. }
  destruct r as [a|e|]; [|done..]. rewrite (Hown a eq_refl). etransitivity; [exact Hr|]. by apply Hk.
Qed.

Lemma keeps_slots_with_exits {A} u (m : M Ctx Exit A) (k : A → Handler) :
  quiet m → keeps_slots u m → (∀ a, keeps_slots u (k a)) → keeps_slots u (with_exits m k).
Proof.
  intros Hq Hm Hk cx Hu. specialize (Hm cx Hu). destruct (Hq cx) as (_ & _ & Hi & _). unfold with_exits.
  destruct (m cx) as [[a|e|] cx1]; simpl in *; try done. etransitivity; [exact Hm|]. apply Hk.
  rewrite <- Hu. unfold user_id. by rewrite Hi.
Qed.

Lemma keeps_slots_respects u {E A} (h : M Ctx E A) : db_respects (own u) h → keeps_slots u h.
Proof. intros Hh cx _. apply Hh. Qed.

Ltac keeps_step :=
  first
    [ apply keeps_slots_own_user | apply keeps_slots_self
    | apply keeps_slots_bind; [solve [quiet]|apply keeps_slots_respects; solve [db_respects]|intros ?]
    | apply keeps_slots_respects; solve [db_respects]
    | case_match ].

Section handlers.
Context `{!HashOrder} `{!External} `{!ServerCodec} (env : Env) (u : Z).

Ltac storage_slots := unfold tus_get_user_variable, tus_get_vuser_variable, tus_set_user_variable, tus_set_vuser_variable,
  tus_add_and_get_user_variable, tus_add_and_get_vuser_variable, tus_try_and_set_user_variable,
  tus_try_and_set_vuser_variable, tus_delete_user_variable_with_slotlist, tus_delete_vuser_variable_with_slotlist,
  tus_get_user_data, tus_get_vuser_data, tus_delete_user_data_with_slotlist, tus_delete_vuser_data_with_slotlist,
  tus_get_user_variable_from_user_list, tus_get_user_data_from_user_list, get_variable, set_variable,
  add_and_get_variable, try_and_set_variable, get_data, upsert_or_get, get_slot, read_variable, read_status,
  required_user, at_most_one, friend_list, get_username_with_helper; repeat keeps_step.

(** The requests on title user storage. *)
Definition is_tus_command (command : Command.CommandType) : bool :=
  match command with
  | Command.TusSetMultiSlotVariable | Command.TusGetMultiSlotVariable | Command.TusGetMultiUserVariable
  | Command.TusGetFriendsVariable | Command.TusAddAndGetVariable | Command.TusTryAndSetVariable
  | Command.TusDeleteMultiSlotVariable | Command.TusSetData | Command.TusGetData | Command.TusGetMultiSlotDataStatus
  | Command.TusGetMultiUserDataStatus | Command.TusGetFriendsDataStatus | Command.TusDeleteMultiSlotData => true
  | _ => false
  end.

Lemma db_respects_store_data R `{!FaultRelation R} check ts author data set_row :
  respects R check → (∀ data_id, respects R (set_row data_id)) →
  db_respects R (store_data env check ts author data set_row).
Proof. intros Hc Hs. unfold store_data, preliminary_set_tus_data_check. db_respects. Qed.

Lemma keeps_slots_set_data : keeps_slots u (tus_set_data env).
Proof.
  unfold tus_set_data, required_user, at_most_one.
  repeat lazymatch goal with |- keeps_slots _ (with_exits _ _) => fail | _ => keeps_step end;
    (apply keeps_slots_with_exits; [solve [quiet]|apply keeps_slots_respects; db_respects|intros author]);
    destruct (tu_vuser _); [|apply keeps_slots_own_user]; apply keeps_slots_respects, db_respects_store_data; try apply _;
    unfold tus_get_vuser_data_timestamp_and_author, tus_get_user_data_timestamp_and_author, data_timestamp_and_author,
      tus_set_vuser_data, tus_set_user_data, set_data, get_slot; intros; respects.
Qed.

Lemma keeps_slots_storage command h :
  is_tus_command command = true → service_handler env command = Some h → keeps_slots u h.
Proof.
  intros Hc. destruct command; try discriminate Hc; simpl; intros [= <-].
  - unfold tus_set_multislot_variable. storage_slots.
  - unfold tus_get_multislot_variable. storage_slots.
  - unfold tus_get_multiuser_variable. storage_slots.
  - unfold tus_get_friends_variable. storage_slots.
  - unfold tus_add_and_get_variable. storage_slots.
  - unfold tus_try_and_set_variable. storage_slots.
  - unfold tus_delete_multislot_variable. storage_slots.
  - apply keeps_slots_set_data.
  - unfold tus_get_data. storage_slots.
  - unfold tus_get_multislot_data_status. storage_slots.
  - unfold tus_get_multiuser_data_status. storage_slots.
  - unfold tus_get_friends_data_status. storage_slots.
  - unfold tus_delete_multislot_data. storage_slots.
Qed.
End handlers.

(** C7: a request on title user storage only ever changes the caller's own slots, or
    those of virtual users: whatever the message says, the variables and data of every
    other user are the same after it. *)
Theorem tus_slots_owned `{!HashOrder} `{!External} `{!ServerCodec} env command cx :
  is_tus_command command = true →
  own (user_id cx) (db_of cx) (db_of (process_command env command cx).2).
Proof.
  intros Hc. pose proof (keeps_slots_storage env (user_id cx) command) as Hs.
  destruct command; try discriminate Hc; unfold process_command, bind, gets; destruct (cl_authentified (cx_client cx)); try done;
    by apply Hs.
Qed.

(** ** Variables *)

(** A table of the database as its methods use it. *)
Class TableLaws {K V} `{Countable K} (t : Table K V) := {
  tl_get_put : ∀ m db, tb_get t (tb_put t m db) = m;
  tl_calm : ∀ m db, calm db → calm (tb_put t m db);
  tl_owner : ∀ m db o, tb_owner_ok t (tb_put t m db) o = tb_owner_ok t db o;
  tl_account : ∀ m db u, has_account (tb_put t m db) u = has_account db u;
}.

#[export] Instance tus_var_laws : TableLaws tus_var.
Proof. by split. Qed.
#[export] Instance tus_var_vuser_laws : TableLaws tus_var_vuser.
Proof. by split. Qed.
#[export] Instance tus_data_laws : TableLaws tus_data.
Proof. by split. Qed.
#[export] Instance tus_data_vuser_laws : TableLaws tus_data_vuser.
Proof. by split. Qed.

(** The two tables of variables. *)
Class VarTable {K} `{Countable K} (t : Table K TusVarRow) := {
  vt_laws :: TableLaws t;
  vt_author : ∀ r, tb_author t r = tv_author r;
}.

#[export] Instance tus_var_table : VarTable tus_var.
Proof. split; [apply _|done]. Qed.
#[export] Instance tus_var_vuser_table : VarTable tus_var_vuser.
Proof. split; [apply _|done]. Qed.

Section variables.
Context `{!External} {K : Type} `{Countable K} (t : Table K TusVarRow) `{!VarTable t}.
Context (com_id : ComId) (owner : K) (slot author_id timestamp : Z).

Abbreviation key := (owner, com_id, slot).

(** The owner and the author have accounts, and no statement fails unexpectedly. *)
Record writable (db : Database) : Prop := {
  wr_calm : calm db;
  wr_owner : tb_owner_ok t db owner = true;
  wr_author : has_account db author_id = true;
}.

Definition write_slot (r : TusVarRow) (db : Database) : Database := tb_put t (<[key := r]> (tb_get t db)) db.

Lemma writable_write r db : writable db → writable (write_slot r db).
Proof.
  intros [Hc Ho Ha]. unfold write_slot. split; [by apply tl_calm|by rewrite tl_owner|by rewrite tl_account].
Qed.

Lemma read_write r db : tb_get t (write_slot r db) !! key = Some r.
Proof. unfold write_slot. by rewrite tl_get_put, lookup_insert_eq. Qed.

Lemma upsert_calm row guard merge db :
  writable db → tb_author t row = author_id → (∀ old, tb_author t (merge old) = author_id) →
  upsert t key row guard merge db =
    match tb_get t db !! key with
    | None => (Ok (Some row), write_slot row db)
    | Some old => if guard old then (Ok (Some (merge old)), write_slot (merge old) db) else (Ok None, db)
    end.
Proof.
  intros [Hc Ho Ha] Hr Hm. unfold upsert. rewrite sql_calm by done. cbv zeta. cbn [fst].
  destruct (tb_get t db !! key) as [old|]; [|by rewrite Ho, Hr, Ha]. destruct (guard old); [|done]. by rewrite Ho, Hm, Ha.
Qed.

Lemma get_slot_calm db :
  calm db → get_slot t key db = (match tb_get t db !! key with Some r => Ok r | None => Err QueryReturnedNoRows end, db).
Proof. intros Hc. unfold get_slot. by rewrite query_row_calm. Qed.

Lemma set_variable_calm value db :
  writable db → set_variable t com_id owner slot value author_id timestamp db =
    (Ok tt, write_slot (mkTusVarRow value timestamp author_id) db).
Proof.
  intros Hw. unfold set_variable, internal. erewrite bind_run; [|apply map_err_run].
  2: { rewrite upsert_calm by (done || intros; apply vt_author). by case_match. }
  by case_match.
Qed.

Lemma get_variable_calm value db :
  calm db → in_i64 value = true → tb_get t db !! key = Some (mkTusVarRow value timestamp author_id) →
  get_variable t com_id owner slot db = (Ok (mkDbTusVarInfo timestamp author_id value), db).
Proof.
  intros Hc Hv Hk. unfold get_variable, or_empty. erewrite bind_run; [|apply map_err_run; rewrite get_slot_calm by done; by rewrite Hk].
  unfold lift, var_info. simpl. by rewrite Hv.
Qed.

(** An addition without conditions, to a variable that is there. *)
Lemma add_variable_run value old db :
  writable db → tb_get t db !! key = Some old →
  let row := mkTusVarRow (sql_add (tv_value old) value) timestamp author_id in
  add_and_get_variable t com_id owner slot value author_id timestamp None None db = (var_info row, write_slot row db).
Proof.
  intros Hw Hk row. unfold add_and_get_variable, upsert_or_get.
  match goal with |- context [upsert t ?k ?r ?g ?m] =>
    assert (upsert t k r g m db = (Ok (Some row), write_slot row db)) as Hup end.
  { rewrite upsert_calm by (done || intros; apply vt_author). by rewrite Hk. }
  unfold bind, attempt. by rewrite Hup.
Qed.

(** The values a variable goes through. *)
Fixpoint running (x : Z) (vs : list Z) : list Z :=
  match vs with
  | [] => []
  | v :: vs => (x + v) :: running (x + v) vs
  end.

Lemma add_variables_run vs x db :
  writable db → tb_get t db !! key = Some (mkTusVarRow x timestamp author_id) → in_i64 x = true →
  Forall (λ v, in_i64 v = true) vs → Forall (λ v, in_i64 v = true) (running x vs) →
  ∃ db' infos, map_each (λ v, add_and_get_variable t com_id owner slot v author_id timestamp None None) vs db = (Ok infos, db') ∧
    vi_variable <$> infos = running x vs ∧ writable db' ∧
    tb_get t db' !! key = Some (mkTusVarRow (foldl Z.add x vs) timestamp author_id) ∧
    (∀ k, k ≠ key → tb_get t db' !! k = tb_get t db !! k).
Proof.
  revert x db. induction vs as [|v vs IH]; intros x db Hw Hk Hx Hvs Hr; simpl; [by eexists _, []|].
  apply Forall_cons in Hvs as [Hv Hvs], Hr as [Hxv Hr].
  assert (sql_add x v = x + v) as Hadd by (unfold sql_add; by rewrite Hx, Hv, Hxv).
  pose proof (add_variable_run v _ db Hw Hk) as Hrun. cbn zeta in Hrun. simpl tv_value in Hrun. rewrite Hadd in Hrun.
  unfold var_info in Hrun. simpl in Hrun. rewrite Hxv in Hrun.
  set (row := mkTusVarRow (x + v) timestamp author_id) in *.
  destruct (IH (x + v) (write_slot row db)) as (db' & infos & Hm & Hvals & Hw' & Hk' & Hother);
    [by apply writable_write|apply read_write|done..|].
  eexists db', _. rewrite (bind_run _ _ _ _ _ Hrun), (bind_run _ _ _ _ _ Hm).
  split; [done|]. split; [by rewrite fmap_cons, Hvals|]. split; [done|]. split; [done|].
  intros k Hne. rewrite Hother by done. unfold write_slot. by rewrite tl_get_put, lookup_insert_ne by done.
Qed.
End variables.

(** A variable holds what was stored and adds up.  Setting it and then adding any
    values returns each intermediate sum, as long as the sums fit 64 bits; reading it
    gives the total with its author and date, and no other slot changes.  This holds for the
    slots of users and of virtual users alike. *)
Theorem variable_adds_up `{!External} {K} `{Countable K} (t : Table K TusVarRow) `{!VarTable t}
  com_id owner slot author_id timestamp value vs db :
  writable t owner author_id db → in_i64 value = true →
  Forall (λ v, in_i64 v = true) vs → Forall (λ v, in_i64 v = true) (running value vs) →
  ∃ db' infos,
    (do! set_variable t com_id owner slot value author_id timestamp;
     map_each (λ v, add_and_get_variable t com_id owner slot v author_id timestamp None None) vs) db = (Ok infos, db') ∧
    vi_variable <$> infos = running value vs ∧
    get_variable t com_id owner slot db' = (Ok (mkDbTusVarInfo timestamp author_id (foldl Z.add value vs)), db') ∧
    (∀ k, k ≠ (owner, com_id, slot) → tb_get t db' !! k = tb_get t db !! k).
Proof.
  intros Hw Hv Hvs Hr. rewrite (bind_run _ _ _ _ _ (set_variable_calm t com_id owner slot author_id timestamp value db Hw)).
  set (row := mkTusVarRow value timestamp author_id).
  destruct (add_variables_run t com_id owner slot author_id timestamp vs value (write_slot t com_id owner slot row db))
    as (db' & infos & Hm & Hvals & Hw' & Hk' & Hother); [by apply writable_write|apply read_write; apply _|done..|].
  exists db', infos. split; [exact Hm|]. split; [done|]. split.
  - apply get_variable_calm; [apply Hw'| |done]. clear -Hv Hr. revert value Hv Hr.
    induction vs as [|v vs IH]; intros x Hx Hr; simpl; [done|]. apply Forall_cons in Hr as [? ?]. by apply IH.
  - intros k Hne. rewrite Hother by done. unfold write_slot. by rewrite tl_get_put, lookup_insert_ne by done.
Qed.

Lemma variable_adds_up_witness :
  ∃ db' infos,
    (do! set_variable tus_var ex_com 7 1 10 7 0;
     map_each (λ v, @add_and_get_variable ex_external _ _ _ tus_var ex_com 7 1 v 7 0 None None) [5; -3]) ex_db = (Ok infos, db') ∧
    vi_variable <$> infos = [15; 12] ∧
    get_variable tus_var ex_com 7 1 db' = (Ok (mkDbTusVarInfo 0 7 12), db') ∧
    (∀ k, k ≠ (7, ex_com, 1) → tb_get tus_var db' !! k = tb_get tus_var ex_db !! k).
Proof.
  apply (@variable_adds_up ex_external Z _ _ tus_var _ ex_com 7 1 7 0 10 [5; -3] ex_db);
    [split; vm_compute; reflexivity|reflexivity|repeat constructor|repeat constructor].
Defined.

(** An addition that leaves 64 bits is not refused.  The sum is stored as a floating
    point number, the request panics when it reads it back, and so does every later request
    that reads the variable. *)
Theorem add_overflow_panics `{!External} {K} `{Countable K} (t : Table K TusVarRow) `{!VarTable t}
  com_id owner slot author_id timestamp old value db :
  (∀ z, 2 ^ 63 ≤ z → 2 ^ 63 ≤ round_double z) →
  writable t owner author_id db → tb_get t db !! (owner, com_id, slot) = Some old → 2 ^ 63 ≤ tv_value old + value →
  ∃ db', add_and_get_variable t com_id owner slot value author_id timestamp None None db = (Panic, db') ∧
         get_variable t com_id owner slot db' = (Panic, db').
Proof.
  intros Hround Hw Hk Hsum. pose proof (add_variable_run t com_id owner slot author_id timestamp value old db Hw Hk) as Hrun.
  cbn zeta in Hrun. set (row := mkTusVarRow (sql_add (tv_value old) value) timestamp author_id) in *.
  assert (in_i64 (tv_value row) = false) as Hout.
  { simpl. unfold sql_add. assert (in_i64 (tv_value old + value) = false) as -> by (apply bool_decide_eq_false; lia).
    rewrite andb_false_r. apply bool_decide_eq_false. specialize (Hround _ Hsum). lia. }
  exists (write_slot t com_id owner slot row db). split; [rewrite Hrun; unfold var_info; by rewrite Hout|].
  unfold get_variable, or_empty. erewrite bind_run.
  2: { apply map_err_run. rewrite get_slot_calm by by eapply wr_calm, writable_write. by rewrite read_write by apply _. }
  unfold lift, var_info. by rewrite Hout.
Qed.

Lemma add_overflow_panics_witness :
  let db := write_slot tus_var ex_com 7 1 (mkTusVarRow (2 ^ 63 - 1) 0 7) ex_db in
  ∃ db', @add_and_get_variable ex_external _ _ _ tus_var ex_com 7 1 1 7 0 None None db = (Panic, db') ∧
         get_variable tus_var ex_com 7 1 db' = (Panic, db').
Proof.
  apply (@add_overflow_panics ex_external Z _ _ tus_var _ ex_com 7 1 7 0 (mkTusVarRow (2 ^ 63 - 1) 0 7) 1);
    [|split; vm_compute; reflexivity|vm_compute; reflexivity|simpl; lia].
  intros z Hz. simpl. rewrite bool_decide_false by lia. pose proof (Z.div_le_mono (2 ^ 63) z (2 ^ 11) ltac:(lia) Hz) as Hd.
  change (2 ^ 63 / 2 ^ 11) with (2 ^ 52) in Hd. lia.
Defined.

(** [alice] sets her slot 1 to 42. *)
Definition ex_tus_codec : ServerCodec :=
  {| codec_room := ex_room_codec; codec_gui := ex_gui_codec;
     codec_tus := ltac:(constructor; first [exact (fixed_message (mkTusSetMultiSlotVariableRequest (Some (mkTusUser false "alice")) [1] [42]))
                                           |exact no_message]);
     codec_score := ltac:(constructor; exact no_message); codec_misc := ltac:(constructor; exact no_message) |}.

Definition ex_tus_ctx : Ctx :=
  mkCtx ((Client_new []) <| cl_authentified := true |>
           <| cl_client_info := mkClientInfo 7 "alice" "alice" "" "" false false false |>)
    (no_rooms <| sv_db := ex_db |>) (extractor_new ex_payload) [].

Lemma tus_slots_owned_witness :
  let cx' := (@process_command elements_order ex_external ex_tus_codec ex_env Command.TusSetMultiSlotVariable ex_tus_ctx).2 in
  tv_value <$> db_tus_var (db_of cx') !! (7, ex_com, 1) = Some 42 ∧ own 7 ex_db (db_of cx').
Proof.
  split; [vm_compute; reflexivity|].
  apply (@tus_slots_owned elements_order ex_external ex_tus_codec ex_env Command.TusSetMultiSlotVariable ex_tus_ctx).
  reflexivity.
Defined.

(** ** Data *)

Class DataTable {K} `{Countable K} (t : Table K TusDataRow) := {
  dt_laws :: TableLaws t;
  dt_author : ∀ r, tb_author t r = td_author r;
}.

#[export] Instance tus_data_table : DataTable tus_data.
Proof. split; [apply _|done]. Qed.
#[export] Instance tus_data_vuser_table : DataTable tus_data_vuser.
Proof. split; [apply _|done]. Qed.

Section data.
Context {K : Type} `{Countable K} (t : Table K TusDataRow) `{!DataTable t} (env : Env).
Context (com_id : ComId) (owner : K) (slot author_id timestamp : Z).

Lemma set_data_calm data_id info db :
  calm db → tb_owner_ok t db owner = true → has_account db author_id = true →
  let row := mkTusDataRow data_id (default [] info) timestamp author_id in
  set_data t com_id owner slot data_id info author_id timestamp None None db =
    (Ok tt, tb_put t (<[(owner, com_id, slot) := row]> (tb_get t db)) db).
Proof.
  intros Hc Ho Ha row. unfold set_data, internal, bind, map_err, upsert. rewrite sql_calm by done. cbv zeta. cbn [fst].
  destruct (tb_get t db !! (owner, com_id, slot)) as [old|]; simpl; rewrite Ho, dt_author; simpl; by rewrite Ha.
Qed.

Lemma get_data_calm row db :
  calm db → tb_get t db !! (owner, com_id, slot) = Some row →
  get_data t com_id owner slot db = (Ok (data_status row, td_info row), db).
Proof.
  intros Hc Hk. unfold get_data, or_empty, get_slot. erewrite bind_run; [|apply map_err_run; rewrite query_row_calm by done; by rewrite Hk].
  done.
Qed.
End data.

(** C29: stored data can be read back.  A request without conditions writes the data to
    a file of its own and the row to the table; from then on the slot leads to exactly this
    data, with its information, author and date, and the files of all other slots are
    still there. *)
Theorem data_stored {K} `{Countable K} (t : Table K TusDataRow) `{!DataTable t} env check
  com_id owner slot author_id timestamp info data cx :
  calm (db_of cx) → tb_owner_ok t (db_of cx) owner = true → has_account (db_of cx) author_id = true →
  en_file env = FileOk → fresh_dir TUS_FILE_EXTENSION (sv_tus_dir (cx_shared cx)) →
  dd_dispenser (sv_tus_dir (cx_shared cx)) + 1 < 2 ^ 64 →
  ∃ cx', store_data env check None None data
           (λ data_id, set_data t com_id owner slot data_id info author_id timestamp None None) cx = (Ok NoError, cx') ∧
    let status := mkDbTusDataStatus timestamp author_id (dd_dispenser (sv_tus_dir (cx_shared cx))) in
    get_data t com_id owner slot (db_of cx') = (Ok (status, default [] info), db_of cx') ∧
    get_data_file TUS_FILE_EXTENSION true (ds_data_id status) (sv_tus_dir (cx_shared cx')) = Ok data ∧
    dd_files (sv_tus_dir (cx_shared cx)) ⊆ dd_files (sv_tus_dir (cx_shared cx')).
Proof.
  intros Hc Ho Ha Hfile Hfresh Hd. pose proof Hfresh as [Hp _]. apply fresh_dir_unused in Hfresh; [|lia].
  set (id := dd_dispenser (sv_tus_dir (cx_shared cx))) in *.
  pose proof (set_data_calm t com_id owner slot author_id timestamp id info (db_of cx) Hc Ho Ha) as Hset.
  set (row := mkTusDataRow id (default [] info) timestamp author_id) in *. cbn zeta in Hset.
  set (dir := mkDataDir (id + 1) (<[id_to_path TUS_FILE_EXTENSION id := data]> (dd_files (sv_tus_dir (cx_shared cx))))).
  exists (cx <| cx_shared ::= (λ s, s <| sv_tus_dir := dir |>
    <| sv_db := tb_put t (<[(owner, com_id, slot) := row]> (tb_get t (db_of cx))) (db_of cx) |>) |>).
  split; [|split; [|split]].
  - unfold store_data, preliminary_set_tus_data_check, bind, attempt, on_tus_dir, on_db, ret. simpl.
    rewrite create_data_file_run by lia. rewrite Hfile. simpl. fold id. by rewrite Hset.
  - apply (get_data_calm t com_id owner slot row); [by apply tl_calm|]. simpl. by rewrite tl_get_put, lookup_insert_eq.
  - unfold get_data_file. simpl. by rewrite lookup_insert_eq.
  - simpl. by apply insert_subseteq.
Qed.

Lemma data_stored_witness :
  ∃ cx', store_data ex_env (ret None) None None [9; 8; 7]
           (λ data_id, set_data tus_data ex_com 7 1 data_id None 7 5 None None) ex_tus_ctx = (Ok NoError, cx') ∧
    let status := mkDbTusDataStatus 5 7 1 in
    get_data tus_data ex_com 7 1 (db_of cx') = (Ok (status, []), db_of cx') ∧
    get_data_file TUS_FILE_EXTENSION true (ds_data_id status) (sv_tus_dir (cx_shared cx')) = Ok [9; 8; 7] ∧
    dd_files (sv_tus_dir (cx_shared ex_tus_ctx)) ⊆ dd_files (sv_tus_dir (cx_shared cx')).
Proof.
  apply (@data_stored Z _ _ tus_data _ ex_env (ret None) ex_com 7 1 7 5 None [9; 8; 7] ex_tus_ctx);
    [reflexivity|vm_compute; reflexivity|vm_compute; reflexivity|reflexivity| |done].
  split; [done|]. intros name id [d Hd]. simpl in Hd. by rewrite lookup_empty in Hd.
Defined.
