(* ===== verification/DbRules.v ===== *)
(** * The tables of a running server

    The invariant of the tables and the history of ids, over everything a server does:
    connections, packets, signaling packets and the daily cleaner. *)

From S2P Require Import ScoreCache Text Database Accounts Friendships DbScore DbTus Config DataFiles.
From S2P Require Import Prelude Protocol StreamExtractor Messages RoomData Room RoomManager RoomInv.
From S2P Require Import GuiRoom GuiRoomManager GameTracker ClientState UdpServer RoomCommands.
From S2P Require Import GuiCommands TusCommands ScoreCommands AccountCommands FriendCommands Dispatch.
From S2P Require Import CommandFrames CommandMoves Http ApiServer DbFrames ApiFrames DbInv DbHandlers ServerRules.

Section server_tables.
Context `{!HashOrder} `{!External} `{!ServerCodec} (R : Database → Database → Prop) `{!DbRelation R}.

Abbreviation tables srv := (sv_db (srv_shared srv)).

Lemma server_step_respects srv srv' : server_step srv srv' → R (tables srv) (tables srv').
Proof.
  intros [n s cs ip|env n c s cs command pid data out c' s' Hc Hre Hcnt Hi|env n c s cs ts r cx' Hc Hd
         |s cs buf ip port|env s cs|lib env key req s cs]; simpl.
  - reflexivity.
  - pose proof (interpret_command_shared env command pid data c s) as Hs. rewrite Hi in Hs. simpl in Hs.
    subst s'. destruct (Command.command_from_u16 command) as [parsed|]; [|reflexivity].
    apply (db_respects_process_command R env parsed (mkCtx _ _ _ _)).
  - pose proof (db_respects_drop_client R env ts (mkCtx c s (extractor_new []) [])) as Hr. by rewrite Hd in Hr.
  - unfold handle_socket_input. case_match; reflexivity.
  - by apply clean_daily_respects.
  - apply (framed_api_request R env key req s).
Qed.

Lemma server_steps_respect srv srv' : rtc server_step srv srv' → R (tables srv) (tables srv').
Proof. induction 1 as [|a b c Hs _ IH]; [reflexivity|]. etransitivity; [by apply server_step_respects|done]. Qed.
End server_tables.

(** C17: an id belongs to one user name for good: whatever requests, deletions and
    cleanups happen in between, an account found under an id that was given before is the
    account that had it then, under the same name, and still banned if it was. *)
Theorem server_identities_stable `{!HashOrder} `{!External} `{!ServerCodec} srv0 srv user_id a' :
  rtc server_step srv0 srv → user_id ≤ db_sequence (sv_db (srv_shared srv0)) →
  db_account (sv_db (srv_shared srv)) !! user_id = Some a' →
  ∃ a, db_account (sv_db (srv_shared srv0)) !! user_id = Some a ∧ ac_username a' = ac_username a ∧
       (ac_banned a = true → ac_banned a' = true).
Proof. intros Hs. apply (server_steps_respect identity) in Hs. apply Hs. Qed.

(** [alice] keeps her id while she logs in and opens a room. *)
Lemma server_identities_stable_witness :
  ∃ a, db_account (sv_db (srv_shared ex_server)) !! 7 = Some a ∧ ac_username (ex_account "alice") = ac_username a ∧
       (ac_banned a = true → ac_banned (ex_account "alice") = true).
Proof.
  apply (@server_identities_stable elements_order ex_external ex_codec ex_server ex_alice 7 (ex_account "alice")
    ex_alice_reachable); [done|vm_compute; reflexivity].
Defined.
