(* ===== verification/FriendRules.v ===== *)
(** * Friendships, servers and worlds: what the methods of the database return *)

From S2P Require Import Prelude Protocol ScoreCache Text Database Accounts Friendships.
From S2P Require Import RoomMachine DbFrames DbInv DbExec ServerRules.

(** ** Friendships *)

Lemma ordered_ids u v : u ≠ v →
  (u < v ∧ get_ordered_userids u v = (u, v, false) ∧ get_ordered_userids v u = (u, v, true)) ∨
  (v < u ∧ get_ordered_userids u v = (v, u, true) ∧ get_ordered_userids v u = (v, u, false)).
Proof.
  intros Hne. unfold get_ordered_userids. destruct (decide (u < v)).
  - left. by rewrite bool_decide_true, bool_decide_false by lia.
  - right. rewrite bool_decide_false, bool_decide_true by lia. split; [lia|done].
Qed.

Lemma replace_friendship_calm u v a b db :
  calm db → u < v → account_of db u → account_of db v →
  replace_friendship u v a b db = (Ok tt, db <| db_friendship ::= <[(u, v) := (a, b)]> |>).
Proof.
  intros Hc Hlt Hu Hv. unfold replace_friendship. rewrite sql_calm by done. apply has_account_true in Hu, Hv.
  by rewrite bool_decide_true, Hu, Hv by done.
Qed.

(** The status of two users towards each other is one fact, whichever of them asks:
    what was set for (user, friend) is read back, and read back swapped for
    (friend, user). *)
Theorem rel_status_roundtrip u v status_u status_v db :
  calm db → u ≠ v → account_of db u → account_of db v →
  ∃ db', set_rel_status u v status_u status_v db = (Ok tt, db') ∧
    get_rel_status u v db' = (Ok (status_u, status_v), db') ∧ get_rel_status v u db' = (Ok (status_v, status_u), db').
Proof.
  intros Hc Hne Hu Hv. unfold set_rel_status, get_rel_status, or_empty, internal.
  rewrite !(bool_decide_false (u = v)), (bool_decide_false (v = u)) by done.
  destruct (ordered_ids u v Hne) as [(Hlt & Hf & Hb)|(Hlt & Hf & Hb)]; rewrite Hf, Hb;
    (erewrite map_err_run; [|by apply replace_friendship_calm]); (eexists; split; [done|]);
    unfold bind, map_err; rewrite query_row_calm by done; simpl; rewrite lookup_insert_eq; done.
Qed.

Lemma rel_status_roundtrip_witness :
  let db := ex_db <| db_account ::= <[8 := ex_account "bob"]> |> in
  ∃ db', set_rel_status 8 7 1 0 db = (Ok tt, db') ∧
    get_rel_status 8 7 db' = (Ok (1, 0), db') ∧ get_rel_status 7 8 db' = (Ok (0, 1), db').
Proof. apply rel_status_roundtrip; [done|done|vm_compute; by eexists..]. Defined.

(** The statuses of two users: the one of [u] first. *)
Definition statuses (db : Database) (u v : Z) : option (Z * Z) :=
  if bool_decide (u < v) then db_friendship db !! (u, v) else prod_swap <$> db_friendship db !! (v, u).

Section relationships.
Context `{!HashOrder}.

Lemma userid_to_username_run db ids :
  calm db → userid_to_username ids db =
    (Ok (omap (λ i, (λ a, (i, ac_username a)) <$> db_account db !! i) ids), db).
Proof.
  intros Hc. induction ids as [|i ids IH]; [done|]. simpl. unfold get_username, or_empty, bind, attempt, map_err.
  rewrite query_row_calm by done. destruct (db_account db !! i) as [a|]; simpl; by rewrite IH.
Qed.

Lemma elem_of_names db (ids : list Z) i name :
  (i, name) ∈ omap (λ i, (λ a, (i, ac_username a)) <$> db_account db !! i) ids ↔
  i ∈ ids ∧ ac_username <$> db_account db !! i = Some name.
Proof.
  rewrite list_elem_of_omap. split.
  - intros (j & Hj & Heq). apply fmap_Some in Heq as (a & Ha & [= -> ->]). by rewrite Ha.
  - intros [Hi Ha]. exists i. split; [done|]. by destruct (db_account db !! i); simplify_eq/=.
Qed.

(** A row of the table is seen by each of its users. *)
Lemma elem_of_seen db u v s so :
  db_inv db → ((v, s, so) ∈ seen_by u <$> friendship_rows u db ↔ statuses db u v = Some (s, so)).
Proof.
  intros Hi. unfold friendship_rows. rewrite list_elem_of_fmap. split.
  - intros ([[x y] [a b]] & Hseen & Hin). apply list_elem_of_filter in Hin as [Hu Hin].
    rewrite elem_of_hash_map_iter in Hin. destruct (inv_friendship _ Hi _ _ Hin) as (Hlt & _). simpl in Hlt.
    unfold seen_by in Hseen. unfold statuses. case_bool_decide as Hx.
    + destruct Hu as [->| ->]; [done|]. simplify_eq. rewrite bool_decide_false by lia. by rewrite Hin.
    + assert (x = u) as -> by (by destruct (decide (x = u))). simplify_eq. by rewrite bool_decide_true.
  - unfold statuses. case_bool_decide as Hlt; intros Hs.
    + exists ((u, v), (s, so)). split; [simpl; by rewrite bool_decide_false by tauto|].
      apply list_elem_of_filter. split; [by left|]. by apply elem_of_hash_map_iter.
    + apply fmap_Some in Hs as ([a b] & Hs & [= -> ->]). destruct (inv_friendship _ Hi _ _ Hs) as (Hlt' & _). simpl in Hlt'.
      exists ((v, u), (a, b)). split; [simpl; by rewrite bool_decide_true by lia|].
      apply list_elem_of_filter. split; [by right|]. by apply elem_of_hash_map_iter.
Qed.

Lemma elem_of_kind (kind : Z * Z * Z → bool) rels v :
  v ∈ (filter kind rels).*1.*1 ↔ ∃ s so, (v, s, so) ∈ rels ∧ kind (v, s, so) = true.
Proof.
  rewrite !list_elem_of_fmap. split.
  - intros ([v' s] & -> & Hin). apply list_elem_of_fmap in Hin as ([[v'' s'] so] & [= -> ->] & Hin).
    apply list_elem_of_filter in Hin as [Hk Hin]. exists s', so. split; [done|by apply Is_true_true].
  - intros (s & so & Hin & Hk). exists (v, s). split; [done|]. apply list_elem_of_fmap. exists (v, s, so).
    split; [done|]. apply list_elem_of_filter. split; [by rewrite Hk|done].
Qed.
End relationships.

(** [bob] registers with the server of [alice] and the two become friends. *)
Definition ex_friends : Database :=
  (set_rel_status 8 7 FriendStatus_Friend FriendStatus_Friend (@insert_account ex_external (ex_account "bob") ex_db).2).2.

Lemma ex_db_inv : db_inv ex_db.
Proof.
  assert (∀ V (same : V → V → Prop) k v, unique_by same ({[k := v]} : gmap Z V)) as Hu.
  { intros V same k v i j a b Hi Hj. apply lookup_singleton_Some in Hi as [<- _], Hj as [<- _]. done. }
  assert (unique_by same_data (∅ : gmap (string * Z * Z * Z) ScoreRow)) as Hempty
    by (intros i j a b Hi; by rewrite lookup_empty in Hi).
  split; try apply map_Forall_empty; try apply Hu; try apply Hempty.
  - split; [|done]. by apply map_Forall_singleton.
  - apply map_Forall_singleton. vm_compute. by eexists.
  - apply map_Forall_singleton. change (("NPWR00001_00"%string, 1) ∈ ({[("NPWR00001_00"%string, 1)]} : gset (string * Z))). set_solver.
Qed.

Lemma ex_friends_inv : db_inv ex_friends.
Proof.
  assert (respects (preserves db_inv) (set_rel_status 8 7 FriendStatus_Friend FriendStatus_Friend)) as Hr.
  { intros d. unfold set_rel_status, internal. simpl. eapply respects_map_err. intros d'.
    apply (@rel_replace_friendship ex_external _ _). }
  apply Hr, (@db_inv_insert_account ex_external), ex_db_inv.
Qed.

(** The lists a user gets at login are exactly what the table says.  Friends are
    the users with a mutual status, requests those where only the caller (or only the other
    side) asked, each with the current name of an existing account; the list named blocked
    holds the users who blocked the caller. *)
Theorem relationships_exact `{!HashOrder} u db :
  calm db → db_inv db → ∃ rels, get_relationships u db = (Ok rels, db) ∧
    ∀ v name, let named := ac_username <$> db_account db !! v = Some name in
      ((v, name) ∈ ur_friends rels ↔ statuses db u v = Some (FriendStatus_Friend, FriendStatus_Friend) ∧ named) ∧
      ((v, name) ∈ ur_friend_requests rels ↔ statuses db u v = Some (FriendStatus_Friend, 0) ∧ named) ∧
      ((v, name) ∈ ur_friend_requests_received rels ↔ statuses db u v = Some (0, FriendStatus_Friend) ∧ named) ∧
      ((v, name) ∈ ur_blocked rels ↔
         (∃ s so, statuses db u v = Some (s, so) ∧ Z.land so FriendStatus_Blocked ≠ 0) ∧ named).
Proof.
  intros Hc Hi. unfold get_relationships, internal.
  rewrite (bind_run _ _ _ _ _ (map_err_run _ _ _ _ _ (select_calm _ _ Hc))). cbv zeta.
  do 4 rewrite (bind_run _ _ _ _ _ (userid_to_username_run _ _ Hc)). eexists. split; [done|]. simpl.
  assert (∀ kind v name, (v, name) ∈ omap (λ i, (λ a, (i, ac_username a)) <$> db_account db !! i)
      (filter (λ r, Is_true (kind r)) (seen_by u <$> friendship_rows u db)).*1.*1 ↔
    (∃ s so, statuses db u v = Some (s, so) ∧ kind (v, s, so) = true) ∧ ac_username <$> db_account db !! v = Some name) as Hk.
  { intros kind v name. rewrite elem_of_names, elem_of_kind. setoid_rewrite elem_of_seen; done. }
  intros v name. rewrite !Hk. unfold is_friend, is_request_sent, is_request_received, is_blocked.
  setoid_rewrite bool_decide_eq_true. setoid_rewrite negb_true_iff. setoid_rewrite bool_decide_eq_false.
  split_and!; split; intros [Hs Hn]; (split; [|done]); naive_solver.
Qed.

Lemma relationships_exact_witness :
  ∃ rels, @get_relationships elements_order 7 ex_friends = (Ok rels, ex_friends) ∧
    ∀ v name, let named := ac_username <$> db_account ex_friends !! v = Some name in
      ((v, name) ∈ ur_friends rels ↔ statuses ex_friends 7 v = Some (FriendStatus_Friend, FriendStatus_Friend) ∧ named) ∧
      ((v, name) ∈ ur_friend_requests rels ↔ statuses ex_friends 7 v = Some (FriendStatus_Friend, 0) ∧ named) ∧
      ((v, name) ∈ ur_friend_requests_received rels ↔ statuses ex_friends 7 v = Some (0, FriendStatus_Friend) ∧ named) ∧
      ((v, name) ∈ ur_blocked rels ↔
         (∃ s so, statuses ex_friends 7 v = Some (s, so) ∧ Z.land so FriendStatus_Blocked ≠ 0) ∧ named).
Proof. apply (@relationships_exact elements_order 7 ex_friends); [vm_compute; reflexivity|apply ex_friends_inv]. Defined.

(** ** Servers and worlds *)

Section worlds.
Context `{!HashOrder}.

Lemma elem_of_server_ids com s db : s ∈ server_ids com db ↔ (com, s) ∈ db_servers db.
Proof.
  unfold server_ids. rewrite list_elem_of_fmap. split.
  - intros ([c s'] & -> & Hin). apply list_elem_of_filter in Hin as [-> Hin]. by apply elem_of_hash_iter in Hin.
  - intros Hin. exists (com, s). split; [done|]. apply list_elem_of_filter. split; [done|by apply elem_of_hash_iter].
Qed.

Lemma elem_of_world_ids com s w db : w ∈ world_ids com s db ↔ db_worlds db !! (com, w) = Some s.
Proof.
  unfold world_ids. rewrite !list_elem_of_fmap. split.
  - intros ([c w'] & -> & Hin). apply list_elem_of_fmap in Hin as ([[c' w''] s'] & [= -> ->] & Hin).
    apply list_elem_of_filter in Hin as [[-> ->] Hin]. by apply elem_of_hash_map_iter in Hin.
  - intros Hin. exists (com, w). split; [done|]. apply list_elem_of_fmap. exists (com, w, s). split; [done|].
    apply list_elem_of_filter. split; [done|by apply elem_of_hash_map_iter].
Qed.

(** The largest world id is an upper bound. *)
Lemma foldl_max_bound l x y : y ∈ x :: l → y ≤ foldl Z.max x l.
Proof.
  revert x y. induction l as [|z l IH]; intros x y Hy; simpl.
  - apply elem_of_cons in Hy as [->|Hy]; [lia|by apply not_elem_of_nil in Hy].
  - apply elem_of_cons in Hy as [->|Hy]; [etransitivity; [|apply IH; left]; lia|].
    apply elem_of_cons in Hy as [->|Hy]; [etransitivity; [|apply IH; left]; lia|]. apply IH. by right.
Qed.

Lemma foldl_max_elem l x : foldl Z.max x l ∈ x :: l.
Proof.
  revert x. induction l as [|z l IH]; intros x; simpl; [left|].
  specialize (IH (x `max` z)). apply elem_of_cons in IH as [->|IH]; [|by do 2 right].
  destruct (Z.max_spec x z) as [[_ ->]|[_ ->]]; [by right; left|left].
Qed.

Lemma max_world_id_none com db w s : max_world_id com db = None → db_worlds db !! (com, w) ≠ Some s.
Proof.
  unfold max_world_id. destruct (filter _ _).*1.*2 as [|x l] eqn:Hf; [|done]. intros _ Hw.
  assert (w ∈ ([] : list Z)) as Hin; [|by apply not_elem_of_nil in Hin]. rewrite <- Hf. apply list_elem_of_fmap.
  exists (com, w). split; [done|]. apply list_elem_of_fmap. exists (com, w, s). split; [done|].
  apply list_elem_of_filter. split; [done|by apply elem_of_hash_map_iter].
Qed.

Lemma max_world_id_some com db m :
  max_world_id com db = Some m →
  (∃ s, db_worlds db !! (com, m) = Some s) ∧ (∀ w s, db_worlds db !! (com, w) = Some s → w ≤ m).
Proof.
  assert (∀ w, w ∈ (filter (λ '(c, _, _), c = com) (hash_map_iter (db_worlds db))).*1.*2 ↔
    ∃ s, db_worlds db !! (com, w) = Some s) as Hin.
  { intros w. rewrite !list_elem_of_fmap. split.
    - intros ([c w'] & -> & Hin). apply list_elem_of_fmap in Hin as ([[c' w''] s'] & [= -> ->] & Hin).
      apply list_elem_of_filter in Hin as [-> Hin]. apply elem_of_hash_map_iter in Hin. by eexists.
    - intros [s Hs]. exists (com, w). split; [done|]. apply list_elem_of_fmap. exists (com, w, s). split; [done|].
      apply list_elem_of_filter. split; [done|by apply elem_of_hash_map_iter]. }
  unfold max_world_id. destruct (filter _ _).*1.*2 as [|x l]; [done|]. intros [= <-]. split.
  - apply Hin, foldl_max_elem.
  - intros w s Hw. apply foldl_max_bound, Hin. by eexists.
Qed.

Lemma select_unwrap_calm {A} (f : Database → A) db :
  calm db → unwrap_result (E' := DbError) (select f) db = (Ok (f db), db).
Proof. intros Hc. by apply unwrap_run, select_calm. Qed.

Lemma get_server_list_calm com_id db :
  calm db → ∃ s ss db', get_server_list com_id true db = (Ok (s :: ss), db') ∧ calm db' ∧
    (com_id_to_string com_id, s) ∈ db_servers db' ∧ db_worlds db' = db_worlds db.
Proof.
  intros Hc. unfold get_server_list. rewrite (bind_run _ _ _ _ _ (select_unwrap_calm _ _ Hc)). cbv beta.
  set (com := com_id_to_string com_id).
  destruct (server_ids com db) as [|s ss] eqn:Hl.
  - rewrite bool_decide_true by done. cbn [andb].
    assert (insert_server com 1 db = (Ok tt, db <| db_servers ::= union {[(com, 1)]} |>)) as Hins.
    { unfold insert_server. rewrite sql_calm by done. rewrite bool_decide_false; [done|].
      rewrite <- elem_of_server_ids, Hl. apply not_elem_of_nil. }
    unfold create_server, internal. rewrite bool_decide_false by tauto. fold com.
    rewrite (bind_run _ _ _ _ _ (map_err_run _ _ _ _ _ Hins)). set (db' := db <| db_servers ::= union {[(com, 1)]} |>).
    rewrite select_unwrap_calm by done. destruct (server_ids com db') as [|s ss] eqn:Hl'.
    + assert (1 ∈ server_ids com db') as Hin; [|rewrite Hl' in Hin; by apply not_elem_of_nil in Hin].
      apply elem_of_server_ids. change ((com, 1) ∈ {[(com, 1)]} ∪ db_servers db). set_solver.
    + exists s, ss, db'. split; [done|]. split; [done|]. split; [|done]. apply elem_of_server_ids. rewrite Hl'. left.
  - rewrite bool_decide_false by done. exists s, ss, db. split; [done|]. split; [done|]. split; [|done].
    apply elem_of_server_ids. rewrite Hl. left.
Qed.

Lemma query_worlds_calm com s db :
  calm db → (com, s) ∈ db_servers db → query_worlds com s db = (Ok (world_ids com s db), db).
Proof.
  intros Hc Hs. unfold query_worlds, internal. rewrite (bind_run _ _ _ _ _ (map_err_run _ _ _ _ _ (select_calm _ _ Hc))).
  rewrite bool_decide_true by done. by apply select_unwrap_calm.
Qed.

(** The id of a new world is free. *)
Lemma new_world_free com db m :
  (∀ w s, db_worlds db !! (com, w) = Some s → 0 ≤ w < 2 ^ 32 - 1) →
  match max_world_id com db with Some cur => wrap_u32 (cur + 1) | None => 65537 end = m →
  db_worlds db !! (com, m) = None ∧ 0 < m.
Proof.
  intros Hb. destruct (max_world_id com db) as [cur|] eqn:Hm; intros <-.
  - apply max_world_id_some in Hm as [[s Hs] Hle]. specialize (Hb _ _ Hs) as Hcur.
    assert (wrap_u32 (cur + 1) = cur + 1) as -> by (apply Z.mod_small; lia). split; [|lia].
    apply eq_None_not_Some. intros [s' Hs']. specialize (Hle _ _ Hs'). lia.
  - split; [|done]. apply eq_None_not_Some. intros [s Hs]. by apply (max_world_id_none _ _ 65537 s) in Hm.
Qed.

Lemma get_world_list_calm com_id s db :
  calm db → (com_id_to_string com_id, s) ∈ db_servers db →
  (∀ w s, db_worlds db !! (com_id_to_string com_id, w) = Some s → 0 ≤ w < 2 ^ 32 - 1) →
  ∃ w ws db', get_world_list com_id s true db = (Ok (w :: ws), db') ∧ calm db' ∧
    ∀ w', w' ∈ w :: ws → db_worlds db' !! (com_id_to_string com_id, w') = Some s.
Proof.
  intros Hc Hs Hb. unfold get_world_list, internal. set (com := com_id_to_string com_id) in *.
  rewrite (bind_run _ _ _ _ _ (query_worlds_calm _ _ _ Hc Hs)). destruct (world_ids com s db) as [|w ws] eqn:Hl.
  2: { rewrite bool_decide_false by done. exists w, ws, db. split; [done|]. split; [done|]. intros w' Hw.
       apply elem_of_world_ids. by rewrite Hl. }
  rewrite bool_decide_true by done. cbn [andb].
  erewrite bind_run; [|apply attempt_run; [by rewrite query_row_calm by done|by case_match]].
  set (new_wid := match (match max_world_id com db with Some a => Ok a | None => Err QueryReturnedNoRows end) with
                  | Ok cur_max => wrap_u32 (cur_max + 1) | _ => 65537 end).
  destruct (new_world_free com db new_wid Hb) as [Hfree _]; [unfold new_wid; by case_match|].
  assert (insert_world com s new_wid db = (Ok tt, db <| db_worlds ::= <[(com, new_wid) := s]> |>)) as Hins.
  { unfold insert_world. rewrite sql_calm by done. rewrite Hfree, bool_decide_false by (by intros [? ?]).
    by rewrite bool_decide_true. }
  rewrite (bind_run _ _ _ _ _ (map_err_run _ _ _ _ _ Hins)). set (db' := db <| db_worlds ::= <[(com, new_wid) := s]> |>).
  rewrite query_worlds_calm by done. destruct (world_ids com s db') as [|w ws] eqn:Hl'.
  - assert (new_wid ∈ world_ids com s db') as Hin; [|rewrite Hl' in Hin; by apply not_elem_of_nil in Hin].
    apply elem_of_world_ids. apply lookup_insert_eq.
  - exists w, ws, db'. split; [done|]. split; [done|]. intros w' Hw. apply elem_of_world_ids. by rewrite Hl'.
Qed.
End worlds.

(** A title always finds a place to play.  With [create_missing] set, asking for
    the servers of any title returns at least one, asking for the worlds of that server
    returns at least one, and the server of each of these worlds is the one that was asked
    for; what is missing is created on the way. *)
Theorem title_finds_world `{!HashOrder} com_id db :
  calm db → (∀ w s, db_worlds db !! (com_id_to_string com_id, w) = Some s → 0 < w < 2 ^ 32 - 1) →
  ∃ s ss db1, get_server_list com_id true db = (Ok (s :: ss), db1) ∧
  ∃ w ws db2, get_world_list com_id s true db1 = (Ok (w :: ws), db2) ∧
    ∀ w', w' ∈ w :: ws → w' ≠ 0 → get_corresponding_server com_id w' 0 db2 = (Ok s, db2).
Proof.
  intros Hc Hb. destruct (get_server_list_calm com_id db Hc) as (s & ss & db1 & H1 & Hc1 & Hs1 & Hw1).
  exists s, ss, db1. split; [done|].
  destruct (get_world_list_calm com_id s db1 Hc1 Hs1) as (w & ws & db2 & H2 & Hc2 & Hw2).
  { rewrite Hw1. intros w s' Hw. specialize (Hb _ _ Hw). lia. }
  exists w, ws, db2. split; [done|]. intros w' Hw' Hne. unfold get_corresponding_server.
  rewrite (bool_decide_false (w' = 0)) by done. cbn [andb]. unfold bind, ret. rewrite query_row_calm by done.
  by rewrite Hw2.
Qed.

Lemma title_finds_world_witness :
  ∃ s ss db1, @get_server_list elements_order (bytes_of_string "NPWR99999_00") true ex_db = (Ok (s :: ss), db1) ∧
  ∃ w ws db2, @get_world_list elements_order (bytes_of_string "NPWR99999_00") s true db1 = (Ok (w :: ws), db2) ∧
    ∀ w', w' ∈ w :: ws → w' ≠ 0 →
      get_corresponding_server (bytes_of_string "NPWR99999_00") w' 0 db2 = (Ok s, db2).
Proof.
  apply (@title_finds_world elements_order (bytes_of_string "NPWR99999_00") ex_db); [done|].
  intros w s Hw. exfalso.
  change (({[("NPWR00001_00"%string, 1) := 1]} : gmap (string * Z) Z) !! ("NPWR99999_00"%string, w) = Some s) in Hw.
  apply lookup_singleton_Some in Hw as [Heq _]. discriminate Heq.
Defined.
