(* ===== verification/DbScoreRules.v ===== *)
(** * Scores in the database: a board keeps the best score of each user *)

From S2P Require Import Prelude Protocol ScoreCache Text Database Accounts DbScore.
From S2P Require Import RoomMachine DbFrames DbInv DbExec ServerRules.

(** The score a board keeps of two: the better one, or the last one on a forced board. *)
Definition kept (infos : DbBoardInfo) (old new : Z) : Z :=
  if bool_decide (bi_update_mode infos = 0) then
    if bool_decide (bi_sort_mode infos = 0) then old `max` new else old `min` new
  else new.

Lemma replaces_kept infos new old : kept infos old new = if replaces infos new old then new else old.
Proof. unfold kept, replaces. repeat case_bool_decide; simpl; lia. Qed.

Section record.
Context (com_id : ComId) (board_id : Z) (infos : DbBoardInfo) (user_id character_id : Z).

Abbreviation key := (score_key com_id board_id user_id character_id).

(** The board exists and the user has an account. *)
Record recordable (db : Database) : Prop := {
  rc_calm : calm db;
  rc_board : db_score_table db !! (com_id_to_string com_id, board_id) = Some infos;
  rc_account : account_of db user_id;
}.

Definition of_user (s : DbScoreInfo) : Prop := si_user_id s = user_id ∧ si_character_id s = character_id.

Lemma record_score_calm s create db :
  recordable db → of_user s →
  db_record_score com_id board_id s create db =
    match db_score db !! key with
    | Some old =>
        if replaces infos (si_score s) (sr_score old)
        then (Ok infos, db <| db_score ::= <[key := new_score_row s]> |>) else (Err DbScoreNotBest, db)
    | None => (Ok infos, db <| db_score ::= <[key := new_score_row s]> |>)
    end.
Proof.
  intros [Hc Hb Ha] [Hu Hp]. unfold db_record_score.
  assert (db_get_board_infos com_id board_id create db = (Ok infos, db)) as Hinf.
  { unfold db_get_board_infos, bind, attempt. rewrite query_row_calm by done. by rewrite Hb. }
  rewrite (bind_run _ _ _ _ _ Hinf), Hu, Hp. unfold internal, bind, map_err, upsert_score.
  rewrite sql_calm by done. cbv zeta. apply has_account_true in Ha.
  destruct (db_score db !! key) as [old|]; [by destruct (replaces _ _ _)|].
  change (key.1.2) with user_id. by rewrite Ha.
Qed.

Lemma recordable_record r db : recordable db → recordable (db <| db_score ::= <[key := r]> |>).
Proof. intros []. by split. Qed.

(** Recording scores one after the other. *)
Definition record_all (create : bool) (scores : list DbScoreInfo) (db : Database) : Database :=
  foldl (λ db s, (db_record_score com_id board_id s create db).2) db scores.

Lemma record_all_kept create scores old db :
  recordable db → Forall of_user scores → sr_score <$> db_score db !! key = Some old →
  recordable (record_all create scores db) ∧
  sr_score <$> db_score (record_all create scores db) !! key = Some (foldl (kept infos) old (si_score <$> scores)) ∧
  (∀ k, k ≠ key → db_score (record_all create scores db) !! k = db_score db !! k).
Proof.
  revert old db. induction scores as [|s scores IH]; intros old db Hr Hs Hold; [done|].
  apply Forall_cons in Hs as [Hs Hall]. apply fmap_Some in Hold as (row & Hrow & ->).
  unfold record_all. simpl. rewrite record_score_calm, Hrow by done. rewrite replaces_kept.
  destruct (replaces infos (si_score s) (sr_score row)); [|by apply IH; [..|by rewrite Hrow]].
  destruct (IH (si_score s) (db <| db_score ::= <[key := new_score_row s]> |>)) as (H1 & H2 & H3).
  - by apply recordable_record.
  - done.
  - change (sr_score <$> <[key := new_score_row s]> (db_score db) !! key = Some (si_score s)). by rewrite lookup_insert_eq.
  - split; [done|]. split; [done|]. intros k Hk. unfold record_all in H3. rewrite H3 by done.
    change (<[key := new_score_row s]> (db_score db) !! k = db_score db !! k). by apply lookup_insert_ne.
Qed.
End record.

(** A board keeps, of all the scores a user records, the best one in the order of
    the board (the last one on a forced board), whatever their order; no other row of any
    board changes. *)
Theorem board_keeps_best com_id board_id infos user_id character_id create s scores db :
  recordable com_id board_id infos user_id db → Forall (of_user user_id character_id) (s :: scores) →
  db_score db !! score_key com_id board_id user_id character_id = None →
  let db' := record_all com_id board_id create (s :: scores) db in
  sr_score <$> db_score db' !! score_key com_id board_id user_id character_id =
    Some (foldl (kept infos) (si_score s) (si_score <$> scores)) ∧
  (∀ k, k ≠ score_key com_id board_id user_id character_id → db_score db' !! k = db_score db !! k).
Proof.
  intros Hr Hs Hnone. apply Forall_cons in Hs as [Hs Hall]. unfold record_all. simpl.
  erewrite record_score_calm by done. rewrite Hnone. simpl.
  set (key := score_key com_id board_id user_id character_id) in *.
  destruct (record_all_kept com_id board_id infos user_id character_id create scores (si_score s)
    (db <| db_score ::= <[key := new_score_row s]> |>)) as (_ & H2 & H3).
  - by apply recordable_record.
  - done.
  - change (sr_score <$> <[key := new_score_row s]> (db_score db) !! key = Some (si_score s)). by rewrite lookup_insert_eq.
  - split; [done|]. intros k Hk. unfold record_all in H3. rewrite H3 by done.
    change (<[key := new_score_row s]> (db_score db) !! k = db_score db !! k). by apply lookup_insert_ne.
Qed.

Lemma board_keeps_best_witness :
  let score v := mkDbScoreInfo 7 0 v None None None 0 in
  let db := ex_db <| db_score_table := {[("NPWR00001_00"%string, 1) := DbBoardInfo_default]} |> in
  let db' := record_all ex_com 1 false [score 10; score 30; score 20] db in
  sr_score <$> db_score db' !! score_key ex_com 1 7 0 = Some 30 ∧
  (∀ k, k ≠ score_key ex_com 1 7 0 → db_score db' !! k = db_score db !! k).
Proof.
  intros score db. apply (board_keeps_best ex_com 1 DbBoardInfo_default 7 0 false (score 10) [score 30; score 20] db);
    [split; [done|vm_compute; reflexivity|vm_compute; by eexists]|by repeat constructor|done].
Defined.
