(* ===== verification/BoardMirror.v ===== *)
(** * The score cache mirrors the score table

    A board in memory is meant to be the first rows of the board in the database, in the
    order of the board.  This file says what that means ([mirrors]), that loading
    establishes it, that recording a score keeps it when the score moves its player up
    (or the board is within its limit), and what happens when it does not. *)

From S2P Require Import DbScore Friendships Config DataFiles.
From S2P Require Import Prelude Protocol Messages RoomData RoomInv ScoreCache ScoreInv ScoreBoard Text Database Accounts.
From S2P Require Import RoomMachine DbFrames DbInv DbExec ServerRules DbScoreRules Startup.

Abbreviation place_of := ScoreInv.score_key.

(** ** Cutting a sorted board *)

Section cuts.
Context (mode : Z).
Implicit Types (l : list DbScoreInfo) (s : DbScoreInfo).

(** No other score has the same place. *)
Definition no_place (s : DbScoreInfo) (l : list DbScoreInfo) : Prop := ∀ x, x ∈ l → place_of mode x ≠ place_of mode s.

Lemma sorted_app_inv {A} (R : A → A → Prop) (l1 l2 : list A) :
  StronglySorted R (l1 ++ l2) → StronglySorted R l1 ∧ StronglySorted R l2 ∧ ∀ x y, x ∈ l1 → y ∈ l2 → R x y.
Proof.
  induction l1 as [|z l1 IH]; simpl; intros Hs; [split_and!; [constructor|done|set_solver]|].
  inversion Hs as [|? ? Hs' Hall]; subst. destruct (IH Hs') as (H1 & H2 & H3).
  rewrite Forall_app, !Forall_forall in Hall. destruct Hall as [Ha1 Ha2]. split_and!; [|done|].
  - constructor; [done|]. by apply Forall_forall.
  - intros x y [->|Hx]%elem_of_cons Hy; [by apply Ha2|by apply H3].
Qed.

Lemma sorted_take n l : StronglySorted (score_lt mode) l → StronglySorted (score_lt mode) (take n l).
Proof. intros Hs. eapply sorted_sublist; [exact Hs|apply sublist_take]. Qed.

Lemma filter_all {A} (P : A → Prop) `{∀ x, Decision (P x)} (l : list A) : Forall P l → filter P l = l.
Proof. induction 1; [done|]. rewrite filter_cons_True by done. by f_equal. Qed.

Lemma filter_nothing {A} (P : A → Prop) `{∀ x, Decision (P x)} (l : list A) : Forall (λ x, ¬ P x) l → filter P l = [].
Proof. induction 1; [done|]. by rewrite filter_cons_False. Qed.

Lemma better_app s l1 l2 : better mode s (l1 ++ l2) = better mode s l1 ++ better mode s l2.
Proof. apply filter_app. Qed.
Lemma not_better_app s l1 l2 : not_better mode s (l1 ++ l2) = not_better mode s l1 ++ not_better mode s l2.
Proof. apply filter_app. Qed.

Lemma better_all s l : Forall (λ x, score_lt mode x s) l → better mode s l = l ∧ not_better mode s l = [].
Proof.
  intros Hl. split; [by apply filter_all|]. apply filter_nothing. eapply Forall_impl; [exact Hl|]. simpl. tauto.
Qed.

Lemma better_none s l : Forall (λ x, score_lt mode s x) l → better mode s l = [] ∧ not_better mode s l = l.
Proof.
  intros Hl. assert (Forall (λ x, ¬ score_lt mode x s) l) as Hn.
  { eapply Forall_impl; [exact Hl|]. intros x Hx Hy. apply (score_lt_irrefl mode s). by etransitivity. }
  split; [by apply filter_nothing|by apply filter_all].
Qed.

(** Only the first [n] scores matter for the first [n] after an insertion. *)
Lemma take_insert n s l :
  StronglySorted (score_lt mode) l → no_place s l →
  take n (insert_ref mode s (take n l)) = take n (insert_ref mode s l).
Proof.
  intros Hs Hn. destruct (not_better_above mode s l Hs Hn) as (Hl & Hb & Hnb). unfold insert_ref.
  set (B := better mode s l) in *. set (N := not_better mode s l) in *. rewrite Hl at 1 2.
  destruct (decide (n ≤ length B)%nat) as [Hle|Hgt].
  - rewrite (take_app_le B N) by done. destruct (better_all s (take n B)) as [-> ->]; [by apply Forall_take|].
    rewrite !take_app_le by (rewrite ?length_take; lia). rewrite take_take. by rewrite Nat.min_id.
  - rewrite (take_app_ge B N) by lia. rewrite better_app, not_better_app.
    destruct (better_all s B Hb) as [-> ->]. destruct (better_none s (take (n - length B) N)) as [-> ->]; [by apply Forall_take|].
    rewrite app_nil_r. simpl. rewrite !take_app_ge by lia. f_equal.
    destruct (n - length B)%nat as [|k]; [done|]. simpl. rewrite take_take. by rewrite Nat.min_l by lia.
Qed.

(** The previous score of the player was worse: what moves up is cut anyway. *)
Lemma take_replace n s p old q :
  StronglySorted (score_lt mode) (p ++ old :: q) → score_lt mode s old → no_place s p →
  (∀ x, x ∈ p ++ q → skey x ≠ skey s) → skey old = skey s →
  take n (insert_ref mode s (scores_without s (take n (p ++ old :: q)))) =
  take n (insert_ref mode s (scores_without s (p ++ old :: q))).
Proof.
  intros Hs Hso Hnp Hk Hold.
  assert (∀ l, l ⊆ p ++ q → scores_without s l = l) as Hw.
  { intros l Hl. apply filter_all, Forall_forall. intros x Hx. by apply Hk, Hl. }
  assert (scores_without s (p ++ old :: q) = p ++ q) as ->.
  { unfold scores_without. rewrite filter_app, filter_cons_False by tauto. rewrite <- filter_app. by apply Hw. }
  apply sorted_app_inv in Hs as (Hsp & Hsq & Hpq). inversion Hsq as [|? ? Hsq' Hoq]; subst.
  assert (Forall (λ x, score_lt mode s x) q) as Hq by (eapply Forall_impl; [exact Hoq|]; intros x Hx; by etransitivity).
  assert (StronglySorted (score_lt mode) (p ++ q)) as Hspq.
  { clear -Hsp Hsq' Hpq. induction p as [|x p IH]; [done|]. simpl. inversion Hsp as [|? ? Hs' Hall]; subst.
    constructor; [apply IH; [done|set_solver]|]. apply Forall_app. split; [done|]. apply Forall_forall. set_solver. }
  assert (no_place s (p ++ q)) as Hn.
  { intros x [Hx|Hx]%elem_of_app; [by apply Hnp|]. rewrite Forall_forall in Hq. specialize (Hq x Hx).
    intros Heq. unfold score_lt in Hq. rewrite Heq in Hq. unfold key_lt in Hq. lia. }
  destruct (decide (n ≤ length p)%nat) as [Hle|Hgt].
  - rewrite take_app_le by done. rewrite Hw by (intros x Hx%subseteq_take; set_solver).
    rewrite <- (take_app_le p q) by done. by apply take_insert.
  - rewrite take_app_ge by lia. destruct (n - length p)%nat as [|m] eqn:Em; [lia|]. simpl.
    unfold scores_without. rewrite filter_app, filter_cons_False by tauto. rewrite <- filter_app. fold (scores_without s (p ++ take m q)).
    rewrite Hw by (intros x [?|Hx%subseteq_take]%elem_of_app; set_solver).
    assert (∀ x, Forall (λ x, score_lt mode s x) x → insert_ref mode s (p ++ x) = insert_ref mode s p ++ x) as Happ.
    { intros x Hx. unfold insert_ref. rewrite better_app, not_better_app. destruct (better_none s x Hx) as [-> ->].
      rewrite app_nil_r. by rewrite <- app_assoc. }
    rewrite !Happ by (done || by apply Forall_take). rewrite !take_app_ge by (rewrite length_insert_ref; lia).
    rewrite take_take, length_insert_ref. do 2 f_equal. lia.
Qed.
End cuts.

(** ** The rows of a board *)

Lemma elem_of_board_rows com bid db x :
  x ∈ board_rows com bid db ↔
    ∃ r, db_score db !! (com, bid, si_user_id x, si_character_id x) = Some r ∧
         x = score_of_row (si_user_id x) (si_character_id x) r.
Proof.
  unfold board_rows. rewrite list_elem_of_omap. split.
  - intros ([[[[c b] u] p] r] & Hin%elem_of_map_to_list & E). case_bool_decide as Hcb; [|done]. destruct Hcb as [-> ->].
    injection E as <-. exists r. by split.
  - intros (r & Hr & Hx). exists (com, bid, si_user_id x, si_character_id x, r). split; [by apply elem_of_map_to_list|].
    rewrite bool_decide_true by done. by f_equal.
Qed.

Lemma board_rows_key com bid db x y :
  x ∈ board_rows com bid db → y ∈ board_rows com bid db → skey x = skey y → x = y.
Proof.
  rewrite !elem_of_board_rows. intros (r & Hr & ->) (r' & Hr' & ->) [= Hu Hp]. simpl in *. rewrite Hu, Hp in *. congruence.
Qed.

Lemma NoDup_board_rows com bid db : NoDup (board_rows com bid db).
Proof.
  apply NoDup_omap; [|apply NoDup_map_to_list].
  intros [[[[c b] u] p] r] [[[[c' b'] u'] p'] r'] y. repeat case_bool_decide; [|done..].
  intros [= <-]. unfold score_of_row. destruct r, r'. simpl. intros [=]. naive_solver.
Qed.

(** What recording [s] does to the rows of its board. *)
Lemma board_rows_record com bid s db x :
  si_data_id s = None →
  x ∈ board_rows (com_id_to_string com) bid
        (db <| db_score ::= <[DbScore.score_key com bid (si_user_id s) (si_character_id s) := new_score_row s]> |>) ↔
    x = s ∨ (skey x ≠ skey s ∧ x ∈ board_rows (com_id_to_string com) bid db).
Proof.
  intros Hd. rewrite !elem_of_board_rows. unfold DbScore.score_key. simpl. split.
  - intros (r & [[[= Hu Hp] <-]|[Hne Hr]]%lookup_insert_Some & Hx).
    + left. rewrite Hx, <- Hu, <- Hp. unfold score_of_row. simpl. rewrite <- Hd. by destruct s.
    + right. split; [unfold skey; congruence|]. by exists r.
  - intros [->|(Hk & r & Hr & Hx)].
    + exists (new_score_row s). rewrite lookup_insert_eq. split; [done|]. unfold score_of_row. simpl. rewrite <- Hd. by destruct s.
    + exists r. rewrite lookup_insert_ne; [by split|]. unfold skey in Hk. congruence.
Qed.

(** ** The mirror *)

(** The cached board is the first rows of the sorted board of the table. *)
Record mirrors (com : string) (bid : Z) (db : Database) (t : ScoreTableCache) (rows : list DbScoreInfo) : Prop := {
  mr_info : db_score_table db !! (com, bid) = Some (st_table_info t);
  mr_sorted : StronglySorted (score_lt (mode_of t)) rows;
  mr_rows : ∀ x, x ∈ rows ↔ x ∈ board_rows (com) bid db;
  mr_cache : st_sorted_scores t = take (Z.to_nat (limit_of t)) rows;
}.

Lemma sorted_nodup mode l : StronglySorted (score_lt mode) l → NoDup l.
Proof.
  induction 1 as [|x l Hs IH Hall]; constructor; [|done]. intros Hx. rewrite Forall_forall in Hall.
  by apply (score_lt_irrefl mode x), Hall.
Qed.

Lemma mirrors_nodup com bid db t rows : mirrors com bid db t rows → NoDup (skey <$> rows).
Proof.
  intros [_ Hs Hr _]. apply NoDup_fmap_2_strong; [|by eapply sorted_nodup].
  intros x y Hx%Hr Hy%Hr. by eapply board_rows_key.
Qed.

(** The score moves its player up, or every row of the table is on the board anyway. *)
Definition moves_up (mode : Z) (limit : Z) (s : DbScoreInfo) (rows : list DbScoreInfo) : Prop :=
  (∀ x, x ∈ rows → skey x = skey s → score_lt mode s x) ∨ Z.of_nat (length rows) ≤ limit.

(** The cut of the table is the cached board, after the score as before. *)
Lemma board_ref_mirror info s rows :
  StronglySorted (score_lt (bi_sort_mode info)) rows → NoDup (skey <$> rows) → no_tie (bi_sort_mode info) s rows →
  moves_up (bi_sort_mode info) (bi_rank_limit info) s rows →
  board_ref info s (take (Z.to_nat (bi_rank_limit info)) rows) =
    take (Z.to_nat (bi_rank_limit info)) (insert_ref (bi_sort_mode info) s (scores_without s rows)).
Proof.
  intros Hs Hnd Hn Hup. unfold board_ref. set (mode := bi_sort_mode info) in *. set (n := Z.to_nat (bi_rank_limit info)).
  destruct Hup as [Hup|Hlen]; [|by rewrite (take_ge rows) by lia].
  destruct (decide (skey s ∈ skey <$> rows)) as [(old & Hk & Hold)%list_elem_of_fmap|Hout].
  - apply list_elem_of_split in Hold as (p & q & ->).
    rewrite fmap_app, fmap_cons in Hnd. apply NoDup_app in Hnd as (_ & Hpq & [Hoq _]%NoDup_cons).
    assert (∀ x, x ∈ p ++ q → skey x ≠ skey s) as Hne.
    { intros x [Hx|Hx]%elem_of_app Hkx.
      - apply (Hpq (skey x)); [by apply list_elem_of_fmap_2|]. rewrite Hkx, Hk. set_solver.
      - apply Hoq. rewrite <- Hk, <- Hkx. by apply list_elem_of_fmap_2. }
    apply take_replace; [done|apply Hup; [set_solver|done]| |done|done].
    intros x Hx. apply Hn; [set_solver|]. apply Hne. set_solver.
  - assert (scores_without s rows = rows) as Hw by by apply without_none.
    assert (scores_without s (take n rows) = take n rows) as ->.
    { apply without_none. intros Hin. apply Hout. rewrite fmap_take in Hin. by apply subseteq_take in Hin. }
    rewrite Hw. apply take_insert; [done|]. intros x Hx. apply Hn; [done|]. intros Heq. apply Hout. rewrite <- Heq.
    by apply list_elem_of_fmap_2.
Qed.

(** The table after recording [s], seen through the sorted board. *)
Lemma insert_ref_rows com bid db t rows s x :
  mirrors (com_id_to_string com) bid db t rows → si_data_id s = None →
  x ∈ insert_ref (mode_of t) s (scores_without s rows) ↔
  x ∈ board_rows (com_id_to_string com) bid
        (db <| db_score ::= <[DbScore.score_key com bid (si_user_id s) (si_character_id s) := new_score_row s]> |>).
Proof.
  intros Hm Hd. rewrite insert_ref_elem, board_rows_record by done. unfold scores_without.
  rewrite list_elem_of_filter, (mr_rows _ _ _ _ _ Hm). done.
Qed.

Lemma better_take mode n s l :
  StronglySorted (score_lt mode) l → no_place mode s l → better mode s (take n l) = take n (better mode s l).
Proof.
  intros Hs Hn. destruct (not_better_above mode s l Hs Hn) as (Hl & Hb & Hnb).
  set (B := better mode s l) in *. set (N := not_better mode s l) in *. rewrite Hl.
  destruct (decide (n ≤ length B)%nat).
  - rewrite take_app_le by done. by apply better_all, Forall_take.
  - rewrite take_app_ge, better_app by lia. destruct (better_all mode s B Hb) as [-> _].
    destruct (better_none mode s (take (n - length B) N)) as [-> _]; [by apply Forall_take|].
    rewrite app_nil_r. by rewrite take_ge by lia.
Qed.

Lemma better_without mode s l :
  (∀ x, x ∈ l → skey x = skey s → score_lt mode s x) → better mode s (scores_without s l) = better mode s l.
Proof.
  intros Hup. unfold better, scores_without. induction l as [|x l IH]; [done|].
  assert (filter (λ x, score_lt mode x s) (filter (λ x, skey x ≠ skey s) l) = filter (λ x, score_lt mode x s) l) as IH'
    by (apply IH; intros y Hy; apply Hup; set_solver).
  destruct (decide (skey x = skey s)) as [Hk|Hk].
  - rewrite (filter_cons_False _ x l), (filter_cons_False (λ x, score_lt mode x s)); [done| |tauto].
    intros Hlt. apply (score_lt_irrefl mode s). transitivity x; [apply Hup; set_solver|done].
  - rewrite (filter_cons_True (λ x, skey x ≠ skey s)) by done. rewrite !filter_cons. case_decide; by rewrite IH'.
Qed.

(** The rank told to the player: the one by the table, one past the limit at most. *)
Lemma rank_ref_mirror info s rows :
  StronglySorted (score_lt (bi_sort_mode info)) rows → no_tie (bi_sort_mode info) s rows → 0 ≤ bi_rank_limit info →
  moves_up (bi_sort_mode info) (bi_rank_limit info) s rows →
  rank_ref info s (take (Z.to_nat (bi_rank_limit info)) rows) =
    Z.min (1 + Z.of_nat (length (better (bi_sort_mode info) s (scores_without s rows)))) (bi_rank_limit info + 1).
Proof.
  intros Hs Hn Hl Hup. unfold rank_ref. set (mode := bi_sort_mode info) in *.
  destruct Hup as [Hup|Hlen].
  - assert (no_place mode s rows) as Hnp.
    { intros x Hx Heq. destruct (decide (skey x = skey s)) as [Hk|Hk]; [|by apply (Hn x)].
      specialize (Hup x Hx Hk). unfold score_lt in Hup. rewrite Heq in Hup. unfold key_lt in Hup. lia. }
    rewrite !better_without by (intros x Hx; try apply subseteq_take in Hx; auto).
    rewrite better_take by done. rewrite length_take. lia.
  - rewrite take_ge by lia. pose proof (better_length mode s (scores_without s rows)).
    pose proof (sublist_length _ _ (without_sublist s rows)). lia.
Qed.

(** ** Recording keeps the mirror *)

Lemma record_score_ok com bid infos create s db db' :
  recordable com bid infos (si_user_id s) db → db_record_score com bid s create db = (Ok infos, db') →
  db' = db <| db_score ::= <[DbScore.score_key com bid (si_user_id s) (si_character_id s) := new_score_row s]> |>.
Proof.
  intros Hrec Hrun. erewrite record_score_calm in Hrun by done.
  destruct (db_score db !! _) as [old|]; [destruct (replaces _ _ _)|]; by simplify_eq.
Qed.

(** C15: recording a score keeps the board in memory a mirror of the board in the
    database: when the cached board is the first rows of the sorted table and the new score
    moves its player up (or the whole table fits on the board), then after the statement
    and the insertion the cached board is the first rows of the new sorted table, and the
    rank told to the player is the one the table gives, one past the limit at most. *)
Theorem board_mirror_kept now com bid infos create s npid name c db db' rows :
  let t := the_table c com bid infos in
  let rows' := insert_ref (mode_of t) s (scores_without s rows) in
  cache_inv c → info_ok infos → recordable com bid infos (si_user_id s) db → si_data_id s = None →
  mirrors (com_id_to_string com) bid db t rows → no_tie (mode_of t) s rows →
  moves_up (mode_of t) (limit_of t) s rows →
  db_record_score com bid s create db = (Ok infos, db') →
  wp (insert_score now infos com bid s npid name) c (λ r c',
    r = Ok (Z.min (1 + Z.of_nat (length (better (mode_of t) s (scores_without s rows)))) (limit_of t + 1)) ∧
    cache_inv c' ∧ mirrors (com_id_to_string com) bid db' (the_table c' com bid infos) rows').
Proof.
  intros t rows' Hc Hinfo Hrec Hd Hm Hn Hup Hrun.
  destruct (the_table_inv c com bid infos Hc Hinfo) as (_ & Hl & _). fold t in Hl. pose proof Hm as [Hi Hs Hr Ht].
  eapply wp_mono; [|apply insert_score_keeps; [done|done|]].
  2: { fold t. rewrite Ht. intros x Hx%subseteq_take. by apply Hn. }
  intros r c' [Hc' (Er & t' & Et & _ & Hsc & Hti & _)]. fold t in Er, Hsc, Hti. rewrite Ht in Er, Hsc.
  rewrite rank_ref_mirror in Er by (done || lia). rewrite board_ref_mirror in Hsc by (done || by eapply mirrors_nodup).
  split; [done|]. split; [done|].
  assert (the_table c' com bid infos = t') as -> by (unfold the_table, get_table; by rewrite Et, lookup_insert_eq).
  apply record_score_ok in Hrun as ->; [|done].
  split; rewrite ?Hti; [done| | |done].
  - apply insert_ref_sorted; done.
  - intros x. by eapply insert_ref_rows.
Qed.

(** ** Loading establishes the mirror *)

Lemma index_scores_snoc l s :
  index_scores (l ++ [s]) = npid_insert (si_user_id s) (si_character_id s) (length l) (index_scores l).
Proof. unfold index_scores. rewrite imap_app, foldl_app. simpl. by rewrite Nat.add_0_r. Qed.

Lemma indexed_index_scores l : NoDup (skey <$> l) → indexed (index_scores l) l (length l).
Proof.
  induction l as [|s l IH] using rev_ind; intros Hnd; [split; [by intros|intros k; split; [by intros [? ?]|set_solver]]|].
  rewrite index_scores_snoc. rewrite fmap_app in Hnd. apply NoDup_app in Hnd as (Hnd & Hout & _).
  specialize (IH Hnd). change (skey <$> [s]) with [skey s] in Hout. split.
  - intros j x _ Hx. rewrite (lk_insert _ (skey s)). apply lookup_app_Some in Hx as [Hx|[Hj Hx]].
    + rewrite decide_False; [apply IH; [by eapply lookup_lt_Some|done]|]. intros Hk.
      apply (Hout (skey x)); [apply list_elem_of_fmap_2; by eapply list_elem_of_lookup_2|]. rewrite Hk. set_solver.
    + apply list_lookup_singleton_Some in Hx as [Hj' ->]. rewrite decide_True by done. f_equal. lia.
  - intros k. rewrite (lk_insert _ (skey s)), fmap_app, elem_of_app. simpl. rewrite list_elem_of_singleton.
    case_decide as Hk; [split; [by right|eauto]|]. rewrite (ix_dom _ _ _ IH). naive_solver.
Qed.

(** No two scores of a board tie in score and time. *)
Definition untied (com : string) (bid : Z) (db : Database) : Prop :=
  ∀ x y, x ∈ board_rows com bid db → y ∈ board_rows com bid db →
    si_score x = si_score y → si_timestamp x = si_timestamp y → x = y.

#[export] Instance score_order_trans mode : Transitive (score_order mode).
Proof. intros a b c. unfold score_order. destruct (bool_decide _); lia. Qed.

#[export] Instance score_order_total mode : Total (score_order mode).
Proof. intros a b. unfold score_order. destruct (bool_decide _); lia. Qed.

Lemma order_to_lt mode l :
  (∀ x y, x ∈ l → y ∈ l → si_score x = si_score y → si_timestamp x = si_timestamp y → x = y) → NoDup l →
  StronglySorted (score_order mode) l → StronglySorted (score_lt mode) l.
Proof.
  intros Hu Hnd Hs. induction Hs as [|x l Hs IH Hall]; [constructor|]. inversion Hnd as [|? ? Hx Hnd']; subst.
  constructor; [apply IH; [|done]; intros y z Hy Hz; apply Hu; set_solver|].
  apply Forall_forall. intros y Hy. rewrite Forall_forall in Hall. specialize (Hall y Hy).
  destruct (decide (si_score x = si_score y ∧ si_timestamp x = si_timestamp y)) as [[H1 H2]|Hne].
  - assert (x = y) as -> by (apply Hu; set_solver). done.
  - unfold score_order in Hall. unfold score_lt, key_lt, ScoreInv.score_key. simpl. destruct (bool_decide _); simpl; lia.
Qed.

Definition loaded (now : Z) (com : string) (bid : Z) (info : DbBoardInfo) (db : Database) : ScoreTableCache :=
  let sorted := take (Z.to_nat (bi_rank_limit info)) (merge_sort (score_order (bi_sort_mode info)) (board_rows com bid db)) in
  mkScoreTableCache sorted (index_scores sorted) info now.

Lemma loaded_mirrors now com bid info db :
  db_score_table db !! (com, bid) = Some info → untied com bid db → 0 ≤ bi_rank_limit info →
  let t := loaded now com bid info db in
  table_inv t ∧ mirrors com bid db t (merge_sort (score_order (bi_sort_mode info)) (board_rows com bid db)).
Proof.
  intros Hi Hu Hl t. set (rows := merge_sort _ _).
  assert (Hp : rows ≡ₚ board_rows com bid db) by apply merge_sort_Permutation.
  assert (mirrors com bid db t rows) as Hm.
  { split; [done| | |done].
    - apply order_to_lt; [|rewrite Hp; apply NoDup_board_rows|apply StronglySorted_merge_sort; apply _].
      intros x y. rewrite !Hp. apply Hu.
    - intros x. by rewrite Hp. }
  split; [|done]. pose proof (mirrors_nodup _ _ _ _ _ Hm) as Hnd. destruct Hm as [_ Hs _ Hc].
  assert (NoDup (skey <$> st_sorted_scores t)) as Hnd'
    by (rewrite Hc; eapply sublist_NoDup; [exact Hnd|]; apply sublist_fmap, sublist_take).
  split; [|done|by apply indexed_index_scores|].
  - rewrite Hc. by apply sorted_take.
  - simpl. rewrite length_take. lia.
Qed.

(** ** A board of two with three players *)

Lemma untied_nodup com bid db :
  NoDup ((λ x, (si_score x, si_timestamp x)) <$> board_rows com bid db) → untied com bid db.
Proof.
  intros Hnd x y [i Hx]%list_elem_of_lookup [j Hy]%list_elem_of_lookup Hs Ht.
  assert (i = j) as ->; [|congruence]. eapply NoDup_lookup; [exact Hnd|by rewrite list_lookup_fmap, Hx|].
  rewrite list_lookup_fmap, Hy. simpl. by rewrite Hs, Ht.
Qed.

Lemma all_rows (P : DbScoreInfo → Prop) `{∀ x, Decision (P x)} l : bool_decide (Forall P l) = true → ∀ x, x ∈ l → P x.
Proof. intros Hl%bool_decide_eq_true_1 x Hx. rewrite Forall_forall in Hl. by apply Hl. Qed.

Definition ex_two (update_mode : Z) : DbBoardInfo := mkDbBoardInfo 2 update_mode 0 60 1000.
Definition ex_row (score time : Z) : ScoreRow := mkScoreRow score None None None time.
Definition ex_ranked_db (update_mode : Z) : Database :=
  ex_db <| db_score_table := {[("NPWR00001_00"%string, 1) := ex_two update_mode]} |>
        <| db_account := {[7 := ex_account "alice"; 8 := ex_account "bob"; 9 := ex_account "carol"]} |>
        <| db_score := {[("NPWR00001_00"%string, 1, 7, 0) := ex_row 30 1; ("NPWR00001_00"%string, 1, 8, 0) := ex_row 20 2;
                         ("NPWR00001_00"%string, 1, 9, 0) := ex_row 10 3]} |>.
Definition ex_ranked (update_mode : Z) : ScoresCache :=
  mkScoresCache {[table_desc ex_com 1 := loaded 0 "NPWR00001_00" 1 (ex_two update_mode) (ex_ranked_db update_mode)]}
    {[7 := mkScoreUserCache "alice" "alice"; 8 := mkScoreUserCache "bob" "bob"]}.
Definition ex_rows (update_mode : Z) : list DbScoreInfo :=
  merge_sort (score_order 0) (board_rows "NPWR00001_00" 1 (ex_ranked_db update_mode)).

Lemma ex_untied update_mode : untied "NPWR00001_00" 1 (ex_ranked_db update_mode).
Proof. apply untied_nodup. apply (bool_decide_eq_true_1 (NoDup _)). vm_compute. reflexivity. Qed.

Lemma ex_ranked_mirrors update_mode :
  table_inv (the_table (ex_ranked update_mode) ex_com 1 (ex_two update_mode)) ∧
  mirrors (com_id_to_string ex_com) 1 (ex_ranked_db update_mode)
    (the_table (ex_ranked update_mode) ex_com 1 (ex_two update_mode)) (ex_rows update_mode).
Proof. apply (loaded_mirrors 0 "NPWR00001_00" 1); [done|apply ex_untied|done]. Qed.

Lemma ex_ranked_inv update_mode : cache_inv (ex_ranked update_mode).
Proof.
  intros d t Hd. unfold ex_ranked in Hd. simpl in Hd. apply lookup_singleton_Some in Hd as [<- <-]. split; [apply (ex_ranked_mirrors update_mode)|]. split; [done|].
  apply Forall_forall. vm_compute. repeat constructor; by eexists.
Qed.

Lemma ex_recordable update_mode u :
  u = 7 ∨ u = 8 ∨ u = 9 → recordable ex_com 1 (ex_two update_mode) u (ex_ranked_db update_mode).
Proof. intros Hu. split; [done|done|]. destruct Hu as [->|[->| ->]]; vm_compute; by eexists. Qed.

Section start.
Context `{!HashOrder} `{!External}.

Lemma load_tables_ok now tables c db c' db' :
  load_tables now c tables db = (Ok c', db') → ∃ faults, db' = db <| db_faults := faults |> ∧
    c' = c <| sc_tables := foldl (λ m '(com, bid, info), <[(com, bid) := loaded now com bid info db]> m) (sc_tables c) tables |>.
Proof.
  revert c db. induction tables as [|[[com bid] info] tables IH]; intros c db Hrun.
  { injection Hrun as <- <-. exists (db_faults db). by destruct c, db. }
  simpl in Hrun. apply bind_ok_inv in Hrun as (c1 & db1 & H1 & Hrun). unfold load_table in H1.
  apply bind_ok_inv in H1 as (l & db2 & H1%map_err_ok_inv%map_err_ok_inv%select_ok_inv & H2).
  destruct H1 as (faults & -> & ->). injection H2 as <- <-. apply IH in Hrun as (faults' & -> & ->).
  exists faults'. split; [by destruct db|]. by destruct c.
Qed.

Lemma lookup_loaded (now : Z) (db : Database) (tables : list (string * Z * DbBoardInfo)) (m : gmap (string * Z) ScoreTableCache) com bid :
  NoDup tables.*1 →
  foldl (λ m '(com, bid, info), <[(com, bid) := loaded now com bid info db]> m) m tables !! (com, bid) =
    match (list_to_map tables : gmap (string * Z) DbBoardInfo) !! (com, bid) with
    | Some info => Some (loaded now com bid info db)
    | None => m !! (com, bid)
    end.
Proof.
  revert m. induction tables as [|[[com' bid'] info] tables IH]; intros m Hnd; [done|].
  rewrite fmap_cons, NoDup_cons in Hnd. destruct Hnd as [Hx Hnd]. simpl. rewrite IH, !lookup_insert by done.
  case_decide as Hk; [|done]. injection Hk as -> ->. by rewrite not_elem_of_list_to_map_1.
Qed.

Lemma list_to_map_hash_iter {V} (m : gmap (string * Z) V) : list_to_map (hash_map_iter m) = m.
Proof.
  rewrite <- (list_to_map_to_list m) at 2. apply list_to_map_proper; [|apply hash_map_iter_perm].
  rewrite hash_map_iter_perm. apply NoDup_fst_map_to_list.
Qed.

Lemma load_users_ok c db c' db' :
  load_users c db = (Ok c', db') → ∃ users faults, db' = db <| db_faults := faults |> ∧ c' = c <| sc_users := users |> ∧
    ∀ u, u ∈ scored_users c → account_of db u → is_Some (users !! u).
Proof.
  unfold load_users, get_username_and_online_name_from_user_ids. intros Hrun.
  apply bind_ok_inv in Hrun as (l & db1 & H1%map_err_ok_inv%map_err_ok_inv%select_ok_inv & [= <- <-]).
  destruct H1 as (faults & -> & ->). eexists _, faults. split; [done|]. split; [done|].
  intros u Hu [a Ha].
  assert (∀ l (m : gmap Z ScoreUserCache), (∃ x, x ∈ l ∧ x.1.1 = u) ∨ is_Some (m !! u) → is_Some (foldl (λ m '(u, npid, online_name),
    <[u := mkScoreUserCache npid online_name]> m) m l !! u)) as Hfold.
  { induction l as [|[[u' n] o] l IH]; intros m Hm; simpl; [destruct Hm as [(? & ?%elem_of_nil & _)|?]; done|].
    apply IH. destruct Hm as [(x & [->|Hx]%elem_of_cons & Hxu)|Hm].
    - simpl in Hxu. subst. right. rewrite lookup_insert_eq. eauto.
    - left. eauto.
    - right. apply lookup_insert_is_Some'. by right. }
  apply Hfold. left. exists (u, ac_username a, ac_online_name a). split; [|done].
  apply list_elem_of_fmap. exists (u, a). split; [done|]. apply list_elem_of_filter. split; [done|].
  by apply elem_of_hash_map_iter.
Qed.

Lemma scored_user c d t x : sc_tables c !! d = Some t → x ∈ st_sorted_scores t → si_user_id x ∈ scored_users c.
Proof.
  intros Ht Hx. unfold scored_users. rewrite elem_of_list_to_set, list_elem_of_bind. exists t.
  split; [by apply list_elem_of_fmap_2|]. apply list_elem_of_fmap. exists (d, t). split; [done|]. by apply elem_of_map_to_list.
Qed.

Lemma on_sto_db_ok {A} (m : M Database unit A) s a s' :
  on_sto_db m s = (Ok a, s') → ∃ db', m (sto_db s) = (Ok a, db') ∧ s' = s <| sto_db := db' |>.
Proof. unfold on_sto_db. destruct (m (sto_db s)) as [r db']. intros [= -> <-]. eauto. Qed.

(** The cache a start builds. *)
Lemma initialize_score_ok now file s c s' :
  initialize_score now file s = (Ok c, s') →
    (∀ d, sc_tables c !! d = (λ info, loaded now d.1 d.2 info (sto_db s')) <$> db_score_table (sto_db s') !! d) ∧
    ∀ u, u ∈ scored_users c → account_of (sto_db s') u → is_Some (sc_users c !! u).
Proof.
  intros Hrun. unfold initialize_score in Hrun.
  apply bind_ok_inv in Hrun as (_ & s1 & _ & Hrun). apply bind_ok_inv in Hrun as (_ & s2 & _ & Hrun).
  apply bind_ok_inv in Hrun as (tables & s3 & H3 & Hrun). apply bind_ok_inv in Hrun as (c1 & s4 & H4 & H5).
  apply on_sto_db_ok in H3 as (db3 & H3 & ->). apply map_err_ok_inv, map_err_ok_inv, select_ok_inv in H3 as (f3 & -> & ->).
  apply on_sto_db_ok in H4 as (db4 & (f4 & -> & ->)%load_tables_ok & ->).
  apply on_sto_db_ok in H5 as (db5 & (users & f5 & -> & -> & Hu)%load_users_ok & ->). simpl in *. split; [|exact Hu].
  intros [com bid]. rewrite lookup_loaded by (rewrite hash_map_iter_perm; apply NoDup_fst_map_to_list).
  rewrite list_to_map_hash_iter. simpl. by destruct (db_score_table _ !! _); [|rewrite lookup_empty].
Qed.

End start.


Lemma board_mirror_kept_witness :
  let s := mkDbScoreInfo 9 0 25 None None None 4 in
  let out := insert_score 5 (ex_two 0) ex_com 1 s "carol" "carol" (ex_ranked 0) in
  let t' := the_table out.2 ex_com 1 (ex_two 0) in
  out.1 = Ok 2 ∧ si_user_id <$> st_sorted_scores t' = [7; 9] ∧
  ∃ rows, mirrors (com_id_to_string ex_com) 1 (db_record_score ex_com 1 s false (ex_ranked_db 0)).2 t' rows.
Proof.
  intros s out t'. split; [vm_compute; reflexivity|]. split; [vm_compute; reflexivity|].
  unshelve epose proof (board_mirror_kept 5 ex_com 1 (ex_two 0) false s "carol" "carol" (ex_ranked 0) (ex_ranked_db 0)
    (db_record_score ex_com 1 s false (ex_ranked_db 0)).2 (ex_rows 0) (ex_ranked_inv 0) _
    (ex_recordable 0 9 _) eq_refl (proj2 (ex_ranked_mirrors 0)) _ _ _) as Hwp.
  - done.
  - lia.
  - refine (all_rows (λ x, skey x ≠ skey s → place_of 0 x ≠ place_of 0 s) (ex_rows 0) _). vm_compute. reflexivity.
  - left. refine (all_rows (λ x, skey x = skey s → score_lt 0 s x) (ex_rows 0) _). vm_compute. reflexivity.
  - vm_compute. reflexivity.
  - eexists. apply (wp_run _ _ _ _ _ (surjective_pairing _) Hwp).
Defined.

(** ** A score that moves its player down *)

Lemma better_everyone mode s l :
  (∀ x, x ∈ l → skey x ≠ skey s → score_lt mode x s) →
  better mode s (scores_without s l) = scores_without s l ∧ insert_ref mode s (scores_without s l) = scores_without s l ++ [s].
Proof.
  intros Hl. destruct (better_all mode s (scores_without s l)) as [Hb Hn].
  { apply Forall_forall. intros x [Hk Hx]%list_elem_of_filter. by apply Hl. }
  split; [done|]. unfold insert_ref. by rewrite Hb, Hn.
Qed.

Lemma length_without_one s l x :
  NoDup (skey <$> l) → x ∈ l → skey x = skey s → S (length (scores_without s l)) = length l.
Proof.
  intros Hnd [i Hi]%list_elem_of_lookup Hk. rewrite <- (without_delete s l i x) by done.
  rewrite length_delete by eauto. apply lookup_lt_Some in Hi. lia.
Qed.

(** A row past the cut cannot come after [s] on a board whose cut has [s]. *)
Lemma cut_keeps_order mode n s x l :
  StronglySorted (score_lt mode) l → s ∈ take n l → x ∈ l → score_lt mode x s → x ∈ take n l.
Proof.
  intros Hs Hsn Hx Hlt. rewrite <- (take_drop n l) in Hs, Hx. apply sorted_app_inv in Hs as (_ & _ & Hcut).
  apply elem_of_app in Hx as [Hx|Hx]; [done|]. exfalso. apply (score_lt_irrefl mode s). transitivity x; [by apply Hcut|done].
Qed.

Lemma take_not_later {A} (l : list A) n x : NoDup l → l !! n = Some x → x ∉ take n l.
Proof.
  intros Hnd Hx [i Hi]%list_elem_of_lookup. pose proof (lookup_lt_Some _ _ _ Hi) as Hlt. rewrite length_take in Hlt.
  rewrite lookup_take_lt in Hi by lia. pose proof (NoDup_lookup _ _ _ _ Hnd Hi Hx). lia.
Qed.

(** C38: the board in memory and the table part when a score that moves its player
    down replaces the recorded one (on a forced board, or an equal score recorded later): if
    the player was on a board whose table has more rows than its limit and is now behind
    everyone, the player is told the last rank of the board and stays on it, while the
    table ranks other players there; the cached board is no longer the first rows of the
    table, however its rows are ordered. *)
Theorem worse_score_stays now com bid infos create s npid name c db db' rows :
  let t := the_table c com bid infos in
  cache_inv c → info_ok infos → recordable com bid infos (si_user_id s) db → si_data_id s = None →
  mirrors (com_id_to_string com) bid db t rows → limit_of t < Z.of_nat (length rows) →
  skey s ∈ skey <$> st_sorted_scores t → (∀ x, x ∈ rows → skey x ≠ skey s → score_lt (mode_of t) x s) →
  db_record_score com bid s create db = (Ok infos, db') →
  wp (insert_score now infos com bid s npid name) c (λ r c',
    r = Ok (limit_of t) ∧ s ∈ st_sorted_scores (the_table c' com bid infos) ∧
    ∀ rows', ¬ mirrors (com_id_to_string com) bid db' (the_table c' com bid infos) rows').
Proof.
  intros t Hc Hinfo Hrec Hd Hm Hlen Hon Hlast Hrun.
  destruct (the_table_inv c com bid infos Hc Hinfo) as (Hti & Hl & _). fold t in Hl, Hti.
  pose proof (mr_cache _ _ _ _ _ Hm) as Ht. set (n := Z.to_nat (limit_of t)) in *.
  assert (∀ x, x ∈ st_sorted_scores t → skey x ≠ skey s → score_lt (mode_of t) x s) as Hlt.
  { rewrite Ht. intros x Hx%subseteq_take. by apply Hlast. }
  destruct (better_everyone _ s _ Hlt) as [Hb Hi].
  apply list_elem_of_fmap in Hon as (old & Hk & Hold).
  pose proof (length_without_one s _ old (ti_nodup _ Hti) Hold (eq_sym Hk)) as Hwl.
  assert (length (st_sorted_scores t) = n) as Hn by (rewrite Ht, length_take; lia).
  eapply wp_mono; [|apply insert_score_keeps; [done|done|]].
  2: { intros x Hx Hkx Heq. specialize (Hlt x Hx Hkx). unfold score_lt in Hlt. fold t in Heq. rewrite Heq in Hlt. unfold key_lt in Hlt. lia. }
  intros r c' [_ (Er & t' & Et & _ & Hsc & Hinf & _)]. fold t in Er, Hsc, Hinf.
  assert (the_table c' com bid infos = t') as -> by (unfold the_table, get_table; by rewrite Et, lookup_insert_eq).
  unfold rank_ref in Er. unfold board_ref in Hsc. rewrite Hb in Er. rewrite Hi in Hsc.
  rewrite take_ge in Hsc by (fold n; rewrite length_app; simpl; lia).
  split; [rewrite Er; f_equal; lia|]. split; [rewrite Hsc; set_solver|]. intros rows' Hm'.
  destruct (lookup_lt_is_Some_2 rows n) as [x Hx]; [lia|].
  assert (Hxn : x ∉ take n rows) by (apply take_not_later; [|done]; eapply sorted_nodup, Hm).
  assert (skey x ≠ skey s) as Hkx.
  { rewrite Hk. apply list_elem_of_lookup_2 in Hx as Hxr. rewrite Ht in Hold. apply subseteq_take in Hold as Ho.
    intros Heq. apply Hxn. by rewrite (board_rows_key (com_id_to_string com) bid db x old) by (done || by apply (mr_rows _ _ _ _ _ Hm)). }
  assert (score_lt (mode_of t) x s) as Hxs by (apply Hlast; [by eapply list_elem_of_lookup_2|done]).
  assert (x ∈ st_sorted_scores t') as Hin.
  { rewrite (mr_cache _ _ _ _ _ Hm'), Hinf. fold n. apply (cut_keeps_order (mode_of t) n s); [| | |done].
    - rewrite <- Hinf. apply Hm'.
    - pose proof (mr_cache _ _ _ _ _ Hm') as Hc2. rewrite Hinf in Hc2. fold n in Hc2. rewrite <- Hc2, Hsc. set_solver.
    - apply (mr_rows _ _ _ _ _ Hm'). apply record_score_ok in Hrun as ->; [|done]. apply board_rows_record; [done|].
      right. split; [done|]. apply (mr_rows _ _ _ _ _ Hm). by eapply list_elem_of_lookup_2. }
  rewrite Hsc in Hin. apply elem_of_app in Hin as [[_ Hin]%list_elem_of_filter|Hin%list_elem_of_singleton]; [|by subst].
  by rewrite Ht in Hin.
Qed.

Lemma worse_score_stays_witness :
  let s := mkDbScoreInfo 8 0 5 None None None 4 in
  let out := insert_score 5 (ex_two 1) ex_com 1 s "bob" "bob" (ex_ranked 1) in
  out.1 = Ok 2 ∧ si_user_id <$> st_sorted_scores (the_table out.2 ex_com 1 (ex_two 1)) = [7; 8] ∧
  ∀ rows, ¬ mirrors (com_id_to_string ex_com) 1 (db_record_score ex_com 1 s false (ex_ranked_db 1)).2
              (the_table out.2 ex_com 1 (ex_two 1)) rows.
Proof.
  intros s out. split; [vm_compute; reflexivity|]. split; [vm_compute; reflexivity|].
  unshelve epose proof (worse_score_stays 5 ex_com 1 (ex_two 1) false s "bob" "bob" (ex_ranked 1) (ex_ranked_db 1)
    (db_record_score ex_com 1 s false (ex_ranked_db 1)).2 (ex_rows 1) (ex_ranked_inv 1) _
    (ex_recordable 1 8 _) eq_refl (proj2 (ex_ranked_mirrors 1)) _ _ _ _) as Hwp.
  - done.
  - lia.
  - vm_compute. reflexivity.
  - apply (bool_decide_eq_true_1 (skey s ∈ _)). vm_compute. reflexivity.
  - refine (all_rows (λ x, skey x ≠ skey s → score_lt 0 x s) (ex_rows 1) _). vm_compute. reflexivity.
  - vm_compute. reflexivity.
  - apply (wp_run _ _ _ _ _ (surjective_pairing _) Hwp).
Defined.
