(* ===== verification/StartupRules.v ===== *)
(** * Start-up: a new database is consistent, and what keeps a server from starting *)

From S2P Require Import ScoreCache Text Database Accounts Friendships DbScore DbTus Config DataFiles.
From S2P Require Import Prelude Protocol StreamExtractor Messages RoomData Room RoomManager GuiRoom GuiRoomManager.
From S2P Require Import RoomMachine GameTracker ClientState TusCommands Dispatch Startup DbFrames DbInv DbExec ServerRules DbRules.

Section start.
Context `{!HashOrder} `{!External}.

(** ** The tables *)

(** The statements of a start-up. *)
Class StartRelation (R : Database → Database → Prop) := {
  srel_base :: FaultRelation R;
  srel_set_admins : ∀ l, respects R (set_admins l);
  srel_insert_server : ∀ c i, respects R (insert_server c i);
  srel_insert_world : ∀ c i w, respects R (insert_world c i w);
  srel_insert_lobby : ∀ c w l, respects R (insert_lobby c w l);
  srel_replace_score_table : ∀ k i, respects R (replace_score_table k i);
  srel_delete_account_timestamps : ∀ ids, respects R (delete_account_timestamps ids);
  srel_delete_friendships : ∀ ids, respects R (delete_friendships ids);
  srel_delete_accounts : ∀ ids, respects R (delete_accounts ids);
}.
#[local] Hint Resolve srel_set_admins srel_insert_server srel_insert_world srel_insert_lobby srel_replace_score_table
  srel_delete_account_timestamps srel_delete_friendships srel_delete_accounts : respects.

Section respected.
Context (R : Database → Database → Prop) `{!StartRelation R}.

Lemma respects_initialize_database l file : respects R (initialize_database l file).
Proof. unfold initialize_database, update_servers_cfg, insert_config_server, insert_config_lobby. respects. Qed.

Lemma respects_start_cleanup now : respects R (cleanup_never_used_accounts now).
Proof. unfold cleanup_never_used_accounts. respects. Qed.

Lemma respects_load_tables now cache tables : respects R (load_tables now cache tables).
Proof.
  revert cache. induction tables as [|[[c b] i] tables IH]; intros cache; simpl; [respects|].
  apply respects_bind; [apply _| |done]. unfold load_table, get_scores_from_table. respects.
Qed.

(** [Server_new] changes the tables only in ways every statement does. *)
Definition sto_respects {A} (m : M Stored unit A) : Prop := ∀ s, R (sto_db s) (sto_db (m s).2).

Lemma sto_respects_bind {A B} (m : M Stored unit A) (k : A → M Stored unit B) :
  sto_respects m → (∀ a, sto_respects (k a)) → sto_respects (bind m k).
Proof.
  intros Hm Hk s. specialize (Hm s). unfold bind. destruct (m s) as [[a|e|] s1]; simpl in *; try done.
  etransitivity; [exact Hm|]. apply Hk.
Qed.

Lemma sto_respects_on_db {A} (m : M Database unit A) : respects R m → sto_respects (on_sto_db m).
Proof. intros Hm s. specialize (Hm (sto_db s)). unfold on_sto_db. by destruct (m (sto_db s)). Qed.

Lemma sto_respects_same {A} (m : M Stored unit A) : (∀ s, sto_db (m s).2 = sto_db s) → sto_respects m.
Proof. intros Hm s. rewrite Hm. reflexivity. Qed.

Lemma respects_cleanup_files : sto_respects clean_stored_scores ∧ sto_respects clean_stored_tus.
Proof.
  assert (respects R score_get_all_data_ids) as Hs by (unfold score_get_all_data_ids; respects).
  assert (respects R tus_get_all_data_ids) as Ht by (unfold tus_get_all_data_ids; respects).
  split; intros s; [unfold clean_stored_scores, clean_score_data|unfold clean_stored_tus, clean_tus_data].
  - specialize (Hs (sto_db s)). destruct (score_get_all_data_ids (sto_db s)) as [[ids|e|] db]; [|done..].
    by destruct (clean_data _ _ _).
  - specialize (Ht (sto_db s)). destruct (tus_get_all_data_ids (sto_db s)) as [[ids|e|] db]; [|done..].
    by destruct (clean_data _ _ _).
Qed.

Lemma sto_respects_initialize_score now file : sto_respects (initialize_score now file).
Proof.
  unfold initialize_score, setup_config_scoreboards, get_score_tables, create_or_set_score_board_details.
  apply sto_respects_bind; [apply sto_respects_on_db; respects|intros _].
  apply sto_respects_bind; [by apply sto_respects_same|intros _].
  apply sto_respects_bind; [apply sto_respects_on_db; respects|intros tables].
  apply sto_respects_bind; [apply sto_respects_on_db, respects_load_tables|intros cache].
  apply sto_respects_on_db. unfold load_users, get_username_and_online_name_from_user_ids. respects.
Qed.

Lemma Server_new_respects env config file : sto_respects (Server_new env config file).
Proof.
  destruct respects_cleanup_files as [Hs Ht].
  unfold Server_new. apply sto_respects_bind; [apply sto_respects_on_db, respects_initialize_database|intros _].
  apply sto_respects_bind; [apply sto_respects_initialize_score|intros cache].
  apply sto_respects_bind; [by apply sto_respects_same|intros _].
  apply sto_respects_bind; [apply sto_respects_on_db, respects_start_cleanup|intros _].
  apply sto_respects_bind; [done|intros _]. apply sto_respects_bind; [done|intros _]. by apply sto_respects_same.
Qed.

Lemma sto_respects_run {A} (m : M Stored unit A) s a s' :
  sto_respects m → m s = (Ok a, s') → R (sto_db s) (sto_db s').
Proof. intros Hm H. specialize (Hm s). by rewrite H in Hm. Qed.

(** A server that starts has cleaned its storage, on the tables as they were before up
    to [R]. *)
Lemma Server_new_cleans env config file s shared s' :
  Server_new env config file s = (Ok shared, s') →
  ∃ s1 s2, R (sto_db s) (sto_db s1) ∧ clean_stored_tus s1 = (Ok tt, s2).
Proof.
  intros H. unfold Server_new in H.
  apply bind_ok_inv in H as (? & s1 & Hr1%sto_respects_run & H);
    [|apply sto_respects_on_db, respects_initialize_database].
  apply bind_ok_inv in H as (? & s2 & Hr2%sto_respects_run & H); [|apply sto_respects_initialize_score].
  apply bind_ok_inv in H as (? & s3 & Hr3%sto_respects_run & H); [|by apply sto_respects_same].
  apply bind_ok_inv in H as (? & s4 & Hr4%sto_respects_run & H);
    [|apply sto_respects_on_db, respects_start_cleanup].
  apply bind_ok_inv in H as (? & s5 & Hr5%sto_respects_run & H); [|apply respects_cleanup_files].
  apply bind_ok_inv in H as ([] & s6 & Hr6 & _). exists s5, s6. split; [|done].
  do 4 (etransitivity; [eassumption|]). done.
Qed.
End respected.

(** Changing every account in place. *)
Lemma db_inv_set_admins l d : preserves db_inv d (set_admins l d).2.
Proof.
  unfold set_admins, execute. apply sql_effect; [apply _|apply db_inv_faults|]. intros db a db' [= <- <-] Hi.
  set (f := λ a, if bool_decide (ac_username a ∈ l) then a <| ac_admin := true |> else a).
  change (db_inv (db <| db_account := f <$> db_account db |> <| db_sequence := db_sequence db |>)).
  assert (∀ a, ac_username (f a) = ac_username a ∧ ac_email_check (f a) = ac_email_check a) as Hf
    by (intros a; unfold f; by case_bool_decide).
  assert (∀ same, unique_by same (db_account db) → (∀ a b, same (f a) (f b) → same a b) →
    unique_by same (f <$> db_account db)) as Hu.
  { intros same Hu Hs i j x y Hx Hy Hxy. apply lookup_fmap_Some in Hx as (x' & <- & Hx), Hy as (y' & <- & Hy). eauto. }
  destruct (inv_sequence _ Hi) as [Hseq Hpos]. apply db_inv_mono; [done|..|done| |].
  - intros u. by rewrite lookup_fmap, fmap_is_Some.
  - intros u x Hx. apply lookup_fmap_Some in Hx as (x' & <- & Hx). by apply (Hseq u x').
  - apply Hu; [apply Hi|]. intros x y. unfold same_name. by destruct (Hf x) as [-> _], (Hf y) as [-> _].
  - apply Hu; [apply Hi|]. intros x y. by destruct (Hf x) as [_ ->], (Hf y) as [_ ->].
Qed.

(** The server that starts is the stored one, without rooms. *)
Lemma Server_new_shared env config file s shared s' :
  Server_new env config file s = (Ok shared, s') →
  sv_db shared = sto_db s' ∧ sv_room_manager shared = RoomManager_new ∧
  sv_gui_room_manager shared = GuiRoomManager_new.
Proof.
  intros H. unfold Server_new in H.
  do 6 (apply bind_ok_inv in H as (? & ? & _ & H)). apply bind_ok_inv in H as (s1 & s2 & Hg & H).
  injection Hg as <- <-. by injection H as <- <-.
Qed.

#[export] Instance db_inv_start : StartRelation (preserves db_inv).
Proof.
  split; [apply _|intros; intros ?..]; [apply db_inv_set_admins|apply rel_insert_server|apply rel_insert_world
    |apply rel_insert_lobby|apply rel_replace_score_table|apply rel_delete_account_timestamps
    |apply rel_delete_friendships|apply rel_delete_accounts].
Qed.

Lemma Server_new_inv env config file s shared s' :
  Server_new env config file s = (Ok shared, s') → db_inv (sto_db s) → db_inv (sv_db shared).
Proof.
  intros H Hi. pose proof (Server_new_respects (preserves db_inv) env config file s) as Hr.
  rewrite H in Hr. destruct (Server_new_shared _ _ _ _ _ _ H) as (-> & _). by apply Hr.
Qed.

(** ** The rows of a new database *)

Lemma db_inv_empty : db_inv empty_db.
Proof.
  assert (∀ V (same : V → V → Prop) K `{Countable K}, unique_by same (∅ : gmap K V)) as Hu
    by (intros V same K ? ? i j a b Hi; by rewrite lookup_empty in Hi).
  split; simpl; try apply map_Forall_empty; try apply Hu. split; [apply map_Forall_empty|done].
Qed.

(** What the migrations leave. *)
Definition migrated_db (timestamp : Z) (email_salt username_salt : bytes) : Database :=
  empty_db <| db_account := {[1 := deleted_user_account]} |> <| db_sequence := 1 |>
    <| db_account_timestamp := {[1 := mkAccountTimestamp timestamp (Some timestamp) None None]} |>
    <| db_score_table := {[("NPWR00001_01"%string, 1) := rr7_board; ("NPWR00001_01"%string, 0) := rr7_board]} |>
    <| db_email_salt := Some email_salt |> <| db_username_salt := Some username_salt |>.

Lemma new_database_run timestamp email_salt username_salt :
  new_database timestamp email_salt username_salt = (Ok tt, migrated_db timestamp email_salt username_salt).
Proof.
  unfold new_database, deletion_rows, create_deleted_user_account, insert_account, account_conflict.
  by destruct username_checked_first; vm_compute.
Qed.

Lemma migrated_db_inv timestamp email_salt username_salt : db_inv (migrated_db timestamp email_salt username_salt).
Proof.
  assert (∀ V (same : V → V → Prop) k v, unique_by same ({[k := v]} : gmap Z V)) as Hu.
  { intros V same k v i j a b Hi Hj. apply lookup_singleton_Some in Hi as [<- _], Hj as [<- _]. done. }
  destruct db_inv_empty. split; try done; try apply Hu.
  - split; [|done]. by apply map_Forall_singleton.
  - apply map_Forall_singleton. vm_compute. by eexists.
Qed.
End start.

(** ** A server from its start on *)

(** A new database, and what a server makes of it. *)
Definition ex_stored : Stored :=
  mkStored (@new_database ex_external 0 [1] [2]).2 (mkDataDir 1 ∅) (mkDataDir 1 ∅).

Definition ex_started : res unit SharedData * Stored :=
  @Server_new elements_order ex_env Config_new (Some []) ex_stored.

Definition ex_shared : SharedData := match ex_started.1 with Ok s => s | _ => no_rooms end.

(** Someone connects, registers as [bob] and logs in. *)
Definition ex_register : bytes :=
  bytes_of_string "bob" ++ [0] ++ bytes_of_string "secret" ++ [0] ++ bytes_of_string "bob" ++ [0] ++ bytes_of_string "url"
  ++ [0] ++ bytes_of_string "bob@example.org" ++ [0].

Definition ex_bob : Server :=
  ex_packet 0 0 (bytes_of_string "bob" ++ [0] ++ bytes_of_string "secret" ++ [0; 0])
    (ex_packet 0 2 ex_register (mkServer ex_shared {[0%nat := Client_new []]})).

Lemma ex_bob_reachable : ex_steps (mkServer ex_shared ∅) ex_bob.
Proof.
  unfold ex_bob, ex_steps. eapply rtc_l; [by apply (step_connect 0%nat)|].
  eapply rtc_l; [apply (ex_packet_step 0 2 ex_register);
    [vm_compute; by eexists|vm_compute; reflexivity|apply counters_ok_empty; vm_compute; reflexivity]|].
  apply rtc_once, ex_packet_step;
    [vm_compute; by eexists|vm_compute; reflexivity|apply counters_ok_empty; vm_compute; reflexivity].
Qed.

(** C3: the constraints of the schema hold in every state a server reaches, from the
    tables it starts with to whatever connections, requests, signaling packets and cleanups
    make of them: user names are unique up to case and e-mail addresses are unique, ids
    stay below the sequence, every time stamp, friendship, score and stored value refers to
    existing accounts, data ids of scores are unique, worlds refer to servers and lobbies
    to worlds.  Statements that fail halfway through a request do not break them. *)
Theorem server_tables_consistent `{!HashOrder} `{!External} `{!ServerCodec} env config file s shared s' srv :
  db_inv (sto_db s) → Server_new env config file s = (Ok shared, s') → rtc server_step (mkServer shared ∅) srv →
  db_inv (sv_db (srv_shared srv)).
Proof.
  intros Hi Hnew Hs. apply (server_steps_respect (preserves db_inv)) in Hs. apply Hs. simpl.
  by eapply Server_new_inv.
Qed.

Lemma server_tables_consistent_witness :
  ac_username <$> db_account (sv_db (srv_shared ex_bob)) !! 2 = Some "bob"%string ∧
  size (sv_client_infos (srv_shared ex_bob)) = 1%nat ∧ db_inv (sv_db (srv_shared ex_bob)).
Proof.
  split; [vm_compute; reflexivity|]. split; [vm_compute; reflexivity|].
  apply (@server_tables_consistent elements_order ex_external ex_codec ex_env Config_new (Some []) ex_stored
    ex_shared ex_started.2 ex_bob).
  - unfold ex_stored. rewrite new_database_run. apply migrated_db_inv.
  - vm_compute. reflexivity.
  - apply ex_bob_reachable.
Defined.

(** ** What keeps a server from starting *)

Definition same_vuser_data (db db' : Database) : Prop := db_tus_data_vuser db' = db_tus_data_vuser db.

#[export] Instance same_vuser_data_start : StartRelation same_vuser_data.
Proof.
  assert (PreOrder same_vuser_data) as Hpre by (split; [by intros ?|intros ? ? ? H1 H2; unfold same_vuser_data in *; congruence]).
  split; [by split|..]; intros; intros d;
    unfold set_admins, insert_server, insert_world, insert_lobby, replace_score_table, delete_account_timestamps,
      delete_friendships, delete_accounts, execute;
    (apply sql_effect; [done..|]; intros db a db' E; cbv beta zeta in E; repeat case_match; by simplify_eq).
Qed.

(** No two values of virtual users share a data file when the ids could be read. *)
Lemma get_all_data_ids_nodup db ids db' :
  tus_get_all_data_ids db = (Ok ids, db') → NoDup (td_data_id <$> (map_to_list (db_tus_data_vuser db)).*2).
Proof.
  intros H. apply bind_ok_inv in H as (l1 & db1 & H1 & H). apply map_err_ok_inv, select_ok_inv in H1 as (? & -> & ->).
  apply bind_ok_inv in H as ([] & db2 & H2 & H). case_bool_decide; [|done]. injection H2 as <-.
  apply bind_ok_inv in H as (l3 & db3 & H3 & H). apply map_err_ok_inv, select_ok_inv in H3 as (? & -> & ->).
  case_bool_decide as Hn; [|done]. by apply NoDup_app in Hn as (_ & _ & Hn).
Qed.

(** Files cannot be created. *)
Definition ex_full_disk : Env :=
  mkEnv 0 0 0 100000000 0 (mkDraw [] []) true true CreateFails true None None (λ _, None).

(** Two values of virtual users stored while files cannot be created. *)
Definition ex_failed_write (slot : Z) (cx : Ctx) : Ctx :=
  (store_data ex_full_disk (tus_get_vuser_data_timestamp_and_author ex_com "world" slot)
     None None [1; 2; 3] (λ data_id, tus_set_vuser_data ex_com "world" slot data_id None 1 0 None None) cx).2.

Definition ex_failed_writes : Stored :=
  ex_stored <| sto_db := sv_db (cx_shared (ex_failed_write 2 (ex_failed_write 1
    (mkCtx (Client_new []) ex_shared (extractor_new []) [])))) |>.


