(* ===== verification/AccountRules.v ===== *)
(** * Accounts: creation, login, deletion, reset of passwords *)

From S2P Require Import ScoreCache Text Database Accounts Friendships DbScore DbTus Config DataFiles.
From S2P Require Import Prelude Protocol StreamExtractor Messages RoomData Room RoomManager GuiRoom GuiRoomManager.
From S2P Require Import GameTracker ClientState AccountCommands DbFrames DbInv DbExec CommandFrames ServerRules StartupRules.

(** ** Creation *)

Section creation.
Context `{!External}.

(** The row [INSERT INTO account] leaves. *)
Definition with_account (a : Account) (db : Database) : Database :=
  db <| db_account ::= <[db_sequence db + 1 := a]> |> <| db_sequence := db_sequence db + 1 |>.

Lemma insert_account_calm a db :
  calm db → username_taken db (ac_username a) = false → email_taken db (ac_email_check a) = false →
  db_sequence db + 1 < 2 ^ 63 → 0 ≤ db_sequence db → insert_account a db = (Ok tt, with_account a db).
Proof.
  intros Hc Hn He Hs Hp. unfold insert_account. rewrite sql_calm by done.
  assert (account_conflict db a = None) as -> by (unfold account_conflict; rewrite Hn, He; by case_match).
  unfold in_i64. by rewrite bool_decide_true by lia.
Qed.

Lemma with_account_inv a db :
  db_inv db → calm db → username_taken db (ac_username a) = false → email_taken db (ac_email_check a) = false →
  db_sequence db + 1 < 2 ^ 63 → db_inv (with_account a db).
Proof.
  intros Hi Hc Hn He Hs. destruct (inv_sequence _ Hi) as [_ Hp]. pose proof (db_inv_insert_account a db Hi) as Hinv.
  by rewrite insert_account_calm in Hinv.
Qed.

(** Neither the name nor the address belongs to an account or was given up lately. *)
Record may_register (db : Database) (username email_check : string) : Prop := {
  reg_username_salt : ∃ salt h, db_username_salt db = Some salt ∧
    hash_raw (bytes_of_string username) salt = Some h ∧ db_username_hash db !! h = None;
  reg_email_salt : ∃ salt h, db_email_salt db = Some salt ∧
    hash_raw (bytes_of_string email_check) salt = Some h ∧ db_email_hash db !! h = None;
  reg_username : username_taken db username = false;
  reg_email : email_taken db email_check = false;
  reg_sequence : db_sequence db + 1 < 2 ^ 63;
}.

Lemma check_vs_deleted_calm db username email_check :
  calm db → may_register db username email_check →
  check_username_vs_deleted username db = (Ok tt, db) ∧ check_email_vs_deleted email_check db = (Ok tt, db).
Proof.
  intros Hc [(us & uh & Hus & Huh & Hun) (es & eh & Hes & Heh & Hen) _ _ _].
  unfold check_username_vs_deleted, check_email_vs_deleted.
  rewrite (bind_run _ _ _ _ _ (hash_username_calm _ _ _ _ Hc Hus Huh)).
  rewrite (bind_run _ _ _ _ _ (hash_email_calm _ _ _ _ Hc Hes Heh)). run.
  by rewrite Hun, Hen.
Qed.

(** A successful registration. *)
Definition registered (now : Z) (a : Account) (db : Database) : Database :=
  with_account a db <| db_account_timestamp ::= <[db_sequence db + 1 := mkAccountTimestamp now None None None]> |>.

Lemma db_add_user_calm now rng username password online_name avatar_url email email_check is_admin db hash :
  calm db → db_inv db → may_register db username email_check →
  hash_raw (bytes_of_string password) (rn_salt rng) = Some hash →
  let a := new_account username hash (rn_salt rng) online_name avatar_url email email_check (generate_token rng) is_admin in
  db_add_user now rng username password online_name avatar_url email email_check is_admin db =
    (Ok (generate_token rng), registered now a db).
Proof.
  intros Hc Hi Hr Hh a. destruct (check_vs_deleted_calm _ _ _ Hc Hr) as [H1 H2]. destruct Hr as [_ _ Hn He Hs].
  destruct (inv_sequence _ Hi) as [Hseq Hp]. unfold db_add_user.
  rewrite (bind_run _ _ _ _ _ H1), (bind_run _ _ _ _ _ H2). unfold lift at 1, hash_password. rewrite Hh.
  cbn [bind res_bind unwrap]. fold a.
  assert (insert_account a db = (Ok tt, with_account a db)) as Hins by by apply insert_account_calm.
  rewrite (bind_run (attempt (insert_account a)) _ db _ _ (attempt_run _ _ _ _ Hins ltac:(done))). cbn beta iota.
  assert (calm (with_account a db)) as Hc' by done.
  assert (db_inv (with_account a db)) as Hi' by by apply with_account_inv.
  assert (find_account (with_account a db) username = Some (db_sequence db + 1, a)) as Hfind.
  { apply (find_account_complete _ _ a); [apply Hi'|]. apply lookup_insert_eq. }
  pose proof (get_user_id_calm (with_account a db) username Hc') as Hget. rewrite Hfind in Hget.
  rewrite (bind_run _ _ _ _ _ (unwrap_run _ _ _ _ Hget)). unfold insert_account_timestamp. run.
  rewrite bool_decide_false.
  - unfold has_account. rewrite bool_decide_true; [done|]. exists a. apply lookup_insert_eq.
  - intros [t Ht]. destruct (inv_timestamps _ Hi _ _ Ht) as [b Hb]. specialize (Hseq _ _ Hb). simpl in Hseq. lia.
Qed.

Lemma registered_inv now a db :
  db_inv (with_account a db) → db_inv (registered now a db).
Proof.
  intros Hi. destruct Hi; split; try done. simpl. apply map_Forall_insert_2; [|done]. exists a. apply lookup_insert_eq.
Qed.
End creation.

(** C18: registration is a round trip.  When the name and the address are free, the
    account is created and the token returned; from then on the password and the token let
    the user in, under the next id, another token does not, and neither does a password
    with another hash. *)
Theorem add_user_check_user `{!External}
  now rng username password online_name avatar_url email email_check is_admin db hash :
  calm db → db_inv db → may_register db username email_check →
  hash_raw (bytes_of_string password) (rn_salt rng) = Some hash →
  let a := new_account username hash (rn_salt rng) online_name avatar_url email email_check (generate_token rng) is_admin in
  ∃ db', db_add_user now rng username password online_name avatar_url email email_check is_admin db =
           (Ok (generate_token rng), db') ∧ db_inv db' ∧
    check_user username password (generate_token rng) true db' = (Ok (mkUserQueryResult (db_sequence db + 1) a), db') ∧
    (∀ pw token, token ≠ generate_token rng → check_user username pw token true db' = (Err DbWrongToken, db')) ∧
    (∀ pw h, hash_raw (bytes_of_string pw) (rn_salt rng) = Some h → h ≠ hash →
       check_user username pw (generate_token rng) true db' = (Err DbWrongPass, db')).
Proof.
  intros Hc Hi Hr Hh a. exists (registered now a db). split; [by apply db_add_user_calm|].
  assert (db_inv (registered now a db)) as Hi'.
  { apply registered_inv, with_account_inv; [done..| | |]; apply Hr. }
  split; [done|]. assert (calm (registered now a db)) as Hc' by done.
  assert (find_account (registered now a db) username = Some (db_sequence db + 1, a)) as Hfind.
  { apply (find_account_complete _ _ a); [apply Hi'|]. apply lookup_insert_eq. }
  unfold check_user, or_empty. run. rewrite Hfind. cbn. split_and!.
  - rewrite bool_decide_false by tauto. rewrite Hh. cbn. by rewrite bool_decide_false by tauto.
  - intros pw token Ht. by rewrite bool_decide_true by done.
  - intros pw h Hpw Hne. rewrite bool_decide_false by tauto. rewrite Hpw. cbn. by rewrite bool_decide_true by done.
Qed.

(** [carol] registers with a new database. *)
Definition ex_draw : Draw := mkDraw [7] [0xAB; 0x05].

Lemma ex_may_register : @may_register ex_external (migrated_db 0 [1] [2]) "carol" "carol@example.org".
Proof.
  split; [..|vm_compute; reflexivity|vm_compute; reflexivity|done];
    eexists _, _; (split; [reflexivity|]); (split; [reflexivity|done]).
Qed.

Lemma add_user_check_user_witness :
  let a := new_account "carol" (bytes_of_string "pw" ++ [0; 7]) [7] "carol" "url" "carol@example.org" "carol@example.org"
             (generate_token ex_draw) false in
  ∃ db', @db_add_user ex_external 5 ex_draw "carol" "pw" "carol" "url" "carol@example.org" "carol@example.org" false
           (migrated_db 0 [1] [2]) = (Ok (generate_token ex_draw), db') ∧ db_inv db' ∧
    @check_user ex_external "carol" "pw" (generate_token ex_draw) true db' = (Ok (mkUserQueryResult 2 a), db') ∧
    (∀ pw token, token ≠ generate_token ex_draw → @check_user ex_external "carol" pw token true db' = (Err DbWrongToken, db')) ∧
    (∀ pw h, @hash_raw ex_external (bytes_of_string pw) [7] = Some h → h ≠ bytes_of_string "pw" ++ [0; 7] →
       @check_user ex_external "carol" pw (generate_token ex_draw) true db' = (Err DbWrongPass, db')).
Proof.
  apply (@add_user_check_user ex_external 5 ex_draw "carol" "pw" "carol" "url" "carol@example.org" "carol@example.org"
    false (migrated_db 0 [1] [2]) (bytes_of_string "pw" ++ [0; 7]));
    [done|apply migrated_db_inv|apply ex_may_register|reflexivity].
Defined.

(** ** Login *)

Section login.
Context `{!HashOrder} `{!External} (env : Env).

(** The strings of the request, and whether it is malformed. *)
Definition login_fields (data : StreamExtractor) : string * string * string * bool :=
  let '(name, d1) := get_string false data in
  let '(password, d2) := get_string false d1 in
  let '(token, d3) := get_string true d2 in
  (name, password, token, se_error d3).

(** What has to hold for a login to be granted as this account. *)
Record may_login (name password token : string) (s : SharedData) (uid : Z) (a : Account) : Prop := {
  may_account : db_account (sv_db s) !! uid = Some a;
  may_name : ac_username a = name;
  may_password : hash_raw (bytes_of_string password) (ac_salt a) = Some (ac_hash a);
  may_token : is_email_validated (sv_config s) = true → ac_token a = token;
  may_not_banned : ac_banned a = false;
  may_not_online : sv_client_infos s !! uid = None;
  may_not_cleaned : uid ∉ sv_cleanup_duty s;
}.

(** Nothing a login is about has changed. *)
Definition idle (cx cx' : Ctx) : Prop :=
  cx_client cx' = cx_client cx ∧ sv_client_infos (cx_shared cx') = sv_client_infos (cx_shared cx) ∧
  sv_cleanup_duty (cx_shared cx') = sv_cleanup_duty (cx_shared cx).

#[local] Instance idle_preorder : PreOrder idle.
Proof. split; [done|]. intros ??? (?&?&?) (?&?&?). unfold idle. repeat split; congruence. Qed.

Lemma wp_idle {E A} (m : M Ctx E A) cx (Q : res E A → Ctx → Prop) :
  (∀ cx, idle cx (m cx).2) → (∀ r cx', idle cx cx' → Q r cx') → wp m cx Q.
Proof. intros Hm HQ. unfold wp. by apply HQ, Hm. Qed.

Lemma idle_on_db {E A} (m : M Database E A) cx : idle cx (on_db m cx).2.
Proof. unfold on_db. by destruct (m _). Qed.

Lemma idle_map_err_on_db {E E' A} (f : E → E') (m : M Database E A) cx : idle cx (map_err f (on_db m) cx).2.
Proof. unfold map_err, on_db. by destruct (m _) as [[] ?]. Qed.

Lemma query_row_ok_inv {A} (f : Database → option A) db a db' :
  query_row f db = (Ok a, db') → ∃ faults, f (db <| db_faults := faults |>) = Some a.
Proof.
  intros H. apply sql_ok_inv in H as [faults Hf]. exists faults. destruct (f (db <| db_faults := faults |>)); congruence.
Qed.

Lemma check_user_ok_inv name password token check_token db r db' :
  check_user name password token check_token db = (Ok r, db') →
  db_account db !! uq_user_id r = Some (uq_account r) ∧ ac_username (uq_account r) = name ∧
  hash_raw (bytes_of_string password) (ac_salt (uq_account r)) = Some (ac_hash (uq_account r)) ∧
  (check_token = true → ac_token (uq_account r) = token).
Proof.
  intros H. apply bind_ok_inv in H as ([u a] & db1 & Hq & H).
  apply map_err_ok_inv, query_row_ok_inv in Hq as [faults Hf]. apply find_account_sound in Hf as [Ha Hn].
  destruct (check_token && _) eqn:Ht; [done|]. apply bind_ok_inv in H as (h & db2 & Hh & H).
  destruct (hash_raw _ _) as [h'|] eqn:Hr; [|done]. injection Hh as <- <-. case_bool_decide as Hne; [done|].
  injection H as <- <-. simpl. split_and!; [done..| |].
  - rewrite Hr. f_equal. by destruct (decide (h' = ac_hash a)).
  - intros ->. simpl in Ht. apply bool_decide_eq_false in Ht. by destruct (decide (ac_token a = token)).
Qed.

Lemma sent_same_clients notif l s :
  sv_client_infos (foldl (λ s uid, send_single_notification notif uid s) s l) = sv_client_infos s.
Proof.
  revert s. induction l as [|u l IH]; intros s; simpl; [done|]. rewrite IH.
  unfold send_single_notification. by case_bool_decide.
Qed.

(** One step of a handler. *)
Lemma bind_read {A B} (f : StreamExtractor → A * StreamExtractor) cx a se (k : A → H B) :
  f (cx_data cx) = (a, se) → bind (read_data f) k cx = k a (cx <| cx_data := se |>).
Proof. intros Hf. unfold bind, read_data. by rewrite Hf. Qed.

Lemma bind_check_data {B} (k : unit → H B) cx :
  bind check_data k cx = if se_error (cx_data cx) then (Err Malformed, cx) else k tt cx.
Proof. unfold bind, check_data, bind, gets. by destruct (se_error (cx_data cx)). Qed.

Lemma bind_connection {B} (k : unit → H B) cx :
  bind (get_database_connection env) k cx = if en_db_ok env then k tt cx else (Err DbFail, cx).
Proof. unfold bind, get_database_connection. by destruct (en_db_ok env). Qed.

Lemma bind_attempt_on_db {E A B} (m : M Database E A) (k : res E A → H B) cx :
  bind (attempt (on_db m)) k cx =
    let '(r, db) := m (sv_db (cx_shared cx)) in
    let cx' := cx <| cx_shared ::= (λ s, s <| sv_db := db |>) |> in
    match r with Panic => (Panic, cx') | _ => k r cx' end.
Proof. unfold bind, attempt, on_db. by destruct (m (sv_db (cx_shared cx))) as [[] ?]. Qed.

(** The client and the table of connected users after a login as this account. *)
Definition logged_in (cx : Ctx) (name : string) (uid : Z) (a : Account) (cx' : Ctx) : Prop :=
  let info := info_of_account name (mkUserQueryResult uid a) in
  cx_client cx' = (cx_client cx) <| cl_authentified := true |> <| cl_client_info := info |> ∧
  ∃ friends, sv_client_infos (cx_shared cx') =
    <[uid := ClientSharedInfo_new friends info (cl_peer_ip (cx_client cx))]> (sv_client_infos (cx_shared cx)).

Lemma login_checked_outcome name uid a cx0 cx :
  idle cx0 cx →
  wp (login_checked env name (mkUserQueryResult uid a)) cx (λ r cx',
    (r = Ok NoError ∧ ac_banned a = false ∧ sv_client_infos (cx_shared cx0) !! uid = None ∧
     uid ∉ sv_cleanup_duty (cx_shared cx0) ∧ logged_in cx0 name uid a cx') ∨
    (r ≠ Ok NoError ∧ idle cx0 cx')).
Proof.
  intros Hi. unfold login_checked. simpl. destruct (ac_banned a); [by right|].
  apply wp_bind, wp_gets. case_bool_decide as Hon; [by right|]. case_bool_decide as Hcl; [by right|].
  apply wp_bind, wp_idle; [apply idle_map_err_on_db|]. intros r1 cx1 Hs1.
  assert (idle cx0 cx1) as Hi1 by by etransitivity. destruct r1 as [[]|e|]; [|by right..].
  apply wp_bind, wp_idle; [apply idle_map_err_on_db|]. intros r2 cx2 Hs2.
  assert (idle cx0 cx2) as Hi2 by by etransitivity. destruct r2 as [rels|e|]; [|by right..].
  apply wp_bind, wp_idle; [apply idle_map_err_on_db|]. intros r3 cx3 Hs3.
  assert (idle cx0 cx3) as Hi3 by by etransitivity. destruct r3 as [[]|e|]; [|by right..].
  left. split; [done|]. split; [done|]. destruct Hi as (_ & Hinf & Hdut), Hi3 as (Hc3 & Hinf3 & _).
  rewrite Hinf in Hon. rewrite Hdut in Hcl. split; [by apply eq_None_not_Some|]. split; [done|]. split.
  - simpl. by rewrite Hc3.
  - eexists. simpl. rewrite sent_same_clients. simpl. by rewrite Hinf3, Hc3.
Qed.

Lemma bind_gets {A B} (f : Ctx → A) (k : A → H B) cx : bind (gets f) k cx = k (f cx) cx.
Proof. done. Qed.

Lemma login_outcome cx name password token bad :
  login_fields (cx_data cx) = (name, password, token, bad) →
  ∃ r cx', login env cx = (r, cx') ∧
    ((r = Ok NoError ∧ ∃ uid a, may_login name password token (cx_shared cx) uid a ∧ logged_in cx name uid a cx') ∨
     (r ≠ Ok NoError ∧ idle cx cx')).
Proof.
  unfold login_fields. intros Hf.
  destruct (get_string false (cx_data cx)) as [n d1] eqn:E1. destruct (get_string false d1) as [p d2] eqn:E2.
  destruct (get_string true d2) as [t d3] eqn:E3. injection Hf as -> -> -> _.
  unfold login. rewrite (bind_read (get_string false) cx name d1) by exact E1. cbv beta.
  rewrite (bind_read (get_string false) _ password d2) by exact E2. cbv beta.
  rewrite (bind_read (get_string true) _ token d3) by exact E3. cbv beta.
  rewrite bind_check_data. simpl. destruct (se_error d3); [by eexists _, _; split; [done|right]|].
  rewrite bind_connection. destruct (en_db_ok env); [|by eexists _, _; split; [done|right]].
  rewrite bind_gets, bind_attempt_on_db. simpl.
  destruct (check_user _ _ _ _ _) as [[[uid a]|e|] db'] eqn:Hcheck;
    [|destruct e; eexists _, _; (split; [reflexivity|by right])|by eexists _, _; split; [done|right]].
  apply check_user_ok_inv in Hcheck as (Ha & Hn & Hh & Ht).
  match goal with |- context [login_checked _ _ _ ?c] => set (cx2 := c) end.
  pose proof (login_checked_outcome name uid a cx cx2 ltac:(done)) as Hout. unfold wp in Hout.
  eexists _, _. split; [apply surjective_pairing|].
  destruct Hout as [(Hr & Hban & Hinf & Hdut & Hlog)|[Hr Hidle]]; [left|by right]. split; [done|].
  exists uid, a. by split.
Qed.
End login.

(** C4: a login is granted exactly to the right account: to the one of that name whose
    password (and token, when e-mails are validated) is given, which is neither banned, nor
    connected already, nor still being cleaned up; the client then acts as this account
    and is the only entry that is added.  Any other outcome, errors of the database
    included, leaves the client and the table of connected users as they were. *)
Theorem login_granted `{!HashOrder} `{!External} env cx :
  let '(name, password, token, _) := login_fields (cx_data cx) in
  let '(r, cx') := login env cx in
  (r = Ok NoError ∧ ∃ uid a, may_login name password token (cx_shared cx) uid a ∧ logged_in cx name uid a cx') ∨
  (r ≠ Ok NoError ∧ idle cx cx').
Proof.
  destruct (login_fields _) as [[[name password] token] bad] eqn:Hf.
  destruct (login_outcome env cx _ _ _ _ Hf) as (r & cx' & -> & Hout). exact Hout.
Qed.

Section login_succeeds.
Context `{!HashOrder} `{!External} (env : Env).

Lemma userid_to_username_calm db ids : calm db → ∃ names, userid_to_username ids db = (Ok names, db).
Proof.
  intros Hc. induction ids as [|i ids [names IH]]; [by eexists|]. simpl. unfold get_username, or_empty.
  assert (∃ r : res DbError string, r ≠ Panic ∧ attempt (E' := DbError) (map_err (λ e, match e with QueryReturnedNoRows => DbEmpty | _ => DbInternal end)
    (query_row (λ db, ac_username <$> db_account db !! i))) db = (Ok r, db)) as (r & Hr & Hrun).
  { unfold attempt, map_err. rewrite query_row_calm by done. destruct (db_account db !! i) as [b|]; [by exists (Ok (ac_username b))|by exists (Err DbEmpty)]. }
  rewrite (bind_run _ _ _ _ _ Hrun), (bind_run _ _ _ _ _ IH). by eexists.
Qed.

Lemma get_relationships_calm db uid : calm db → ∃ rels, get_relationships uid db = (Ok rels, db).
Proof.
  intros Hc. unfold get_relationships, internal.
  rewrite (bind_run _ _ _ _ _ (map_err_run _ _ _ _ _ (select_calm _ _ Hc))).
  do 4 (edestruct (userid_to_username_calm db) as [? Hn]; [done|]; rewrite (bind_run _ _ _ _ _ Hn); clear Hn).
  by eexists.
Qed.

Lemma map_err_on_db_run {E E' A} (f : E → E') (m : M Database E A) cx a db' :
  m (sv_db (cx_shared cx)) = (Ok a, db') →
  map_err f (on_db m) cx = (Ok a, cx <| cx_shared ::= (λ s, s <| sv_db := db' |>) |>).
Proof. intros Hm. unfold map_err, on_db. by rewrite Hm. Qed.

Lemma login_checked_run name uid a cx :
  calm (sv_db (cx_shared cx)) → unique_by same_name (db_account (sv_db (cx_shared cx))) →
  db_account (sv_db (cx_shared cx)) !! uid = Some a → ac_username a = name → ac_banned a = false →
  sv_client_infos (cx_shared cx) !! uid = None → uid ∉ sv_cleanup_duty (cx_shared cx) →
  (login_checked env name (mkUserQueryResult uid a) cx).1 = Ok NoError.
Proof.
  intros Hc Hu Ha <- Hb Hi Hd. unfold login_checked. simpl. rewrite Hb, bind_gets, Hi.
  rewrite bool_decide_false by (by intros [? ?]). rewrite bool_decide_false by done.
  set (db := sv_db (cx_shared cx)) in *. destruct (get_relationships_calm db uid Hc) as [rels Hrels].
  assert ((do _ <- get_user_id (ac_username a); ret tt) db = (Ok tt, db)) as Hid.
  { pose proof (get_user_id_calm db (ac_username a) Hc) as Hg. rewrite (find_account_complete db uid a) in Hg by done.
    by rewrite (bind_run _ _ _ _ _ Hg). }
  rewrite (bind_run _ _ _ _ _ (map_err_on_db_run _ _ cx _ _ Hid)).
  erewrite bind_run; [|apply map_err_on_db_run; exact Hrels]. 
  erewrite bind_run; [|apply map_err_on_db_run; apply map_err_run, execute_calm; exact Hc]. done.
Qed.
End login_succeeds.

(** C27: a user who may log in can: with a well-formed request, a database connection and
    statements that do not fail, the login is granted. *)
Theorem login_succeeds `{!HashOrder} `{!External} env cx name password token uid a :
  db_inv (sv_db (cx_shared cx)) → calm (sv_db (cx_shared cx)) → en_db_ok env = true →
  login_fields (cx_data cx) = (name, password, token, false) →
  may_login name password token (cx_shared cx) uid a → (login env cx).1 = Ok NoError.
Proof.
  intros Hi Hc Hdb Hf [Ha Hn Hh Ht Hb Hinf Hd]. unfold login_fields in Hf.
  destruct (get_string false (cx_data cx)) as [n d1] eqn:E1. destruct (get_string false d1) as [p d2] eqn:E2.
  destruct (get_string true d2) as [t d3] eqn:E3. injection Hf as -> -> -> Hbad.
  unfold login. rewrite (bind_read (get_string false) cx name d1) by exact E1. cbv beta.
  rewrite (bind_read (get_string false) _ password d2) by exact E2. cbv beta.
  rewrite (bind_read (get_string true) _ token d3) by exact E3. cbv beta.
  rewrite bind_check_data. simpl. rewrite Hbad, bind_connection, Hdb, bind_gets, bind_attempt_on_db. simpl.
  destruct (check_user_calm (sv_db (cx_shared cx)) name password token (is_email_validated (config_of cx)) Hc)
    as (r & -> & Hr).
  unfold credentials in Hr. rewrite <- Hn in Hr. rewrite (find_account_complete _ uid a) in Hr by (apply Hi || done).
  assert (is_email_validated (config_of cx) && bool_decide (ac_token a ≠ token) = false) as Htok.
  { destruct (is_email_validated _); [|done]. rewrite (Ht eq_refl). by rewrite bool_decide_false by tauto. }
  rewrite Htok, Hh in Hr. rewrite (bool_decide_true (ac_hash a = ac_hash a)) in Hr by done. subst r.
  apply login_checked_run; try done. apply Hi.
Qed.

(** [alice] logs in to a server that knows her. *)
Definition ex_login_ctx : Ctx :=
  mkCtx (Client_new [127; 0; 0; 1]) (no_rooms <| sv_db := registered 0 (ex_account "alice") (migrated_db 0 [1] [2]) |>)
    (extractor_new ex_login) [].

Lemma login_succeeds_witness : (@login elements_order ex_external ex_env ex_login_ctx).1 = Ok NoError.
Proof.
  apply (@login_succeeds elements_order ex_external ex_env ex_login_ctx "alice" "pw" "" 2 (ex_account "alice"));
    [|done|done|vm_compute; reflexivity|split; try (vm_compute; reflexivity); done].
  apply registered_inv. apply (@with_account_inv ex_external); [apply migrated_db_inv|done|vm_compute; reflexivity..].
Defined.
