(* ===== verification/MigrationRules.v ===== *)
(** * The migrations (src/src/server/database.rs)

    A new file ends with the schema and the rows the server is written for; a file of the
    release before the deletion of users is upgraded with its rows; and what keeps a file
    from ever being upgraded. *)

From S2P Require Import Prelude Protocol ScoreCache Text Database Accounts Friendships DbScore DbTus Config Startup Migrations DbInv.
From S2P Require Import DbExec ServerRules StartupRules AccountRules.

Open Scope string_scope.

(** ** The schema *)

(** The tables that keep the names and addresses of deleted users from coming back. *)
Definition blocking_tables : gmap string TableDef :=
  list_to_map [("email_hash", hash_table); ("username_hash", hash_table); ("unique_blob", unique_blob_table)].

(** With and without the deletion of users. *)
Definition schema (deletion : bool) : gmap string TableDef :=
  let common : gmap string TableDef := list_to_map [
    ("migration", migration_table); ("account", account_table); ("friendship", friendship_table deletion);
    ("account_timestamp", account_timestamp_table deletion); ("server", server_table); ("world", world_table);
    ("lobby", lobby_table); ("score_table", score_table_table); ("score", score_rows_table deletion);
    ("tus_var", tus_var_table (of_owner deletion)); ("tus_data", tus_data_table (of_owner deletion));
    ("tus_var_vuser", tus_var_vuser_table of_author); ("tus_data_vuser", tus_data_vuser_table of_author)] in
  if deletion then blocking_tables ∪ common else common.

Definition schema_indexes : gmap string (string * string) := list_to_map [
  ("friendship_user1", ("friendship", "user_id_1")); ("friendship_user2", ("friendship", "user_id_2"));
  ("score_user_id", ("score", "user_id")); ("tus_var_owner_id", ("tus_var", "owner_id"));
  ("tus_var_author_id", ("tus_var", "author_id")); ("tus_data_owner_id", ("tus_data", "owner_id"));
  ("tus_data_author_id", ("tus_data", "author_id")); ("tus_var_vuser_author_id", ("tus_var_vuser", "author_id"));
  ("tus_data_vuser_author_id", ("tus_data_vuser", "author_id"))].

(** The first migrations are recorded. *)
Definition recorded (n : nat) : gmap Z string :=
  list_to_map (take n [(1, "Initial setup"); (2, "Adding tables for TUS"); (3, "Unifying score tables");
    (4, "Adding FOREIGN_KEY constraints to tus tables"); (5, "Adding indexes to tables");
    (6, "Updating communication_id entries to show subid"); (7, "Change score rank limit's default");
    (8, "Fixup for RR7 tables"); (9, "Fixes WorldIDs"); (10, "Cleanup server IDs");
    (11, "Prepare tables for user deletion")]).

Definition complete (rows : Database) : DbFile := mkDbFile (schema true) schema_indexes (recorded 11) ∅ true rows.

(** One index was once defined on something else. *)
Definition before_deletion (misplaced : string * string) (rows : Database) : DbFile :=
  mkDbFile (schema false) (<["tus_data_vuser_author_id" := misplaced]> schema_indexes) (recorded 10) ∅ true rows.

(** ** Statements on a file that does not fail *)

Lemma ddl_calm {A} (f : DbFile → SqlError + A * DbFile) d :
  calm (df_rows d) → ddl f d = match f d with inl e => (Err e, d) | inr (a, d') => (Ok a, d') end.
Proof. unfold calm, ddl. destruct d as [t i m o k rows]. simpl. intros Hc. destruct rows. simpl in *. by subst. Qed.

Lemma on_rows_run {A} (m : SQL A) d a rows : m (df_rows d) = (Ok a, rows) → on_rows m d = (Ok a, d <| df_rows := rows |>).
Proof. unfold on_rows. by intros ->. Qed.

(** No foreign key names the table, and no index is on its old self. *)
Definition renamable (name : string) (d : DbFile) : Prop :=
  df_tables d !! ("_old_" +:+ name) = None ∧ df_indexes d !! ("_old_" +:+ name) = None ∧
  map_Forall (λ _ def, Forall (λ r : list string * string * bool, r.1.2 ≠ name) (tb_references def)) (df_tables d) ∧
  map_Forall (λ _ i, i.1 ≠ "_old_" +:+ name) (df_indexes d).

Lemma rename_references_id old new def :
  Forall (λ r : list string * string * bool, r.1.2 ≠ old) (tb_references def) → rename_references old new def = def.
Proof.
  destruct def as [c k u refs]. unfold rename_references. simpl. intros Hr. f_equal.
  induction Hr as [|[[cs t] b] refs Hne _ IH]; [done|]. rewrite fmap_cons, IH. simpl in *. by rewrite bool_decide_false.
Qed.

Lemma old_name_ne name : name ≠ "_old_" +:+ name.
Proof. intros E%(f_equal String.length). change (String.length name = 5 + String.length name)%nat in E. lia. Qed.

Lemma rename_table_run name old d :
  calm (df_rows d) → df_tables d !! name = Some old → renamable name d →
  rename_table name ("_old_" +:+ name) d =
    (Ok tt, d <| df_tables := <["_old_" +:+ name := old]> (delete name (df_tables d)) |>
              <| df_indexes ::= fmap (λ '(table, column), (if bool_decide (table = name) then "_old_" +:+ name else table, column)) |>).
Proof.
  intros Hc Ho (Hn & Hi & Hrefs & _). unfold rename_table. rewrite ddl_calm, Ho, Hn, Hi by done. cbn.
  assert (rename_references name ("_old_" +:+ name) <$> <["_old_" +:+ name := old]> (delete name (df_tables d))
          = <["_old_" +:+ name := old]> (delete name (df_tables d))) as E; [|by destruct d; cbn in *; rewrite E].
  rewrite <- (map_fmap_id (<["_old_" +:+ name := old]> (delete name (df_tables d)))) at 2. apply map_fmap_ext.
  intros i x [[_ <-]|[_ [_ Hx]%lookup_delete_Some]]%lookup_insert_Some; apply rename_references_id; by eapply Hrefs.
Qed.

Lemma create_table_run name def d :
  calm (df_rows d) → df_tables d !! name = None → create_table name def d = (Ok tt, d <| df_tables ::= <[name := def]> |>).
Proof. intros Hc Hn. unfold create_table. by rewrite ddl_calm, Hn. Qed.

Lemma copy_rows_run name old def d :
  calm (df_rows d) → df_tables d !! name = Some def → df_tables d !! ("_old_" +:+ name) = Some old →
  tb_columns def = tb_columns old → references_hold name def (df_rows d) = true → copy_rows name d = (Ok tt, d).
Proof.
  intros Hc Hn Ho Hcol Hr. unfold copy_rows. rewrite ddl_calm, Hn, Ho, bool_decide_true by done.
  by rewrite Hr, andb_false_r.
Qed.

Lemma drop_table_run name def d :
  calm (df_rows d) → df_tables d !! name = Some def →
  drop_table name d = (Ok tt, d <| df_tables ::= delete name |> <| df_indexes ::= filter (λ '(_, (table, _)), table ≠ name) |>).
Proof. intros Hc Hn. unfold drop_table. by rewrite ddl_calm, Hn. Qed.

(** Altering a table whose rows satisfy the new definition replaces the definition, and
    the indexes of the table are gone. *)
Lemma alter_table_run name old def d :
  calm (df_rows d) → df_tables d !! name = Some old → tb_columns def = tb_columns old → renamable name d →
  references_hold name def (df_rows d) = true →
  alter_table name def d = (Ok tt, d <| df_tables ::= <[name := def]> |> <| df_indexes ::= filter (λ '(_, (table, _)), table ≠ name) |>).
Proof.
  intros Hc Ho Hcol Hren Hhold. pose proof (old_name_ne name) as Hne. unfold alter_table.
  rewrite (bind_run _ _ _ _ _ (rename_table_run name old d Hc Ho Hren)). destruct Hren as (Hn & _ & _ & Hidx).
  destruct d as [tables indexes m o k rows]. cbn in *.
  rewrite (bind_run _ _ _ _ _ (create_table_run name def (mkDbFile _ _ _ _ _ rows) Hc ltac:(cbn; by rewrite lookup_insert_ne, lookup_delete_eq))). cbn.
  rewrite (bind_run _ _ _ _ _ (copy_rows_run name old def (mkDbFile _ _ _ _ _ rows) Hc
    (lookup_insert_eq _ _ _) ltac:(cbn; by rewrite lookup_insert_ne, lookup_insert_eq) Hcol Hhold)).
  rewrite (drop_table_run _ old (mkDbFile _ _ _ _ _ rows) Hc ltac:(cbn; by rewrite lookup_insert_ne, lookup_insert_eq)).
  cbn. do 2 f_equal.
  - apply map_eq. intros i. destruct (decide (i = "_old_" +:+ name)) as [->|]; [by rewrite lookup_delete_eq, lookup_insert_ne, Hn|].
    rewrite lookup_delete_ne by done. destruct (decide (i = name)) as [->|]; [by rewrite !lookup_insert_eq|].
    by rewrite !lookup_insert_ne, lookup_delete_ne.
  - apply map_eq. intros i. apply option_eq. intros [t c]. rewrite !map_lookup_filter_Some, lookup_fmap, fmap_Some. split.
    + intros [([t' c'] & Ht & [= -> ->]) Hold]. case_bool_decide; [done|]. done.
    + intros [Ht Hnm]. split; [|by apply (Hidx i (t, c))]. exists (t, c). by rewrite bool_decide_false.
Qed.

#[export] Instance renamable_dec name d : Decision (renamable name d).
Proof. unfold renamable. apply _. Defined.

(** ** Upgrading *)

(** What the rows of the tables must be for their new definitions. *)
Definition users_exist (rows : Database) : Prop :=
  references_hold "friendship" (friendship_table true) rows = true ∧
  references_hold "account_timestamp" (account_timestamp_table true) rows = true ∧
  references_hold "tus_var" (tus_var_table (of_owner true)) rows = true ∧
  references_hold "tus_data" (tus_data_table (of_owner true)) rows = true ∧
  references_hold "score" (score_rows_table true) rows = true.

(** No index is, or is on, a table under its temporary name. *)
Definition settled (indexes : gmap string (string * string)) : Prop :=
  map_Forall (λ k i, String.prefix "_old_" k = false ∧ String.prefix "_old_" i.1 = false) indexes.

Lemma settled_filter indexes name : settled indexes → settled (filter (λ '(_, (table, _)), table ≠ name) indexes).
Proof. intros Hs k i [Hk _]%map_lookup_filter_Some. by eapply Hs. Qed.

Lemma settled_renamable name d :
  settled (df_indexes d) → df_tables d !! ("_old_" +:+ name) = None →
  map_Forall (λ _ def, Forall (λ r : list string * string * bool, r.1.2 ≠ name) (tb_references def)) (df_tables d) →
  renamable name d.
Proof.
  intros Hs Ht Hr. assert (String.prefix "_old_" ("_old_" +:+ name) = true) as Hold by (by destruct name).
  split; [done|]. split; [|split; [done|]].
  - destruct (df_indexes d !! ("_old_" +:+ name)) as [i|] eqn:E; [|done]. destruct (Hs _ _ E). congruence.
  - intros k i Hk E. destruct (Hs _ _ Hk) as [_ Hi]. rewrite E in Hi. congruence.
Qed.

(** One table of a known catalog; [H] says that its rows satisfy the new definition. *)
Ltac alter name old Hc Hs H :=
  erewrite bind_run; [|apply (alter_table_run name old);
    [exact Hc|vm_compute; reflexivity|reflexivity
    |apply settled_renamable; [exact Hs|vm_compute; reflexivity|apply (bool_decide_unpack _); vm_compute; exact I]|exact H]];
  cbn [df_rows df_indexes]; apply (settled_filter _ name) in Hs.

(** All five tables and their indexes are replaced. *)
Lemma improve_tables_run misplaced rows :
  calm rows → users_exist rows → String.prefix "_old_" misplaced.1 = false →
  improve_tables_for_deletion (mkDbFile (blocking_tables ∪ schema false)
    (<["tus_data_vuser_author_id" := misplaced]> schema_indexes) (recorded 10) ∅ true rows) =
    (Ok tt, mkDbFile (schema true) schema_indexes (recorded 10) ∅ true rows).
Proof.
  intros Hc (H1 & H2 & H3 & H4 & H5) Hold. unfold improve_tables_for_deletion.
  assert (settled (<["tus_data_vuser_author_id" := misplaced]> schema_indexes)) as Hs.
  { apply map_Forall_insert_2; [done|]. apply (bool_decide_unpack _). vm_compute. exact I. }
  alter "friendship" (friendship_table false) Hc Hs H1. alter "account_timestamp" (account_timestamp_table false) Hc Hs H2.
  alter "tus_var" (tus_var_table (of_owner false)) Hc Hs H3. alter "tus_data" (tus_data_table (of_owner false)) Hc Hs H4.
  alter "score" (score_rows_table false) Hc Hs H5. cbn. unfold drop_index.
  erewrite bind_run; [|rewrite ddl_calm; [reflexivity|exact Hc]]. cbn.
  rewrite <- !map_filter_delete, delete_insert_eq. clear Hs.
  unfold calm in Hc. destruct rows. simpl in Hc. subst. vm_compute. reflexivity.
Qed.

Lemma references_hold_intro name def db :
  (∀ column u, u ∈ named_users name column db → account_of db u) → references_hold name def db = true.
Proof.
  intros Hu. apply forallb_forall. intros [[columns table] cascades] _. apply forallb_forall. intros column _.
  apply forallb_forall. intros u Hin. by eapply has_account_true, Hu, list_elem_of_In.
Qed.

Lemma elem_of_keys {K V} `{Countable K} (m : gmap K V) k : k ∈ (map_to_list m).*1 → is_Some (m !! k).
Proof. intros ([k' v] & -> & Hk)%list_elem_of_fmap. apply elem_of_map_to_list in Hk. by eexists. Qed.

(** The constraints of the schema give what the new definitions ask for. *)
Lemma db_inv_users_exist rows : db_inv rows → users_exist rows.
Proof.
  intros Hi. split_and!; apply references_hold_intro; intros column u; cbn.
  - intros ([v w] & -> & [r Hr]%elem_of_keys)%list_elem_of_fmap. destruct (inv_friendship _ Hi _ _ Hr) as (_ & Hv & Hw).
    by case_bool_decide.
  - intros [t Ht]%elem_of_keys. by eapply (inv_timestamps _ Hi).
  - intros ([[[o c] n] r] & -> & Hr%elem_of_map_to_list)%list_elem_of_fmap. destruct (inv_tus_var _ Hi _ _ Hr). by case_bool_decide.
  - intros ([[[o c] n] r] & -> & Hr%elem_of_map_to_list)%list_elem_of_fmap. destruct (inv_tus_data _ Hi _ _ Hr). by case_bool_decide.
  - intros (k & -> & [r Hr]%elem_of_keys)%list_elem_of_fmap. by eapply (inv_score _ Hi).
Qed.

(** Neither the name nor the address of that account is taken. *)
Record may_add_deleted_user (rows : Database) : Prop := {
  ma_calm : calm rows;
  ma_inv : db_inv rows;
  ma_username : username_taken rows DELETED_USER_USERNAME = false;
  ma_email : email_taken rows "deleted@user" = false;
  ma_sequence : db_sequence rows + 1 < 2 ^ 63;
  ma_salts : db_email_salt rows = None ∧ db_username_salt rows = None;
}.

Section upgrade.
Context `{!External} (timestamp : Z) (email_salt username_salt : bytes).

(** The account that stands for deleted users is added under the next id. *)
Definition with_deleted_account (rows : Database) : Database :=
  with_account deleted_user_account rows
    <| db_account_timestamp ::= <[db_sequence rows + 1 := mkAccountTimestamp timestamp (Some timestamp) None None]> |>.

(** The account and the two salts. *)
Definition with_deleted_user (rows : Database) : Database :=
  with_deleted_account rows <| db_email_salt := Some email_salt |> <| db_username_salt := Some username_salt |>.

Lemma with_deleted_account_inv rows : may_add_deleted_user rows → db_inv (with_deleted_account rows).
Proof.
  intros [Hc Hi Hn He Hs _]. pose proof (with_account_inv deleted_user_account rows Hi Hc Hn He Hs) as Hi'.
  destruct Hi'; split; try done. simpl. apply map_Forall_insert_2; [|done]. eexists. apply lookup_insert_eq.
Qed.

Lemma create_deleted_user_account_run rows :
  may_add_deleted_user rows → create_deleted_user_account timestamp rows = (Ok tt, with_deleted_account rows).
Proof.
  intros [Hc Hi Hn He Hs _]. destruct (inv_sequence _ Hi) as [Hseq Hp]. unfold create_deleted_user_account.
  pose proof (with_account_inv deleted_user_account rows Hi Hc Hn He Hs) as Hi'.
  rewrite (bind_run _ _ _ _ _ (insert_account_calm deleted_user_account rows Hc Hn He Hs Hp)).
  assert (calm (with_account deleted_user_account rows)) as Hc' by done.
  assert (find_account (with_account deleted_user_account rows) DELETED_USER_USERNAME
          = Some (db_sequence rows + 1, deleted_user_account)) as Hfind.
  { apply (find_account_complete _ _ deleted_user_account); [apply Hi'|]. apply lookup_insert_eq. }
  run. rewrite Hfind. cbn. unfold insert_account_timestamp. run. rewrite bool_decide_false.
  - unfold has_account. rewrite bool_decide_true; [done|]. eexists. apply lookup_insert_eq.
  - intros [t Ht]. destruct (inv_timestamps _ Hi _ _ Ht) as [b Hb]. specialize (Hseq _ _ Hb). simpl in Hseq. lia.
Qed.

Lemma insert_salts_run rows :
  calm rows → db_email_salt rows = None → db_username_salt rows = None →
  insert_salts email_salt username_salt rows = (Ok tt, rows <| db_email_salt := Some email_salt |> <| db_username_salt := Some username_salt |>).
Proof.
  intros Hc He Hu. unfold insert_salts, insert_email_salt, insert_username_salt. run. rewrite He. cbn.
  rewrite sql_calm by done. cbn. by rewrite Hu.
Qed.

Lemma prepare_for_deletion_run misplaced rows :
  may_add_deleted_user rows → String.prefix "_old_" misplaced.1 = false →
  prepare_for_deletion timestamp email_salt username_salt (before_deletion misplaced rows) =
    (Ok tt, mkDbFile (schema true) schema_indexes (recorded 10) ∅ true (with_deleted_user rows)).
Proof.
  intros Hadd Hold. pose proof (with_deleted_account_inv rows Hadd) as Hi. unfold prepare_for_deletion.
  erewrite bind_run; [|apply on_rows_run, create_deleted_user_account_run, Hadd].
  destruct Hadd as [Hc _ _ _ _ [He Hu]]. unfold create_gdpr_hash_tables.
  erewrite bind_run; [apply (improve_tables_run misplaced (with_deleted_user rows) Hc); [|done];
    apply db_inv_users_exist; by destruct Hi|].
  do 3 (erewrite bind_run; [|apply create_table_run; [exact Hc|vm_compute; reflexivity]]).
  unfold on_rows. cbn [df_rows]. rewrite insert_salts_run by done. reflexivity.
Qed.

(** The migrations that were not recorded when the loop started. *)
Definition pending (applied : gmap Z string) : list MigrationData :=
  filter (λ mig, applied !! mig_version mig = None) (DATABASE_MIGRATIONS timestamp email_salt username_salt).

Lemma for_each_pending backup_ok (applied : gmap Z string) migs d :
  for_each (λ mig, if bool_decide (is_Some (applied !! mig_version mig)) then ret tt else apply_migration backup_ok mig) migs d =
  for_each (apply_migration backup_ok) (filter (λ mig, applied !! mig_version mig = None) migs) d.
Proof.
  induction migs as [|mig migs IH] in d |- *; [done|]. cbn [for_each]. rewrite filter_cons.
  destruct (applied !! mig_version mig) eqn:E.
  - rewrite decide_False by done. rewrite bool_decide_true by done. by unfold bind, ret.
  - rewrite decide_True by done. rewrite bool_decide_false by by intros [].
    cbn [for_each]. unfold bind. by destruct (apply_migration backup_ok mig d) as [[] ?].
Qed.

Lemma apply_migrations_pending backup_ok d :
  calm (df_rows d) → is_Some (df_tables d !! "migration") →
  apply_migrations timestamp email_salt username_salt backup_ok d =
    for_each (apply_migration backup_ok) (pending (df_migrations d)) d.
Proof.
  intros Hc Ht. unfold apply_migrations.
  assert (create_table "migration" migration_table d = (Ok tt, d)) as Hcreate.
  { unfold create_table. rewrite ddl_calm by done. by rewrite bool_decide_true. }
  rewrite (bind_run _ _ _ _ _ Hcreate). erewrite bind_run; [|by rewrite ddl_calm]. apply for_each_pending.
Qed.

Lemma upgrade_run misplaced rows backup_ok :
  may_add_deleted_user rows → String.prefix "_old_" misplaced.1 = false → backup_ok 11 = true →
  apply_migrations timestamp email_salt username_salt backup_ok (before_deletion misplaced rows) = (Ok tt, complete (with_deleted_user rows)).
Proof.
  intros Hadd Hold Hb. rewrite apply_migrations_pending; [|apply Hadd|vm_compute; by eexists].
  change (pending (df_migrations (before_deletion misplaced rows))) with [mkMigrationData 11 "Prepare tables for user deletion"
    (prepare_for_deletion timestamp email_salt username_salt)].
  cbn [for_each]. unfold apply_migration. cbn [mig_version mig_function]. rewrite Hb.
  erewrite bind_run; [done|]. erewrite bind_run; [|done]. erewrite bind_run; [|by apply prepare_for_deletion_run].
  unfold record_migration. rewrite ddl_calm; [|apply Hadd]. vm_compute. reflexivity.
Qed.
End upgrade.

(** ** Files that stay behind *)

Section stuck.
Context `{!External} (timestamp : Z) (email_salt username_salt : bytes) (backup_ok : Z → bool).

(** What statements that fail leave of a file. *)
Definition refaulted (faults : list bool) (d : DbFile) : DbFile := d <| df_rows ::= (λ r, r <| db_faults := faults |>) |>.

Lemma ddl_cases {A} (f : DbFile → SqlError + A * DbFile) d :
  ∃ faults, ddl f d = (Err SqliteFailure, refaulted faults d) ∨
    ddl f d = match f (refaulted faults d) with inl e => (Err e, refaulted faults d) | inr (a, d') => (Ok a, d') end.
Proof.
  unfold ddl. destruct (db_faults (df_rows d)) as [|[] faults]; [exists []|exists faults; by left|exists faults]; right;
    by destruct (f _) as [|[]].
Qed.

(** A condition under which the first migration that is missing fails and leaves the
    condition as it was makes every start fail. *)
Context (P : DbFile → Prop) (version : Z).
Context (P_faults : ∀ d faults, P d → P (refaulted faults d)).
Context (P_table : ∀ d def, P d → P (d <| df_tables ::= <["migration" := def]> |>)).
Context (P_pending : ∀ d, P d → ∃ mig rest, pending timestamp email_salt username_salt (df_migrations d) = mig :: rest ∧
  ∀ d, P d → ∃ e d', mig_function mig d = (Err e, d') ∧ P d').

Lemma stuck_start d : P d → ∃ e d', apply_migrations timestamp email_salt username_salt backup_ok d = (Err e, d') ∧ P d'.
Proof.
  intros Hd. unfold apply_migrations.
  assert (∃ r d', create_table "migration" migration_table d = (r, d') ∧ r ≠ Panic ∧ P d') as (r & d1 & E1 & Hr1 & Hd1).
  { unfold create_table. destruct (ddl_cases (λ d, inr (tt, if bool_decide (is_Some (df_tables d !! "migration")) then d
      else d <| df_tables ::= <["migration" := migration_table]> |>)) d) as [faults [-> | ->]];
      [eexists _, _; split_and!; [done..|by apply P_faults]|]. cbn beta iota.
    eexists _, _. split; [done|]. split; [done|]. case_bool_decide; auto. }
  destruct r as [[]|e|]; [|exists e, d1; by rewrite (bind_run_err _ _ _ _ _ E1)|done]. rewrite (bind_run _ _ _ _ _ E1).
  destruct (ddl_cases (λ d, inr (df_migrations d, d)) d1) as [faults [E2|E2]].
  { eexists _, _. rewrite (bind_run_err _ _ _ _ _ E2). eauto. }
  cbn beta iota in E2. rewrite (bind_run _ _ _ _ _ E2), for_each_pending.
  destruct (P_pending (refaulted faults d1)) as (mig & rest & Hpend & Hfail); [by apply P_faults|].
  unfold pending in Hpend. rewrite Hpend. cbn [for_each]. unfold apply_migration at 1.
  destruct (backup_ok (mig_version mig)).
  - destruct (Hfail (refaulted faults d1)) as (e & d2 & E3 & Hd2); [by apply P_faults|].
    exists e, d2. split; [|done]. unfold bind, ret. by rewrite E3.
  - eexists _, _. split; [done|by apply P_faults].
Qed.
End stuck.

Close Scope string_scope.

(** A lobby of a world from before the world ids were changed. *)
Record lobby_left (d : DbFile) : Prop := {
  ll_keys : df_foreign_keys d = true;
  ll_applied : ∀ v, 1 ≤ v ≤ 8 → is_Some (df_migrations d !! v);
  ll_missing : df_migrations d !! 9 = None;
  ll_worlds : map_Forall (λ k _, 0 < k.2) (db_worlds (df_rows d));
  ll_lobby : ∃ com_id lobby_id world_id, db_lobbies (df_rows d) !! (com_id, lobby_id) = Some world_id ∧ world_id < 65537;
}.

(** The shift leaves no world below the new ids. *)
Lemma shift_worlds_gone worlds c w :
  map_Forall (λ k _, 0 < k.2) worlds → w < 65537 → shift_worlds worlds !! (c, w) = None.
Proof.
  intros Hpos Hw. unfold shift_worlds.
  set (l := filter _ _).
  assert (∀ k s, (k, s) ∈ l → 0 < k.2) as Hl.
  { intros k s Hk. subst l. apply list_elem_of_filter in Hk as [_ Hk%elem_of_map_to_list]. by apply (Hpos k s). }
  assert (worlds !! (c, w) = None ∨ (c, w) ∈ l.*1) as Hstart.
  { destruct (worlds !! (c, w)) as [s|] eqn:E; [right|by left]. apply list_elem_of_fmap. exists ((c, w), s). split; [done|].
    apply list_elem_of_filter. split; [done|]. by apply elem_of_map_to_list. }
  revert Hl Hstart. generalize worlds. induction l as [|[[c' w'] s] l IH]; intros m Hl Hm.
  - destruct Hm as [|Hm]; [done|]. by apply elem_of_nil in Hm.
  - cbn [foldl]. apply IH; [intros k s' Hk; apply (Hl k s'); by right|].
    assert (0 < w') as Hw' by (apply (Hl (c', w') s); by left).
    rewrite lookup_insert_ne by (unfold WORLD_ID_SHIFT; congruence || (intros [= _ ?]; lia)).
    destruct (decide ((c', w') = (c, w))) as [->|Hne]; [left; apply lookup_delete_eq|]. rewrite lookup_delete_ne by done.
    destruct Hm as [|[E|]%elem_of_cons]; [by left| |by right]. by destruct Hne.
Qed.

Lemma pending_from `{!External} ts es us (applied : gmap Z string) (n : nat) :
  (∀ v, 1 ≤ v ≤ Z.of_nat n → is_Some (applied !! v)) →
  pending ts es us applied = filter (λ mig, applied !! mig_version mig = None) (drop n (DATABASE_MIGRATIONS ts es us)).
Proof.
  intros Hn. unfold pending. rewrite <- (take_drop n (DATABASE_MIGRATIONS ts es us)) at 1. rewrite filter_app.
  assert (filter (λ mig, applied !! mig_version mig = None) (take n (DATABASE_MIGRATIONS ts es us)) = []) as ->; [|done].
  apply elem_of_nil_inv. intros mig [Hnone Hmig]%list_elem_of_filter.
  assert (1 ≤ mig_version mig ≤ Z.of_nat n) as Hv; [|destruct (Hn _ Hv); congruence].
  clear -Hmig. apply list_elem_of_lookup in Hmig as [i Hi]. apply lookup_take_Some in Hi as [Hi Hlt].
  do 11 (destruct i as [|i]; [injection Hi as <-; simpl; lia|]). done.
Qed.

Lemma world_ids_fixup_stuck d : lobby_left d → ∃ e d', world_ids_fixup d = (Err e, d') ∧ lobby_left d'.
Proof.
  intros Hd. unfold world_ids_fixup, checked.
  match goal with |- context [ddl ?f d] => destruct (ddl_cases f d) as [faults [-> | ->]] end;
    assert (lobby_left (refaulted faults d)) as Hd' by (by destruct Hd); [eauto|]. cbv beta zeta.
  assert (lobbies_hold ((df_rows (refaulted faults d)) <| db_worlds ::= shift_worlds |>) = false) as ->.
  { apply not_true_iff_false. unfold lobbies_hold. rewrite forallb_forall.
    destruct Hd' as [_ _ _ Hpos (c & l & w & Hl & Hw)]. intros Hall.
    assert (In ((c, l), w) (map_to_list (db_lobbies (df_rows (refaulted faults d))))) as Hin
      by (by apply list_elem_of_In, elem_of_map_to_list).
    specialize (Hall _ Hin). cbn in Hall. apply bool_decide_eq_true in Hall.
    change (is_Some (shift_worlds (db_worlds (df_rows (refaulted faults d))) !! (c, w))) in Hall.
    rewrite shift_worlds_gone in Hall by done. by destruct Hall. }
  rewrite (ll_keys _ Hd'). simpl. eauto.
Qed.

(** The account of deleted users exists although its migration was not recorded. *)
Record half_prepared (d : DbFile) : Prop := {
  hp_applied : ∀ v, 1 ≤ v ≤ 10 → is_Some (df_migrations d !! v);
  hp_missing : df_migrations d !! 11 = None;
  hp_account : username_taken (df_rows d) DELETED_USER_USERNAME = true;
}.

Lemma prepare_for_deletion_stuck `{!External} ts es us d :
  half_prepared d → ∃ e d', prepare_for_deletion ts es us d = (Err e, d') ∧ half_prepared d'.
Proof.
  intros Hd. unfold prepare_for_deletion, create_deleted_user_account.
  assert (∃ e faults, insert_account deleted_user_account (df_rows d) = (Err e, (df_rows d) <| db_faults := faults |>)) as (e & faults & E).
  { unfold insert_account, sql.
    assert (∀ faults, ∃ column, account_conflict ((df_rows d) <| db_faults := faults |>) deleted_user_account = Some column) as Hc.
    { intros faults. unfold account_conflict.
      change (username_taken ((df_rows d) <| db_faults := faults |>) (ac_username deleted_user_account)) with
        (username_taken (df_rows d) DELETED_USER_USERNAME). rewrite (hp_account _ Hd). repeat case_match; eauto. }
    destruct (db_faults (df_rows d)) as [|[] faults]; [|by eexists _, _|];
      [destruct (Hc (tail [])) as [column ->]|destruct (Hc (tail (false :: faults))) as [column ->]]; by eexists _, _. }
  exists e, (refaulted faults d). split; [|by destruct Hd]. unfold on_rows, bind. by rewrite E.
Qed.

Section blocked.
Context `{!External} (timestamp : Z) (email_salt username_salt : bytes) (backup_ok : Z → bool).

(** C37: a database that still has a lobby of an old world when the ids of the worlds are to
    be shifted (migration 9) never starts again: the lobbies refer to the worlds by their
    ids, the shift would leave them dangling and the statement is refused, at this start
    and, since nothing changes, at every later one, whatever else fails. *)
Theorem lobbies_block_upgrade d :
  lobby_left d → ∃ e d', apply_migrations timestamp email_salt username_salt backup_ok d = (Err e, d') ∧ lobby_left d'.
Proof.
  apply stuck_start; [by intros ? ? []|by intros ? ? []|]. clear d. intros d Hd.
  rewrite (pending_from timestamp email_salt username_salt _ 8) by (apply Hd). cbn [drop DATABASE_MIGRATIONS].
  rewrite filter_cons_True by (apply Hd). eexists _, _. split; [done|]. apply world_ids_fixup_stuck.
Qed.

(** C36: the migrations are not transactions: when the last one is interrupted after it added
    the account of deleted users and before it was recorded, every later start fails on
    that account, and so does the start after that. *)
Theorem interrupted_migration_blocks d :
  half_prepared d → ∃ e d', apply_migrations timestamp email_salt username_salt backup_ok d = (Err e, d') ∧ half_prepared d'.
Proof.
  apply stuck_start; [by intros ? ? []|by intros ? ? []|]. clear d. intros d Hd.
  rewrite (pending_from timestamp email_salt username_salt _ 10) by (apply Hd). cbn [drop DATABASE_MIGRATIONS].
  rewrite filter_cons_True by (apply Hd). eexists _, _. split; [done|]. apply prepare_for_deletion_stuck.
Qed.
End blocked.

Lemma complete_idle `{!External} ts es us backup_ok rows :
  calm rows → apply_migrations ts es us backup_ok (complete rows) = (Ok tt, complete rows).
Proof. intros Hc. rewrite apply_migrations_pending; [|done|vm_compute; by eexists]. by vm_compute. Qed.



(** A server of that release with one account. *)
Definition ex_before : Database :=
  empty_db <| db_account := {[1 := ex_account "alice"]} |> <| db_sequence := 1 |>
           <| db_account_timestamp := {[1 := mkAccountTimestamp 0 None None None]} |>.


(** A lobby of world 1. *)
Definition ex_lobby : DbFile :=
  mkDbFile (schema false) schema_indexes (recorded 8) ∅ true
    (empty_db <| db_servers := {[("NPWR00001_00"%string, 1)]} |> <| db_worlds := {[("NPWR00001_00"%string, 1) := 1]} |>
              <| db_lobbies := {[("NPWR00001_00"%string, 7) := 1]} |>).


Lemma lobbies_block_upgrade_witness :
  lobby_left ex_lobby ∧
  ∃ e d', @apply_migrations ex_external 5 [1] [2] (λ _, true) ex_lobby = (Err e, d') ∧ lobby_left d'.
Proof.
  assert (lobby_left ex_lobby) as Hd.
  { split; [done| |vm_compute; reflexivity| |].
    - intros v Hv. assert (v = 1 ∨ v = 2 ∨ v = 3 ∨ v = 4 ∨ v = 5 ∨ v = 6 ∨ v = 7 ∨ v = 8) as Hc by lia.
      destruct_or! Hc; subst; vm_compute; by eexists.
    - by apply map_Forall_singleton.
    - exists "NPWR00001_00"%string, 7, 1. by split. }
  split; [exact Hd|]. apply (@lobbies_block_upgrade ex_external 5 [1] [2] (λ _, true) ex_lobby Hd).
Defined.

(** A new file whose 81st statement failed: the account is there, the table of the scores is
    not altered yet. *)
Definition ex_interrupted : DbFile :=
  (@apply_migrations ex_external 5 [1] [2] (λ _, true)
    (empty_file <| df_rows ::= (λ r, r <| db_faults := replicate 80 false ++ [true] |>) |>)).2.

Lemma interrupted_migration_blocks_witness :
  half_prepared ex_interrupted ∧
  ∃ e d', @apply_migrations ex_external 6 [3] [4] (λ _, true) ex_interrupted = (Err e, d') ∧ half_prepared d'.
Proof.
  assert (half_prepared ex_interrupted) as Hd.
  { split; [|vm_compute; reflexivity..].
    intros v Hv. assert (v = 1 ∨ v = 2 ∨ v = 3 ∨ v = 4 ∨ v = 5 ∨ v = 6 ∨ v = 7 ∨ v = 8 ∨ v = 9 ∨ v = 10) as Hc by lia.
    destruct_or! Hc; subst; vm_compute; by eexists. }
  split; [exact Hd|]. apply (@interrupted_migration_blocks ex_external 6 [3] [4] (λ _, true) ex_interrupted Hd).
Defined.
