(* ===== verification/ApiRules.v ===== *)
(** * What the API server guarantees

    The key guards every route but the list of rooms; nothing but a ban changes the
    state; a ban takes effect at once and for good; the lists are exact. *)

From S2P Require Import ScoreCache Text Json Http Database Accounts Friendships DbScore DbTus Config DataFiles.
From S2P Require Import Prelude Protocol StreamExtractor Messages RoomData Room RoomManager GuiRoom GuiRoomManager.
From S2P Require Import GameTracker ClientState ApiServer AccountCommands Dispatch DbFrames ApiFrames DbInv DbExec CommandFrames.
From S2P Require Import RoomInv RoomManagerInv RoomMachine RoomOwner GuiMachine CommandMoves ServerRules DbRules.
From S2P Require Import StartupRules AccountRules.

Section gate.
Context `{!HashOrder} `{!External} `{!HttpLib} (env : Env).

(** ** The key *)

Lemma has_api_key_iff header key :
  has_api_key header key = true ↔ header = Some key ∧ header_to_str key = Some key.
Proof.
  unfold has_api_key. split.
  - destruct header as [value|]; simpl; [|done]. destruct (header_to_str value) as [v|] eqn:E; [|done].
    intros [_ ->%bool_decide_eq_true]%andb_true_iff.
    assert (value = key) as -> by (unfold header_to_str in E; case_match; congruence). done.
  - intros [-> E]. simpl. rewrite E. by rewrite !bool_decide_true.
Qed.

(** The request carries the configured key. *)
Definition holds_key (api_key : option bytes) (req : Request) : Prop :=
  ∃ key, api_key = Some key ∧ rq_api_key req = Some key ∧ header_to_str key = Some key.

#[local] Instance holds_key_dec api_key req : Decision (holds_key api_key req).
Proof.
  unfold holds_key. destruct api_key as [key|]; [|right; by intros (? & ? & _)].
  destruct (decide (rq_api_key req = Some key ∧ header_to_str key = Some key)) as [[? ?]|Hn].
  - left. by exists key.
  - right. intros (k & [= <-] & ? & ?). by apply Hn.
Defined.

Lemma require_api_key_holds api_key req m : holds_key api_key req → require_api_key api_key req m = m.
Proof.
  intros (key & -> & Hk & Hs). unfold require_api_key.
  assert (has_api_key (rq_api_key req) key = true) as -> by (by apply has_api_key_iff). done.
Qed.

Lemma require_api_key_refuses api_key req m :
  ¬ holds_key api_key req → ∃ resp, require_api_key api_key req m = ret resp ∧
    resp = match api_key with None => mkApiResponse 404 NoBody | Some _ => error_response ApiForbidden end.
Proof.
  intros Hn. unfold require_api_key. destruct api_key as [key|]; [|by eexists].
  destruct (has_api_key (rq_api_key req) key) eqn:E; [|by eexists].
  apply has_api_key_iff in E as [? ?]. exfalso. apply Hn. by exists key.
Qed.

Lemma api_request_holds api_key req r s :
  find_route (rq_path req) = Some r → holds_key api_key req → allowed r (rq_method req) = true →
  api_request env api_key req s =
    (let '(resp, s') := run_route env r (rq_body req) s in
     match resp with Ok resp => (Ok (strip_body (rq_method req) resp), s') | Err e => (Err e, s') | Panic => (Panic, s') end).
Proof.
  intros Hr Hk Ha. unfold api_request, route_request, bind. rewrite Hr, Ha, require_api_key_holds by done.
  assert ((if keyed r then run_route env r (rq_body req) else run_route env r (rq_body req)) = run_route env r (rq_body req))
    as -> by by destruct (keyed r).
  by destruct (run_route env r (rq_body req) s) as [[] ?].
Qed.

(** ** Every request is answered *)

Lemma into_response_ok (m : AP json) s :
  (m s).1 ≠ Panic → ∃ resp, (into_response m s).1 = Ok resp.
Proof. unfold into_response. destruct (m s) as [[] ?]; simpl; [eauto|eauto|done]. Qed.

Lemma bind_no_panic {A B} (m : AP A) (k : A → AP B) s :
  (m s).1 ≠ Panic → (∀ a s', (k a s').1 ≠ Panic) → (bind m k s).1 ≠ Panic.
Proof. unfold bind. destruct (m s) as [[] ?]; simpl; auto; discriminate. Qed.

Lemma json_body_no_panic {A} (decode : bytes → option A) body s : (json_body decode body s).1 ≠ Panic.
Proof. unfold json_body. case_bool_decide; [done|]. unfold lift. by destruct (decode body). Qed.

Lemma spawn_no_panic {A} (m : AP A) s : (spawn_blocking m s).1 ≠ Panic.
Proof. unfold spawn_blocking. by destruct (m s) as [[] ?]. Qed.

Lemma admin_action_no_panic request action s : (run_admin_action env request action s).1 ≠ Panic.
Proof. unfold run_admin_action. case_match; [done|apply spawn_no_panic]. Qed.

Lemma run_route_ok r body s : ∃ resp, (run_route env r body s).1 = Ok resp.
Proof.
  unfold run_route. destruct r as [| | | |segment]; try apply into_response_ok.
  - done.
  - unfold verify. apply bind_no_panic; [apply json_body_no_panic|]. intros request s'. case_match; [done|].
    apply bind_no_panic; [apply spawn_no_panic|done].
  - unfold user_info. apply bind_no_panic; [apply json_body_no_panic|]. intros request s'.
    apply bind_no_panic; [apply admin_action_no_panic|]. intros user s''. by apply bind_no_panic.
  - unfold ban. apply bind_no_panic; [apply json_body_no_panic|]. intros request s'.
    apply bind_no_panic; [apply admin_action_no_panic|]. intros user s''. by apply bind_no_panic.
  - destruct (url_decode segment); [|unfold ret; eauto]. apply into_response_ok. unfold rooms_list. by case_bool_decide.
Qed.

Lemma api_request_ok api_key req s : ∃ resp, (api_request env api_key req s).1 = Ok resp.
Proof.
  assert (∃ resp, (route_request env api_key req s).1 = Ok resp) as [resp Hresp].
  { unfold route_request, require_api_key. repeat case_match; try (by eexists); apply run_route_ok. }
  unfold api_request, bind. destruct (route_request env api_key req s) as [? s']. simpl in *. subst. by eexists.
Qed.

(** ** Reading changes nothing *)

Lemma spawn_keeps {A} (m : AP A) s : (m s).2 = s → (spawn_blocking m s).2 = s.
Proof. unfold spawn_blocking. by destruct (m s) as [[] ?]. Qed.

Lemma into_response_keeps (m : AP json) s : (m s).2 = s → (into_response m s).2 = s.
Proof. unfold into_response. by destruct (m s) as [[] ?]. Qed.

Lemma bind_keeps {A B} (m : AP A) (k : A → AP B) s :
  (m s).2 = s → (∀ a, (k a s).2 = s) → (bind m k s).2 = s.
Proof. unfold bind. destruct (m s) as [[] s']; simpl; [intros ->; auto|done..]. Qed.

Lemma json_body_keeps {A} (decode : bytes → option A) body s : (json_body decode body s).2 = s.
Proof. unfold json_body. by case_bool_decide. Qed.

Lemma set_same_db s : s <| sv_db := sv_db s |> = s.
Proof. by destruct s. Qed.

Lemma api_db_keeps {A} (f : DbError → ApiError) (m : DB A) s :
  (m (sv_db s)).2 = sv_db s → (map_err f (api_db m) s).2 = s.
Proof.
  intros Hm. unfold map_err, api_db. destruct (m (sv_db s)) as [r db]. cbn [snd] in Hm.
  rewrite Hm, set_same_db. by destruct r.
Qed.

Section calm.
Context (s : SharedData) (Hcalm : calm (sv_db s)).

Lemma check_user_keeps name pw token check : (check_user name pw token check (sv_db s)).2 = sv_db s.
Proof. by destruct (check_user_calm (sv_db s) name pw token check Hcalm) as (r & -> & _). Qed.

Lemma admin_info_calm name :
  get_user_admin_info name (sv_db s) =
    (match find_account (sv_db s) name with
     | None => Err DbEmpty
     | Some (uid, a) =>
         let t := db_account_timestamp (sv_db s) !! uid in
         Ok (mkUserAdminInfo uid (ac_username a) (ac_online_name a) (ac_avatar_url a) (ac_admin a) (ac_banned a)
               (at_creation <$> t) (t ≫= at_last_login))
     end, sv_db s).
Proof. unfold get_user_admin_info, or_empty. run. by destruct (find_account (sv_db s) name) as [[uid a]|]. Qed.

Lemma authenticate_keeps name pw : (authenticate_admin name pw s).2 = s.
Proof.
  unfold authenticate_admin. apply bind_keeps; [apply api_db_keeps, check_user_keeps|]. intros a. by case_match.
Qed.

Lemma info_keeps request : (run_admin_action env request Info s).2 = s.
Proof.
  unfold run_admin_action. case_match; [done|]. apply spawn_keeps. apply bind_keeps.
  { unfold api_db_connection. by case_match. }
  intros _. apply bind_keeps; [apply authenticate_keeps|]. intros _.
  apply bind_keeps; [apply api_db_keeps; by rewrite admin_info_calm|]. intros user. by apply bind_keeps.
Qed.

Lemma verify_keeps body : (verify env body s).2 = s.
Proof.
  unfold verify. apply bind_keeps; [apply json_body_keeps|]. intros request. case_match; [done|].
  apply bind_keeps; [|done]. apply spawn_keeps, bind_keeps.
  { unfold api_db_connection. by case_match. }
  intros _. apply api_db_keeps, check_user_keeps.
Qed.

Lemma run_route_keeps r body : r ≠ RBan → (run_route env r body s).2 = s.
Proof.
  intros Hr. destruct r as [| | | |segment]; [..|]; simpl; [| | |done|].
  - done.
  - apply into_response_keeps, verify_keeps.
  - apply into_response_keeps. unfold user_info. apply bind_keeps; [apply json_body_keeps|]. intros request.
    apply bind_keeps; [apply info_keeps|]. intros user. by apply bind_keeps.
  - destruct (url_decode segment); [|done]. apply into_response_keeps. unfold rooms_list. by case_bool_decide.
Qed.
End calm.

Lemma api_request_pure api_key req s :
  (route_request env api_key req s).2 = s → (api_request env api_key req s).2 = s.
Proof. unfold api_request, bind. by destruct (route_request env api_key req s) as [[] ?]. Qed.

Lemma refused_keeps api_key req m s :
  ¬ holds_key api_key req → (require_api_key api_key req m s).2 = s.
Proof. intros Hn. by destruct (require_api_key_refuses api_key req m Hn) as (resp & -> & _). Qed.

Lemma find_route_ban path : find_route path = Some RBan → path = text "/admin/users/ban".
Proof. unfold find_route. repeat case_bool_decide; try discriminate; try done. by repeat case_match. Qed.

Lemma api_request_changes api_key req s :
  calm (sv_db s) → (api_request env api_key req s).2 ≠ s →
  holds_key api_key req ∧ rq_method req = POST ∧ rq_path req = text "/admin/users/ban".
Proof.
  intros Hcalm Hne. destruct (find_route (rq_path req)) as [r|] eqn:Hr.
  2:{ exfalso. apply Hne, api_request_pure. unfold route_request. by rewrite Hr. }
  destruct (decide (holds_key api_key req)) as [Hk|Hk].
  - split; [done|]. destruct (allowed r (rq_method req)) eqn:Ha.
    + destruct (decide (r = RBan)) as [->|Hb]. { split; [|by apply find_route_ban]. by apply bool_decide_eq_true in Ha. }
      exfalso. apply Hne. rewrite (api_request_holds _ _ r) by done.
      pose proof (run_route_keeps s Hcalm r (rq_body req) Hb) as Hs. by destruct (run_route env r _ s) as [[] ?].
    + exfalso. apply Hne, api_request_pure. unfold route_request. rewrite Hr, Ha, require_api_key_holds by done. by repeat case_match.
  - exfalso. apply Hne, api_request_pure. unfold route_request. rewrite Hr. destruct (keyed r) eqn:Hkey.
    + repeat case_match; [by apply refused_keeps..|done].
    + destruct r; try done. repeat case_match; [|done..]. by apply run_route_keeps.
Qed.
End gate.

(** ** Bans *)

Section bans.
Context `{!HashOrder} `{!External} `{!HttpLib} (env : Env).

(** The request of an administrator to ban this account. *)
Record may_ban (api_key : option bytes) (req : Request) (s : SharedData) (r : AdminRequest) (uid : Z) (a : Account) : Prop := {
  mb_path : rq_path req = text "/admin/users/ban";
  mb_method : rq_method req = POST;
  mb_key : holds_key api_key req;
  mb_size : Z.of_nat (length (rq_body req)) ≤ MAX_BODY_SIZE;
  mb_decode : decode_admin_request (rq_body req) = Some r;
  mb_complete : admin_is_complete r = true;
  mb_admin : ∃ aid adm, db_account (sv_db s) !! aid = Some adm ∧ ac_username adm = ar_admin_username r ∧
    hash_raw (bytes_of_string (ar_admin_password r)) (ac_salt adm) = Some (ac_hash adm) ∧
    ac_admin adm = true ∧ ac_banned adm = false;
  mb_target : db_account (sv_db s) !! uid = Some a ∧ ac_username a = ar_username r;
}.

Definition banned (uid : Z) (s : SharedData) : SharedData :=
  kick uid (s <| sv_db ::= (λ db, db <| db_account ::= alter (λ a, a <| ac_banned := true |>) uid |>) |>).

Lemma authenticate_run s name pw aid adm :
  calm (sv_db s) → unique_by same_name (db_account (sv_db s)) → db_account (sv_db s) !! aid = Some adm →
  ac_username adm = name → hash_raw (bytes_of_string pw) (ac_salt adm) = Some (ac_hash adm) →
  ac_admin adm = true → ac_banned adm = false → authenticate_admin name pw s = (Ok tt, s).
Proof.
  intros Hc Hu Ha <- Hh Had Hb. unfold authenticate_admin, bind, map_err, api_db.
  destruct (check_user_calm (sv_db s) (ac_username adm) pw "" false Hc) as (r & -> & Hr). unfold credentials in Hr.
  rewrite (find_account_complete _ aid adm) in Hr by done. simpl in Hr. rewrite Hh, bool_decide_true in Hr by done. subst r.
  rewrite set_same_db. cbn [uq_account]. by rewrite Had, Hb.
Qed.

Lemma ban_action_run s r uid a api_key req :
  calm (sv_db s) → db_inv (sv_db s) → en_db_ok env = true → may_ban api_key req s r uid a →
  ∃ user, run_admin_action env r Ban s =
    (Ok user, s <| sv_db ::= (λ db, db <| db_account ::= alter (λ a, a <| ac_banned := true |>) uid |>) |>) ∧
    ua_user_id user = uid ∧ ua_username user = ar_username r.
Proof.
  intros Hc Hi Hdb [_ _ _ _ _ Hcomp (aid & adm & Ha & Hn & Hh & Had & Hb) [Ht Htn]]. unfold run_admin_action.
  rewrite Hcomp. cbn [negb]. unfold spawn_blocking, bind at 1, api_db_connection. rewrite Hdb. cbn [ret].
  unfold ret at 1. unfold bind at 1. rewrite (authenticate_run s _ _ aid adm) by (done || apply Hi).
  unfold bind at 1, map_err at 1, api_db at 1. rewrite admin_info_calm by done.
  rewrite <- Htn, (find_account_complete _ uid a) by (done || apply Hi). rewrite set_same_db. cbn [ua_user_id].
  eexists. unfold bind, map_err, api_db, ban_user, internal, map_err, set_banned. rewrite execute_calm by done.
  by split.
Qed.

Lemma ban_run s r uid a api_key req :
  calm (sv_db s) → db_inv (sv_db s) → en_db_ok env = true → may_ban api_key req s r uid a →
  api_request env api_key req s =
    (Ok (mkApiResponse 200 (JsonBody (JObj
       [(text "user_id", JNum uid); (text "username", JStr (text (ar_username r))); (text "banned", JBool true);
        (text "kicked", JBool (bool_decide (is_Some (sv_client_infos s !! uid))))]))), banned uid s).
Proof.
  intros Hc Hi Hdb Hm. destruct (ban_action_run s r uid a api_key req Hc Hi Hdb Hm) as (user & Hrun & Hid & Hname).
  assert (find_route (rq_path req) = Some RBan) as Hroute by (rewrite (mb_path _ _ _ _ _ _ Hm); vm_compute; reflexivity).
  assert (allowed RBan (rq_method req) = true) as Hallow by (by rewrite (mb_method _ _ _ _ _ _ Hm)).
  rewrite (api_request_holds env api_key req RBan s Hroute (mb_key _ _ _ _ _ _ Hm) Hallow).
  unfold run_route, into_response, ban, bind, json_body.
  rewrite bool_decide_false by (pose proof (mb_size _ _ _ _ _ _ Hm); lia). rewrite (mb_decode _ _ _ _ _ _ Hm).
  unfold lift, ok_or. rewrite Hrun. unfold gets, modify, ret. rewrite Hid, Hname.
  unfold strip_body. rewrite (bool_decide_false (rq_method req = HEAD)) by (rewrite (mb_method _ _ _ _ _ _ Hm); done). done.
Qed.
Lemma authenticate_ok_inv s name pw s' :
  calm (sv_db s) → authenticate_admin name pw s = (Ok tt, s') →
  s' = s ∧ ∃ aid adm, db_account (sv_db s) !! aid = Some adm ∧ ac_username adm = name ∧
    hash_raw (bytes_of_string pw) (ac_salt adm) = Some (ac_hash adm) ∧ ac_admin adm = true ∧ ac_banned adm = false.
Proof.
  intros Hc Hs. pose proof (authenticate_keeps s Hc name pw) as Hk. rewrite Hs in Hk. split; [done|].
  unfold authenticate_admin, bind, map_err, api_db in Hs.
  destruct (check_user name pw "" false (sv_db s)) as [[r|e|] db'] eqn:Hcheck; try discriminate.
  apply check_user_ok_inv in Hcheck as (Ha & Hn & Hh & _). cbn beta iota in Hs.
  destruct (negb (ac_admin (uq_account r)) || ac_banned (uq_account r)) eqn:Hadm; [discriminate|]. bool_hyps.
  by exists (uq_user_id r), (uq_account r).
Qed.

(** Only the request of an administrator changes anything. *)
Lemma ban_changes body s :
  calm (sv_db s) → (ban env body s).2 ≠ s →
  Z.of_nat (length body) ≤ MAX_BODY_SIZE ∧ ∃ r uid a, decode_admin_request body = Some r ∧ admin_is_complete r = true ∧
    (∃ aid adm, db_account (sv_db s) !! aid = Some adm ∧ ac_username adm = ar_admin_username r ∧
       hash_raw (bytes_of_string (ar_admin_password r)) (ac_salt adm) = Some (ac_hash adm) ∧
       ac_admin adm = true ∧ ac_banned adm = false) ∧
    db_account (sv_db s) !! uid = Some a ∧ ac_username a = ar_username r.
Proof.
  intros Hc Hne. unfold ban, bind at 1, json_body in Hne. case_bool_decide as Hsz; [by destruct Hne|]. split; [lia|].
  destruct (decode_admin_request body) as [r|] eqn:Hd; [|by destruct Hne]. cbn [ok_or lift] in Hne. unfold lift in Hne.
  unfold bind at 1, run_admin_action in Hne. destruct (admin_is_complete r) eqn:Hcomp; [|by destruct Hne].
  cbn [negb] in Hne. unfold spawn_blocking, bind at 1, api_db_connection in Hne.
  destruct (en_db_ok env); [|by destruct Hne]. unfold ret at 1, bind at 1 in Hne.
  pose proof (authenticate_keeps s Hc (ar_admin_username r) (ar_admin_password r)) as Hk.
  destruct (authenticate_admin _ _ s) as [[[]|e|] s1] eqn:Ha; simpl in Hk; subst s1; [|by destruct Hne..].
  apply authenticate_ok_inv in Ha as [_ Hadm]; [|done]. unfold bind at 1, map_err at 1, api_db at 1 in Hne.
  rewrite admin_info_calm in Hne by done. rewrite set_same_db in Hne.
  destruct (find_account (sv_db s) (ar_username r)) as [[uid a]|] eqn:Hf; [|by destruct Hne].
  apply find_account_sound in Hf as [? ?]. by exists r, uid, a.
Qed.
End bans.

(** C12: every request to the API server gets an answer, whatever it is (a handler's panic
    included); without the configured key nothing beyond the list of rooms is answered
    with anything but a refusal; and only a ban with the key, by an administrator who is not banned and
    gives the right password, of an account that exists, changes the state of the server. *)
Theorem api_requests_guarded `{!HashOrder} `{!External} `{!HttpLib} env api_key req s :
  calm (sv_db s) →
  ∃ resp s', api_request env api_key req s = (Ok resp, s') ∧
    (s' ≠ s → ∃ r uid a, may_ban api_key req s r uid a) ∧
    (¬ holds_key api_key req → (∀ segment, find_route (rq_path req) ≠ Some (RRooms segment)) →
       s' = s ∧ ap_status resp ∈ [403; 404; 405]).
Proof.
  intros Hcalm. destruct (api_request_ok env api_key req s) as [resp Hresp].
  pose proof (api_request_changes env api_key req s Hcalm) as Hch.
  exists resp, (api_request env api_key req s).2. split; [rewrite <- Hresp; apply surjective_pairing|]. split.
  { intros Hne. destruct (Hch Hne) as (Hk & Hm & Hp). destruct (ban_changes env (rq_body req) s Hcalm) as (Hsz & r & uid & a & Hd & Hcomp & Hadm & Ht).
    - intros Hsame. apply Hne. rewrite (api_request_holds env api_key req RBan);
        [|rewrite Hp; vm_compute; reflexivity|done|by rewrite Hm]. simpl. unfold into_response.
      destruct (ban env (rq_body req) s) as [[] ?]; simpl in *; done.
    - by exists r, uid, a. }
  intros Hk Hr.
  assert (∃ resp0, route_request env api_key req = ret resp0 ∧ ap_status resp0 ∈ [403; 404; 405]) as (resp0 & E & Hst).
  { assert (∀ m, ∃ resp0, require_api_key api_key req m = ret resp0 ∧ ap_status resp0 ∈ [403; 404; 405]) as Hq.
    { intros m. destruct (require_api_key_refuses api_key req m Hk) as (resp0 & E & ->). eexists. split; [done|].
      destruct api_key; simpl; set_solver. }
    unfold route_request. destruct (find_route (rq_path req)) as [r|] eqn:Er; [|eexists; split; [done|simpl; set_solver]].
    assert (keyed r = true) as -> by (destruct r; [done..|by destruct (Hr segment)]).
    repeat case_match; [apply Hq..|]. eexists. split; [done|]. simpl. set_solver. }
  unfold api_request, bind in *. rewrite E in *. simpl in *. injection Hresp as <-. split; [done|].
  unfold strip_body. by case_bool_decide.
Qed.


(** ** Passwords *)

Section verification.
Context `{!HashOrder} `{!External} `{!HttpLib} (env : Env).

(** What a verification request asks, once it is past the key. *)
Record asks_verify (api_key : option bytes) (req : Request) (r : VerifyRequest) : Prop := {
  av_path : rq_path req = text "/external/users/verify";
  av_method : rq_method req = POST;
  av_key : holds_key api_key req;
  av_size : Z.of_nat (length (rq_body req)) ≤ MAX_BODY_SIZE;
  av_decode : decode_verify_request (rq_body req) = Some r;
  av_complete : verify_is_complete r = true;
}.

Lemma verify_run api_key req r s :
  calm (sv_db s) → en_db_ok env = true → asks_verify api_key req r →
  api_request env api_key req s =
    (Ok match find_account (sv_db s) (vr_username r) with
        | None => error_response InvalidCredentials
        | Some (uid, a) =>
            match hash_raw (bytes_of_string (vr_password r)) (ac_salt a) with
            | None => error_response Internal
            | Some h =>
                if bool_decide (h = ac_hash a) then
                  mkApiResponse 200 (JsonBody (JObj
                    [(text "user_id", JNum uid); (text "username", JStr (text (ac_username a)));
                     (text "online_name", JStr (text (ac_online_name a))); (text "avatar_url", JStr (text (ac_avatar_url a)));
                     (text "admin", JBool (ac_admin a)); (text "banned", JBool (ac_banned a))]))
                else error_response InvalidCredentials
            end
        end, s).
Proof.
  intros Hc Hdb [Hp Hmth Hk Hsz Hd Hcomp].
  assert (find_route (rq_path req) = Some RVerify) as Hroute by (rewrite Hp; vm_compute; reflexivity).
  assert (allowed RVerify (rq_method req) = true) as Hallow by by rewrite Hmth.
  rewrite (api_request_holds env api_key req RVerify s Hroute Hk Hallow).
  unfold run_route, into_response, verify, bind, json_body.
  rewrite (bool_decide_false (MAX_BODY_SIZE < _)) by lia. rewrite Hd. unfold lift, ok_or. rewrite Hcomp. cbn [negb].
  unfold spawn_blocking, api_db_connection. rewrite Hdb. unfold ret, map_err, api_db.
  destruct (check_user_calm (sv_db s) (vr_username r) (vr_password r) "" false Hc) as (res & -> & Hr).
  unfold credentials in Hr. rewrite set_same_db. unfold strip_body. rewrite Hmth, (bool_decide_false (POST = HEAD)) by done.
  destruct (find_account (sv_db s) (vr_username r)) as [[uid a]|]; simpl in Hr; [|by subst res].
  destruct (hash_raw _ _) as [h|]; [|by subst res]. case_bool_decide; by subst res.
Qed.
End verification.

(** C30: a password is verified exactly, and without leaving a trace: with the key, the
    answer is the account when the password is the one of the named account, and nothing
    changes; an unknown name and a wrong password get one and the same answer, so the answer
    does not tell whether an account exists. *)
Theorem api_verify_exact `{!HashOrder} `{!External} `{!HttpLib} env api_key req r s :
  calm (sv_db s) → db_inv (sv_db s) → en_db_ok env = true → asks_verify api_key req r →
  (∀ salt, is_Some (hash_raw (bytes_of_string (vr_password r)) salt)) →
  ∃ resp, api_request env api_key req s = (Ok resp, s) ∧
    ((∃ uid a, db_account (sv_db s) !! uid = Some a ∧ ac_username a = vr_username r ∧
        hash_raw (bytes_of_string (vr_password r)) (ac_salt a) = Some (ac_hash a) ∧
        resp = mkApiResponse 200 (JsonBody (JObj
          [(text "user_id", JNum uid); (text "username", JStr (text (vr_username r)));
           (text "online_name", JStr (text (ac_online_name a))); (text "avatar_url", JStr (text (ac_avatar_url a)));
           (text "admin", JBool (ac_admin a)); (text "banned", JBool (ac_banned a))]))) ∨
     (¬ (∃ uid a, db_account (sv_db s) !! uid = Some a ∧ ac_username a = vr_username r ∧
           hash_raw (bytes_of_string (vr_password r)) (ac_salt a) = Some (ac_hash a)) ∧
      resp = mkApiResponse 401 (JsonBody (JObj [(text "error", JStr (text "invalid_credentials"))])))).
Proof.
  intros Hc Hi Hdb Ha Hhash. rewrite (verify_run env api_key req r s Hc Hdb Ha). eexists. split; [reflexivity|].
  destruct (find_account (sv_db s) (vr_username r)) as [[uid a]|] eqn:Hf.
  - apply find_account_sound in Hf as Hf'. destruct Hf' as [Hu Hn]. destruct (Hhash (ac_salt a)) as [h Hh]. rewrite Hh.
    case_bool_decide as Heq.
    + left. exists uid, a. rewrite Hh, Hn. by subst.
    + right. split; [|done]. intros (u & b & Hb & Hbn & Hbh).
      rewrite <- Hbn, (find_account_complete _ u b) in Hf by (apply Hi || done). simplify_eq.
  - right. split; [|done]. intros (u & b & Hb & Hbn & _). rewrite <- Hbn, (find_account_complete _ u b) in Hf by (apply Hi || done).
    done.
Qed.

(** ** Lists *)

#[export] Instance session_le_trans : Transitive session_le.
Proof.
  intros [n1 p1 i1] [n2 p2 i2] [n3 p3 i3]. unfold session_le. simpl.
  intros [[Hn Hl]|[-> Hl]] [[Hn' Hl']|[-> Hl']]; [left|left; done|left; done|right; split; [done|by etransitivity]].
  split; [|by etransitivity]. intros ->. apply Hn. by apply (anti_symm String.le).
Qed.

#[export] Instance session_le_total : Total session_le.
Proof.
  intros [n1 p1 i1] [n2 p2 i2]. unfold session_le. simpl. destruct (decide (n1 = n2)) as [->|Hn].
  - destruct (total String.le p1 p2); tauto.
  - destruct (total String.le n1 n2); [left; by left|right; left; split; [congruence|done]].
Qed.

(** The session of an entry. *)
Definition session_of (i : ClientSharedInfo) : Session := mkSession (cs_online_name i) (cs_npid i) (cs_ip i).

(** C32: with the key, the list of sessions has every connected user once and nobody
    else, sorted by display name and then by name; nothing changes. *)
Theorem api_sessions_exact `{!HashOrder} `{!External} `{!HttpLib} env api_key req s :
  rq_path req = text "/admin/sessions" → rq_method req = GET → holds_key api_key req →
  ∃ l, api_request env api_key req s =
      (Ok (mkApiResponse 200 (JsonBody (JObj [(text "sessions", JArr (session_json <$> l))]))), s) ∧
    StronglySorted session_le l ∧ l ≡ₚ session_of <$> (map_to_list (sv_client_infos s)).*2.
Proof.
  intros Hp Hm Hk. exists (sessions_of s). split; [|split].
  - rewrite (api_request_holds env api_key req RSessions);
      [|rewrite Hp; vm_compute; reflexivity|done|by rewrite Hm]. by rewrite Hm.
  - apply Sorted_StronglySorted, Sorted_merge_sort; apply _.
  - unfold sessions_of, hash_map_values. by rewrite merge_sort_Permutation, hash_map_iter_perm.
Qed.

Section rooms.
Context `{!HashOrder} `{!External} `{!HttpLib} (env : Env).

(** The rooms of a title with their ids. *)
Definition title_rooms (com_id : ComId) (rm : RoomManager) : list (Z * Room) :=
  omap (λ '((c_id, room_id), room), if bool_decide (c_id = com_id) then Some (room_id, room) else None)
    (hash_map_iter (rm_rooms rm)).

Lemma elem_of_title_rooms com_id rm id room :
  (id, room) ∈ title_rooms com_id rm ↔ rm_rooms rm !! (com_id, id) = Some room.
Proof.
  unfold title_rooms. rewrite list_elem_of_omap. split.
  - intros ([[c i] r] & Hin%elem_of_hash_map_iter & E). by case_bool_decide; simplify_eq.
  - intros Hr. exists (com_id, id, room). rewrite elem_of_hash_map_iter. by rewrite bool_decide_true.
Qed.

Lemma NoDup_title_rooms com_id rm : NoDup (title_rooms com_id rm).*1.
Proof.
  apply NoDup_fmap_fst.
  - intros id r1 r2. rewrite !elem_of_title_rooms. congruence.
  - apply NoDup_omap; [|apply NoDup_hash_map_iter]. intros [[c1 i1] r1] [[c2 i2] r2] y. repeat case_bool_decide; naive_solver.
Qed.

Lemma rooms_list_eq com_id s :
  length com_id = COMMUNICATION_ID_SIZE →
  rooms_list com_id s =
    (Ok (JArr ((λ '(id, room), room_json id room) <$> title_rooms com_id (sv_room_manager s))), s).
Proof.
  intros Hl. unfold rooms_list. rewrite bool_decide_false by tauto. unfold bind, gets, ret, title_rooms.
  do 3 f_equal. induction (hash_map_iter (rm_rooms (sv_room_manager s))) as [|[[c i] r] l IH]; [done|].
  csimpl. case_bool_decide; csimpl; by rewrite IH.
Qed.

(** One member has the owner flag, the owner. *)
Lemma one_owner room :
  room_inv room → flags_ok room →
  ∃ o, r_users room !! r_owner room = Some o ∧ filter (λ u, owner_bit u = true) (btree_values (r_users room)) = [o].
Proof.
  intros Hinv Hf. destruct (inv_owner _ Hinv) as [o Ho]. exists o. split; [done|].
  assert (filter (λ kv : Z * RoomUser, owner_bit kv.2 = true) (btree_iter (r_users room)) = [(r_owner room, o)]) as Hq.
  { apply filter_unique; [apply NoDup_btree_iter|by apply elem_of_btree_iter|]. intros [mid u] Hu%elem_of_btree_iter. simpl.
    rewrite (Hf _ _ Hu). split; [intros ->; congruence|by intros [= -> _]]. }
  assert (∀ l : list (Z * RoomUser),
    filter (λ u, owner_bit u = true) l.*2 = (filter (λ kv : Z * RoomUser, owner_bit kv.2 = true) l).*2) as Hsnd
    by (induction l as [|[k u] l IH]; csimpl; [done|]; rewrite !filter_cons; simpl; case_decide; csimpl; congruence).
  unfold btree_values. by rewrite Hsnd, Hq.
Qed.
End rooms.

(** C31: in every state a server reaches, the list of the rooms of a title, which needs
    no key, has every room of the title once under its own id and no other room, with
    all its members, and exactly one of the members listed is marked as the owner: the one
    that owns the room. *)
Theorem api_rooms_exact `{!HashOrder} `{!External} `{!HttpLib} `{!ServerCodec} env api_key req segment com_id srv0 srv :
  CodecOk → server_start srv0 → rtc server_step srv0 srv →
  find_route (rq_path req) = Some (RRooms segment) → rq_method req = GET →
  url_decode segment = Some com_id → length com_id = COMMUNICATION_ID_SIZE →
  let rooms := title_rooms com_id (sv_room_manager (srv_shared srv)) in
  api_request env api_key req (srv_shared srv) =
    (Ok (mkApiResponse 200 (JsonBody (JArr ((λ '(id, room), room_json id room) <$> rooms)))), srv_shared srv) ∧
  NoDup rooms.*1 ∧
  (∀ id room, (id, room) ∈ rooms ↔ rm_rooms (sv_room_manager (srv_shared srv)) !! (com_id, id) = Some room) ∧
  (∀ id room, (id, room) ∈ rooms → ∃ o, r_users room !! r_owner room = Some o ∧
     filter (λ u, Z.land (u_flag_attr u) 0x80000000 ≠ 0) (btree_values (r_users room)) = [o]).
Proof.
  intros Hcodec [s Er Eg] Hr Hroute Hm Hu Hl rooms. apply server_reachable_evolves in Hr as [Hr _]; [|done]. simpl in Hr.
  rewrite Er in Hr. split; [|split; [apply NoDup_title_rooms|split; [intros; apply elem_of_title_rooms|]]].
  - unfold api_request, bind, route_request. rewrite Hroute, Hm. simpl. rewrite Hu. unfold into_response.
    by rewrite rooms_list_eq.
  - intros id room Hin%elem_of_title_rooms. destruct (one_owner room) as (o & Ho & Hf).
    + by destruct (mi_room _ (reachable_inv _ Hr) _ _ _ Hin) as [? _].
    + by eapply (reachable_owners _ Hr).
    + exists o. split; [done|]. rewrite <- Hf. apply list_filter_iff. intros u. unfold owner_bit.
      by rewrite bool_decide_eq_true.
Qed.

(** ** Examples *)

(** Bodies with one field per line, segments without escapes. *)
Definition ex_http : HttpLib :=
  {| url_decode s := if bool_decide (37 ∈ s) then None else Some s;
     decode_admin_request b :=
       match string_of_bytes <$> Text.split 10 b with
       | [a; p; u] => Some (mkAdminRequest a p u)
       | _ => None
       end;
     decode_verify_request b :=
       match string_of_bytes <$> Text.split 10 b with
       | [u; p] => Some (mkVerifyRequest u p)
       | _ => None
       end;
     show_ip ip := ip;
     key_checked_first := false |}.

(** A server that knows the administrator [root] (2) and [alice] (3), who is connected. *)
Definition ex_root : Account := (ex_account "root") <| ac_admin := true |>.
Definition ex_api_db : Database := registered 0 (ex_account "alice") (registered 0 ex_root (migrated_db 0 [1] [2])).
Definition ex_api : SharedData :=
  no_rooms <| sv_db := ex_api_db |>
           <| sv_client_infos := {[3 := ClientSharedInfo_new ∅ (mkClientInfo 3 "alice" "Alice" "" "" false false false) [127; 0; 0; 1]]} |>.

Lemma ex_api_db_inv : db_inv ex_api_db.
Proof.
  apply registered_inv. apply (@with_account_inv ex_external); [|done|vm_compute; reflexivity..].
  apply registered_inv. apply (@with_account_inv ex_external); [apply migrated_db_inv|done|vm_compute; reflexivity..].
Qed.

Definition ex_key : option bytes := Some (text "secret").
Definition ex_api_request (m : Method) (path : string) (lines : list string) : Request :=
  mkRequest m (text path) ex_key (Text.join 10 (bytes_of_string <$> lines)).

Lemma ex_holds m path lines : holds_key ex_key (ex_api_request m path lines).
Proof. exists (text "secret"). split_and!; vm_compute; reflexivity. Qed.

Definition ex_ban : Request := ex_api_request POST "/admin/users/ban" ["root"; "pw"; "alice"]%string.

(** Without the key the ban is refused and nothing changes. *)
Lemma api_requests_guarded_witness :
  ∃ resp s', @api_request elements_order ex_external ex_http ex_env ex_key
               (mkRequest POST (text "/admin/users/ban") None []) ex_api = (Ok resp, s') ∧
    s' = ex_api ∧ ap_status resp ∈ [403; 404; 405].
Proof.
  destruct (@api_requests_guarded elements_order ex_external ex_http ex_env ex_key
    (mkRequest POST (text "/admin/users/ban") None []) ex_api eq_refl) as (resp & s' & E & _ & Hg).
  exists resp, s'. split; [exact E|]. apply Hg.
  - intros (k & _ & Hk & _). discriminate Hk.
  - intros segment Hr. vm_compute in Hr. discriminate Hr.
Defined.


Lemma api_verify_exact_witness :
  ∃ resp, @api_request elements_order ex_external ex_http ex_env ex_key
            (ex_api_request POST "/external/users/verify" ["alice"; "wrong"]%string) ex_api = (Ok resp, ex_api) ∧
    resp = mkApiResponse 401 (JsonBody (JObj [(text "error", JStr (text "invalid_credentials"))])).
Proof.
  destruct (@api_verify_exact elements_order ex_external ex_http ex_env ex_key
    (ex_api_request POST "/external/users/verify" ["alice"; "wrong"]%string) (mkVerifyRequest "alice" "wrong") ex_api)
    as (resp & E & _).
  - reflexivity.
  - exact ex_api_db_inv.
  - reflexivity.
  - split; try (vm_compute; reflexivity); [exact (ex_holds _ _ _)|vm_compute; discriminate].
  - intros salt. by eexists.
  - exists resp. split; [exact E|]. vm_compute in E. by injection E as <-.
Defined.

Lemma api_sessions_exact_witness :
  ∃ l, @api_request elements_order ex_external ex_http ex_env ex_key (ex_api_request GET "/admin/sessions" []) ex_api =
      (Ok (mkApiResponse 200 (JsonBody (JObj [(text "sessions", JArr (@session_json ex_http <$> l))]))), ex_api) ∧
    length l = 1%nat.
Proof.
  destruct (@api_sessions_exact elements_order ex_external ex_http ex_env ex_key (ex_api_request GET "/admin/sessions" []) ex_api)
    as (l & E & _ & Hl); [reflexivity|reflexivity|exact (ex_holds _ _ _)|].
  exists l. split; [exact E|]. rewrite Hl. vm_compute. reflexivity.
Defined.

(** The room [alice] opened is on the list. *)
Lemma api_rooms_exact_witness :
  ∃ room o, (1, room) ∈ @title_rooms elements_order ex_com (sv_room_manager (srv_shared ex_alice)) ∧
    filter (λ u, Z.land (u_flag_attr u) 0x80000000 ≠ 0) (btree_values (r_users room)) = [o].
Proof.
  assert (is_Some (rm_rooms (sv_room_manager (srv_shared ex_alice)) !! (ex_com, 1))) as [room Hroom] by (vm_compute; by eexists).
  destruct (@api_rooms_exact elements_order ex_external ex_http ex_codec ex_env ex_key
    (ex_api_request GET "/rooms/NPWR00001_00" []) ex_com ex_com ex_server ex_alice ex_codec_ok
    (start_server (srv_shared ex_server) eq_refl eq_refl) ex_alice_reachable) as (_ & _ & Hin & Hown).
  - vm_compute. reflexivity.
  - reflexivity.
  - vm_compute. reflexivity.
  - vm_compute. reflexivity.
  - apply Hin in Hroom as Hroom'. destruct (Hown 1 room Hroom') as (o & _ & Hf).
    exists room, o. split; [exact Hroom'|exact Hf].
Defined.
