(* ===== verification/DeletionRules.v ===== *)
(** * Deletion of accounts and reset of passwords *)

From S2P Require Import ScoreCache Text Database Accounts Friendships DbScore DbTus Config DataFiles.
From S2P Require Import Prelude Protocol StreamExtractor Messages ClientState Startup DbFrames DbInv DbExec.
From S2P Require Import ServerRules StartupRules AccountRules.

(** ** Deletion *)

Section deletion.
Context `{!External}.

(** The rows of a table with the author [old] passed to [new]. *)
Definition pass_on {K V} `{Countable K} (author : V → Z) (set_author : Z → V → V) (old new : Z) (m : gmap K V) : gmap K V :=
  (λ r, if bool_decide (author r = old) then set_author new r else r) <$> m.

Lemma reauthor_calm {K V} `{Countable K} (author : V → Z) set_author old new (get : Database → gmap K V) put db :
  calm db → account_of db new →
  reauthor author set_author old new get put db = (Ok tt, put (pass_on author set_author old new (get db)) db).
Proof.
  intros Hc Ha. unfold reauthor. rewrite sql_calm by done. apply has_account_true in Ha. rewrite Ha.
  by rewrite andb_false_r.
Qed.

Lemma pass_on_author {K V} `{Countable K} (author : V → Z) set_author old new (m : gmap K V) :
  (∀ u r, author (set_author u r) = u) → old ≠ new →
  map_Forall (λ _ r, author r ≠ old) (pass_on author set_author old new m).
Proof.
  intros Hs Hne k r Hk. unfold pass_on in Hk. apply lookup_fmap_Some in Hk as (r0 & <- & _). case_bool_decide; [|done]. by rewrite Hs.
Qed.

Definition set_tv_author (u : Z) (r : TusVarRow) : TusVarRow := r <| tv_author := u |>.
Definition set_td_author (u : Z) (r : TusDataRow) : TusDataRow := r <| td_author := u |>.

(** What the four updates leave. *)
Definition disowned (old new : Z) (db : Database) : Database :=
  db <| db_tus_var ::= pass_on tv_author set_tv_author old new |>
     <| db_tus_data ::= pass_on td_author set_td_author old new |>
     <| db_tus_var_vuser ::= pass_on tv_author set_tv_author old new |>
     <| db_tus_data_vuser ::= pass_on td_author set_td_author old new |>.

Lemma disown_calm old new db : calm db → account_of db new → disown old new db = (Ok tt, disowned old new db).
Proof.
  intros Hc Ha. unfold disown, internal, reauthor_tus_var, reauthor_tus_data, reauthor_tus_var_vuser, reauthor_tus_data_vuser.
  erewrite bind_run; [|apply map_err_run, reauthor_calm; done].
  erewrite bind_run; [|apply map_err_run, reauthor_calm; done].
  erewrite bind_run; [|apply map_err_run, reauthor_calm; done].
  erewrite map_err_run; [|apply reauthor_calm; done]. done.
Qed.

Lemma authors_clear_true ids db :
  map_Forall (λ _ r, tv_author r ∉ ids) (db_tus_var db) → map_Forall (λ _ r, tv_author r ∉ ids) (db_tus_var_vuser db) →
  map_Forall (λ _ r, td_author r ∉ ids) (db_tus_data db) → map_Forall (λ _ r, td_author r ∉ ids) (db_tus_data_vuser db) →
  authors_clear ids db = true.
Proof.
  assert (∀ K V `{Countable K} (m : gmap K V) (g : V → Z),
    map_Forall (λ _ r, g r ∉ ids) m → forallb (λ r, bool_decide (g r ∉ ids)) (map_to_list m).*2 = true) as Hall.
  { intros K V ? ? m g Hm. apply forallb_forall. intros r Hr. apply list_elem_of_In, list_elem_of_fmap in Hr as ([k r'] & -> & Hk).
    apply elem_of_map_to_list in Hk. apply bool_decide_eq_true. by apply (Hm k). }
  intros. unfold authors_clear. rewrite !Hall by done. done.
Qed.

Lemma delete_disowned old new db :
  calm db → old ≠ new → account_of db old →
  delete_accounts {[old]} (disowned old new db) = (Ok tt, cascade {[old]} (disowned old new db)).
Proof.
  intros Hc Hne Ha. unfold delete_accounts. rewrite sql_calm by done.
  assert ({[old]} ∩ dom (db_account (disowned old new db)) = ({[old]} : gset Z)) as ->.
  { apply elem_of_dom in Ha. change (db_account (disowned old new db)) with (db_account db). set_solver. }
  assert (∀ K V `{Countable K} (g : V → Z) set (m : gmap K V), (∀ u r, g (set u r) = u) →
    map_Forall (λ _ r, g r ∉ ({[old]} : gset Z)) (pass_on g set old new m)) as Hp.
  { intros K V ? ? g set m Hg. eapply map_Forall_impl; [by apply pass_on_author|]. set_solver. }
  rewrite authors_clear_true; [done|..].
  - eapply map_Forall_filter_of; [by apply Hp|done].
  - by apply Hp.
  - eapply map_Forall_filter_of; [by apply Hp|done].
  - by apply Hp.
Qed.

(** Nothing in the tables refers to the user. *)
Record no_trace (u : Z) (db : Database) : Prop := {
  nt_account : db_account db !! u = None;
  nt_timestamp : db_account_timestamp db !! u = None;
  nt_friendship : map_Forall (λ p _, p.1 ≠ u ∧ p.2 ≠ u) (db_friendship db);
  nt_score : map_Forall (λ k _, k.1.2 ≠ u) (db_score db);
  nt_tus_var : map_Forall (λ k r, k.1.1 ≠ u ∧ tv_author r ≠ u) (db_tus_var db);
  nt_tus_data : map_Forall (λ k r, k.1.1 ≠ u ∧ td_author r ≠ u) (db_tus_data db);
  nt_tus_var_vuser : map_Forall (λ _ r, tv_author r ≠ u) (db_tus_var_vuser db);
  nt_tus_data_vuser : map_Forall (λ _ r, td_author r ≠ u) (db_tus_data_vuser db);
}.

(** Without an account there is no reference to it. *)
Lemma no_account_no_trace u db : db_inv db → db_account db !! u = None → no_trace u db.
Proof.
  intros Hi Hu. assert (∀ v, account_of db v → v ≠ u) as Hv by (intros v [a Ha] ->; congruence).
  split; [done|..].
  - apply eq_None_not_Some. intros [t Ht]. by apply (Hv u); [apply (inv_timestamps _ Hi u t)|].
  - eapply map_Forall_impl; [apply Hi|]. simpl. intros ?? (?&?&?). auto.
  - eapply map_Forall_impl; [apply Hi|]. simpl. auto.
  - eapply map_Forall_impl; [apply Hi|]. simpl. intros ?? (?&?). auto.
  - eapply map_Forall_impl; [apply Hi|]. simpl. intros ?? (?&?). auto.
  - eapply map_Forall_impl; [apply Hi|]. simpl. auto.
  - eapply map_Forall_impl; [apply Hi|]. simpl. auto.
Qed.

(** The hashes of the name and the address are kept for a while. *)
Definition remembered (uh eh : bytes) (date : Z) (db : Database) : Database :=
  let db := if bool_decide (is_Some (db_username_hash db !! uh)) then db else db <| db_username_hash ::= <[uh := date]> |> in
  if bool_decide (is_Some (db_email_hash db !! eh)) then db else db <| db_email_hash ::= <[eh := date]> |>.

Lemma insert_hashes_calm {B} uh eh date (k : DB B) db :
  calm db →
  (do _ <- attempt (insert_username_hash uh date); do _ <- attempt (insert_email_hash eh date); k) db =
    k (remembered uh eh date db).
Proof.
  intros Hc. unfold remembered, insert_username_hash, insert_email_hash, bind, attempt. rewrite sql_calm by done.
  case_bool_decide; rewrite sql_calm by done; simpl; by case_bool_decide.
Qed.

Lemma remembered_same uh eh date db :
  calm db → let db' := remembered uh eh date db in
  calm db' ∧ db_account db' = db_account db ∧ is_Some (db_username_hash db' !! uh) ∧ is_Some (db_email_hash db' !! eh) ∧
  db_username_salt db' = db_username_salt db ∧ db_email_salt db' = db_email_salt db.
Proof.
  intros Hc. unfold remembered. repeat case_bool_decide; simpl in *; split_and!; try done;
    rewrite lookup_insert_eq; by eexists.
Qed.

Lemma delete_user_calm now uid a du da db us uh es eh :
  calm db → db_inv db → db_account db !! uid = Some a → ac_username a ≠ DELETED_USER_USERNAME →
  db_account db !! du = Some da → ac_username da = DELETED_USER_USERNAME →
  db_username_salt db = Some us → hash_raw (bytes_of_string (ac_username a)) us = Some uh →
  db_email_salt db = Some es → hash_raw (bytes_of_string (ac_email_check a)) es = Some eh →
  delete_user now uid (ac_username a) (ac_email_check a) db =
    (Ok tt, cascade {[uid]} (disowned uid du (remembered uh eh (days now) db))).
Proof.
  intros Hc Hi Ha Hne Hd Hdn Hus Huh Hes Heh. unfold delete_user. rewrite bool_decide_false by done.
  rewrite (bind_run _ _ _ _ _ (hash_username_calm _ _ _ _ Hc Hus Huh)).
  rewrite (bind_run _ _ _ _ _ (hash_email_calm _ _ _ _ Hc Hes Heh)).
  pose proof (get_user_id_calm db DELETED_USER_USERNAME Hc) as Hg.
  rewrite <- Hdn, (find_account_complete db du da) in Hg by (apply Hi || done). rewrite Hdn in Hg.
  unfold get_deleted_user_id. rewrite (bind_run _ _ _ _ _ (map_err_run _ _ _ _ _ Hg)). cbv zeta.
  rewrite insert_hashes_calm by done. destruct (remembered_same uh eh (days now) db Hc) as (Hc' & Hacc & _).
  assert (uid ≠ du) as Hud by congruence.
  assert (account_of (remembered uh eh (days now) db) du) as Hdu by (rewrite Hacc; by eexists).
  rewrite (bind_run _ _ _ _ _ (disown_calm uid du _ Hc' Hdu)). apply map_err_run, delete_disowned; [done..|].
  rewrite Hacc. by eexists.
Qed.

Lemma filter_delete (m : gmap Z Account) u : filter (λ '(v, _), v ∉ ({[u]} : gset Z)) m = delete u m.
Proof.
  apply map_eq. intros v. destruct (decide (u = v)) as [->|Hne].
  - rewrite lookup_delete_eq. apply map_lookup_filter_None. right. intros a _ Hv. set_solver.
  - rewrite lookup_delete_ne by done. destruct (m !! v) as [a|] eqn:Hv.
    + apply map_lookup_filter_Some. split; [done|]. set_solver.
    + apply map_lookup_filter_None. by left.
Qed.

Lemma known_name_refused name db salt h :
  calm db → db_username_salt db = Some salt → hash_raw (bytes_of_string name) salt = Some h →
  is_Some (db_username_hash db !! h) → check_username_vs_deleted name db = (Err DbExistingUsername, db).
Proof.
  intros Hc Hs Hh Hk. unfold check_username_vs_deleted. rewrite (bind_run _ _ _ _ _ (hash_username_calm _ _ _ _ Hc Hs Hh)).
  run. by rewrite bool_decide_true.
Qed.

Lemma known_email_refused email db salt h :
  calm db → db_email_salt db = Some salt → hash_raw (bytes_of_string email) salt = Some h →
  is_Some (db_email_hash db !! h) → check_email_vs_deleted email db = (Err DbExistingEmail, db).
Proof.
  intros Hc Hs Hh Hk. unfold check_email_vs_deleted. rewrite (bind_run _ _ _ _ _ (hash_email_calm _ _ _ _ Hc Hs Hh)).
  run. by rewrite bool_decide_true.
Qed.
End deletion.

(** C19: deleting an account succeeds and leaves nothing of it: no table refers to the
    user any more, every other account is as before, and the values the user had written
    for virtual users stay, under the account of deleted users.  The name and the address
    cannot be registered again until their hashes expire. *)
Theorem delete_user_forgets `{!External} now uid a du da db us uh es eh :
  calm db → db_inv db → db_account db !! uid = Some a → ac_username a ≠ DELETED_USER_USERNAME →
  db_account db !! du = Some da → ac_username da = DELETED_USER_USERNAME →
  db_username_salt db = Some us → hash_raw (bytes_of_string (ac_username a)) us = Some uh →
  db_email_salt db = Some es → hash_raw (bytes_of_string (ac_email_check a)) es = Some eh →
  ∃ db', delete_user now uid (ac_username a) (ac_email_check a) db = (Ok tt, db') ∧
    db_inv db' ∧ no_trace uid db' ∧ db_account db' = delete uid (db_account db) ∧
    (∀ k r, db_tus_var_vuser db !! k = Some r →
       db_tus_var_vuser db' !! k = Some (if bool_decide (tv_author r = uid) then set_tv_author du r else r)) ∧
    check_username_vs_deleted (ac_username a) db' = (Err DbExistingUsername, db') ∧
    check_email_vs_deleted (ac_email_check a) db' = (Err DbExistingEmail, db').
Proof.
  intros Hc Hi Ha Hne Hd Hdn Hus Huh Hes Heh. eexists. split; [by eapply delete_user_calm|].
  pose proof (respects_delete_user (preserves db_inv) now uid (ac_username a) (ac_email_check a) db Hi) as Hi'.
  erewrite delete_user_calm in Hi' by done. simpl in Hi'.
  destruct (remembered_same uh eh (days now) db Hc) as (Hc' & Hacc & Hku & Hke & Hsu & Hse).
  assert (db_account (cascade {[uid]} (disowned uid du (remembered uh eh (days now) db))) = delete uid (db_account db)) as Hdel.
  { rewrite <- Hacc. apply filter_delete. }
  split; [done|]. split; [apply no_account_no_trace; [done|]; rewrite Hdel; apply lookup_delete_eq|].
  split; [done|]. split; [|split].
  - intros k r Hk. change (pass_on tv_author set_tv_author uid du (db_tus_var_vuser (remembered uh eh (days now) db)) !! k
      = Some (if bool_decide (tv_author r = uid) then set_tv_author du r else r)).
    unfold pass_on. rewrite lookup_fmap.
    assert (db_tus_var_vuser (remembered uh eh (days now) db) = db_tus_var_vuser db) as -> by (unfold remembered; by repeat case_bool_decide).
    by rewrite Hk.
  - eapply known_name_refused; [done|by rewrite <- Hus, <- Hsu|done|done].
  - eapply known_email_refused; [done|by rewrite <- Hes, <- Hse|done|done].
Qed.

Definition ex_members : Database := registered 0 (ex_account "alice") (migrated_db 0 [1] [2]).

Lemma ex_members_inv : db_inv ex_members.
Proof.
  apply registered_inv, (@with_account_inv ex_external); [apply migrated_db_inv|done|vm_compute; reflexivity..].
Qed.

Lemma delete_user_forgets_witness :
  ∃ db', @delete_user ex_external 0 2 "alice" "alice" ex_members = (Ok tt, db') ∧
    db_inv db' ∧ no_trace 2 db' ∧ db_account db' = delete 2 (db_account ex_members) ∧
    (∀ k r, db_tus_var_vuser ex_members !! k = Some r →
       db_tus_var_vuser db' !! k = Some (if bool_decide (tv_author r = 2) then set_tv_author 1 r else r)) ∧
    @check_username_vs_deleted ex_external "alice" db' = (Err DbExistingUsername, db') ∧
    @check_email_vs_deleted ex_external "alice" db' = (Err DbExistingEmail, db').
Proof.
  apply (@delete_user_forgets ex_external 0 2 (ex_account "alice") 1 deleted_user_account ex_members [2]
    (bytes_of_string "alice" ++ [0; 2]) [1] (bytes_of_string "alice" ++ [0; 1]));
    try reflexivity; [apply ex_members_inv|done].
Defined.

(** ** Reset of passwords *)

Section reset.
Context `{!External}.

(** The account after its password was set with a token. *)
Definition reset_account (rng : Draw) (hash : bytes) (a : Account) : Account :=
  a <| ac_hash := hash |> <| ac_salt := rn_salt rng |> <| ac_reset_token := Some (generate_token rng) |>.

Definition with_password (rng : Draw) (hash : bytes) (old_token : string) (uid : Z) (db : Database) : Database :=
  db <| db_account ::= alter (λ a,
    if bool_decide (ac_reset_token a = Some old_token) then reset_account rng hash a else a) uid |>.

Lemma update_user_password_calm rng uid old_token password hash db :
  calm db → hash_raw (bytes_of_string password) (rn_salt rng) = Some hash →
  update_user_password rng uid old_token password db = (Ok tt, with_password rng hash old_token uid db).
Proof.
  intros Hc Hh. unfold update_user_password, hash_password, bind, lift. rewrite Hh. simpl.
  apply map_err_run. unfold set_password. by rewrite execute_calm.
Qed.

Lemma with_password_inv rng hash old_token uid db : db_inv db → db_inv (with_password rng hash old_token uid db).
Proof. apply db_inv_alter. intros a. by case_bool_decide. Qed.

Lemma db_alter_id db f uid a :
  db_account db !! uid = Some a → f a = a → db <| db_account ::= alter f uid |> = db.
Proof.
  intros Ha Hf. destruct db. simpl in *. f_equal. apply map_eq. intros v. destruct (decide (uid = v)) as [<-|Hne].
  - rewrite lookup_alter_eq, Ha. simpl. by rewrite Hf.
  - by rewrite lookup_alter_ne.
Qed.

Lemma check_reset_token_calm db uid a :
  calm db → db_inv db → db_account db !! uid = Some a → ∀ token,
  check_reset_token (ac_username a) token db =
    (if bool_decide (ac_reset_token a = Some token) then Ok uid else Err DbEmpty, db).
Proof.
  intros Hc Hi Ha token. unfold check_reset_token, or_empty, map_err. rewrite query_row_calm by done.
  rewrite (find_account_complete db uid a) by (apply Hi || done). simpl. by case_bool_decide.
Qed.
End reset.

(** C28: a reset token works once.  It lets its owner set a new password, after which
    the new password is the one that is accepted; from then on the token is refused, and a
    second request that had already been checked with it changes nothing. *)
Theorem reset_token_single_use `{!External} rng uid a token password hash db :
  calm db → db_inv db → db_account db !! uid = Some a → ac_reset_token a = Some token →
  hash_raw (bytes_of_string password) (rn_salt rng) = Some hash → generate_token rng ≠ token →
  check_reset_token (ac_username a) token db = (Ok uid, db) ∧
  ∃ db', update_user_password rng uid token password db = (Ok tt, db') ∧ db_inv db' ∧
    check_user (ac_username a) password "" false db' = (Ok (mkUserQueryResult uid (reset_account rng hash a)), db') ∧
    check_reset_token (ac_username a) token db' = (Err DbEmpty, db') ∧
    (∀ rng2 password2 h2, hash_raw (bytes_of_string password2) (rn_salt rng2) = Some h2 →
       update_user_password rng2 uid token password2 db' = (Ok tt, db')).
Proof.
  intros Hc Hi Ha Ht Hh Hne. split; [rewrite (check_reset_token_calm db uid a) by done; by rewrite bool_decide_true|].
  exists (with_password rng hash token uid db). split; [by apply update_user_password_calm|].
  assert (db_inv (with_password rng hash token uid db)) as Hi' by by apply with_password_inv.
  split; [done|]. set (db' := with_password rng hash token uid db) in *. assert (calm db') as Hc' by done.
  assert (db_account db' !! uid = Some (reset_account rng hash a)) as Ha'.
  { change (alter (λ a, if bool_decide (ac_reset_token a = Some token) then reset_account rng hash a else a) uid (db_account db)
      !! uid = Some (reset_account rng hash a)). rewrite lookup_alter_eq, Ha. simpl. by rewrite bool_decide_true. }
  split_and!.
  - destruct (check_user_calm db' (ac_username a) password "" false Hc') as (r & -> & Hr). unfold credentials in Hr.
    change (ac_username a) with (ac_username (reset_account rng hash a)) in Hr.
    rewrite (find_account_complete db' uid _ (inv_usernames _ Hi') Ha') in Hr. simpl in Hr. rewrite Hh, bool_decide_true in Hr by done.
    by rewrite Hr.
  - change (ac_username a) with (ac_username (reset_account rng hash a)). rewrite (check_reset_token_calm db' uid) by done.
    rewrite bool_decide_false; [done|]. simpl. congruence.
  - intros rng2 password2 h2 Hh2. rewrite (update_user_password_calm _ _ _ _ h2) by done. f_equal.
    unfold with_password at 1. rewrite (db_alter_id db' _ uid (reset_account rng hash a)); [done..|].
    simpl. rewrite bool_decide_false by congruence. done.
Qed.

(** [alice] asked for a token. *)
Definition ex_forgetful : Account := (ex_account "alice") <| ac_reset_token := Some "T" |>.

Lemma reset_token_single_use_witness :
  let db := registered 0 ex_forgetful (migrated_db 0 [1] [2]) in
  let hash := bytes_of_string "new" ++ [0; 7] in
  @check_reset_token "alice" "T" db = (Ok 2, db) ∧
  ∃ db', @update_user_password ex_external ex_draw 2 "T" "new" db = (Ok tt, db') ∧ db_inv db' ∧
    @check_user ex_external "alice" "new" "" false db' = (Ok (mkUserQueryResult 2 (reset_account ex_draw hash ex_forgetful)), db') ∧
    @check_reset_token "alice" "T" db' = (Err DbEmpty, db') ∧
    (∀ rng2 password2 h2, @hash_raw ex_external (bytes_of_string password2) (rn_salt rng2) = Some h2 →
       @update_user_password ex_external rng2 2 "T" password2 db' = (Ok tt, db')).
Proof.
  intros db hash.
  apply (@reset_token_single_use ex_external ex_draw 2 ex_forgetful "T" "new" hash db); try reflexivity; [|done].
  apply registered_inv, (@with_account_inv ex_external); [apply migrated_db_inv|done|vm_compute; reflexivity..].
Defined.
