(* ===== verification/Departure.v ===== *)
(** * Leaving the server

    [Client::clean_user_state] runs when a connection ends or its state is reset: it
    takes the user out of every room and out of the game counts. *)

From S2P Require Import ScoreCache Text Database Accounts Friendships DbScore DbTus Config DataFiles.
From S2P Require Import Prelude Protocol StreamExtractor Messages RoomData Room RoomManager RoomInv.
From S2P Require Import RoomReports RoomManagerInv RoomCreate RoomJoin RoomMachine GuiRoom GuiRoomManager.
From S2P Require Import GuiInv GuiMachine GuiRules GameTracker Matchmaking ClientState RoomCommands.
From S2P Require Import GuiCommands Dispatch CommandFrames CommandMoves ServerRules.

Abbreviation user_entries cx := (rm_user_rooms (rooms_of cx)).
Abbreviation gui_entries cx := (gg_user_rooms (gui_of cx)).

Section leave.
Context `{!HashOrder} `{!RoomCodec} `{!GuiCodec} (env : Env).

(** The memberships lost between two states are the caller's, in [ks]. *)
Definition left_rooms (ks : list RoomKey) (cx cx' : Ctx) : Prop :=
  mgr_inv (rooms_of cx') ∧ gui_of cx' = gui_of cx ∧ info_of cx' = info_of cx ∧
  ∀ u k, in_entry (user_entries cx') u k ↔ in_entry (user_entries cx) u k ∧ ¬ (u = user_id cx ∧ k ∈ ks).

Lemma left_rooms_same ks cx cx1 cx2 : left_rooms ks cx cx1 → same_rooms cx1 cx2 → left_rooms ks cx cx2.
Proof. intros (?&?&?&?) (E1&E2&E3&_). unfold left_rooms. rewrite E1, E2, E3. done. Qed.

Lemma left_rooms_refused c id cx :
  mgr_inv (rooms_of cx) → ¬ in_entry (user_entries cx) (user_id cx) (c, id) → left_rooms [(c, id)] cx cx.
Proof.
  intros Hi Hn. split; [done|]. split; [done|]. split; [done|]. intros u k.
  rewrite list_elem_of_singleton. split; [|tauto]. intros Hk. split; [done|]. by intros [-> ->].
Qed.

Lemma client_leave_room_spec c id opt cause cx :
  mgr_inv (rooms_of cx) →
  wp (client_leave_room env c id opt cause) cx
    (λ r cx', (∃ code, r = Ok code) ∧ left_rooms [(c, id)] cx cx').
Proof.
  intros Hi. unfold client_leave_room. apply wp_bind, wp_gets, wp_bind, wp_gets, wp_bind, wp_gets.
  unfold room_exists. case_bool_decide as Hex; cbn [negb].
  2: { apply wp_ret. split; [eauto|]. apply left_rooms_refused; [done|].
       rewrite (mi_user _ Hi). intros (room & Hroom & _). apply Hex. eauto. }
  destruct Hex as [room Hroom]. unfold get_room. rewrite Hroom. apply wp_bind, wp_lift. cbn [unwrap].
  pose proof (proj1 (mi_room _ Hi _ _ _ Hroom)) as [_ Hm _].
  unfold get_member_id. destruct (first_member room (user_id cx)) as [mid|] eqn:Hf; cbn [ok_or].
  2: { apply wp_ret. split; [eauto|]. apply left_rooms_refused; [done|].
       rewrite (in_entry_user _ _ _ _ _ Hi Hroom), in_room_member. intros (m & u & Hu & E).
       by apply (first_member_None _ _ _ _ Hf Hu). }
  apply first_member_Some in Hf as (u & Hu & Huid).
  destruct (get_room_member_update_info_total room mid cause opt Hm) as [d Hd]; [eauto|].
  rewrite Hd. apply wp_bind, wp_lift. cbn beta iota.
  pose proof (leave_room_spec (en_rng env) c id (user_id cx) (rooms_of cx) Hi) as Hl. unfold wp in Hl.
  apply wp_bind. unfold wp at 1, on_rooms. destruct (leave_room _ _ _ _ _) as [[[destroyed users]|e|] rm'] eqn:Hlr;
    simpl in Hl; [| |done]; cbn [fst snd].
  2: { destruct Hl as [-> Hn]. apply wp_ret. split; [eauto|].
       eapply left_rooms_same; [by apply left_rooms_refused|done]. }
  destruct Hl as (_ & Hi' & Hent & _).
  set (cx1 := cx <| cx_shared ::= (λ s, s <| sv_room_manager := rm' |>) |>).
  assert (left_rooms [(c, id)] cx cx1) as Hleft.
  { split; [done|]. split; [done|]. split; [done|]. intros u' k'. simpl. rewrite list_elem_of_singleton. apply Hent. }
  apply wp_bind, wp_gets, wp_bind. destruct (leave_opponent cx c id); cbv beta iota;
    [apply wp_modify|apply wp_ret]; cbv beta iota; apply wp_bind;
    (assert (∀ notif cx2, same_rooms cx1 cx2 →
       wp (send_notification notif users) cx2 (λ r cx', match r with
         | Ok _ => wp (ret NoError : Handler) cx' (λ r cx', (∃ code, r = Ok code) ∧ left_rooms [(c, id)] cx cx')
         | _ => False end)) as Hend;
     [intros notif cx2 Hs; apply wp_modify, wp_ret; split; [eauto|];
      eapply left_rooms_same; [exact Hleft|]; etransitivity; [exact Hs|];
      apply (quiet_send_notification notif users cx2)|]);
    destruct destroyed; (eapply wp_mono; [|apply Hend; done]); by intros [] ?.
Qed.

(** A loop of departures. *)
Lemma leave_all_rooms ks cx :
  mgr_inv (rooms_of cx) →
  wp (for_each (λ '(com_id, room_id),
        ignore_code (client_leave_room env com_id room_id None Event.CauseMemberDisappeared)) ks) cx
    (λ r cx', r = Ok tt ∧ left_rooms ks cx cx').
Proof.
  revert cx. induction ks as [|[c id] ks IH]; intros cx Hi; simpl.
  { apply wp_ret. split; [done|]. split; [done|]. split; [done|]. split; [done|]. intros u k.
    split; [|tauto]. intros. split; [done|]. intros [_ []%not_elem_of_nil]. }
  apply wp_bind. unfold wp at 1, ignore_code.
  pose proof (client_leave_room_spec c id None Event.CauseMemberDisappeared cx Hi) as Hl. unfold wp in Hl.
  destruct (client_leave_room _ _ _ _ _ cx) as [r cx1]. simpl in Hl. destruct Hl as [[code ->] Hl]. simpl.
  pose proof Hl as (Hi1 & Hg1 & Hinfo1 & Hent1). eapply wp_mono; [|by apply IH].
  intros r cx2 (-> & Hi2 & Hg2 & Hinfo2 & Hent2). split; [done|]. split; [done|].
  split; [congruence|]. split; [congruence|]. intros u k. rewrite Hent2, Hent1, list_elem_of_singleton, elem_of_cons.
  unfold user_id in *. rewrite Hinfo1. tauto.
Qed.
(** ** Lobby rooms *)

Definition left_gui (b : bool) (ids : list GuiRoomId) (cx cx' : Ctx) : Prop :=
  gui_inv b (gui_of cx') ∧ rooms_of cx' = rooms_of cx ∧ info_of cx' = info_of cx ∧
  ∀ id, in_entry (gui_entries cx') (user_id cx) id ↔ in_entry (gui_entries cx) (user_id cx) id ∧ id ∉ ids.

Lemma gui_notifs_sent notifs ids cx :
  wp (for_each (λ '(t, d), send_notification (gui_notification t d) ids) notifs) cx
    (λ r cx', r = Ok tt ∧ same_rooms cx cx').
Proof.
  revert cx. induction notifs as [|[t d] notifs IH]; intros cx; simpl; [by apply wp_ret|].
  apply wp_bind, wp_modify. cbv beta iota. eapply wp_mono; [|apply IH]. intros r cx' [-> Hs]. split; [done|].
  etransitivity; [|exact Hs]. apply (quiet_send_notification (gui_notification t d) ids cx).
Qed.

Lemma leave_gui_entries b id uid m r m' :
  gui_inv b m → leave_gui_post b id uid m r m' →
  r ≠ Panic ∧ gui_inv b m' ∧
  ∀ id', in_entry (gg_user_rooms m') uid id' ↔ in_entry (gg_user_rooms m) uid id' ∧ id' ≠ id.
Proof.
  intros Hi [Hi' Hr]. split; [by destruct r|]. split; [done|]. intros id'.
  destruct r as [[[reply ids] notifs]|e|]; [| |done].
  - destruct Hr as (room & mem & Hroom & Hm & _ & Hn & _ & Hother).
    destruct (decide (id' = id)) as [->|Hne]; [tauto|].
    rewrite (gi_user _ _ Hi'), (gi_user _ _ Hi), Hother by done. tauto.
  - destruct Hr as [-> Hn]. split; [|tauto]. intros He. split; [done|]. by intros ->.
Qed.

Lemma client_leave_room_gui_spec b id cx :
  gui_inv b (gui_of cx) →
  wp (client_leave_room_gui env id) cx (λ r cx', (∃ a, r = Ok a) ∧ left_gui b [id] cx cx').
Proof.
  intros Hi. unfold client_leave_room_gui, caller. apply wp_bind, wp_gets, wp_bind. cbv beta.
  pose proof (leave_room_gui_spec b (en_rng env) (gui_of cx) id (info_of cx) Hi) as Hl. unfold wp in Hl.
  apply (leave_gui_entries _ _ _ _ _ _ Hi) in Hl as (Hnp & Hi' & Hent). unfold wp at 1, on_gui.
  destruct (leave_room_gui _ _ _ _) as [r m']. simpl in *.
  set (cx1 := cx <| cx_shared ::= (λ s, s <| sv_gui_room_manager := m' |>) |>).
  assert (∀ cx2, same_rooms cx1 cx2 → left_gui b [id] cx cx2) as Hleft.
  { intros cx2 (E1 & E2 & E3 & _). unfold left_gui. rewrite E1, E2, E3. simpl.
    split; [done|]. split; [done|]. split; [done|]. intros id'. rewrite list_elem_of_singleton. apply Hent. }
  destruct r as [[[reply ids] notifs]|e|]; simpl; [| |done].
  - apply wp_bind. eapply wp_mono; [|apply gui_notifs_sent]. intros r cx2 [-> Hs]. apply wp_ret.
    split; [eauto|]. by apply Hleft.
  - apply wp_ret. split; [eauto|]. by apply Hleft.
Qed.

Lemma leave_all_gui b ids cx :
  gui_inv b (gui_of cx) →
  wp (for_each (λ room, ignore_code (client_leave_room_gui env room)) ids) cx
    (λ r cx', r = Ok tt ∧ left_gui b ids cx cx').
Proof.
  revert cx. induction ids as [|id ids IH]; intros cx Hi; simpl.
  { apply wp_ret. split; [done|]. split; [done|]. split; [done|]. split; [done|]. intros id.
    split; [|tauto]. intros. split; [done|]. by intros []%not_elem_of_nil. }
  apply wp_bind. unfold wp at 1, ignore_code.
  pose proof (client_leave_room_gui_spec b id cx Hi) as Hl. unfold wp in Hl.
  destruct (client_leave_room_gui _ _ cx) as [r cx1]. simpl in Hl. destruct Hl as [[a ->] Hl]. simpl.
  pose proof Hl as (Hi1 & Hg1 & Hinfo1 & Hent1). eapply wp_mono; [|by apply IH].
  intros r cx2 (-> & Hi2 & Hg2 & Hinfo2 & Hent2). split; [done|]. split; [done|].
  split; [congruence|]. split; [congruence|]. intros id'. unfold user_id in *. rewrite Hinfo1 in Hent2.
  rewrite Hent2, Hent1, list_elem_of_singleton, elem_of_cons. tauto.
Qed.
End leave.

Section cleanup.
Context `{!HashOrder} `{!RoomCodec} `{!GuiCodec} (env : Env).

(** The caller is in no room of either kind, everyone else stays where they were
    (a lobby room that does not survive its owner apart), no game is counted. *)
Definition cleaned (b : bool) (cx : Ctx) (r : res ErrorType unit) (cx' : Ctx) : Prop :=
  r = Ok tt ∧ mgr_inv (rooms_of cx') ∧ gui_inv b (gui_of cx') ∧
  (∀ c id room, rm_rooms (rooms_of cx') !! (c, id) = Some room → ¬ in_room room (user_id cx)) ∧
  (∀ id room, gg_rooms (gui_of cx') !! id = Some room → user_id cx ∉ member_ids room) ∧
  (∀ u k, u ≠ user_id cx → in_entry (user_entries cx') u k ↔ in_entry (user_entries cx) u k) ∧
  cl_current_game (cx_client cx') = (None, None).

Lemma in_entry_enumerated `{Countable K} (m : gmap Z (gset K)) uid k s :
  m !! uid = Some s → in_entry m uid k ↔ k ∈ hash_iter s.
Proof. intros Hs. unfold in_entry. rewrite Hs, hash_iter_perm. simpl. by rewrite elem_of_elements. Qed.

Lemma leave_listed_rooms cx :
  mgr_inv (rooms_of cx) →
  wp (match get_rooms_by_user (rooms_of cx) (user_id cx) with
      | Some rooms =>
          for_each (λ '(com_id, room_id),
            ignore_code (client_leave_room env com_id room_id None Event.CauseMemberDisappeared)) (hash_iter rooms)
      | None => ret tt
      end) cx
    (λ r cx', r = Ok tt ∧ mgr_inv (rooms_of cx') ∧ gui_of cx' = gui_of cx ∧ info_of cx' = info_of cx ∧
       (∀ k, ¬ in_entry (user_entries cx') (user_id cx) k) ∧
       (∀ u k, u ≠ user_id cx → in_entry (user_entries cx') u k ↔ in_entry (user_entries cx) u k)).
Proof.
  intros Hi. unfold get_rooms_by_user. destruct (user_entries cx !! user_id cx) as [rooms|] eqn:Hr.
  - eapply wp_mono; [|by apply leave_all_rooms]. intros r cx' (-> & Hi' & Hg & Hinfo & Hent).
    split_and!; try done; [|intros u k Hne; rewrite Hent; tauto].
    intros k. rewrite Hent, <- (in_entry_enumerated _ _ _ _ Hr). tauto.
  - apply wp_ret. split_and!; try done. intros k [s Hs]%in_entry_is_Some. congruence.
Qed.

Lemma leave_listed_gui b cx :
  gui_inv b (gui_of cx) →
  wp (match gui_get_rooms_by_user (gui_of cx) (user_id cx) with
      | Some rooms => for_each (λ room, ignore_code (client_leave_room_gui env room)) (hash_iter rooms)
      | None => ret tt
      end) cx
    (λ r cx', r = Ok tt ∧ gui_inv b (gui_of cx') ∧ rooms_of cx' = rooms_of cx ∧ info_of cx' = info_of cx ∧
       (∀ id, ¬ in_entry (gui_entries cx') (user_id cx) id)).
Proof.
  intros Hi. unfold gui_get_rooms_by_user. destruct (gui_entries cx !! user_id cx) as [rooms|] eqn:Hr.
  - eapply wp_mono; [|by apply leave_all_gui]. intros r cx' (-> & Hi' & Hg & Hinfo & Hent).
    split_and!; try done. intros id. rewrite Hent, <- (in_entry_enumerated _ _ _ _ Hr). tauto.
  - apply wp_ret. split_and!; try done. intros k [s Hs]%in_entry_is_Some. congruence.
Qed.

Lemma clean_user_state_spec b cx :
  mgr_inv (rooms_of cx) → gui_inv b (gui_of cx) → wp (clean_user_state env) cx (cleaned b cx).
Proof.
  intros Hi Hg. unfold clean_user_state. apply wp_bind, wp_gets, wp_bind.
  eapply wp_mono; [|by apply leave_listed_rooms]. intros r cx1 (-> & Hi1 & Eg1 & Einfo1 & Hout & Hothers).
  apply wp_bind, wp_gets, wp_bind. rewrite <- Eg1 in Hg.
  eapply wp_mono; [|by apply leave_listed_gui]. intros r cx2 (-> & Hg2 & Er2 & Einfo2 & Hgout).
  assert (∀ cx', same_rooms cx2 cx' → cl_current_game (cx_client cx') = (None, None) → cleaned b cx (Ok tt) cx') as Hend.
  { intros cx' (E1 & E2 & E3 & _) Hgame. unfold cleaned. rewrite E1, E2, Er2. split_and!; try done.
    - intros c id room Hroom Hin. apply (Hout (c, id)), (mi_user _ Hi1). eauto.
    - intros id room Hroom Hin. apply (Hgout id), (gi_user _ _ Hg2). unfold user_id in *. rewrite Einfo1. eauto. }
  unfold wp. destruct cx2 as [[a i p [g1 g2] rp] s d rep]. destruct g1, g2; apply Hend; done.
Qed.
End cleanup.

(** C8: the cleanup that runs when a connection ends (also after a panic) or is
    reset never panics; afterwards the user is a member of no room and no lobby room,
    is not registered anywhere, and counts for no title; the memberships of all other
    users in rooms are unchanged and both managers' invariants hold. *)
Theorem clean_user_state_correct `{!HashOrder} `{!RoomCodec} `{!GuiCodec} env b cx :
  mgr_inv (rooms_of cx) → gui_inv b (gui_of cx) → wp (clean_user_state env) cx (cleaned b cx).
Proof. apply clean_user_state_spec. Qed.

(** [alice]'s connection in the server of [RoomMachine] and [GuiRules]. *)
Definition ex_ctx (uid : Z) (npid : string) : Ctx :=
  mkCtx (mkClient true (ex_user uid npid) [] (Some ex_com, None) ∅ [])
    (no_rooms <| sv_gui_room_manager := ex_gui |> <| sv_room_manager := ex_manager |>
       <| sv_client_infos := list_to_map ((λ u, (u, ClientSharedInfo_new ∅ (ex_user u "") [])) <$> [7; 8; 9]) |>)
    (extractor_new ex_payload) [].

Lemma clean_user_state_correct_witness :
  wp (@clean_user_state elements_order ex_room_codec ex_gui_codec ex_env) (ex_ctx 7 "alice")
    (cleaned true (ex_ctx 7 "alice")).
Proof. apply clean_user_state_correct; [exact ex_manager_inv|exact ex_gui_inv]. Defined.
