(* ===== verification/Presence.v ===== *)
(** * Who is connected, and who is in a room

    The shared table of users, the counter of the game tracker and the rooms tell the same
    story as the open connections: what every request and every end of a connection does
    to them, and the invariant this keeps in every state the server reaches. *)

From S2P Require Import ScoreCache Text Database Accounts Friendships DbScore DbTus Config DataFiles.
From S2P Require Import Prelude Protocol StreamExtractor Messages RoomData Room RoomManager RoomInv.
From S2P Require Import RoomReports RoomManagerInv RoomCreate RoomJoin RoomMachine GuiRoom GuiRoomManager.
From S2P Require Import GuiInv GuiMachine GuiRules GameTracker Matchmaking ClientState UdpServer RoomCommands.
From S2P Require Import GuiCommands TusCommands ScoreCommands AccountCommands FriendCommands Dispatch Http ApiServer.
From S2P Require Import Startup DbExec CommandFrames ServiceFrames CommandMoves ApiFrames ServerRules StartupRules Departure.

(** ** Operations that enter rooms for one user only *)

(** Every membership of [m'] is one of [m] or one of [u]. *)
Definition adds `{Countable K} (u : Z) (m m' : gmap Z (gset K)) : Prop :=
  ∀ v k, in_entry m' v k → in_entry m v k ∨ v = u.

#[export] Instance adds_preorder `{Countable K} u : PreOrder (adds (K := K) u).
Proof. split; [by left|]. intros m1 m2 m3 H1 H2 v k [Hk|Hk]%H2; [by apply H1|by right]. Qed.

Section enters.
Context {S : Type} `{Countable K} (index : S → gmap Z (gset K)) (u : Z).

Definition enters {E A} (m : M S E A) : Prop := ∀ s, adds u (index s) (index (m s).2).

Lemma enters_bind {E A B} (m : M S E A) (k : A → M S E B) : enters m → (∀ a, enters (k a)) → enters (bind m k).
Proof.
  intros Hm Hk s. specialize (Hm s). unfold bind. destruct (m s) as [[a|e|] s1]; simpl in *; try done.
  etransitivity; [exact Hm|apply Hk].
Qed.

Lemma enters_pure {E A} (m : M S E A) : (∀ s, (m s).2 = s) → enters m.
Proof. intros Hm s. by rewrite Hm. Qed.

Lemma enters_modify {E} (f : S → S) : (∀ s, index (f s) = index s) → enters (modify (E := E) f).
Proof. intros Hf s. simpl. by rewrite Hf. Qed.

Lemma enters_insert {E} (f : S → S) k : (∀ s, index (f s) = entry_insert u k (index s)) → enters (modify (E := E) f).
Proof. intros Hf s v x. simpl. rewrite Hf. intros [[-> ->]|Hx]%in_entry_insert; [by right|by left]. Qed.

Lemma enters_remove {E} (f : S → S) v k : (∀ s, index (f s) = entry_remove v k (index s)) → enters (modify (E := E) f).
Proof. intros Hf s w x. simpl. rewrite Hf. intros [Hx _]%in_entry_remove. by left. Qed.

Lemma enters_for_each {E B} (f : B → M S E unit) xs : (∀ x, enters (f x)) → enters (for_each f xs).
Proof. intros Hf. induction xs; simpl; [by apply enters_pure|]. by apply enters_bind. Qed.

Lemma enters_zoom {T E A} (get : S → option T) (put : T → S → S) (m : M T E A) :
  (∀ t s, index (put t s) = index s) → enters (zoom get put m).
Proof. intros Hp s. unfold zoom. destruct (get s); [|done]. destruct (m _) as [r t']. simpl. by rewrite Hp. Qed.
End enters.

Ltac enters :=
  repeat first
    [ assumption
    | apply enters_bind; [|intros ?]
    | apply enters_pure; done
    | apply enters_modify; done
    | eapply enters_insert; done
    | eapply enters_remove; done
    | apply enters_zoom; done
    | apply enters_for_each; intros ?
    | case_match ].

Section managers.
Context `{!HashOrder}.

Lemma enters_create_room now c req cinfo sid sig : enters rm_user_rooms (ci_user_id cinfo) (create_room now c req cinfo sid sig).
Proof. unfold create_room, unfailing_create_room. enters. Qed.

Lemma enters_join_room now c req cinfo sig : enters rm_user_rooms (ci_user_id cinfo) (join_room now c req cinfo sig).
Proof. unfold join_room, get_mut_room. enters. Qed.

Lemma enters_leave_room u rng c id uid : enters rm_user_rooms u (leave_room rng c id uid).
Proof. unfold leave_room, destroy_room, get_mut_room. enters. Qed.

Lemma enters_settings u :
  (∀ c req uid, enters rm_user_rooms u (set_roomdata_external c req uid)) ∧
  (∀ now c req uid, enters rm_user_rooms u (set_roomdata_internal now c req uid)) ∧
  (∀ now c req uid, enters rm_user_rooms u (set_roommemberdata_internal now c req uid)).
Proof.
  unfold set_roomdata_external, set_roomdata_internal, set_roommemberdata_internal, get_mut_room.
  split_and!; intros; enters.
Qed.

Lemma enters_add_member id cinfo owner : enters gg_user_rooms (ci_user_id cinfo) (add_member_to_room id cinfo owner).
Proof. unfold add_member_to_room. enters. Qed.

Lemma enters_gui_rooms cinfo :
  (∀ c req, enters gg_user_rooms (ci_user_id cinfo) (create_room_gui c req cinfo)) ∧
  (∀ id, enters gg_user_rooms (ci_user_id cinfo) (join_room_gui id cinfo)) ∧
  (∀ c req, enters gg_user_rooms (ci_user_id cinfo) (quickmatch_gui c req cinfo)) ∧
  (∀ c req, enters gg_user_rooms (ci_user_id cinfo) (search_join_gui c req cinfo)).
Proof.
  pose proof (λ id, enters_add_member id cinfo) as Ha.
  unfold create_room_gui, join_room_gui, quickmatch_gui, search_join_gui, generate_room_id, insert_room, get_gui_room.
  split_and!; intros; enters; apply Ha.
Qed.

Lemma enters_gui_others u :
  (∀ rng id cinfo, enters gg_user_rooms u (leave_room_gui rng id cinfo)) ∧
  (∀ id b uid, enters gg_user_rooms u (set_search_flag id b uid)) ∧
  (∀ id attrs uid, enters gg_user_rooms u (set_room_info_gui id attrs uid)).
Proof.
  unfold leave_room_gui, set_search_flag, set_room_info_gui, remove_room, forget_user. split_and!; intros; enters.
Qed.
End managers.

(** ** Requests *)

Section steady.
Context `{!HashOrder}.

(** The caller and who is connected stay; memberships are added for the caller only. *)
Record steady (info : ClientInfo) (cx cx' : Ctx) : Prop := {
  sd_info : info_of cx' = info;
  sd_presence : presence_of cx' = presence_of cx;
  sd_rooms : adds (ci_user_id info) (user_entries cx) (user_entries cx');
  sd_gui : adds (ci_user_id info) (gui_entries cx) (gui_entries cx');
}.

Lemma steady_trans info cx1 cx2 cx3 : steady info cx1 cx2 → steady info cx2 cx3 → steady info cx1 cx3.
Proof. intros [] []. split; [done|congruence|by etransitivity..]. Qed.

(** A handler run by [info]. *)
Definition steadily (info : ClientInfo) {E A} (h : M Ctx E A) : Prop := ∀ cx, info_of cx = info → steady info cx (h cx).2.

Lemma steadily_quiet info {E A} (h : M Ctx E A) : quiet h → steadily info h.
Proof. intros Hq cx Hi. destruct (Hq cx) as (E1 & E2 & E3 & E4). split; [congruence|done|by rewrite E1|by rewrite E2]. Qed.

Lemma steadily_bind info {E A B} (m : M Ctx E A) (k : A → M Ctx E B) :
  steadily info m → (∀ a, steadily info (k a)) → steadily info (bind m k).
Proof.
  intros Hm Hk cx Hi. specialize (Hm cx Hi). unfold bind. destruct (m cx) as [[a|e|] cx1]; simpl in *; try done.
  eapply steady_trans; [exact Hm|]. apply Hk, Hm.
Qed.

(** What the handler reads of the caller is the caller's. *)
Lemma steadily_caller info {B} (k : ClientInfo → H B) :
  steadily info (k info) → steadily info (bind (gets (λ cx, cl_client_info (cx_client cx))) k).
Proof. intros Hk cx Hi. unfold bind, gets. rewrite Hi. by apply Hk. Qed.

Lemma steadily_for_each info {B} (f : B → H unit) xs : (∀ x, steadily info (f x)) → steadily info (for_each f xs).
Proof. intros Hf. induction xs; simpl; [by apply steadily_quiet, quiet_pure|]. by apply steadily_bind. Qed.

Lemma steadily_ignore_code info {A} (h : H A) : steadily info h → steadily info (ignore_code h).
Proof. intros Hh cx Hi. specialize (Hh cx Hi). unfold ignore_code. by destruct (h cx) as [[] ?]. Qed.

Lemma steadily_on_rooms info {A} (m : RM A) : enters rm_user_rooms (ci_user_id info) m → steadily info (on_rooms m).
Proof. intros Hm cx Hi. specialize (Hm (rooms_of cx)). rewrite on_rooms_snd. by split. Qed.

Lemma steadily_on_gui info {A} (m : GM A) : enters gg_user_rooms (ci_user_id info) m → steadily info (on_gui m).
Proof. intros Hm cx Hi. specialize (Hm (gui_of cx)). rewrite on_gui_snd. by split. Qed.
End steady.

Ltac steadily :=
  repeat first
    [ assumption
    | solve [eauto with moves nocore]
    | apply steadily_quiet; solve [quiet]
    | apply steadily_caller
    | apply steadily_bind; [|intros ?]
    | apply steadily_for_each; intros ?
    | apply steadily_ignore_code
    | apply steadily_on_rooms; first [apply enters_create_room | apply enters_join_room | apply enters_leave_room
        | apply enters_settings]
    | apply steadily_on_gui; first [apply enters_gui_rooms | apply enters_gui_others]
    | case_match ].

Section handlers.
Context `{!HashOrder} `{!External} `{!ServerCodec} (env : Env) (info : ClientInfo).

Lemma steadily_leave_room c id opt cause : steadily info (client_leave_room env c id opt cause).
Proof. unfold client_leave_room. steadily. Qed.

Lemma steadily_leave_room_gui id : steadily info (client_leave_room_gui env id).
Proof. unfold client_leave_room_gui, caller. steadily. Qed.
#[local] Hint Resolve steadily_leave_room steadily_leave_room_gui : moves.

Lemma steadily_clean_user_state : steadily info (clean_user_state env).
Proof. unfold clean_user_state. steadily. Qed.

Lemma steadily_room_handler command h : room_handler env command = Some h → steadily info h.
Proof.
  pose proof steadily_clean_user_state as Hc.
  destruct command; simpl; intros Heq; try discriminate; injection Heq as <-; unfold reset_state,
    req_create_room, req_join_room, req_leave_room, req_set_roomdata_external, req_set_roomdata_internal,
    req_set_roommemberdata_internal, req_create_room_gui, req_join_room_gui, req_leave_room_gui, req_set_room_search_flag_gui,
    req_set_room_info_gui, req_quickmatch_gui, req_searchjoin_gui, caller, extend_reply; steadily.
Qed.

Lemma steadily_session_handler command h : session_handler env command = Some h → steadily info h.
Proof.
  unfold session_handler. destruct (room_handler env command) as [h'|] eqn:Hh; intros Heq.
  - injection Heq as <-. by eapply steadily_room_handler.
  - apply steadily_quiet. by eapply quiet_service_handler.
Qed.
End handlers.

(** ** The login *)

Abbreviation connected_users s := (dom (sv_client_infos s)).

(** A login that succeeded: the caller was not connected and is now, and is counted. *)
Definition logged_in (cx cx' : Ctx) : Prop :=
  cl_authentified (cx_client cx') = true ∧ user_id cx' ∉ connected_users (cx_shared cx) ∧
  connected_users (cx_shared cx') = {[user_id cx']} ∪ connected_users (cx_shared cx) ∧
  gt_num_users (sv_game_tracker (cx_shared cx')) = wrap_i64 (gt_num_users (sv_game_tracker (cx_shared cx)) + 1).

Definition at_the_door {E A} (h : M Ctx E A) : Prop :=
  ∀ cx, presence_of (h cx).2 = presence_of cx ∨ logged_in cx (h cx).2.

Section door.
Context `{!HashOrder} `{!External} `{!ServerCodec} (env : Env).

Lemma presence_eq cx cx' :
  presence_of cx' = presence_of cx →
  connected_users (cx_shared cx') = connected_users (cx_shared cx) ∧
  gt_num_users (sv_game_tracker (cx_shared cx')) = gt_num_users (sv_game_tracker (cx_shared cx)).
Proof. unfold presence_of. intros Hp. by simplify_eq. Qed.

(** [P]: what is known of who is connected. *)
Definition door_if (P : gset Z → Prop) {E A} (h : M Ctx E A) : Prop :=
  ∀ cx, P (connected_users (cx_shared cx)) → presence_of (h cx).2 = presence_of cx ∨ logged_in cx (h cx).2.

Lemma door_quiet P {E A} (h : M Ctx E A) : quiet h → door_if P h.
Proof. intros Hq cx _. left. apply Hq. Qed.

Lemma door_bind P {E A B} (m : M Ctx E A) (k : A → M Ctx E B) : quiet m → (∀ a, door_if P (k a)) → door_if P (bind m k).
Proof.
  intros Hm Hk cx HP. destruct (Hm cx) as (_ & _ & _ & Hp). unfold bind.
  destruct (m cx) as [[a|e|] cx1]; simpl in *; [|by left..].
  pose proof (presence_eq _ _ Hp) as [E2 E3].
  destruct (Hk a cx1) as [->|Hin]; [by rewrite E2|by left|right]. unfold logged_in in *. by rewrite <- E2, <- E3.
Qed.

(** The part that lets the user in. *)
Lemma let_in info reply names notif ids :
  door_if (λ us, ci_user_id info ∉ us) (do! on_client (λ c, c <| cl_authentified := true |> <| cl_client_info := info |>);
    do! extend_reply reply;
    do ip <- gets (λ cx, cl_peer_ip (cx_client cx));
    do! on_shared (λ s, s <| sv_client_infos ::= <[ci_user_id info := ClientSharedInfo_new names info ip]> |>
                          <| sv_game_tracker ::= increase_num_users |>);
    do! send_notification notif ids;
    ret NoError).
Proof.
  intros cx Hout. right. unfold extend_reply. cbn -[send_notification].
  assert (quiet (do! send_notification notif ids; ret NoError)) as Hq by quiet.
  lazymatch goal with |- context [bind (send_notification notif ids) _ ?c] => set (cx1 := c) end.
  destruct (Hq cx1) as (_ & _ & Hi & Hp). 
  assert (cl_authentified (cx_client (bind (send_notification notif ids) (λ _, ret NoError) cx1).2) = true) as E1
    by (unfold presence_of in Hp; by simplify_eq).
  pose proof (presence_eq _ _ Hp) as [E2 E3]. unfold logged_in, user_id. rewrite E1, E2, E3, Hi. subst cx1. simpl.
  by rewrite dom_insert_L.
Qed.

Lemma door_login_checked name user_data : at_the_door (login_checked env name user_data).
Proof.
  unfold login_checked. case_match; [by left|]. intros cx.
  lazymatch goal with |- context [bind (gets cx_shared) ?k cx] => change (bind (gets cx_shared) k cx) with (k (cx_shared cx) cx) end.
  cbn beta.
  case_bool_decide as Hin; [by left|]. case_bool_decide as Hduty; [by left|].
  rewrite <- elem_of_dom in Hin.
  lazymatch goal with |- presence_of (?h cx).2 = _ ∨ _ =>
    assert (door_if (λ us, uq_user_id user_data ∉ us) h) as Hd; [clear Hin|exact (Hd cx Hin)] end.
  do 3 (apply door_bind; [quiet|intros ?]). apply (let_in (info_of_account name user_data)).
Qed.

Lemma door_login_handler command h : login_handler env command = Some h → at_the_door h.
Proof.
  assert (∀ h : Handler, quiet h → at_the_door h) as Hq by (intros h' Hh cx; left; apply Hh).
  destruct command; simpl; intros Heq; try discriminate; injection Heq as <-.
  - assert (door_if (λ _, True) (login env)) as Hd; [|intros cx; by apply Hd].
    unfold login. repeat first
      [ intros ? _; apply door_login_checked | apply door_quiet; solve [quiet] | apply door_bind; [quiet|intros ?] | case_match ].
  - apply Hq. unfold create_account, send_mail. quiet.
  - apply Hq. unfold delete_account. quiet.
  - apply Hq. unfold resend_token, send_mail. quiet.
  - apply Hq. unfold send_reset_token, send_mail. quiet.
  - apply Hq. unfold reset_password. quiet.
Qed.
End door.

(** ** Packets and ends of connections *)

Section effects.
Context `{!HashOrder} `{!External} `{!ServerCodec} (env : Env).

(** What a packet does, for a client that has logged in and for one that has not. *)
Definition packet_effect (c : Client) (s : SharedData) (c' : Client) (s' : SharedData) : Prop :=
  let cx := mkCtx c s (extractor_new []) [] in
  let cx' := mkCtx c' s' (extractor_new []) [] in
  if cl_authentified c then steady (cl_client_info c) cx cx'
  else user_entries cx' = user_entries cx ∧ gui_entries cx' = gui_entries cx ∧
       (presence_of cx' = presence_of cx ∨ logged_in cx cx').

Lemma process_command_effect command cx :
  let cx' := (process_command env command cx).2 in packet_effect (cx_client cx) (cx_shared cx) (cx_client cx') (cx_shared cx').
Proof.
  assert (packet_effect (cx_client cx) (cx_shared cx) (cx_client cx) (cx_shared cx)) as Hrefl.
  { unfold packet_effect. destruct (cl_authentified _); [by split|by split_and!; [..|left]]. }
  assert (let cx' := (default (fail Invalid)
    (if cl_authentified (cx_client cx) then session_handler env command else login_handler env command) cx).2 in
    packet_effect (cx_client cx) (cx_shared cx) (cx_client cx') (cx_shared cx')) as Hh.
  { unfold packet_effect. destruct (cl_authentified (cx_client cx)).
    - destruct (session_handler env command) as [h|] eqn:Hh; [|done].
      destruct (steadily_session_handler env (info_of cx) command h Hh cx eq_refl). by split.
    - destruct (login_handler env command) as [h|] eqn:Hh; [|by split_and!; [..|left]].
      pose proof (door_login_handler env command h Hh cx) as Hd.
      apply (keeps_rooms_login_handler env) in Hh. destruct (Hh cx) as [E1 E2]. simpl. by rewrite E1, E2. }
  unfold process_command. by destruct command.
Qed.

Lemma interpret_command_effect command packet_id data c s out c' s' :
  interpret_command env command packet_id data c s = (out, c', s') → packet_effect c s c' s'.
Proof.
  unfold interpret_command. set (cx := mkCtx c s (extractor_new data) (reply_start command packet_id)).
  assert (let cx' := (match Command.command_from_u16 command with
    | None => fail Malformed cx | Some parsed => process_command env parsed cx end).2 in
    packet_effect c s (cx_client cx') (cx_shared cx')) as Heff.
  { destruct (Command.command_from_u16 command); [apply (process_command_effect _ cx)|]. simpl.
    unfold packet_effect. destruct (cl_authentified c); [by split|by split_and!; [..|left]]. }
  cbv zeta in Heff. lazymatch type of Heff with packet_effect _ _ (cx_client (snd ?m)) _ => destruct m as [res cx'] end. simpl in Heff.
  assert (∀ c1, cl_authentified c1 = cl_authentified (cx_client cx') → cl_client_info c1 = cl_client_info (cx_client cx') →
    packet_effect c s c1 (cx_shared cx')) as Hsame.
  { intros c1 E1 E2. unfold packet_effect in *. destruct (cl_authentified c).
    - destruct Heff. split; simpl in *; [congruence|unfold presence_of in *; simpl in *; congruence|done..].
    - unfold presence_of, logged_in, user_id in *. simpl in *. by rewrite E1, E2. }
  destruct res; intros [= <- <- <-]; by apply Hsame.
Qed.

(** The end of a connection that had logged in. *)
Lemma drop_client_effect b timestamp cx :
  cl_authentified (cx_client cx) = true → mgr_inv (rooms_of cx) → gui_inv b (gui_of cx) →
  wp (drop_client env timestamp) cx (λ r cx', r = Ok tt ∧
    connected_users (cx_shared cx') = connected_users (cx_shared cx) ∖ {[user_id cx]} ∧
    gt_num_users (sv_game_tracker (cx_shared cx')) = wrap_i64 (gt_num_users (sv_game_tracker (cx_shared cx)) - 1) ∧
    (∀ u k, in_entry (user_entries cx') u k → in_entry (user_entries cx) u k ∧ u ≠ user_id cx) ∧
    (∀ u k, in_entry (gui_entries cx') u k → in_entry (gui_entries cx) u k ∧ u ≠ user_id cx)).
Proof.
  intros Ha Hi Hg. unfold drop_client. apply wp_bind, wp_gets. rewrite Ha. cbn [negb].
  apply wp_bind, wp_gets, wp_bind, wp_modify. cbn beta iota. apply wp_bind, wp_modify. cbn beta iota.
  set (cx1 := (cx <| cx_shared ::= _ |>) <| cx_client ::= _ |>).
  pose proof (steadily_clean_user_state env (info_of cx) cx1 eq_refl) as [_ Hp Hr1 Hg1].
  apply wp_bind. pose proof (clean_user_state_spec env b cx1 Hi Hg) as Hclean.
  unfold wp in *. destruct (clean_user_state env cx1) as [r cx2]. cbn [fst snd] in *.
  destruct Hclean as (-> & Hi2 & Hg2 & Hout & Hgout & _). apply presence_eq in Hp as [E1 E2].
  assert (∀ u k, in_entry (user_entries cx2) u k → in_entry (user_entries cx) u k ∧ u ≠ user_id cx) as Hrooms.
  { intros u [c id] Hk. assert (u ≠ user_id cx) as Hne.
    - intros ->. apply (mi_user _ Hi2) in Hk as (room & Hroom & Hin). by apply (Hout c id room).
    - apply Hr1 in Hk as [Hk|Hu]; [done|]. by destruct Hne. }
  assert (∀ u k, in_entry (gui_entries cx2) u k → in_entry (gui_entries cx) u k ∧ u ≠ user_id cx) as Hgui.
  { intros u id Hk. assert (u ≠ user_id cx) as Hne.
    - intros ->. apply (gi_user _ _ Hg2) in Hk as (room & Hroom & Hin). by apply (Hgout id room).
    - apply Hg1 in Hk as [Hk|Hu]; [done|]. by destruct Hne. }
  cbn beta iota. apply wp_bind, wp_modify. cbn beta iota. apply wp_bind, wp_gets, wp_bind, wp_modify. cbn beta iota.
  apply wp_bind, wp_gets. lazymatch goal with |- wp _ ?c _ => set (cx3 := c) end.
  lazymatch goal with |- wp ?h _ _ => assert (quiet h) as Hq by quiet end.
  destruct (Hq cx3) as (F1 & F2 & _ & F3). apply presence_eq in F3 as [F3 F4]. unfold wp.
  rewrite F1, F2, F3, F4. subst cx3. simpl. rewrite dom_delete_L. split; [done|]. by rewrite E1, E2.
Qed.
End effects.

(** ** The invariant *)

(** Adding to a wrapped counter. *)
Lemma wrap_i64_add a b : wrap_i64 (wrap_i64 a + b) = wrap_i64 (a + b).
Proof.
  assert (∃ k, wrap_i64 a = a + k * 2 ^ 64) as [k ->].
  { unfold wrap_i64, to_signed, wrap_u64. pose proof (Z.div_mod a (2 ^ 64) ltac:(lia)).
    case_bool_decide; [exists (- (a / 2 ^ 64))|exists (- (a / 2 ^ 64) - 1)]; lia. }
  unfold wrap_i64, wrap_u64. f_equal. replace (a + k * 2 ^ 64 + b) with (a + b + k * 2 ^ 64) by lia.
  by rewrite Z_mod_plus_full.
Qed.

Section invariant.
Context `{!HashOrder} `{!External} `{!ServerCodec}.
Implicit Types (cs : gmap nat Client) (s : SharedData).

(** Connection [n] has logged in as [u]. *)
Definition serves cs (n : nat) (u : Z) : Prop :=
  ∃ c, cs !! n = Some c ∧ cl_authentified c = true ∧ ci_user_id (cl_client_info c) = u.

Record presence_inv (srv : Server) : Prop := {
  pi_connected : ∀ u, u ∈ connected_users (srv_shared srv) ↔ ∃ n, serves (srv_clients srv) n u;
  pi_unique : ∀ n n' u, serves (srv_clients srv) n u → serves (srv_clients srv) n' u → n = n';
  pi_rooms : ∀ u k, in_entry (rm_user_rooms (sv_room_manager (srv_shared srv))) u k → u ∈ connected_users (srv_shared srv);
  pi_gui : ∀ u k, in_entry (gg_user_rooms (sv_gui_room_manager (srv_shared srv))) u k → u ∈ connected_users (srv_shared srv);
  pi_count : gt_num_users (sv_game_tracker (srv_shared srv)) = wrap_i64 (Z.of_nat (size (connected_users (srv_shared srv))));
}.

(** The parts of the shared state the invariant is about. *)
Definition same_presence s s' : Prop :=
  connected_users s' = connected_users s ∧ gt_num_users (sv_game_tracker s') = gt_num_users (sv_game_tracker s).

(** Connections change without a login or the end of one. *)
Lemma presence_kept s s' cs cs' :
  presence_inv (mkServer s cs) → same_presence s s' → (∀ n u, serves cs' n u ↔ serves cs n u) →
  (∀ u k, in_entry (rm_user_rooms (sv_room_manager s')) u k →
     in_entry (rm_user_rooms (sv_room_manager s)) u k ∨ u ∈ connected_users s) →
  (∀ u k, in_entry (gg_user_rooms (sv_gui_room_manager s')) u k →
     in_entry (gg_user_rooms (sv_gui_room_manager s)) u k ∨ u ∈ connected_users s) →
  presence_inv (mkServer s' cs').
Proof.
  intros [Hc1 Hc2 Hc3 Hc4 Hc5] [E1 E2] Hcs Hr Hg. simpl in *. split; simpl; rewrite ?E1, ?E2; try done.
  - intros u. rewrite Hc1. by setoid_rewrite Hcs.
  - intros n n' u. rewrite !Hcs. apply Hc2.
  - intros u k [Hk|Hk]%Hr; [by eapply Hc3|done].
  - intros u k [Hk|Hk]%Hg; [by eapply Hc4|done].
Qed.

Lemma serves_insert cs n c n' u :
  serves (<[n := c]> cs) n' u ↔
    if decide (n = n') then cl_authentified c = true ∧ ci_user_id (cl_client_info c) = u else serves cs n' u.
Proof. unfold serves. case_decide; [subst; setoid_rewrite lookup_insert_eq|setoid_rewrite lookup_insert_ne; [|done]]; naive_solver. Qed.

(** A login: nobody was connected as the user. *)
Lemma presence_login s s' cs n c' u :
  presence_inv (mkServer s cs) → (∀ v, ¬ serves cs n v) →
  cl_authentified c' = true → ci_user_id (cl_client_info c') = u → u ∉ connected_users s →
  connected_users s' = {[u]} ∪ connected_users s →
  gt_num_users (sv_game_tracker s') = wrap_i64 (gt_num_users (sv_game_tracker s) + 1) →
  rm_user_rooms (sv_room_manager s') = rm_user_rooms (sv_room_manager s) →
  gg_user_rooms (sv_gui_room_manager s') = gg_user_rooms (sv_gui_room_manager s) →
  presence_inv (mkServer s' (<[n := c']> cs)).
Proof.
  intros [Hc1 Hc2 Hc3 Hc4 Hc5] Hn Ha Hu Hout E1 E2 E3 E4. simpl in *. split; simpl; rewrite ?E1, ?E2, ?E3, ?E4.
  - intros v. rewrite elem_of_union, elem_of_singleton, Hc1. setoid_rewrite serves_insert. split.
    + intros [->|[m Hm]]; [exists n; by rewrite decide_True|]. exists m. rewrite decide_False; [done|]. intros <-. by apply (Hn v).
    + intros [m Hm]. case_decide; [left; naive_solver|right; eauto].
  - intros m m' v. rewrite !serves_insert. case_decide as E; case_decide as E'; subst; try congruence.
    + intros [_ <-] Hm. exfalso. apply Hout, Hc1. eauto.
    + intros Hm [_ <-]. exfalso. apply Hout, Hc1. eauto.
    + apply Hc2.
  - intros v k Hk. apply elem_of_union. right. by eapply Hc3.
  - intros v k Hk. apply elem_of_union. right. by eapply Hc4.
  - rewrite Hc5, size_union, size_singleton, wrap_i64_add by set_solver. f_equal. lia.
Qed.
(** The end of a connection that had logged in. *)
Lemma presence_leave s s' cs n u :
  presence_inv (mkServer s cs) → serves cs n u →
  connected_users s' = connected_users s ∖ {[u]} →
  gt_num_users (sv_game_tracker s') = wrap_i64 (gt_num_users (sv_game_tracker s) - 1) →
  (∀ v k, in_entry (rm_user_rooms (sv_room_manager s')) v k → in_entry (rm_user_rooms (sv_room_manager s)) v k ∧ v ≠ u) →
  (∀ v k, in_entry (gg_user_rooms (sv_gui_room_manager s')) v k → in_entry (gg_user_rooms (sv_gui_room_manager s)) v k ∧ v ≠ u) →
  presence_inv (mkServer s' (delete n cs)).
Proof.
  intros [Hc1 Hc2 Hc3 Hc4 Hc5] Hn E1 E2 Hr Hg. simpl in *.
  assert (∀ m v, serves (delete n cs) m v ↔ m ≠ n ∧ serves cs m v) as Hd.
  { intros m v. unfold serves. setoid_rewrite lookup_delete_Some. naive_solver. }
  assert (u ∈ connected_users s) as Hu by (apply Hc1; eauto).
  split; simpl; rewrite ?E1, ?E2.
  - intros v. rewrite elem_of_difference, elem_of_singleton, Hc1. setoid_rewrite Hd. split.
    + intros [[m Hm] Hne]. exists m. split; [|done]. intros ->. apply Hne.
      destruct Hm as (c & ? & ? & <-), Hn as (c' & ? & ? & <-). congruence.
    + intros (m & Hne & Hm). split; [eauto|]. intros ->. by apply Hne, (Hc2 m n u).
  - intros m m' v. rewrite !Hd. intros [_ Hm] [_ Hm']. by eapply Hc2.
  - intros v k [Hk Hne]%Hr. apply Hc3 in Hk. set_solver.
  - intros v k [Hk Hne]%Hg. apply Hc4 in Hk. set_solver.
  - rewrite Hc5. change (?x - 1) with (x + -1). rewrite wrap_i64_add. f_equal.
    rewrite size_difference, size_singleton by set_solver.
    assert (size (connected_users s) ≠ 0%nat); [|lia]. apply size_non_empty_iff. set_solver.
Qed.

Lemma kicks_only_dom (m m' : gmap Z ClientSharedInfo) : kicks_only m m' → dom m' = dom m.
Proof.
  intros Hk. apply set_eq. intros u. rewrite !elem_of_dom. specialize (Hk u).
  destruct (m !! u), (m' !! u); simpl in Hk; naive_solver.
Qed.

(** A client whose state changes without a login goes on serving the same user. *)
Lemma serves_same cs n c c' m u :
  cs !! n = Some c → cl_authentified c' = cl_authentified c →
  (cl_authentified c = true → cl_client_info c' = cl_client_info c) → serves (<[n := c']> cs) m u ↔ serves cs m u.
Proof.
  intros Hn Ha Hi. rewrite serves_insert. case_decide; [|done]. subst. rewrite Ha. unfold serves. split.
  - intros [Hc Hu]. exists c. rewrite <- Hi by done. done.
  - intros (c0 & Hc0 & Hc & Hu). simplify_eq. by rewrite Hi.
Qed.

Lemma packet_keeps_presence env n c s cs command packet_id data out c' s' :
  presence_inv (mkServer s cs) → cs !! n = Some c →
  interpret_command env command packet_id data c s = (out, c', s') → presence_inv (mkServer s' (<[n := c']> cs)).
Proof.
  intros Hinv Hn Hrun. apply interpret_command_effect in Hrun. unfold packet_effect in Hrun.
  destruct (cl_authentified c) eqn:Ha.
  - destruct Hrun as [Hi Hp Hr Hg]. simpl in *. pose proof (presence_eq _ _ Hp) as [E1 E2]. simpl in E1, E2.
    assert (cl_authentified c' = cl_authentified c) as Ha' by (unfold presence_of in Hp; simpl in Hp; by simplify_eq).
    assert (ci_user_id (cl_client_info c) ∈ connected_users s) as Hu by (apply (pi_connected _ Hinv); exists n, c; done).
    apply (presence_kept s s' cs); [done|by split|..].
    + intros m u. by apply (serves_same cs n c c').
    + intros u k [Hk| ->]%Hr; [by left|by right].
    + intros u k [Hk| ->]%Hg; [by left|by right].
  - destruct Hrun as (Er & Eg & [Hp|Hin]); simpl in *.
    + pose proof (presence_eq _ _ Hp) as [E1 E2]. simpl in E1, E2.
      assert (cl_authentified c' = cl_authentified c) as Ha' by (unfold presence_of in Hp; simpl in Hp; simplify_eq; congruence).
      apply (presence_kept s s' cs); [done|by split|..].
      * intros m u. apply (serves_same cs n c c'); [done..|congruence].
      * rewrite Er. by left.
      * rewrite Eg. by left.
    + destruct Hin as (Ha' & Hout & E1 & E2). simpl in *. eapply presence_login; try done.
      intros v (c0 & Hc0 & Hca & _). simplify_eq. congruence.
Qed.

Lemma server_step_presence srv srv' :
  server_step srv srv' → mgr_inv (sv_room_manager (srv_shared srv)) → gui_inv false (sv_gui_room_manager (srv_shared srv)) →
  presence_inv srv → presence_inv srv'.
Proof.
  intros [n s cs ip Hn|env n c s cs command pid data out c' s' Hc Hre Hcnt Hi|env n c s cs ts r cx' Hc Hd
         |s cs buf ip port|env s cs|lib env key req s cs] Hm Hg Hinv; simpl in *.
  - apply (presence_kept s s cs); [done|done| |by left|by left]. intros m u. rewrite serves_insert. case_decide; [|done].
    subst. unfold serves. split; [by intros [? _]|]. intros (c & Hc & _). congruence.
  - by eapply packet_keeps_presence.
  - destruct (cl_authentified c) eqn:Ha.
    + destruct (wp_run _ _ _ _ _ Hd (drop_client_effect env false ts (mkCtx c s (extractor_new []) []) Ha Hm Hg)) as (_ & E1 & E2 & Hr & Hg').
      eapply presence_leave; [done| |done..]. exists c. done.
    + assert (cx' = mkCtx c s (extractor_new []) []) as ->
        by (unfold drop_client, bind, gets in Hd; simpl in Hd; rewrite Ha in Hd; simpl in Hd; unfold ret in Hd; congruence).
      apply (presence_kept s s cs); [done|done| |by left|by left]. intros m u. unfold serves. simpl.
      setoid_rewrite lookup_delete_Some. split; [naive_solver|]. intros (c0 & Hc0 & Hca & Hu). exists c0.
      split; [split; [congruence|done]|done].
  - apply (presence_kept s _ cs); [done| |done|..]; unfold handle_socket_input; case_match; simpl; try (by left); [done|].
    unfold same_presence, update_signaling_information. simpl. by rewrite dom_alter_L.
  - apply (presence_kept s _ cs); [done| |done|..]; unfold clean_daily; case_match; try (by left); done.
  - destruct (api_request_rest env key req s) as [Hk Er]. apply kicks_only_dom in Hk.
    set (s' := (api_request env key req s).2) in *.
    pose proof (f_equal sv_room_manager Er) as E1. pose proof (f_equal sv_gui_room_manager Er) as E2.
    pose proof (f_equal sv_game_tracker Er) as E3. clear Er. clearbody s'. simpl in *.
    apply (presence_kept s _ cs); [done|split; [done|by rewrite E3]|done|rewrite E1; by left|rewrite E2; by left].
Qed.
End invariant.

Section start.
Context `{!HashOrder} `{!External} `{!ServerCodec}.

Lemma Server_new_fresh env config file sto shared sto' :
  Server_new env config file sto = (Ok shared, sto') →
  sv_room_manager shared = RoomManager_new ∧ sv_gui_room_manager shared = GuiRoomManager_new ∧
  sv_client_infos shared = ∅ ∧ sv_game_tracker shared = GameTracker_new.
Proof.
  intros H. unfold Server_new in H.
  do 7 (apply bind_ok_inv in H as (? & ? & _ & H)). by injection H as <- _.
Qed.

Lemma presence_start s :
  sv_room_manager s = RoomManager_new → sv_gui_room_manager s = GuiRoomManager_new →
  sv_client_infos s = ∅ → sv_game_tracker s = GameTracker_new →
  presence_inv (mkServer s ∅) ∧ mgr_inv (sv_room_manager s) ∧ gui_inv false (sv_gui_room_manager s).
Proof.
  intros Er Eg Ei Et. rewrite Er, Eg. split; [|split; [apply mgr_inv_new|apply (gui_inv_weaken true), gui_inv_new]].
  split; simpl; rewrite ?Er, ?Eg, ?Ei, ?Et.
  - intros u. rewrite dom_empty_L. split; [set_solver|]. intros (n & c & Hc & _). by rewrite lookup_empty in Hc.
  - intros n n' u (c & Hc & _). by rewrite lookup_empty in Hc.
  - intros u k Hk. by apply in_entry_empty in Hk.
  - intros u k Hk. by apply in_entry_empty in Hk.
  - by rewrite dom_empty_L.
Qed.

Lemma reachable_presence srv0 srv :
  CodecOk → rtc server_step srv0 srv →
  presence_inv srv0 ∧ mgr_inv (sv_room_manager (srv_shared srv0)) ∧ gui_inv false (sv_gui_room_manager (srv_shared srv0)) →
  presence_inv srv ∧ mgr_inv (sv_room_manager (srv_shared srv)) ∧ gui_inv false (sv_gui_room_manager (srv_shared srv)).
Proof.
  intros Hcodec. induction 1 as [|a b c Hs _ IH]; [done|]. intros (Hp & Hm & Hg). apply IH.
  split; [by eapply server_step_presence|]. apply (rooms_evolve_inv (srv_shared a)); [by apply server_step_evolves|done..].
Qed.
End start.

(** What the invariants say of rooms. *)
Section story.
Context (srv : Server) (Hp : presence_inv srv).
Abbreviation s := (srv_shared srv).

Lemma room_members_connected :
  mgr_inv (sv_room_manager s) →
  ∀ k room u, rm_rooms (sv_room_manager s) !! k = Some room → in_room room u → u ∈ connected_users s.
Proof. intros Hm [c id] room u Hroom Hin. apply (pi_rooms _ Hp u (c, id)), (mi_user _ Hm). eauto. Qed.

Lemma lobby_members_connected :
  gui_inv false (sv_gui_room_manager s) →
  ∀ id room u, gg_rooms (sv_gui_room_manager s) !! id = Some room → u ∈ member_ids room → u ∈ connected_users s.
Proof. intros Hg id room u Hroom Hin. apply (pi_gui _ Hp u id), (gi_user _ _ Hg). eauto. Qed.

Lemma nobody_no_rooms :
  mgr_inv (sv_room_manager s) → gui_inv false (sv_gui_room_manager s) → connected_users s = ∅ →
  rm_rooms (sv_room_manager s) = ∅ ∧ gg_rooms (sv_gui_room_manager s) = ∅.
Proof.
  intros Hm Hg Hnone. split; apply map_empty.
  - intros [c id]. apply eq_None_not_Some. intros [room Hroom].
    destruct (mi_room _ Hm _ _ _ Hroom) as ([_ _ [u Hu]] & _).
    assert (u_user_id u ∈ connected_users s) as Hin; [|rewrite Hnone in Hin; set_solver].
    eapply room_members_connected; [done..|]. apply in_room_member. eauto.
  - intros id. apply eq_None_not_Some. intros [room Hroom].
    destruct (gi_room _ _ Hg _ _ Hroom) as ([_ _ _ Hne _ _] & _). apply map_choose in Hne as (u & m & Hu).
    assert (u ∈ connected_users s) as Hin; [|rewrite Hnone in Hin; set_solver].
    eapply lobby_members_connected; [done..|]. apply elem_of_dom. eauto.
Qed.
End story.

(** C2: from the start on, the open connections, the shared table of users, the counter
    of the game tracker and the rooms tell the same story in every state: no two
    connections are logged in as the same user, the table has exactly the users of the
    connections that are logged in, the tracker counts them, and every member of a room or
    lobby room is one of them; so when nobody is logged in there is no room left.  This
    holds whatever clients send, however their connections end, panics included. *)
Theorem presence_exact `{!HashOrder} `{!External} `{!ServerCodec} env config file sto shared sto' srv :
  CodecOk → Server_new env config file sto = (Ok shared, sto') → rtc server_step (mkServer shared ∅) srv →
  let s := srv_shared srv in
  (∀ n n' u, serves (srv_clients srv) n u → serves (srv_clients srv) n' u → n = n') ∧
  (∀ u, u ∈ connected_users s ↔ ∃ n, serves (srv_clients srv) n u) ∧
  gt_num_users (sv_game_tracker s) = wrap_i64 (Z.of_nat (size (connected_users s))) ∧
  (∀ k room u, rm_rooms (sv_room_manager s) !! k = Some room → in_room room u → u ∈ connected_users s) ∧
  (∀ id room u, gg_rooms (sv_gui_room_manager s) !! id = Some room → u ∈ member_ids room → u ∈ connected_users s) ∧
  (connected_users s = ∅ → rm_rooms (sv_room_manager s) = ∅ ∧ gg_rooms (sv_gui_room_manager s) = ∅).
Proof.
  intros Hcodec Hnew Hsteps s. apply Server_new_fresh in Hnew as (Er & Eg & Ei & Et).
  assert (presence_inv srv ∧ mgr_inv (sv_room_manager s) ∧ gui_inv false (sv_gui_room_manager s)) as (Hp & Hm & Hg).
  { apply (reachable_presence (mkServer shared ∅)); [done..|]. by apply presence_start. }
  pose proof (room_members_connected srv Hp Hm) as Hrooms. pose proof (lobby_members_connected srv Hp Hg) as Hgui.
  pose proof (nobody_no_rooms srv Hp Hm Hg) as Hnone. destruct Hp. by split_and!.
Qed.

(** A server that knows a world: [bob] registers, logs in and opens a room. *)
Definition ex_world_env : Env :=
  mkEnv 0 0 0 100000000 0 (mkDraw [] []) true true FileOk true None (Some (bytes_of_string "NPWR00001_00|1|1|")) (λ _, None).

Definition ex_host_shared : SharedData :=
  match (@Server_new elements_order ex_world_env Config_new (Some []) ex_stored).1 with Ok s => s | _ => no_rooms end.

Definition ex_host_login : Server :=
  ex_packet 0 0 (bytes_of_string "bob" ++ [0] ++ bytes_of_string "secret" ++ [0; 0])
    (ex_packet 0 2 ex_register (mkServer ex_host_shared {[0%nat := Client_new []]})).
Definition ex_host : Server := ex_packet 0 14 ex_payload ex_host_login.

Lemma ex_host_reachable : ex_steps (mkServer ex_host_shared ∅) ex_host.
Proof.
  unfold ex_host, ex_host_login, ex_steps. eapply rtc_l; [by apply (step_connect 0%nat)|].
  eapply rtc_l; [apply (ex_packet_step 0 2 ex_register)|eapply rtc_l; [|apply rtc_once]; apply ex_packet_step];
    first [vm_compute; by eexists|vm_compute; reflexivity|apply counters_ok_empty; vm_compute; reflexivity].
Qed.

Lemma presence_exact_witness :
  size (rm_rooms (sv_room_manager (srv_shared ex_host))) = 1%nat ∧
  (∀ k room u, rm_rooms (sv_room_manager (srv_shared ex_host)) !! k = Some room → in_room room u →
     u ∈ connected_users (srv_shared ex_host)) ∧
  gt_num_users (sv_game_tracker (srv_shared ex_host)) = 1.
Proof.
  split; [vm_compute; reflexivity|].
  destruct (@presence_exact elements_order ex_external ex_codec ex_world_env Config_new (Some []) ex_stored ex_host_shared
    (@Server_new elements_order ex_world_env Config_new (Some []) ex_stored).2 ex_host) as (_ & _ & Hcount & Hrooms & _);
    [exact ex_codec_ok|vm_compute; reflexivity|apply ex_host_reachable|].
  split; [exact Hrooms|]. rewrite Hcount. vm_compute. reflexivity.
Defined.
