(* ===== verification/Connection.v ===== *)
(** * Connections (src/src/server.rs, client.rs)

    The accept loop of [Server::start], the loop of [Client::process] on the bytes of a
    connection, and the ends of both, as a machine over the open connections.  A
    connection waits for a header, with the time-out before the login and with the
    permit of a kick and the termination of the server after it, then for the payload,
    which nothing interrupts.  [tokio::select!] takes any branch that is ready, so the
    machine is a relation. *)

From S2P Require Import ScoreCache Text Database Accounts Friendships DbScore DbTus Config DataFiles.
From S2P Require Import Prelude Protocol StreamExtractor Messages RoomData Room RoomManager RoomInv.
From S2P Require Import RoomManagerInv GuiRoom GuiRoomManager GuiInv GameTracker ClientState UdpServer Dispatch Http ApiServer.
From S2P Require Import CommandMoves Startup ServerRules StartupRules Presence.

(** ** The greeting *)

Definition PROTOCOL_VERSION : Z := 30.

Definition servinfo_vec : bytes :=
  [Packet.packet_discr Packet.ServerInfo] ++ to_le_bytes 2 0 ++ to_le_bytes 4 (4 + HEADER_SIZE) ++ to_le_bytes 8 0
  ++ to_le_bytes 4 PROTOCOL_VERSION.

(** ** One connection *)

(** What came from the peer and was not read yet, whether the peer closed, the header
    that was read when the payload is awaited, and what was queued to the peer; [wi_log]
    is all that ever came, [wi_served] the requests that were carried out. *)
Record Wire := mkWire {
  wi_unread : bytes;
  wi_closed : bool;
  wi_header : option (Z * Z * Z);
  wi_sent : list bytes;
  wi_log : bytes;
  wi_served : list (Z * Z * bytes);
}.
#[export] Instance wire_eta : Eta Wire := λ w,
  mkWire (wi_unread w) (wi_closed w) (wi_header w) (wi_sent w) (wi_log w) (wi_served w).

Definition Wire_new : Wire := mkWire [] false None [servinfo_vec] [] [].

Definition receive (data : bytes) (w : Wire) : Wire :=
  w <| wi_unread ::= (λ u, u ++ data) |> <| wi_log ::= (λ l, l ++ data) |>.

(** [read_exact]: the next bytes, once they are there. *)
Definition read_exact (n : nat) (w : Wire) : option (bytes * Wire) :=
  if bool_decide (n ≤ length (wi_unread w))%nat
  then Some (take n (wi_unread w), w <| wi_unread ::= drop n |>) else None.

(** A read that ends in [UnexpectedEof]. *)
Definition read_fails (n : nat) (w : Wire) : bool :=
  wi_closed w && bool_decide (length (wi_unread w) < n)%nat.

Section turns.
Context `{!HashOrder} `{!External} `{!ServerCodec} (env : Env).

(** The header, up to the length check of [interpret_command]; [None] ends the
    connection. *)
Definition read_header (w : Wire) : option (option Wire) :=
  match read_exact (Z.to_nat HEADER_SIZE) w with
  | None => None
  | Some (header_data, w) =>
      match process_header header_data with
      | Disconnect => Some None
      | ReadPayload command to_read packet_id => Some (Some (w <| wi_header := Some (command, to_read, packet_id) |>))
      end
  end.

(** The payload and the command; the flag says whether the loop goes on. *)
Definition read_payload (c : Client) (w : Wire) (s : SharedData) : option (bool * Client * Wire * SharedData) :=
  match wi_header w with
  | None => None
  | Some (command, to_read, packet_id) =>
      match read_exact (Z.to_nat to_read) w with
      | None => None
      | Some (data, w) =>
          let '(out, c, s) := interpret_command env command packet_id data c s in
          let w := w <| wi_header := None |> <| wi_served ::= (λ l, l ++ [(command, packet_id, data)]) |> in
          match out with
          | Some (packets, goes_on) => Some (goes_on, c, w <| wi_sent ::= (λ l, l ++ packets) |>, s)
          | None => Some (false, c, w, s)
          end
      end
  end.

(** [Drop for Client]. *)
Definition drop_connection (timestamp : Z) (c : Client) (s : SharedData) : SharedData :=
  cx_shared (drop_client env timestamp (mkCtx c s (extractor_new []) [])).2.
End turns.

(** The permit of the connection's user. *)
Definition kicked (c : Client) (s : SharedData) : bool :=
  match sv_client_infos s !! ci_user_id (cl_client_info c) with
  | Some info => cs_kicked info
  | None => false
  end.

(** The loop may end before the next header: the time-out, the kick, the termination,
    the end of the stream. *)
Definition may_end (c : Client) (w : Wire) (s : SharedData) : bool :=
  match wi_header w with
  | Some (_, to_read, _) => read_fails (Z.to_nat to_read) w
  | None =>
      read_fails (Z.to_nat HEADER_SIZE) w ||
      (if cl_authentified c then kicked c s || sv_terminate s
       else bool_decide (length (wi_unread w) < Z.to_nat HEADER_SIZE)%nat)
  end.

(** ** The machine *)

Record Net := mkNet {
  nt_shared : SharedData;
  nt_conns : gmap nat (Client * Wire);
}.

Section machine.
Context `{!HashOrder} `{!External} `{!ServerCodec}.

(** A turn of the loop of one connection, or its end.  The side conditions on commands
    are those of [server_step]. *)
Inductive conn_turn (n : nat) : Net → Net → Prop :=
| turn_header c w w' s cs :
    cs !! n = Some (c, w) → wi_header w = None → read_header w = Some (Some w') →
    conn_turn n (mkNet s cs) (mkNet s (<[n := (c, w')]> cs))
| turn_bad_header env timestamp c w s cs :
    cs !! n = Some (c, w) → wi_header w = None → read_header w = Some None →
    conn_turn n (mkNet s cs) (mkNet (drop_connection env timestamp c s) (delete n cs))
| turn_command env c w s cs c' w' s' :
    cs !! n = Some (c, w) → redirs_ok (sv_config s) → counters_ok s →
    read_payload env c w s = Some (true, c', w', s') →
    conn_turn n (mkNet s cs) (mkNet s' (<[n := (c', w')]> cs))
| turn_last_command env env' timestamp c w s cs c' w' s' :
    cs !! n = Some (c, w) → redirs_ok (sv_config s) → counters_ok s →
    read_payload env c w s = Some (false, c', w', s') →
    conn_turn n (mkNet s cs) (mkNet (drop_connection env' timestamp c' s') (delete n cs))
| turn_end env timestamp c w s cs :
    cs !! n = Some (c, w) → may_end c w s = true →
    conn_turn n (mkNet s cs) (mkNet (drop_connection env timestamp c s) (delete n cs)).

(** A client that arrives after the termination leaves at once.  When the accept loop
    sees the termination the runtime is shut down and the process ends: the machine goes
    up to that point. *)
Inductive net_step : Net → Net → Prop :=
| net_accept n s cs ip :
    cs !! n = None → sv_terminate s = false →
    net_step (mkNet s cs) (mkNet s (<[n := (Client_new ip, Wire_new)]> cs))
| net_receive n c w s cs data :
    cs !! n = Some (c, w) → Forall is_u8 data → wi_closed w = false →
    net_step (mkNet s cs) (mkNet s (<[n := (c, receive data w)]> cs))
| net_hang_up n c w s cs :
    cs !! n = Some (c, w) → net_step (mkNet s cs) (mkNet s (<[n := (c, w <| wi_closed := true |>)]> cs))
| net_turn n net net' : conn_turn n net net' → net_step net net'
| net_signaling s cs recv_buf ip_addr ip_port :
    net_step (mkNet s cs) (mkNet (handle_socket_input recv_buf ip_addr ip_port s).2 cs)
| net_clean_daily env s cs : net_step (mkNet s cs) (mkNet (clean_daily env s) cs)
| net_api (lib : HttpLib) env api_key req s cs :
    net_step (mkNet s cs) (mkNet (api_request env api_key req s).2 cs).

(** The server seen without its transport. *)
Definition server_of (net : Net) : Server := mkServer (nt_shared net) (fst <$> nt_conns net).
End machine.

(** ** The machine does what the server machine does *)

Section refinement.
Context `{!HashOrder} `{!External} `{!ServerCodec}.

Lemma lookup_client (cs : gmap nat (Client * Wire)) n c w : cs !! n = Some (c, w) → (fst <$> cs) !! n = Some c.
Proof. intros Hn. by rewrite lookup_fmap, Hn. Qed.

Lemma same_clients (cs : gmap nat (Client * Wire)) n c w w' :
  cs !! n = Some (c, w) → fst <$> <[n := (c, w')]> cs = fst <$> cs.
Proof. intros Hn. rewrite fmap_insert. apply insert_id. by eapply lookup_client. Qed.

Lemma drop_connection_step env timestamp s cs n c :
  cs !! n = Some c → server_step (mkServer s cs) (mkServer (drop_connection env timestamp c s) (delete n cs)).
Proof.
  intros Hn. unfold drop_connection.
  destruct (drop_client env timestamp (mkCtx c s (extractor_new []) [])) as [r cx'] eqn:Hd. by eapply step_disconnect.
Qed.

Lemma read_payload_step env c w s b c' w' s' :
  read_payload env c w s = Some (b, c', w', s') → ∃ command to_read packet_id data out,
    wi_header w = Some (command, to_read, packet_id) ∧ (Z.to_nat to_read ≤ length (wi_unread w))%nat ∧
    data = take (Z.to_nat to_read) (wi_unread w) ∧
    interpret_command env command packet_id data c s = (out, c', s') ∧
    wi_unread w' = drop (Z.to_nat to_read) (wi_unread w) ∧ wi_log w' = wi_log w ∧ wi_header w' = None ∧
    wi_served w' = wi_served w ++ [(command, packet_id, data)].
Proof.
  unfold read_payload, read_exact. destruct (wi_header w) as [[[command to_read] packet_id]|]; [|done].
  case_bool_decide as Hlen; [|done].
  destruct (interpret_command env command packet_id (take (Z.to_nat to_read) (wi_unread w)) c s) as [[out c1] s1] eqn:Hi.
  intros Heq. exists command, to_read, packet_id, (take (Z.to_nat to_read) (wi_unread w)), out.
  destruct out as [[packets goes_on]|]; simplify_eq; done.
Qed.

Lemma conn_turn_refines n net net' : conn_turn n net net' → rtc server_step (server_of net) (server_of net').
Proof.
  intros [c w w' s cs Hn _ _|env ts c w s cs Hn _ _|env c w s cs c' w' s' Hn Hre Hcnt Hp
         |env env' ts c w s cs c' w' s' Hn Hre Hcnt Hp|env ts c w s cs Hn _]; unfold server_of; simpl; rewrite ?fmap_delete.
  - by erewrite same_clients.
  - eapply rtc_once, drop_connection_step, lookup_client, Hn.
  - apply read_payload_step in Hp as (command & to_read & pid & data & out & _ & _ & _ & Hi & _).
    rewrite fmap_insert. eapply rtc_once, step_packet; [by eapply lookup_client|done..].
  - apply read_payload_step in Hp as (command & to_read & pid & data & out & _ & _ & _ & Hi & _).
    eapply rtc_l; [eapply step_packet; [by eapply lookup_client|done..]|]. apply rtc_once.
    rewrite <- (delete_insert_eq (fst <$> cs) n c'). apply drop_connection_step. by rewrite lookup_insert_eq.
  - eapply rtc_once, drop_connection_step, lookup_client, Hn.
Qed.

Lemma net_step_refines net net' : net_step net net' → rtc server_step (server_of net) (server_of net').
Proof.
  intros [n s cs ip Hn _|n c w s cs data Hn _ _|n c w s cs Hn|n a b Ht%conn_turn_refines|s cs buf ip port|env s cs
         |lib env key req s cs]; [..|exact Ht|apply rtc_once, step_signaling|apply rtc_once, step_clean_daily
         |apply rtc_once, step_api]; unfold server_of; simpl; [|by erewrite same_clients..].
  rewrite fmap_insert. apply rtc_once, step_connect. by rewrite lookup_fmap, Hn.
Qed.

Lemma net_refines net net' : rtc net_step net net' → rtc server_step (server_of net) (server_of net').
Proof. induction 1 as [|a b c Hs _ IH]; [done|]. etransitivity; [by apply net_step_refines|done]. Qed.
End refinement.


(** ** The bytes of a connection and the requests made of them *)

Lemma to_from_le_bytes bs : Forall is_u8 bs → to_le_bytes (length bs) (from_le_bytes bs) = bs.
Proof.
  unfold is_u8. induction 1 as [|b bs Hb _ IH]; [done|]. cbn [length to_le_bytes from_le_bytes]. f_equal.
  - rewrite (Z.mul_comm 256), Z_mod_plus_full. by apply Z.mod_small.
  - rewrite (Z.mul_comm 256), Z.div_add by lia. by rewrite (Z.div_small b), Z.add_0_l.
Qed.

(** What a client sends for a request. *)
Definition encode_header (command to_read packet_id : Z) : bytes :=
  [Packet.packet_discr Packet.Request] ++ to_le_bytes 2 command ++ to_le_bytes 4 (HEADER_SIZE + to_read) ++ to_le_bytes 8 packet_id.

Definition encode_request (r : Z * Z * bytes) : bytes :=
  encode_header r.1.1 (Z.of_nat (length r.2)) r.1.2 ++ r.2.

(** The header that was read is the one that was sent. *)
Lemma process_header_bytes h command to_read packet_id :
  Forall is_u8 h → length h = 15%nat → process_header h = ReadPayload command to_read packet_id →
  h = encode_header command to_read packet_id ∧ 0 ≤ to_read ≤ MAX_PACKET_SIZE - HEADER_SIZE.
Proof.
  intros Hu Hlen (H0 & -> & -> & -> & Hb)%process_header_spec. split; [|done].
  assert (∀ i n, (i + n ≤ 15)%nat → to_le_bytes n (from_le_bytes (slice h i n)) = slice h i n) as Hs.
  { intros i n Hin. unfold slice. assert (length (take n (drop i h)) = n) as Hl by (rewrite length_take, length_drop; lia).
    rewrite <- Hl at 1. apply to_from_le_bytes. by apply Forall_take, Forall_drop. }
  unfold encode_header. rewrite Z.add_sub_assoc, Z.add_simpl_l, !Hs by lia. unfold slice.
  do 16 (destruct h as [|? h]; [simpl in *; try lia|]); simpl in *; try lia. by injection H0 as ->.
Qed.

(** What was read and not served yet. *)
Definition awaited (w : Wire) : bytes :=
  match wi_header w with
  | Some (command, to_read, packet_id) => encode_header command to_read packet_id
  | None => []
  end.

Record wire_ok (w : Wire) : Prop := {
  wo_bytes : Forall is_u8 (wi_unread w);
  wo_log : wi_log w = (wi_served w ≫= encode_request) ++ awaited w ++ wi_unread w;
  wo_header : ∀ command to_read packet_id,
    wi_header w = Some (command, to_read, packet_id) → 0 ≤ to_read ≤ MAX_PACKET_SIZE - HEADER_SIZE;
  wo_served : Forall (λ r, Z.of_nat (length r.2) ≤ MAX_PACKET_SIZE - HEADER_SIZE) (wi_served w);
}.

Lemma read_header_ok w w' : wire_ok w → wi_header w = None → read_header w = Some (Some w') → wire_ok w'.
Proof.
  intros [Hb Hl Hh Hs] Hn. unfold read_header, read_exact. case_bool_decide as Hlen; [|done].
  destruct (process_header _) as [|command to_read packet_id] eqn:Hp; [done|]. intros [= <-].
  change (Z.to_nat HEADER_SIZE) with 15%nat in *.
  apply process_header_bytes in Hp as [Hbytes Hbound]; [|by apply Forall_take|rewrite length_take; lia].
  split; simpl; [by apply Forall_drop| |by intros ? ? ? [= <- <- <-]|done].
  rewrite Hl. assert (awaited w = []) as -> by (unfold awaited; by rewrite Hn).
  assert (wi_unread w = encode_header command to_read packet_id ++ drop 15 (wi_unread w)) as Hu by by rewrite <- Hbytes, take_drop.
  f_equal. exact Hu.
Qed.

Section wires.
Context `{!HashOrder} `{!External} `{!ServerCodec}.

Lemma read_payload_ok env c w s b c' w' s' : wire_ok w → read_payload env c w s = Some (b, c', w', s') → wire_ok w'.
Proof.
  intros [Hb Hl Hh Hs] Hp.
  apply read_payload_step in Hp as (command & to_read & pid & data & out & Hw & Hlen & -> & _ & Eu & El & Eh & Es).
  specialize (Hh _ _ _ Hw). assert (length (take (Z.to_nat to_read) (wi_unread w)) = Z.to_nat to_read) as Ht
    by (rewrite length_take; lia).
  split; rewrite ?Eu, ?Eh, ?Es, ?El; [by apply Forall_drop| |done|].
  - rewrite Hl, bind_app. assert (awaited w = encode_header command to_read pid) as -> by (unfold awaited; by rewrite Hw).
    assert (awaited w' = []) as -> by (unfold awaited; by rewrite Eh).
    rewrite bind_singleton. unfold encode_request at 3. cbn [fst snd app].
    rewrite Ht, Z2Nat.id, <- !app_assoc by lia. by rewrite take_drop.
  - apply Forall_app. split; [done|]. constructor; [|done]. simpl. lia.
Qed.

Definition wires_ok (net : Net) : Prop := ∀ n c w, nt_conns net !! n = Some (c, w) → wire_ok w.

Lemma wires_delete s s' cs n : wires_ok (mkNet s cs) → wires_ok (mkNet s' (delete n cs)).
Proof. intros Hw m c w. simpl. intros [_ Hm]%lookup_delete_Some. by eapply Hw. Qed.

Lemma wires_insert s s' cs n c w : wires_ok (mkNet s cs) → wire_ok w → wires_ok (mkNet s' (<[n := (c, w)]> cs)).
Proof. intros Hw Hnew m c1 w1. simpl. intros [[_ [= <- <-]]|[_ Hm]]%lookup_insert_Some; [done|by eapply Hw]. Qed.

Lemma conn_turn_wires n net net' : wires_ok net → conn_turn n net net' → wires_ok net'.
Proof.
  intros Hok Ht. destruct Ht as [c w w' s cs Hn Hh Hr|env ts c w s cs Hn _ _|env c w s cs c' w' s' Hn _ _ Hp
             |env env' ts c w s cs c' w' s' Hn _ _ Hp|env ts c w s cs Hn _]; try (eapply wires_delete; exact Hok).
  - eapply wires_insert; [exact Hok|]. eapply read_header_ok; [by eapply Hok|done..].
  - eapply wires_insert; [exact Hok|]. eapply read_payload_ok; [by eapply Hok|done].
Qed.

Lemma net_step_wires net net' : wires_ok net → net_step net net' → wires_ok net'.
Proof.
  intros Hok Hs. destruct Hs as [n s cs ip Hn _|n c w s cs data Hn Hd _|n c w s cs Hn|n a b Ht|s cs buf ip port|env s cs|lib env key req s cs];
    try exact Hok; [eapply wires_insert; [exact Hok|]..|by eapply conn_turn_wires].
  - by split.
  - destruct (Hok n c w Hn) as [Hb Hl Hh Hs]. split; simpl; [by apply Forall_app|..|done|done].
    rewrite Hl. unfold awaited. simpl. by rewrite !app_assoc.
  - by destruct (Hok n c w Hn).
Qed.
End wires.

(** C6: on every connection, the commands carried out are the requests the peer sent, in
    the order it sent them, each once and with its command, id and payload: at any time
    all the bytes that ever came are the encodings of the requests served, then the header
    whose payload is awaited, then the bytes not read yet; and no payload is larger than 8
    MiB, whatever the peers send. *)
Theorem requests_in_order `{!HashOrder} `{!External} `{!ServerCodec} s net n c w :
  rtc net_step (mkNet s ∅) net → nt_conns net !! n = Some (c, w) →
  wi_log w = (wi_served w ≫= encode_request) ++ awaited w ++ wi_unread w ∧
  Forall (λ r, Z.of_nat (length r.2) ≤ MAX_PACKET_SIZE - HEADER_SIZE) (wi_served w) ∧
  (∀ command to_read packet_id, wi_header w = Some (command, to_read, packet_id) → 0 ≤ to_read ≤ MAX_PACKET_SIZE - HEADER_SIZE).
Proof.
  intros Hsteps Hn. assert (wires_ok net) as Hok.
  { assert (wires_ok (mkNet s ∅)) as Hstart by (intros ? ? ? Hl; simpl in Hl; by rewrite lookup_empty in Hl).
    revert Hstart. clear Hn. induction Hsteps as [|a1 a2 a3 Hs _ IH]; [done|]. intros Ha. apply IH. by eapply net_step_wires. }
  by destruct (Hok n c w Hn).
Qed.

(** ** How a connection ends *)

Section endings.
Context `{!HashOrder} `{!External} `{!ServerCodec} (n : nat).

(** A bound on the turns that are left once the peer is gone. *)
Definition turns_left (net : Net) : nat :=
  match nt_conns net !! n with
  | Some (_, w) => length (wi_unread w) + (if wi_header w then 2 else 1)
  | None => 0
  end.

Definition hung_up (net : Net) : Prop := ∀ c w, nt_conns net !! n = Some (c, w) → wi_closed w = true.

Lemma read_header_shorter w w' : read_header w = Some (Some w') →
  wi_closed w' = wi_closed w ∧ (length (wi_unread w') + 15 = length (wi_unread w))%nat.
Proof.
  unfold read_header, read_exact. case_bool_decide as Hlen; [|done]. destruct (process_header _); [done|].
  intros [= <-]. simpl. change (Z.to_nat HEADER_SIZE) with 15%nat in *. rewrite length_drop. split; [done|lia].
Qed.

Lemma read_payload_closed env c w s b c' w' s' : read_payload env c w s = Some (b, c', w', s') → wi_closed w' = wi_closed w.
Proof.
  unfold read_payload, read_exact. destruct (wi_header w) as [[[command to_read] pid]|]; [|done].
  case_bool_decide; [|done]. destruct (interpret_command _ _ _ _ _ _) as [[[[packets goes_on]|] c1] s1]; intros; by simplify_eq.
Qed.

Lemma conn_turn_hung_up net net' : hung_up net → conn_turn n net net' → hung_up net' ∧ (turns_left net' < turns_left net)%nat.
Proof.
  intros Hup Ht. destruct Ht as [c w w' s cs Hn Hh Hr|env ts c w s cs Hn _ _|env c w s cs c' w' s' Hn _ _ Hp
    |env env' ts c w s cs c' w' s' Hn _ _ Hp|env ts c w s cs Hn _]; unfold hung_up, turns_left in *; simpl in *;
    rewrite ?lookup_delete_eq, ?lookup_insert_eq, Hn; pose proof (Hup _ _ Hn) as Hcl;
    try (split; [done|destruct (wi_header w); lia]).
  - apply read_header_shorter in Hr as [Ecl Elen]. split; [intros ? ? [= <- <-]; congruence|]. destruct (wi_header w'), (wi_header w); lia.
  - pose proof (read_payload_closed _ _ _ _ _ _ _ _ Hp) as Ecl. split; [intros ? ? [= <- <-]; congruence|].
    apply read_payload_step in Hp as (command & to_read & pid & data & out & -> & _ & _ & _ & -> & _ & -> & _).
    rewrite length_drop. lia.
Qed.

(** While the connection is there it can take another turn. *)
Lemma hung_up_turn net c w :
  nt_conns net !! n = Some (c, w) → wi_closed w = true → redirs_ok (sv_config (nt_shared net)) → counters_ok (nt_shared net) →
  ∀ env : Env, ∃ net', conn_turn n net net'.
Proof.
  destruct net as [s cs]. simpl. intros Hn Hcl Hre Hcnt env.
  destruct (wi_header w) as [[[command to_read] pid]|] eqn:Hh.
  - destruct (decide (Z.to_nat to_read ≤ length (wi_unread w))%nat) as [Hlen|Hlen].
    + destruct (read_payload env c w s) as [[[[[] c'] w'] s']|] eqn:Hp; [eexists; by eapply turn_command|
        eexists; by eapply (turn_last_command n env env 0)|].
      exfalso. revert Hp. unfold read_payload, read_exact. rewrite Hh, bool_decide_eq_true_2 by done.
      by destruct (interpret_command _ _ _ _ _ _) as [[[[packets goes_on]|] c1] s1].
    + eexists. eapply (turn_end n env 0); [exact Hn|]. unfold may_end, read_fails. rewrite Hh, Hcl. simpl.
      apply bool_decide_eq_true. lia.
  - destruct (decide (length (wi_unread w) < Z.to_nat HEADER_SIZE)%nat) as [Hlen|Hlen].
    + eexists. eapply (turn_end n env 0); [exact Hn|]. unfold may_end, read_fails. rewrite Hh, Hcl. simpl.
      apply orb_true_iff. left. by apply bool_decide_eq_true.
    + destruct (read_header w) as [[w'|]|] eqn:Hr; [eexists; by eapply turn_header|eexists; by eapply (turn_bad_header n env 0)|].
      exfalso. revert Hr. unfold read_header, read_exact. rewrite bool_decide_eq_true_2 by lia. by destruct (process_header _).
Qed.

(** The loop waits for a payload that is not there. *)
Definition waiting (w : Wire) : Prop :=
  ∃ command to_read packet_id, wi_header w = Some (command, to_read, packet_id) ∧
    (length (wi_unread w) < Z.to_nat to_read)%nat ∧ wi_closed w = false.

Lemma waiting_no_turn net net' m c w :
  nt_conns net !! n = Some (c, w) → waiting w → conn_turn m net net' → nt_conns net' !! n = Some (c, w).
Proof.
  intros Hn (command & to_read & pid & Hh & Hlen & Hcl) Ht.
  destruct (decide (m = n)) as [->|Hne]; [exfalso|destruct Ht; simpl in *; by rewrite ?lookup_delete_ne, ?lookup_insert_ne by done].
  destruct Ht as [? ? ? ? ? Hn' Hh'|? ? ? ? ? ? Hn' Hh'|? ? ? ? ? ? ? ? Hn' ? ? Hp|? ? ? ? ? ? ? ? ? ? Hn' ? ? Hp|? ? ? ? ? ? Hn' He];
    simpl in *; rewrite Hn in Hn'; injection Hn' as <- <-; [congruence..| | |].
  - apply read_payload_step in Hp as (? & ? & ? & ? & ? & Hh' & Hle & _). rewrite Hh in Hh'. injection Hh' as <- <- <-. lia.
  - apply read_payload_step in Hp as (? & ? & ? & ? & ? & Hh' & Hle & _). rewrite Hh in Hh'. injection Hh' as <- <- <-. lia.
  - unfold may_end, read_fails in He. by rewrite Hh, Hcl in He.
Qed.

Lemma waiting_step net net' c w :
  nt_conns net !! n = Some (c, w) → waiting w → net_step net net' →
  nt_conns net' !! n = Some (c, w) ∨
  ∃ w', nt_conns net' !! n = Some (c, w') ∧ (wi_log w' ≠ wi_log w ∨ wi_closed w' = true).
Proof.
  intros Hn Hw Hs. destruct Hs as [m s cs ip Hm _|m c1 w1 s cs data Hm _ _|m c1 w1 s cs Hm|m a b Ht|s cs buf ip port|env s cs|lib env key req s cs];
    simpl in *; try (by left); [| | |left; by eapply waiting_no_turn].
  - left. rewrite lookup_insert_ne; [done|congruence].
  - destruct (decide (m = n)) as [->|Hne]; [|left; by rewrite lookup_insert_ne].
    rewrite Hn in Hm. injection Hm as <- <-. rewrite lookup_insert_eq. destruct data as [|x data].
    + left. unfold receive. simpl. destruct w. simpl. by rewrite !app_nil_r.
    + right. eexists. split; [done|]. left. simpl. intros E%(f_equal length). rewrite length_app in E. simpl in E. lia.
  - destruct (decide (m = n)) as [->|Hne]; [|left; by rewrite lookup_insert_ne].
    rewrite Hn in Hm. injection Hm as <- <-. rewrite lookup_insert_eq. right. eexists. split; [done|by right].
Qed.
End endings.

(** C22: once the peer of a connection is gone the loop of the connection ends: whatever
    it still has to read, it takes at most two turns more than there are bytes, and until
    it is gone it can always take the next one, be it a request, an early end of the
    stream or a refusal. *)
Theorem closed_connection_ends `{!HashOrder} `{!External} `{!ServerCodec} (env : Env) n net c w :
  nt_conns net !! n = Some (c, w) → wi_closed w = true →
  (∀ k net', nsteps (conn_turn n) k net net' → (k ≤ length (wi_unread w) + 2)%nat) ∧
  (∀ net', rtc (conn_turn n) net net' → redirs_ok (sv_config (nt_shared net')) → counters_ok (nt_shared net') →
     nt_conns net' !! n = None ∨ ∃ net'', conn_turn n net' net'').
Proof.
  intros Hn Hcl. assert (hung_up n net) as Hup by (intros ? ? Hn'; rewrite Hn in Hn'; by injection Hn' as <- <-). split.
  - intros k net' Hsteps. assert (k ≤ turns_left n net)%nat as Hk.
    { clear Hn Hcl. induction Hsteps as [|k a b c' Ht _ IH]; [lia|].
      destruct (conn_turn_hung_up n _ _ Hup Ht) as [Hup' Hlt]. specialize (IH Hup'). lia. }
    unfold turns_left in Hk. rewrite Hn in Hk. destruct (wi_header w); lia.
  - intros net' Hsteps Hre Hcnt. assert (hung_up n net') as Hup'.
    { clear Hn Hcl Hre Hcnt. induction Hsteps as [|a b c' Ht _ IH]; [done|]. apply IH. by eapply conn_turn_hung_up. }
    destruct (nt_conns net' !! n) as [[c' w']|] eqn:Hn'; [|by left]. right. eapply hung_up_turn; [done|by eapply Hup'|done..].
Qed.


(** ** An administrator shuts the server down *)

(** A whole request comes in on a connection and is carried out. *)
Definition ex_serve (n : nat) (r : Z * Z * bytes) (net : Net) : Net :=
  match nt_conns net !! n with
  | None => net
  | Some (c, w) =>
      match read_header (receive (encode_request r) w) with
      | Some (Some w) =>
          match @read_payload elements_order ex_external ex_codec ex_env c w (nt_shared net) with
          | Some (true, c, w, s) => mkNet s (<[n := (c, w)]> (nt_conns net))
          | Some (false, c, _, s) =>
              mkNet (@drop_connection elements_order ex_codec ex_env 0 c s) (delete n (nt_conns net))
          | None => net
          end
      | _ => net
      end
  end.

Definition ex_net_steps := rtc (@net_step elements_order ex_external ex_codec).

Lemma ex_serve_steps n r net :
  forallb (λ x, bool_decide (0 ≤ x < 256)) (encode_request r) = true →
  from_option (λ '(_, w), negb (wi_closed w) && bool_decide (wi_header w = None)) true (nt_conns net !! n) = true →
  cf_server_redirs (sv_config (nt_shared net)) = ∅ → counters_ok (nt_shared net) → ex_net_steps net (ex_serve n r net).
Proof.
  intros Hu Hw Hre Hcnt. apply Is_true_true, forallb_True in Hu. unfold ex_serve, ex_net_steps.
  destruct net as [s cs]. simpl in Hw, Hre, Hcnt. cbn [nt_conns nt_shared].
  destruct (cs !! n) as [[c w]|] eqn:Hn; [|done].
  apply andb_true_iff in Hw as [Hopen%negb_true_iff Hh%bool_decide_eq_true].
  destruct (read_header _) as [[w1|]|] eqn:Hr; [|done..].
  destruct (read_payload _ _ _ _) as [[[[goes_on c2] w2] s2]|] eqn:Hp; [|done].
  eapply rtc_l; [eapply (net_receive n c w s cs (encode_request r)); [done| |done]|].
  { eapply Forall_impl; [exact Hu|]. intros x. apply bool_decide_unpack. }
  eapply rtc_l; [eapply net_turn, turn_header; [apply lookup_insert_eq| |exact Hr]; done|].
  assert (redirs_ok (sv_config s)) as Hredirs by (intros ? ?; by rewrite Hre, lookup_empty).
  rewrite insert_insert_eq. apply rtc_once. destruct goes_on.
  - rewrite <- (insert_insert_eq cs n (c2, w2) (c, w1)). eapply net_turn, turn_command; [apply lookup_insert_eq|done..].
  - rewrite <- (delete_insert_eq cs n (c, w1)). eapply net_turn, turn_last_command; [apply lookup_insert_eq|done..].
Qed.

(** [bob], whom the configuration names as an administrator. *)
Definition ex_admin_config : Config := Config_new <| cf_admins_list := ["bob"%string] |>.
Definition ex_admin_started : res unit SharedData * Stored :=
  @Server_new elements_order ex_env ex_admin_config (Some []) ex_stored.
Definition ex_admin_shared : SharedData := match ex_admin_started.1 with Ok s => s | _ => no_rooms end.
Definition ex_bob_login : bytes := bytes_of_string "bob" ++ [0] ++ bytes_of_string "secret" ++ [0; 0].

(** Registering ends a connection, so he comes back. *)
Definition ex_connected (n : nat) (net : Net) : Net := mkNet (nt_shared net) (<[n := (Client_new [], Wire_new)]> (nt_conns net)).
Definition ex_start : Net := mkNet ex_admin_shared ∅.
Definition ex_registered : Net := ex_serve 0 (2, 1, ex_register) (ex_connected 0 ex_start).
Definition ex_entered : Net := ex_serve 1 (0, 1, ex_bob_login) (ex_connected 1 ex_registered).
Definition ex_terminated : Net := ex_serve 1 (257, 2, []) ex_entered.

Lemma ex_connected_step n net :
  nt_conns net !! n = None → sv_terminate (nt_shared net) = false → ex_net_steps net (ex_connected n net).
Proof. destruct net as [s cs]. simpl. intros Hn Ht. by apply rtc_once, net_accept. Qed.

Lemma ex_terminated_reachable : ex_net_steps ex_start ex_terminated.
Proof.
  trans (ex_connected 0 ex_start); [apply ex_connected_step; vm_compute; reflexivity|].
  trans ex_registered; [apply (ex_serve_steps 0 (2, 1, ex_register));
    [vm_compute; reflexivity..|apply counters_ok_empty; vm_compute; reflexivity]|].
  trans (ex_connected 1 ex_registered); [apply ex_connected_step; vm_compute; reflexivity|].
  trans ex_entered; [apply (ex_serve_steps 1 (0, 1, ex_bob_login));
    [vm_compute; reflexivity..|apply counters_ok_empty; vm_compute; reflexivity]|].
  apply (ex_serve_steps 1 (257, 2, [])); [vm_compute; reflexivity..|apply counters_ok_empty; vm_compute; reflexivity].
Qed.

Lemma requests_in_order_witness :
  ∃ c w, nt_conns ex_terminated !! 1%nat = Some (c, w) ∧ wi_served w = [(0, 1, ex_bob_login); (257, 2, [])] ∧
    wi_log w = (wi_served w ≫= encode_request) ++ awaited w ++ wi_unread w.
Proof.
  destruct (nt_conns ex_terminated !! 1%nat) as [[c w]|] eqn:Hn; [|by vm_compute in Hn].
  exists c, w. split; [done|]. split; [vm_compute in Hn; by injection Hn as <- <-|].
  apply (@requests_in_order elements_order ex_external ex_codec ex_admin_shared ex_terminated 1 c w);
    [exact ex_terminated_reachable|exact Hn].
Defined.


(** A client that hung up after a registration, and one that announced 8 MiB. *)
Definition ex_gone : Net :=
  mkNet ex_admin_shared {[0%nat := (Client_new [], receive (encode_request (2, 1, ex_register)) Wire_new <| wi_closed := true |>)]}.

Lemma closed_connection_ends_witness :
  (∃ net, @conn_turn elements_order ex_external ex_codec 0 ex_gone net) ∧
  ∀ k net, nsteps (@conn_turn elements_order ex_external ex_codec 0) k ex_gone net → (k ≤ 52)%nat.
Proof.
  destruct (@closed_connection_ends elements_order ex_external ex_codec ex_env 0 ex_gone (Client_new [])
    (receive (encode_request (2, 1, ex_register)) Wire_new <| wi_closed := true |>)) as [Hbound Hnext];
    [vm_compute; reflexivity|reflexivity|]. split; [|exact Hbound].
  destruct (Hnext ex_gone) as [Hn|Hturn]; [done|intros c d Hr; by vm_compute in Hr|
    apply counters_ok_empty; vm_compute; reflexivity|by vm_compute in Hn|exact Hturn].
Defined.

Definition ex_patient : Net :=
  mkNet ex_admin_shared {[0%nat := (Client_new [], receive (encode_header 0 8000000 1) Wire_new
                                    <| wi_unread := [] |> <| wi_header := Some (0, 8000000, 1) |>)]}.
Definition ex_outlived : Net :=
  ex_serve 1 (257, 2, []) (ex_serve 1 (0, 1, ex_bob_login) (ex_connected 1 (ex_serve 1 (2, 1, ex_register) (ex_connected 1 ex_patient)))).

Lemma ex_outlived_steps : ex_net_steps ex_patient ex_outlived.
Proof.
  trans (ex_connected 1 ex_patient); [apply ex_connected_step; vm_compute; reflexivity|].
  trans (ex_serve 1 (2, 1, ex_register) (ex_connected 1 ex_patient));
    [apply ex_serve_steps; [vm_compute; reflexivity..|apply counters_ok_empty; vm_compute; reflexivity]|].
  trans (ex_connected 1 (ex_serve 1 (2, 1, ex_register) (ex_connected 1 ex_patient)));
    [apply ex_connected_step; vm_compute; reflexivity|].
  trans (ex_serve 1 (0, 1, ex_bob_login) (ex_connected 1 (ex_serve 1 (2, 1, ex_register) (ex_connected 1 ex_patient))));
    apply ex_serve_steps; first [vm_compute; reflexivity|apply counters_ok_empty; vm_compute; reflexivity].
Qed.

