(* ===== verification/MessageRules.v ===== *)
(** * Replies, notifications and access

    What a client is sent: replies are framed with their true length and code
    whatever the handler appended; room messages reach members only; clients that
    have not logged in get nothing but a refusal. *)

From S2P Require Import ScoreCache Text Database Accounts Friendships DbScore DbTus Config DataFiles.
From S2P Require Import Prelude Protocol StreamExtractor Messages RoomData Room RoomManager RoomInv.
From S2P Require Import RoomReports RoomManagerInv RoomCreate RoomJoin RoomMachine GuiRoom GuiRoomManager.
From S2P Require Import GuiInv GuiMachine GuiRules GameTracker Matchmaking ClientState RoomCommands.
From S2P Require Import GuiCommands TusCommands ScoreCommands AccountCommands FriendCommands Dispatch.
From S2P Require Import CommandFrames CommandMoves ServerRules Departure.

(** ** Handlers only append to the reply *)

Definition appends {E A} (h : M Ctx E A) : Prop := ∀ cx, ∃ bs, cx_reply (h cx).2 = cx_reply cx ++ bs.

Create HintDb appends.

Section appends.
Lemma appends_bind {E A B} (m : M Ctx E A) (k : A → M Ctx E B) : appends m → (∀ a, appends (k a)) → appends (bind m k).
Proof.
  intros Hm Hk cx. specialize (Hm cx) as [bs Hbs]. unfold bind. destruct (m cx) as [[a|e|] cx1]; simpl in *; eauto.
  destruct (Hk a cx1) as [bs' Hbs']. exists (bs ++ bs'). by rewrite Hbs', Hbs, app_assoc.
Qed.

Lemma appends_same {E A} (h : M Ctx E A) : (∀ cx, cx_reply (h cx).2 = cx_reply cx) → appends h.
Proof. intros Hh cx. exists []. by rewrite Hh, app_nil_r. Qed.

Lemma appends_for_each {E B} (f : B → M Ctx E unit) xs : (∀ x, appends (f x)) → appends (for_each f xs).
Proof. intros Hf. induction xs; simpl; [by apply appends_same|]. by apply appends_bind. Qed.

Lemma appends_ignore_code {A} (h : H A) : appends h → appends (ignore_code h).
Proof. intros Hh cx. specialize (Hh cx). unfold ignore_code. by destruct (h cx) as [[] ?]. Qed.

Lemma appends_reply_packet bs : appends (reply_packet bs).
Proof. intros cx. unfold reply_packet, add_data_packet. eexists. reflexivity. Qed.

Lemma appends_extend_reply bs : appends (extend_reply bs).
Proof. intros cx. by exists bs. Qed.

Lemma appends_map_err {E E' A} (f : E → E') (h : M Ctx E A) : appends h → appends (map_err f h).
Proof. intros Hh cx. specialize (Hh cx). unfold map_err. by destruct (h cx) as [[] ?]. Qed.

Lemma appends_attempt {E E' A} (h : M Ctx E A) : appends h → appends (attempt (E' := E') h).
Proof. intros Hh cx. specialize (Hh cx). unfold attempt. by destruct (h cx) as [[] ?]. Qed.

Lemma appends_on_db {E A} (m : M Database E A) : appends (on_db m).
Proof. apply appends_same. intros cx. unfold on_db. by destruct (m _). Qed.

Lemma appends_on_scores {A} (m : SC A) : appends (on_scores m).
Proof. apply appends_same. intros cx. unfold on_scores. by destruct (m _). Qed.

Lemma appends_on_score_dir {E A} (m : M DataDir E A) : appends (on_score_dir m).
Proof. apply appends_same. intros cx. unfold on_score_dir. by destruct (m _). Qed.

Lemma appends_on_tus_dir {E A} (m : M DataDir E A) : appends (on_tus_dir m).
Proof. apply appends_same. intros cx. unfold on_tus_dir. by destruct (m _). Qed.

Lemma appends_with_exits {A} (m : M Ctx Exit A) (k : A → Handler) :
  appends m → (∀ a, appends (k a)) → appends (with_exits m k).
Proof.
  intros Hm Hk cx. specialize (Hm cx) as [bs Hbs]. unfold with_exits. destruct (m cx) as [[a|e|] cx1]; simpl in *; eauto.
  destruct (Hk a cx1) as [bs' Hbs']. exists (bs ++ bs'). by rewrite Hbs', Hbs, app_assoc.
Qed.

Lemma appends_map_each {E B C} (f : B → M Ctx E C) xs : (∀ x, appends (f x)) → appends (map_each f xs).
Proof.
  intros Hf. induction xs; simpl; [by apply appends_same|].
  apply appends_bind; [done|]. intros ?. apply appends_bind; [done|]. intros ?. by apply appends_same.
Qed.

Lemma appends_read_data {A} (f : StreamExtractor → A * StreamExtractor) : appends (read_data f).
Proof. apply appends_same. intros cx. unfold read_data. by destruct (f _). Qed.

Lemma appends_read_pb {T} `{Message T} : appends (read_pb (T := T)).
Proof. apply appends_same. intros cx. unfold read_pb. by destruct (get_pb _ _). Qed.

Lemma appends_on_rooms {A} (m : RM A) : appends (on_rooms m).
Proof. apply appends_same. intros cx. by rewrite on_rooms_snd. Qed.

Lemma appends_on_gui {A} (m : GM A) : appends (on_gui m).
Proof. apply appends_same. intros cx. by rewrite on_gui_snd. Qed.
End appends.
#[export] Hint Resolve appends_reply_packet appends_extend_reply appends_read_data appends_read_pb
  appends_on_rooms appends_on_gui appends_on_db appends_on_scores appends_on_score_dir appends_on_tus_dir : appends.

Ltac appends_step :=
  first
    [ assumption
    | solve [eauto with appends nocore]
    | apply appends_bind; [|intros ?]
    | apply appends_for_each; intros ?
    | apply appends_ignore_code | apply appends_map_err | apply appends_attempt
    | apply appends_with_exits; [|intros ?] | apply appends_map_each; intros ?
    | apply appends_same; done
    | case_match ].
Ltac appends := repeat appends_step.

Lemma appends_get_com_id_with_redir : appends (get_com_id_with_redir).
Proof. unfold get_com_id_with_redir. appends. Qed.
#[export] Hint Resolve appends_get_com_id_with_redir : appends.

Lemma appends_get_com_and_pb {T} `{Message T} : appends (get_com_and_pb (T := T)).
Proof. unfold get_com_and_pb. appends. Qed.
#[export] Hint Resolve appends_get_com_and_pb : appends.

Lemma appends_check_data : appends check_data.
Proof. unfold check_data. appends. Qed.

Lemma appends_get_database_connection env : appends (get_database_connection env).
Proof. unfold get_database_connection. appends. Qed.
#[export] Hint Resolve appends_check_data appends_get_database_connection : appends.

Section handlers.
Context `{!HashOrder} `{!RoomCodec} `{!GuiCodec} (env : Env).

Lemma appends_client_leave_room c id opt cause : appends (client_leave_room env c id opt cause).
Proof. unfold client_leave_room. appends. Qed.

Lemma appends_client_leave_room_gui id : appends (client_leave_room_gui env id).
Proof. unfold client_leave_room_gui, caller. appends. Qed.
#[local] Hint Resolve appends_client_leave_room appends_client_leave_room_gui : appends.

Lemma appends_room_handler command h : room_handler env command = Some h → appends h.
Proof.
  destruct command; simpl; intros Heq; try discriminate; injection Heq as <-.
  - unfold reset_state, clean_user_state. appends.
  - unfold req_create_room, get_database_connection. appends.
  - unfold req_join_room, send_join_notification. appends.
  - unfold req_leave_room. appends.
  - unfold req_search_room, reply_or_fail, read_rooms. appends.
  - unfold req_get_roomdata_external_list, reply_or_fail, read_rooms. appends.
  - unfold req_set_roomdata_external. appends.
  - unfold req_get_roomdata_internal, reply_or_code, read_rooms. appends.
  - unfold req_set_roomdata_internal, notify_update. appends.
  - unfold req_get_roommemberdata_internal, reply_or_code, read_rooms. appends.
  - unfold req_set_roommemberdata_internal, notify_update. appends.
  - unfold req_ping_room_owner, reply_or_code, read_rooms, check_data. appends.
  - unfold req_send_room_message. appends.
  - unfold req_create_room_gui, caller. appends.
  - unfold req_join_room_gui, caller, reply_joined. appends.
  - unfold req_leave_room_gui. appends.
  - unfold req_get_room_list_gui, read_gui. appends.
  - unfold req_set_room_search_flag_gui, code_of. appends.
  - unfold req_get_room_search_flag_gui, read_gui, reply_or_code. appends.
  - unfold req_set_room_info_gui, code_of. appends.
  - unfold req_get_room_info_gui, read_gui, reply_or_code. appends.
  - unfold req_quickmatch_gui, caller. appends.
  - unfold req_searchjoin_gui, caller, reply_joined. appends.
  - unfold req_get_room_member_data_external_list, check_data, read_rooms, reply_or_code. appends.
  - unfold req_search_room_all, reply_or_fail, read_rooms. appends.
Qed.

End handlers.

Section services.
Context `{!HashOrder} `{!External} `{!ServerCodec} (env : Env).

Lemma appends_author_name id : appends (author_name id).
Proof. unfold author_name. appends. Qed.

Lemma appends_lookup_user npid : appends (lookup_user npid).
Proof. unfold lookup_user. appends. Qed.
#[local] Hint Resolve appends_author_name appends_lookup_user : appends.

Lemma appends_tus_helpers :
  (∀ npid, appends (own_user npid)) ∧ (∀ v, appends (final_variable v)) ∧ (∀ v, appends (final_status v)) ∧
  (∀ npid v, appends (reply_variable npid v)) ∧ (∀ npid r, appends (reply_data env npid r)) ∧
  (∀ check ts author data set_row, appends (store_data env check ts author data set_row)) ∧
  (∀ s, appends (compare_author_id s)).
Proof.
  split_and!; intros.
  - unfold own_user. appends.
  - unfold final_variable. appends.
  - unfold final_status. appends.
  - unfold reply_variable. appends.
  - unfold reply_data. appends.
  - unfold store_data, preliminary_set_tus_data_check. appends.
  - unfold compare_author_id. appends.
Qed.

Lemma appends_service_handler command h : service_handler env command = Some h → appends h.
Proof.
  destruct appends_tus_helpers as (Hu & Hv & Hs & Hrv & Hrd & Hsd & Hca).
  destruct command; simpl; intros Heq; try discriminate; injection Heq as <-.
  - unfold add_friend, other_user, request_friend, own_info, update_shared_info, is_online. appends.
  - unfold remove_friend, other_user, end_friendship, own_info, update_shared_info. appends.
  - unfold add_block. appends.
  - unfold remove_block. appends.
  - unfold req_get_server_list. appends.
  - unfold req_get_world_list. appends.
  - unfold req_set_userinfo, is_online, update_shared_info. appends.
  - unfold req_signaling_infos, own_info. appends.
  - unfold req_ticket, own_info. appends.
  - unfold send_message, own_info. appends.
  - unfold client_get_board_infos, create_missing. appends.
  - unfold client_record_score, create_missing. appends.
  - unfold client_record_score_data. appends.
  - unfold client_get_score_data. appends.
  - unfold client_get_score_range, reply_scores. appends.
  - unfold client_get_score_friends, reply_scores. appends.
  - unfold client_get_score_npid, reply_scores. appends.
  - unfold get_network_time. appends.
  - unfold tus_set_multislot_variable, required_user. appends.
  - unfold tus_get_multislot_variable, required_user, read_variable. appends.
  - unfold tus_get_multiuser_variable, read_variable. appends.
  - unfold tus_get_friends_variable, friend_list, get_username_with_helper. appends.
  - unfold tus_add_and_get_variable, required_user, at_most_one. appends.
  - unfold tus_try_and_set_variable, required_user, at_most_one. appends.
  - unfold tus_delete_multislot_variable. appends.
  - unfold tus_set_data, required_user, at_most_one. appends.
  - unfold tus_get_data, required_user. appends.
  - unfold tus_get_multislot_data_status, required_user, read_status. appends.
  - unfold tus_get_multiuser_data_status, read_status. appends.
  - unfold tus_get_friends_data_status, friend_list, get_username_with_helper. appends.
  - unfold tus_delete_multislot_data, required_user. appends.
  - unfold set_presence, own_info, notify_presence, change_presence, write_cut, write_presence, update_shared_info. appends.
  - unfold req_admin_update_domain_bans, check_admin. appends.
  - unfold req_admin_terminate_server, check_admin. appends.
  - unfold req_admin_update_servers_cfg, check_admin. appends.
  - unfold req_admin_ban_user, check_admin, update_shared_info. appends.
  - unfold req_admin_del_user, check_admin, is_online. appends.
Qed.

Lemma appends_login_handler command h : login_handler env command = Some h → appends h.
Proof.
  destruct command; simpl; intros Heq; try discriminate; injection Heq as <-.
  - unfold login, login_checked. appends.
  - unfold create_account, send_mail. appends.
  - unfold delete_account. appends.
  - unfold resend_token, send_mail. appends.
  - unfold send_reset_token, send_mail. appends.
  - unfold reset_password. appends.
Qed.

Lemma appends_process_command command : appends (process_command env command).
Proof.
  unfold process_command, session_handler. pose proof (appends_room_handler env command) as Hr.
  pose proof (appends_service_handler command) as Hs. pose proof (appends_login_handler command) as Hl.
  destruct command; try (apply appends_bind; [by apply appends_same|intros [] ]);
    (destruct (room_handler env _) || destruct (login_handler env _) || idtac); 
    try (destruct (service_handler env _)); simpl; eauto; by apply appends_same.
Qed.
End services.

(** ** Replies *)

(** Patching the length and the code into what the handler left gives the framed
    reply. *)
Lemma patched_reply command packet_id code body :
  let reply := reply_start command packet_id ++ body in
  update_at (Z.to_nat HEADER_SIZE) [error_discr code]
    (update_at 3 (to_le_bytes 4 (wrap_u32 (Z.of_nat (length reply)))) reply) =
  build_reply command packet_id code body.
Proof.
  simpl. unfold build_reply, update_at. simpl.
  replace (Z.of_nat (S (S _))) with (HEADER_SIZE + 1 + Z.of_nat (length body)); [done|].
  unfold HEADER_SIZE. lia.
Qed.



(** ** Access *)

(** The commands before login (with [Terminate]), and those of administrators. *)
Definition is_login_command (command : Command.CommandType) : bool :=
  match command with
  | Command.Terminate | Command.Login | Command.Create | Command.Delete | Command.SendToken
  | Command.SendResetToken | Command.ResetPassword => true
  | _ => false
  end.

Definition is_admin_command (command : Command.CommandType) : bool :=
  match command with
  | Command.UpdateDomainBans | Command.TerminateServer | Command.UpdateServersCfg | Command.BanUser | Command.DelUser => true
  | _ => false
  end.

(** What a client may send in its state. *)
Definition permitted (c : Client) (command : Command.CommandType) : bool :=
  if cl_authentified c then negb (is_admin_command command) || ci_admin (cl_client_info c)
  else is_login_command command.

(** C23: a client that has not logged in is answered [Invalid] to any known command but
    the six of the login stage (and [Terminate]), and so is a client without administrator
    rights to the commands of administrators; the reply has an empty body, the connection
    ends, and nothing of the server's state changes. *)
Theorem forbidden_refused `{!HashOrder} `{!External} `{!ServerCodec} env command parsed packet_id data c s :
  cl_post_reply_notifications c = [] → Command.command_from_u16 command = Some parsed → permitted c parsed = false →
  interpret_command env command packet_id data c s =
    (Some ([build_reply command packet_id Invalid []], false), c, s).
Proof.
  intros Hn Hp Hb. unfold interpret_command. rewrite Hp.
  assert (∀ cx, cx_client cx = c → process_command env parsed cx = (Err Invalid, cx)) as Hr.
  { intros cx <-. unfold permitted in Hb. unfold process_command, bind, gets. destruct (cl_authentified (cx_client cx)) eqn:Ha.
    - destruct parsed; try discriminate Hb; unfold session_handler; simpl;
        unfold req_admin_update_domain_bans, req_admin_terminate_server, req_admin_update_servers_cfg, req_admin_ban_user,
          req_admin_del_user, check_admin, bind, gets; simpl in Hb;
        rewrite Ha; simpl; by rewrite Hb.
    - destruct parsed; try discriminate Hb; by rewrite Ha. }
  rewrite Hr by done. pose proof (patched_reply command packet_id Invalid []) as Hpr. rewrite app_nil_r in Hpr.
  cbn [cx_reply cx_client cx_shared]. rewrite Hpr, Hn. destruct c; simpl in *. by rewrite Hn.
Qed.

Lemma forbidden_refused_witness :
  @interpret_command elements_order ex_external ex_codec ex_env 14 3 ex_payload (Client_new []) no_rooms
    = (Some ([build_reply 14 3 Invalid []], false), Client_new [], no_rooms).
Proof.
  apply (@forbidden_refused elements_order ex_external ex_codec ex_env 14 Command.CreateRoom 3 ex_payload (Client_new []) no_rooms);
    [reflexivity|vm_compute; reflexivity|reflexivity].
Defined.

(** ** Room messages *)

Section messages.
Context `{!HashOrder} `{!RoomCodec}.

Definition connected (s : SharedData) (u : Z) : Prop := is_Some (sv_client_infos s !! u).

(** A notification is queued once for each connected recipient. *)
Lemma send_notification_eq notif ids cx :
  send_notification notif ids cx =
    (Ok tt, cx <| cx_shared ::= (λ s, s <| sv_sent ::= (λ l,
       l ++ ((λ u, (u, notif)) <$> filter (connected (cx_shared cx)) (hash_iter ids))) |>) |>).
Proof.
  unfold send_notification, on_shared, modify. f_equal. destruct cx as [c s d rep]. simpl. f_equal.
  generalize (hash_iter ids) as l. intros l. revert s. induction l as [|u l IH]; intros s; simpl.
  - rewrite app_nil_r. by destruct s.
  - rewrite IH. unfold send_single_notification, connected. rewrite filter_cons.
    case_bool_decide as Hu; [rewrite decide_True by done|by rewrite decide_False by done].
    destruct s. simpl. by rewrite <- app_assoc.
Qed.

Lemma cast_targets_spec room uid dst u :
  u ∈ (cast_targets (get_room_users room) uid dst).1 ↔
  u ≠ uid ∧ ∃ mid m, r_users room !! mid = Some m ∧ u_user_id m = u ∧
    match dst with None => True | Some d => mid ∈ d end.
Proof.
  unfold cast_targets. simpl. rewrite elem_of_list_to_set, list_elem_of_filter, list_elem_of_fmap.
  apply and_iff_compat_l. unfold get_room_users. split.
  - intros ([mid u'] & -> & Hin). destruct dst as [d|]; [apply list_elem_of_filter in Hin as [Hd Hin]|];
      apply elem_of_map_to_list in Hin; rewrite lookup_fmap, fmap_Some in Hin;
      destruct Hin as (m & Hm & ->); by exists mid, m.
  - intros (mid & m & Hm & <- & Hd). exists (mid, u_user_id m). split; [done|].
    assert ((mid, u_user_id m) ∈ map_to_list (u_user_id <$> r_users room)).
    { apply elem_of_map_to_list. by rewrite lookup_fmap, Hm. }
    destruct dst; [|done]. by apply list_elem_of_filter.
Qed.

(** The recipients are other members of a room the sender is in; a broadcast
    reaches all of them that are connected. *)
Definition message_post (cx : Ctx) (r : res ErrorType ErrorType) (cx' : Ctx) : Prop :=
  ∃ new, sv_sent (cx_shared cx') = sv_sent (cx_shared cx) ++ new ∧ NoDup new.*1 ∧
    same_rooms cx cx' ∧ r ≠ Panic ∧ (r ≠ Ok NoError → new = []) ∧
    (r = Ok NoError → ∃ c req bs room, decode_message bs = Some req ∧
       rm_rooms (rooms_of cx) !! (c, srm_room_id req) = Some room ∧ in_room room (user_id cx) ∧
       (∀ u n, (u, n) ∈ new → in_room room u ∧ u ≠ user_id cx) ∧
       (srm_cast_type req = new_from_value 1 → ∀ u, in_room room u → u ≠ user_id cx →
          connected (cx_shared cx) u → u ∈ new.*1)).

Lemma message_refused cx r cx' :
  same_rooms cx cx' → sv_sent (cx_shared cx') = sv_sent (cx_shared cx) → r ≠ Panic → r ≠ Ok NoError →
  message_post cx r cx'.
Proof. intros Hs E Hp Hr. exists []. rewrite app_nil_r. split_and!; try done. by constructor. Qed.

(** A cast to the members of [dst] that is answered with [NoError]. *)
Lemma message_sent cx c req bs room dst notif cx1 cx2 :
  same_rooms cx cx1 → sv_sent (cx_shared cx1) = sv_sent (cx_shared cx) →
  sv_client_infos (cx_shared cx1) = sv_client_infos (cx_shared cx) →
  decode_message bs = Some req → rm_rooms (rooms_of cx) !! (c, srm_room_id req) = Some room →
  in_room room (user_id cx) → (srm_cast_type req = new_from_value 1 → dst = None) →
  (send_notification notif (cast_targets (get_room_users room) (user_id cx) dst).1 cx1).2 = cx2 →
  ∀ cx', same_rooms cx2 cx' → sv_sent (cx_shared cx') = sv_sent (cx_shared cx2) → message_post cx (Ok NoError) cx'.
Proof.
  intros Hs1 Es1 Ei1 Hbs Hroom Hin Hdst Ecx2 cx' Hs' Es'. pose proof (cast_targets_spec room (user_id cx) dst) as Hids.
  revert Ecx2 Hids. generalize (cast_targets (get_room_users room) (user_id cx) dst).1 as ids. intros ids <- Hids.
  rewrite send_notification_eq in Hs', Es'. eexists. rewrite Es'. simpl. rewrite Es1.
  split; [reflexivity|]. rewrite <- list_fmap_compose. simpl. split_and!; [| |done|done|].
  - change (NoDup ((λ u : Z, u) <$> filter (connected (cx_shared cx1)) (hash_iter ids))). rewrite list_fmap_id.
    apply NoDup_filter. rewrite hash_iter_perm. apply NoDup_elements.
  - etransitivity; [exact Hs1|exact Hs'].
  - intros _. exists c, req, bs, room. split_and!; try done.
    + intros u n (u' & [= -> ->] & [_ Hu]%list_elem_of_filter)%list_elem_of_fmap.
      rewrite hash_iter_perm, elem_of_elements in Hu. apply Hids in Hu as (Hne & mid & m & Hm & <- & _).
      split; [|done]. apply in_room_member. eauto.
    + intros Hb u (mid & m & Hm & <-)%in_room_member Hne Hc. apply list_elem_of_fmap. eexists. split; [done|].
      apply list_elem_of_filter. unfold connected in *. rewrite Ei1. split; [done|].
      rewrite hash_iter_perm. apply elem_of_elements, Hids. rewrite (Hdst Hb). split; [done|]. eauto.
Qed.
End messages.

Lemma get_com_and_pb_frame {T} `{Message T} cx :
  wp (get_com_and_pb (T := T)) cx (λ r cx', same_rooms cx cx' ∧
    sv_sent (cx_shared cx') = sv_sent (cx_shared cx) ∧
    sv_client_infos (cx_shared cx') = sv_client_infos (cx_shared cx) ∧
    match r with
    | Ok (c, req) => ∃ bs, decode_message bs = Some req
    | Err e => e = Malformed
    | Panic => False
    end).
Proof.
  assert (∀ se pb se', get_pb (decode_message (T := T)) se = (pb, se') →
    match pb with Ok req => ∃ bs, decode_message bs = Some req | Err e => e = Malformed | Panic => False end) as Hpb.
  { intros se pb se'. unfold get_pb, get_protobuf. destruct (get_uint 4 se) as [n se1].
    case_bool_decide; [by intros [= <- <-]|]. intros [= <- <-]. simpl. destruct (se_error se1); [done|].
    destruct (decode_message _) eqn:E; simpl; eauto. }
  unfold wp, get_com_and_pb, get_com_id_with_redir, read_data, bind. destruct (get_com_id (cx_data cx)) as [c se].
  simpl. destruct (cl_current_game (cx_client cx)).1; simpl; [case_bool_decide; simpl|];
    unfold read_pb; simpl;
    match goal with |- context [get_pb _ ?se0] => specialize (Hpb se0); destruct (get_pb _ se0) as [pb se1] end;
    specialize (Hpb _ _ eq_refl); destruct pb; simpl; done.
Qed.

Section message_claim.
Context `{!HashOrder} `{!RoomCodec} (env : Env).

Lemma verified_u8_no_panic (v : option Uint8) : get_verified v ≠ Panic.
Proof. apply (verified_no_panic (P := Uint8) (bits := 8)). Qed.

Lemma req_send_room_message_spec cx : wp req_send_room_message cx (message_post cx).
Proof.
  unfold req_send_room_message. apply wp_bind. eapply wp_mono; [|apply get_com_and_pb_frame].
  intros r cx1 (Hs & Es & Ei & Hr).
  assert (∀ (r : res ErrorType ErrorType), r ≠ Panic → r ≠ Ok NoError → message_post cx r cx1) as Hno
    by (intros; by apply message_refused).
  destruct r as [[c req]|e|]; [|by apply Hno|done]. destruct Hr as [bs Hbs]. cbv beta iota.
  apply wp_bind, wp_lift.
  assert (res_map_list get_verified (srm_dst req) ≠ Panic) as Hnp.
  { apply res_map_list_no_panic. intros x _. exact (verified_no_panic (P := Uint16) (bits := 16) (Some x)). }
  destruct (res_map_list get_verified (srm_dst req)) as [dst| |]; [|by apply Hno|done]. clear Hnp.
  pose proof Hs as (Er & _ & Einfo & _).
  apply wp_bind, wp_gets, wp_bind, wp_gets. unfold room_exists, get_room. rewrite Er.
  assert (user_id cx1 = user_id cx) as -> by (unfold user_id; by rewrite Einfo).
  destruct (rm_rooms (rooms_of cx) !! (c, srm_room_id req)) as [room|] eqn:Hroom;
    [rewrite bool_decide_true by eauto|rewrite bool_decide_false by (by intros [? ?])]; cbn [negb];
    [|apply wp_ret; by apply Hno].
  apply wp_bind, wp_lift. cbn [unwrap].
  unfold get_member_id. destruct (first_member room (user_id cx)) as [mid|] eqn:Hf; cbn [ok_or];
    [|apply wp_ret; by apply Hno].
  apply first_member_Some in Hf as (m & Hm & Huid).
  assert (in_room room (user_id cx)) as Hin by (apply in_room_member; eauto).
  apply wp_bind, wp_lift. pose proof (verified_u8_no_panic (srm_cast_type req)) as Hnp.
  destruct (get_verified (srm_cast_type req)) as [cast| |] eqn:Hcast; [|by apply Hno|done]. clear Hnp.
  apply wp_bind, wp_lift. pose proof (verified_u8_no_panic (srm_option req)) as Hnp.
  destruct (get_verified (srm_option req)) as [opt| |] eqn:Hopt; [|by apply Hno|done]. clear Hnp.
  apply wp_bind, wp_gets.
  match goal with |- context [send_notification ?n] => set (notif := n) end.
  case_bool_decide as H1'; [|destruct (bool_decide (cast = 2) || bool_decide (cast = 3))].
  - apply wp_bind. unfold wp at 1.
    pose proof (message_sent cx c req bs room None notif cx1 _ Hs Es Ei Hbs Hroom Hin (λ _, eq_refl) eq_refl) as Hend.
    rewrite send_notification_eq in *. simpl. apply wp_bind, wp_modify, wp_ret. by apply Hend.
  - apply wp_bind. unfold wp at 1.
    assert (srm_cast_type req = new_from_value 1 → Some dst = None) as Hd.
    { intros E. rewrite E in Hcast. vm_compute in Hcast. congruence. }
    pose proof (message_sent cx c req bs room (Some dst) notif cx1 _ Hs Es Ei Hbs Hroom Hin Hd eq_refl) as Hend.
    rewrite send_notification_eq in *. simpl. apply wp_bind. case_match.
    + apply wp_modify, wp_ret. by apply Hend.
    + apply wp_ret, wp_ret. by apply Hend.
  - case_bool_decide; [apply wp_ret|apply wp_fail]; by apply Hno.
Qed.
End message_claim.


(** ** Rematch pairs *)

(** The pair a departure registers is lost on the opponent.  [alice] leaves the
    room she shares with [bob]: her connection's table holds both directions of the
    pair.  When [bob] then leaves the room he is alone in, his own connection's table is still
    empty, so nothing is registered and his next search is an ordinary one. *)
Theorem rematch_tables_not_shared :
  let leave := @client_leave_room elements_order ex_room_codec ex_env ex_com 1 None Event.CauseLeaveAction in
  let alice := (leave (ex_ctx 7 "alice")).2 in
  let bob := (leave ((ex_ctx 8 "bob") <| cx_shared := cx_shared alice |>)).2 in
  cl_rematch_pairs (cx_client alice) !! "bob" = Some ("alice", 0) ∧
  cl_rematch_pairs (cx_client alice) !! "alice" = Some ("bob", 0) ∧
  rm_rooms (rooms_of bob) = ∅ ∧ cl_rematch_pairs (cx_client bob) = ∅.
Proof. vm_compute. split_and!; reflexivity. Qed.
